(* ===== verification/_CoqProject ===== *)
-Q . S2P
Prelude.v
JsNumber.v
MultiverseStore.v
EventLoop.v
Watch.v
SequencerSpec.v
AppShell.v
SingularityScene.v
Cursor.v
Portal.v
Sound.v
World.v
JsMath.v
Three.v
Hero.v
Debris.v
ComicScene.v
DataScene.v
Web3Scene.v
ProjectData.v
Scenes.v
Shader.v
Page.v
