(* ===== verification/Prelude.v ===== *)
(** * Portfolio Multiverse: a verification development

    The program is a React / three.js single-page site.  One global zustand
    store ([src/src/store/multiverseStore.ts]) holds the active timeline,
    the normalised pointer, the transition flag, the cursor influence and
    the sound toggle.  [App.tsx] installs the pointer tracker and puts one
    of four scenes on the canvas.  The undecided scene [Singularity.tsx]
    classifies the pointer, shows [HeroObject.tsx] (whose material runs
    the programs of [shaders/heroShader.ts]), [DebrisField.tsx] and
    [Effects/GlitchEffect.tsx], and commits a timeline on a click; the
    scenes [timelines/TimelineData.tsx], [TimelineComic.tsx] and
    [TimelineWeb3.tsx] animate themselves frame by frame.  Beside the
    canvas, [UI/MultiverseWatch.tsx] runs the timed three-phase switch
    with two nested [setTimeout] calls, [PortalTransition.tsx] and
    [UI/RealityAnchor.tsx] derive the overlay and the cursor from the
    store, and [Sound/SoundController.tsx] builds a Web Audio graph for
    the active timeline.  [PROJECT_DATA_EXAMPLE.ts] is a template of
    content.

    ** Files, in dependency order

    - [Prelude] (this file): the tactics and the hint database [mv], a
      generic labelled transition system (traces, reachability, inductive
      invariants, executable runs that refine a step relation) and the
      counted loop [for_range] with its invariant rule.
    - [JsNumber]: the interface [JsNum] of JavaScript's number type with
      the instances [float64] (the kernel's IEEE-754 binary64, what the
      program computes with; it evaluates by [vm_compute]) and [xnum]
      (exact rationals with the infinities and [NaN]); [Math.max], [lerp]
      and decimal literals.
    - [MultiverseStore], [Module Store]: the record [MultiverseState], its
      initial value and the five mutators of [multiverseStore.ts].
    - [EventLoop], [Module Timers]: the timer queue of the host as
      [setTimeout] uses it, with its well-formedness invariant.
    - [Watch], [Module MultiverseWatch]: [handleTimelineSwitch], the two
      timer callbacks, the loop that runs due timers ([tick], [elapse],
      [drain]) and the rendered buttons.
    - [SequencerSpec], [Module Sequencer]: the three-phase machine the
      switch is meant to be, the abstraction [abs] from environments to
      phases, and the simulations in both directions.
    - [AppShell], [Module App]: [handleMouseMove], [renderTimeline] and
      the returned tree of [App.tsx].
    - [SingularityScene], [Module Singularity]: the classifier
      [dominantTimeline], the frame callback, [handleCommit] and the props
      of the returned tree.
    - [Cursor], [Module RealityAnchor]; [Portal], [Module
      PortalTransition]; [Sound], [Module SoundController]: the three
      overlays, each with its state, effect or handler, and view.
    - [World], [Module World]: the store, the timers, the overlays and the
      singularity scene as one transition system over the events the host
      delivers, with the invariant of its reachable states.
    - [JsMath]: [Math.sin], [Math.cos] and [Math.PI] as the class
      [JsMath]; the real numbers as a third number instance ([real_num],
      [real_math]); [Math.random] as reads from a tape, a state monad
      [Rand] over the position on the tape.
    - [Three], [Module Three]: what the scenes use of three.js and
      react-three-fiber: objects with a position and a rotation, JSX
      trees ([Element]), the objects behind refs after a commit
      ([mount]), and [renderable], the shape of a tree that can be drawn.
    - [Hero], [Module HeroObject] and [Module GlitchEffect]: the reshaped
      icosahedron, the uniforms and their easing per frame, the tree; the
      effect passes as a function of the intensity.
    - [Debris], [Module DebrisField]: the random debris data,
      [animateDebris] with its loop and null guard, the frame callback,
      [getOpacity] and the tree.
    - [ComicScene], [DataScene], [Web3Scene] ([Module TimelineComic],
      [TimelineData], [TimelineWeb3]): each scene's frame callback, its
      loops over refs and buffers, and its tree.
    - [ProjectData], [Module Projects]: the data of
      [PROJECT_DATA_EXAMPLE.ts] and the filter and map of its usage
      comment.
    - [Scenes], [Module Canvas]: the tree of the selected scene with the
      child components of the singularity scene expanded, the refs of
      the mounted components, and a frame as the calls of their
      callbacks.
    - [Shader], [Module HeroShader]: the vertex and the fragment program
      of [heroShader.ts], block by block, over the built-in functions of
      GLSL they call.
    - [Page], [Module Page]: the system of [World] together with the refs
      of the mounted scene, the local state of the sound component, the
      clock of the render loop and the position on the tape of draws; an
      event runs the handlers and the frame callbacks, then the effects
      and the mounting of the commit.

    ** Conventions

    - A React component is a [Module] named after it.  Its handlers and
      callbacks are functions on the store and on the component's refs or
      local state; a ref that is [null] before the commit is an [option];
      code that can throw returns an [option].
    - The overlays render to small view records that keep what depends
      on state; the scenes render to [Three.Element] trees that keep
      every tag, attribute and child of the JSX.
    - [state.clock.elapsedTime] and [delta] are arguments of a frame
      callback; a run of frames is a list of such pairs, or a count at a
      steady frame length.
    - Time of timers is in milliseconds, a value of [N].  The next timer
      to run is the one with the least due time, the earliest registered
      among equals.
    - Definitions are made for every number instance.  Theorems on
      structure and control flow are proved for every instance; equations
      and bounds of arithmetic are proved over exact rationals ([xnum])
      or, where sines and cosines occur, over the reals; the facts that
      are peculiar to doubles are evaluated on [float64].
    - Every definition that models code is listed in the manifest with
      the lines it translates.

    ** What the theorems show

    - The switch ([Watch], [SequencerSpec]): its three phases at 0, 300
      and 800 ms; the timer loop always ends with the flag down; the code
      and the three-phase machine simulate each other from rest; a
      request during a transition leaves the machine.
    - The page ([World]): an invariant of every reachable state; the
      singularity is never re-entered; no switch starts while undecided;
      the overlay shows the style of the outgoing timeline.
    - The pointer and the classifier ([AppShell], [SingularityScene],
      [Cursor]): the normalised pointer and its range, the regions of the
      classifier, the agreement of its three copies.
    - The sound ([Sound]): the oscillators tracked after every commit, the
      ones that are never stopped, and the termination of the pulse loops
      with their lengths.
    - The scenes ([Hero], [Debris], [ComicScene], [DataScene],
      [Web3Scene]): closed forms of what [n] frames do, the ranges the
      animated values stay in, and which of them follow the time and
      which the number of frames.
    - The canvas ([Scenes]): every tree that reaches the canvas can be
      drawn; no frame throws; the frames leave the store alone but for
      [cursorInfluence]; the hero's uniforms follow the pointer.
    - The shader ([Shader]): the displacement of a vertex is bounded; the
      styles are on only where the classifier names their timeline; the
      order of the two assignments of the RGB split.
    - The whole page ([Page]): its reachable states project to those of
      [World]; the mounted scene is always the selected one; while sound
      is enabled the tracked oscillators are those of the active
      timeline's soundscape; the canvas and the sound never make an event
      fail.
    - The data ([ProjectData]): the example projects are well formed and
      their ids distinct.

    ** Bounds and fuel

    - [MultiverseWatch.drain] takes fuel; [work env] callbacks suffice
      for every well-formed environment ([drain_terminates]).
    - The pulse loops of the soundscapes, [for (t = 0; t < 60; t += step)],
      have no bound in the source.  [SoundController.for_lt] takes fuel
      and fails when it runs out; 601 iterations suffice in exact
      arithmetic (over the rationals and over the reals) and 1000 in
      doubles for every step the source uses ([loops_exact],
      [commit_returns], [Page.loops_finish_real]).
    - The loops of the scenes are counted ([for_range], [rand_loop]) with
      the counts of the source: 50 debris instances, 5000 particles, 20
      dots per panel.  Their theorems hold for every index below the
      count and are proved without running the loops.
    - A witness evaluates its theorem on concrete refs; the witnesses over
      the reals are instances by proof, since real arithmetic does not
      compute.

    ** Not modelled

    - The rendering itself: WebGL, the camera matrices, the quaternion
      and the 4x4 entries of an instance matrix, the passes of the
      post-processing library, CSS and fonts.
    - The rounding of single precision: a [Float32Array] and the
      arithmetic of the GPU hold numbers of the instance.
    - The generator behind [Math.random]: a tape is any sequence of
      numbers, [unit_tape] where its range matters.
    - [computeVertexNormals] and the vertices of
      [THREE.IcosahedronGeometry]: the vertices are an argument.
    - The build configuration ([tailwind.config.js], [vite.config.ts]),
      read by the tools at build time only. *)

From Stdlib Require Export ZArith NArith Lia Bool.
From stdpp Require Export base tactics decidable option list strings.

Declare Scope mv_scope.
Delimit Scope mv_scope with mv.

Create HintDb mv discriminated.
Create Rewrite HintDb mv.

(** ** Tactics *)

(** Case analysis on the scrutinee of the first [match] or [if] of the
    goal, remembering the equation. *)
Ltac case_scrutinee :=
  match goal with
  | |- context [match ?x with _ => _ end] =>
      let E := fresh "E" in destruct x eqn:E
  end.

(** Close a decidable closed goal by evaluation. *)
Ltac by_compute := apply (bool_decide_unpack _); vm_compute; exact I.

(** ** Labelled transition systems

    The whole application is a transition system whose labels are the
    events of the page (pointer moves, clicks, frames, timers).  This
    section holds what every such system shares. *)

Section Lts.
Context {State Label : Type}.
Variable step : State → Label → State → Prop.

(** A finite trace of labelled steps. *)
Inductive steps : State → list Label → State → Prop :=
| steps_nil s : steps s [] s
| steps_cons s l s' ls s'' :
    step s l s' → steps s' ls s'' → steps s (l :: ls) s''.

Definition reachable (init s : State) : Prop := ∃ ls, steps init ls s.

(** [I] is preserved by every step. *)
Definition preserved (I : State → Prop) : Prop :=
  ∀ s l s', I s → step s l s' → I s'.

(** An executable step function is sound for the relation when every
    step it takes is a step of the relation. *)
Definition sound (exec : Label → State → option State) : Prop :=
  ∀ l s s', exec l s = Some s' → step s l s'.

Fixpoint run (exec : Label → State → option State)
    (ls : list Label) (s : State) : option State :=
  match ls with
  | [] => Some s
  | l :: ls' =>
      match exec l s with
      | Some s' => run exec ls' s'
      | None => None
      end
  end.

Lemma steps_one s l s' : step s l s' → steps s [l] s'.
Proof. intros. eapply steps_cons; [eassumption | constructor]. Qed.

Lemma steps_app s ls s' ls' s'' :
  steps s ls s' → steps s' ls' s'' → steps s (ls ++ ls') s''.
Proof.
  induction 1; simpl; [done |].
  intros. eapply steps_cons; eauto.
Qed.

Lemma steps_snoc s ls s' l s'' :
  steps s ls s' → step s' l s'' → steps s (ls ++ [l]) s''.
Proof. intros. eapply steps_app; [eassumption | by apply steps_one]. Qed.

Lemma steps_app_inv s ls ls' s'' :
  steps s (ls ++ ls') s'' → ∃ s', steps s ls s' ∧ steps s' ls' s''.
Proof.
  revert s. induction ls as [|l ls IH]; simpl; intros s H.
  - exists s. split; [constructor | done].
  - inv H. destruct (IH _ H5) as (m & ? & ?).
    exists m. split; [eapply steps_cons; eauto | done].
Qed.

Lemma preserved_steps I s ls s' :
  preserved I → steps s ls s' → I s → I s'.
Proof. intros HI. induction 1; eauto. Qed.

Lemma preserved_reachable I init s :
  preserved I → I init → reachable init s → I s.
Proof. intros HI H0 [ls Hs]. by eapply preserved_steps. Qed.

Lemma preserved_and I J :
  preserved I → preserved J → preserved (λ s, I s ∧ J s).
Proof. intros HI HJ s l s' [? ?] ?. split; eauto. Qed.

Lemma reachable_refl init : reachable init init.
Proof. exists []. constructor. Qed.

Lemma reachable_step init s l s' :
  reachable init s → step s l s' → reachable init s'.
Proof. intros [ls ?] ?. exists (ls ++ [l]). eauto using steps_snoc. Qed.

Lemma run_app exec ls ls' s :
  run exec (ls ++ ls') s = run exec ls s ≫= run exec ls'.
Proof.
  revert s. induction ls as [|l ls IH]; simpl; intros s; [done |].
  destruct (exec l s); simpl; [apply IH | done].
Qed.

Lemma run_steps exec ls s s' :
  sound exec → run exec ls s = Some s' → steps s ls s'.
Proof.
  intros Hs. revert s. induction ls as [|l ls IH]; simpl; intros s H.
  - inv H. constructor.
  - destruct (exec l s) as [m|] eqn:E; [| done].
    eapply steps_cons; eauto.
Qed.

Lemma run_reachable exec ls init s :
  sound exec → run exec ls init = Some s → reachable init s.
Proof. intros. exists ls. eauto using run_steps. Qed.

End Lts.

Arguments steps_nil {State Label step}.
Arguments steps_cons {State Label step}.

#[export] Hint Constructors steps : mv.
#[export] Hint Resolve reachable_refl reachable_step : mv.

(** ** Counted loops

    [for (let i = start; i < start + n; i++) body(i)] on a state [St]. *)

Fixpoint for_range {St : Type} (n i : nat) (body : nat → St → St) (s : St) : St :=
  match n with
  | 0 => s
  | S n' => for_range n' (S i) body (body i s)
  end.

Lemma for_range_invariant {St : Type} (I : nat → St → Prop) n i body (s : St) :
  (∀ j s, i ≤ j < i + n → I j s → I (S j) (body j s)) →
  I i s → I (i + n) (for_range n i body s).
Proof.
  revert i s. induction n as [|n IH]; intros i s Hbody Hi; simpl.
  - by rewrite Nat.add_0_r.
  - replace (i + S n) with (S i + n) by lia. apply IH.
    + intros j s' ? ?. apply Hbody; [lia | done].
    + apply Hbody; [lia | done].
Qed.

(** A loop that rewrites element [i] of a list in iteration [i], reading
    nothing else, is a map over the list. *)
Lemma for_range_alter {A : Type} (f : nat → A → A) (l : list A) :
  for_range (length l) 0 (λ i, alter (f i) i) l = imap f l.
Proof.
  enough (∀ pre l', for_range (length l') (length pre)
            (λ i, alter (f i) i) (pre ++ l')
          = pre ++ imap (f ∘ (λ j, length pre + j)) l') as Hgen
    by (specialize (Hgen [] l); simpl in Hgen; rewrite Hgen;
        by apply imap_ext).
  intros pre l'. revert pre.
  induction l' as [|a l' IH]; intros pre; simpl; [done |].
  rewrite alter_app_r_alt by lia. rewrite Nat.sub_diag. simpl.
  specialize (IH (pre ++ [f (length pre) a])).
  rewrite length_app, Nat.add_1_r, <- app_assoc in IH. simpl in IH.
  rewrite IH, Nat.add_0_r, <- app_assoc. simpl. do 2 f_equal.
  apply imap_ext. intros j x _. simpl. f_equal. lia.
Qed.

(** The last iteration of a loop. *)
Lemma for_range_snoc {St : Type} n i body (s : St) :
  for_range (S n) i body s = body (i + n) (for_range n i body s).
Proof.
  revert i s. induction n as [|n IH]; intros i s.
  - simpl. by rewrite Nat.add_0_r.
  - change (for_range (S (S n)) i body s)
      with (for_range (S n) (S i) body (body i s)).
    rewrite IH. simpl. do 2 f_equal. lia.
Qed.
