(* ===== verification/JsNumber.v ===== *)
(** * JsNumber: JavaScript's number type

    Every numeric value of the program is an ECMAScript Number, an IEEE-754
    binary64.  The components are written against the interface [JsNum]
    and are run and proved at two instances:

    - [float64], the kernel's primitive floats, bit-for-bit what the
      browser computes; closed terms evaluate with [vm_compute];
    - [xnum], exact arithmetic: canonical rationals with [PInf], [NInf]
      and [NaN].  Division by zero, [Infinity - Infinity] and comparisons
      with [NaN] behave as in IEEE; there is no rounding, no overflow and
      zero has no sign.

    [JsOrder] states the laws of [<] that both instances satisfy; theorems
    about the order of comparisons in the program are proved from it.

    The built-ins the sources call ([Math.max], [THREE.MathUtils.lerp],
    decimal literals) are defined here once, for every instance. *)

From Stdlib Require Import QArith Qcanon Lqa Floats.
From S2P Require Import Prelude.
From stdpp Require Import numbers.

Declare Scope js_scope.
Delimit Scope js_scope with js.

(** ** The interface *)

Class JsNum (num : Type) : Type := {
  js_of_Z : Z → num;
  js_add : num → num → num;
  js_sub : num → num → num;
  js_mul : num → num → num;
  js_div : num → num → num;
  js_neg : num → num;
  js_lt : num → num → bool;
  js_le : num → num → bool;
  js_eq : num → num → bool;
}.

Infix "+" := js_add : js_scope.
Infix "-" := js_sub : js_scope.
Infix "*" := js_mul : js_scope.
Infix "/" := js_div : js_scope.
Notation "- x" := (js_neg x) : js_scope.
Infix "<?" := js_lt (at level 70, no associativity) : js_scope.
Infix "<=?" := js_le (at level 70, no associativity) : js_scope.
Infix "=?" := js_eq (at level 70, no associativity) : js_scope.
Notation "x >? y" := (js_lt y x) (at level 70, no associativity) : js_scope.
Notation "x >=? y" := (js_le y x) (at level 70, no associativity) : js_scope.

Section Builtins.
Context {num : Type} `{JsNum num}.
Local Open Scope js_scope.

(** The decimal literal [m * 10^-d], e.g. [0.3] is [dec 3 1].  Both
    operands are exact and IEEE division rounds correctly, so at [float64]
    this is the double the literal denotes (for [m < 2^53], [d <= 22]). *)
Definition dec (m : Z) (d : nat) : num := js_of_Z m / js_of_Z (10 ^ Z.of_nat d).

(** [x !== x], true of [NaN] only. *)
Definition isNaN (x : num) : bool := negb (x =? x).

(** [Math.max(a, b)]: [NaN] if either is, else the larger. *)
Definition Math_max (a b : num) : num :=
  if isNaN a then a else if isNaN b then b else if a <? b then b else a.

(** [THREE.MathUtils.lerp(x, y, t)], which is [(1 - t) * x + t * y]. *)
Definition lerp (x y t : num) : num := (js_of_Z 1 - t) * x + t * y.

End Builtins.

(** ** Laws of the order shared by the instances *)

Class JsOrder (num : Type) `{JsNum num} : Prop := {
  js_lt_irrefl (a : num) : js_lt a a = false;
  js_lt_asym (a b : num) : js_lt a b = true → js_lt b a = false;
  js_lt_trans (a b c : num) :
    js_lt a b = true → js_lt b c = true → js_lt a c = true;
  js_lt_neg_pos (a : num) :
    js_lt (js_of_Z 0) a = true → js_lt (js_neg a) a = true;
}.

(** ** Exact numbers *)

Inductive xnum : Type :=
| Fin (q : Qc)
| PInf
| NInf
| NaN.

#[export] Instance xnum_eq_dec : EqDecision xnum.
Proof. solve_decision. Defined.

Definition xinf (positive : bool) : xnum := if positive then PInf else NInf.

(** The sign of an infinite or zero-divided result: [a] is the finite
    operand, zero yielding [NaN]. *)
Definition xsigned (a : Qc) (positive : bool) : xnum :=
  if decide (a = 0%Qc) then NaN
  else xinf (if decide (0 < a)%Qc then positive else negb positive).

Definition xadd (a b : xnum) : xnum :=
  match a, b with
  | NaN, _ | _, NaN => NaN
  | Fin p, Fin q => Fin (p + q)%Qc
  | PInf, NInf | NInf, PInf => NaN
  | PInf, _ | _, PInf => PInf
  | NInf, _ | _, NInf => NInf
  end.

Definition xneg (a : xnum) : xnum :=
  match a with
  | Fin p => Fin (- p)%Qc
  | PInf => NInf
  | NInf => PInf
  | NaN => NaN
  end.

Definition xsub (a b : xnum) : xnum := xadd a (xneg b).

Definition xmul (a b : xnum) : xnum :=
  match a, b with
  | NaN, _ | _, NaN => NaN
  | Fin p, Fin q => Fin (p * q)%Qc
  | Fin p, PInf | PInf, Fin p => xsigned p true
  | Fin p, NInf | NInf, Fin p => xsigned p false
  | PInf, PInf | NInf, NInf => PInf
  | PInf, NInf | NInf, PInf => NInf
  end.

(** A zero divisor is [+0]: the program only divides by viewport sizes
    and positive literals. *)
Definition xdiv (a b : xnum) : xnum :=
  match a, b with
  | NaN, _ | _, NaN => NaN
  | Fin p, Fin q =>
      if decide (q = 0%Qc) then xsigned p true else Fin (p / q)%Qc
  | Fin _, (PInf | NInf) => Fin 0%Qc
  | PInf, Fin q => xinf (bool_decide (0 <= q)%Qc)
  | NInf, Fin q => xinf (negb (bool_decide (0 <= q)%Qc))
  | (PInf | NInf), (PInf | NInf) => NaN
  end.

Definition xlt (a b : xnum) : bool :=
  match a, b with
  | NaN, _ | _, NaN => false
  | Fin p, Fin q => bool_decide (p < q)%Qc
  | NInf, (Fin _ | PInf) => true
  | Fin _, PInf => true
  | _, _ => false
  end.

Definition xle (a b : xnum) : bool :=
  match a, b with
  | NaN, _ | _, NaN => false
  | Fin p, Fin q => bool_decide (p <= q)%Qc
  | NInf, _ => true
  | _, PInf => true
  | _, _ => false
  end.

Definition xeq (a b : xnum) : bool :=
  match a, b with
  | Fin p, Fin q => bool_decide (p = q)
  | PInf, PInf | NInf, NInf => true
  | _, _ => false
  end.

#[export] Instance xnum_num : JsNum xnum := {|
  js_of_Z z := Fin (Q2Qc (inject_Z z));
  js_add := xadd; js_sub := xsub; js_mul := xmul; js_div := xdiv;
  js_neg := xneg; js_lt := xlt; js_le := xle; js_eq := xeq;
|}.

(** ** IEEE doubles *)

Definition float_of_Z (z : Z) : float :=
  match z with
  | Z0 => PrimFloat.zero
  | Zpos _ => PrimFloat.of_uint63 (Uint63.of_Z z)
  | Zneg p => PrimFloat.opp (PrimFloat.of_uint63 (Uint63.of_Z (Zpos p)))
  end.

#[export] Instance float64 : JsNum float := {|
  js_of_Z := float_of_Z;
  js_add := PrimFloat.add; js_sub := PrimFloat.sub;
  js_mul := PrimFloat.mul; js_div := PrimFloat.div;
  js_neg := PrimFloat.opp;
  js_lt := PrimFloat.ltb; js_le := PrimFloat.leb; js_eq := PrimFloat.eqb;
|}.

(** ** Reasoning about exact numbers *)

(** Push a goal over [Qc] down to [Q], where [lra] decides it. *)
Ltac qc2q :=
  repeat first
    [ progress unfold Qcle, Qclt, Qcplus, Qcmult, Qcminus, Qcopp, Qcdiv,
        Qcinv, Q2Qc, inject_Z in *
    | progress cbn [this] in * ];
  rewrite ?Qred_correct in *.

Ltac qc_lra :=
  first [ apply Qc_is_canon | idtac ]; qc2q; first [ lra | ring | nra ].

(** Finite literals, as [xnum]. *)
Definition xq (n : Z) (d : positive) : xnum := Fin (Q2Qc (n # d)).

Lemma xlt_Fin p q : xlt (Fin p) (Fin q) = true ↔ (p < q)%Qc.
Proof. simpl. apply bool_decide_eq_true. Qed.

Lemma xle_Fin p q : xle (Fin p) (Fin q) = true ↔ (p <= q)%Qc.
Proof. simpl. apply bool_decide_eq_true. Qed.

Lemma xlt_Fin_false p q : xlt (Fin p) (Fin q) = false ↔ (q <= p)%Qc.
Proof.
  simpl. rewrite bool_decide_eq_false. split; intros; qc_lra.
Qed.

Lemma xlt_irrefl a : xlt a a = false.
Proof.
  destruct a; simpl; try done.
  apply bool_decide_eq_false. qc_lra.
Qed.

Lemma xlt_trans a b c : xlt a b = true → xlt b c = true → xlt a c = true.
Proof.
  destruct a, b, c; simpl; try done.
  rewrite !bool_decide_eq_true. intros. qc_lra.
Qed.

Lemma xlt_asym a b : xlt a b = true → xlt b a = false.
Proof.
  destruct a, b; simpl; try done.
  rewrite bool_decide_eq_true, bool_decide_eq_false. intros. qc_lra.
Qed.

Lemma xlt_neg_pos a : xlt (Fin 0%Qc) a = true → xlt (xneg a) a = true.
Proof.
  destruct a; simpl; try done.
  rewrite !bool_decide_eq_true. intros. qc_lra.
Qed.

#[export] Instance xnum_order : JsOrder xnum.
Proof.
  split.
  - apply xlt_irrefl.
  - apply xlt_asym.
  - apply xlt_trans.
  - apply xlt_neg_pos.
Qed.

Lemma xdiv_Fin p q : q ≠ 0%Qc → xdiv (Fin p) (Fin q) = Fin (p / q)%Qc.
Proof. intros. unfold xdiv. by rewrite decide_False. Qed.

Lemma xdiv_Fin_0 p : xdiv (Fin p) (Fin 0%Qc) = xsigned p true.
Proof. unfold xdiv. by rewrite decide_True. Qed.

Lemma Qc_div_bounds (c w : Qc) :
  (0 < w → 0 <= c → c <= w → 0 <= c / w ∧ c / w <= 1)%Qc.
Proof.
  intros Hw H0 H1. qc2q. split.
  - apply Qle_shift_div_l; lra.
  - apply Qle_shift_div_r; lra.
Qed.

Lemma Qc_div_mono (c c' w : Qc) : (0 < w → c <= c' → c / w <= c' / w)%Qc.
Proof.
  intros Hw H0. qc2q. apply Qmult_le_compat_r; [done |].
  by apply Qlt_le_weak, Qinv_lt_0_compat.
Qed.

Lemma Qc_nonneg_neq_pos (c : Qc) : (0 <= c)%Qc → c ≠ 0%Qc → (0 < c)%Qc.
Proof. intros [? | <-]%Qcle_lt_or_eq; done. Qed.

Lemma Qc_pos_neq_0 (w : Qc) : (0 < w)%Qc → w ≠ 0%Qc.
Proof. intros Hw ->. by apply Qclt_not_eq in Hw. Qed.

(** A decimal literal is a finite number. *)
Lemma dec_xnum m d :
  dec (num := xnum) m d =
    Fin (Q2Qc (inject_Z m) / Q2Qc (inject_Z (10 ^ Z.of_nat d)))%Qc.
Proof.
  unfold dec. apply xdiv_Fin, Qc_pos_neq_0.
  assert (0 < 10 ^ Z.of_nat d)%Z by (apply Z.pow_pos_nonneg; lia).
  qc2q. unfold Qlt. simpl. lia.
Qed.

(** [Math.max] of finite numbers is the rational maximum. *)
Lemma Math_max_Fin p q :
  Math_max (Fin p) (Fin q) = Fin (if bool_decide (p < q)%Qc then q else p).
Proof.
  unfold Math_max, isNaN. simpl.
  rewrite !bool_decide_eq_true_2 by done. simpl.
  by destruct (bool_decide (p < q)%Qc).
Qed.

(** Interpolating between a finite number and itself is the identity in
    exact arithmetic. *)
Lemma lerp_same_Fin p t : lerp (Fin p) (Fin p) (Fin t) = Fin p.
Proof. unfold lerp. simpl. f_equal. qc_lra. Qed.

(** ** Reasoning about doubles *)

(** A key that orders the doubles other than [NaN] as [SFcompare] does:
    lexicographic on class, exponent and mantissa. *)
Definition sf_key (f : spec_float) : option (Z * Z * Z) :=
  match f with
  | S754_zero _ => Some (0, 0, 0)%Z
  | S754_infinity s => Some (if s then -2 else 2, 0, 0)%Z
  | S754_nan => None
  | S754_finite s m e =>
      Some (if s then (-1, - e, Zneg m) else (1, e, Zpos m))%Z
  end.

Definition key_lt (a b : Z * Z * Z) : Prop :=
  (a.1.1 < b.1.1 ∨ a.1.1 = b.1.1 ∧
    (a.1.2 < b.1.2 ∨ a.1.2 = b.1.2 ∧ a.2 < b.2))%Z.

Lemma key_lt_irrefl a : ¬ key_lt a a.
Proof. unfold key_lt. lia. Qed.

Lemma key_lt_trans a b c : key_lt a b → key_lt b c → key_lt a c.
Proof. unfold key_lt. lia. Qed.

Lemma keyed_iff (oa ob : option (Z * Z * Z)) (b : bool) :
  (∀ a c, oa = Some a → ob = Some c → b = true ↔ key_lt a c) →
  is_Some oa → is_Some ob →
  b = true ↔ ∃ a c, oa = Some a ∧ ob = Some c ∧ key_lt a c.
Proof.
  intros Hb [a ->] [c ->]. rewrite (Hb a c) by done.
  split; [by exists a, c | by intros (? & ? & [= ->] & [= ->] & ?)].
Qed.

Lemma SFltb_key f g :
  SFltb f g = true ↔ ∃ a b, sf_key f = Some a ∧ sf_key g = Some b ∧ key_lt a b.
Proof.
  unfold SFltb.
  destruct f as [s|s| |s m e], g as [s'|s'| |s' m' e']; simpl;
    try (split; [done | by intros (? & ? & ? & ? & ?)]);
    apply keyed_iff; try (by eexists);
    intros a c [= <-] [= <-]; unfold key_lt;
    repeat match goal with b : bool |- _ => destruct b end; simpl;
    try (split; [lia | done]); try (split; [done | lia]).
  all: rewrite ?Pos.compare_cont_spec; simpl;
    destruct (Z.compare_spec e e'), (Pos.compare_spec m m'); simpl;
    split; try done; try lia.
Qed.

Lemma float_lt_key a b :
  PrimFloat.ltb a b = true ↔
  ∃ k l, sf_key (Prim2SF a) = Some k ∧ sf_key (Prim2SF b) = Some l ∧ key_lt k l.
Proof. rewrite ltb_spec. apply SFltb_key. Qed.

Lemma float_lt_irrefl a : PrimFloat.ltb a a = false.
Proof.
  apply not_true_is_false. rewrite float_lt_key.
  intros (k & l & Hk & Hl & Hlt). rewrite Hk in Hl. injection Hl as <-.
  by apply key_lt_irrefl in Hlt.
Qed.

Lemma float_lt_trans a b c :
  PrimFloat.ltb a b = true → PrimFloat.ltb b c = true →
  PrimFloat.ltb a c = true.
Proof.
  rewrite !float_lt_key.
  intros (k & l & Hk & Hl & Hkl) (l' & m & Hl' & Hm & Hlm).
  rewrite Hl in Hl'. injection Hl' as <-.
  exists k, m. eauto using key_lt_trans.
Qed.

Lemma float_lt_asym a b :
  PrimFloat.ltb a b = true → PrimFloat.ltb b a = false.
Proof.
  intros Hab. apply not_true_is_false. intros Hba.
  pose proof (float_lt_trans _ _ _ Hab Hba) as Haa.
  by rewrite float_lt_irrefl in Haa.
Qed.

Lemma float_lt_neg_pos a :
  PrimFloat.ltb PrimFloat.zero a = true →
  PrimFloat.ltb (PrimFloat.opp a) a = true.
Proof.
  rewrite !float_lt_key, opp_spec.
  intros (k & l & [= <-] & Hl & Hlt). revert Hl Hlt. unfold key_lt.
  destruct (Prim2SF a) as [s|[]| |[] m e]; simpl; intros [= <-]; simpl;
    try lia; intros _; eexists _, _; (split; [done |]); (split; [done |]);
    simpl; lia.
Qed.

#[export] Instance float64_order : JsOrder float.
Proof.
  split.
  - apply float_lt_irrefl.
  - apply float_lt_asym.
  - apply float_lt_trans.
  - apply float_lt_neg_pos.
Qed.

(** [NaN] compares false with everything. *)
Lemma float_lt_nan_l a : PrimFloat.ltb PrimFloat.nan a = false.
Proof.
  apply not_true_is_false. rewrite float_lt_key.
  by intros (k & l & ? & ? & ?).
Qed.

Lemma float_lt_nan_r a : PrimFloat.ltb a PrimFloat.nan = false.
Proof.
  apply not_true_is_false. rewrite float_lt_key.
  by intros (k & l & ? & ? & ?).
Qed.
