(* ===== verification/MultiverseStore.v ===== *)
(** * MultiverseStore: the global zustand store

    [Module Store] models [src/src/store/multiverseStore.ts]: the union type
    [Timeline], the state record, its initial value, and the five mutators.
    zustand's [set(partial)] merges [partial] into the current state, so a
    mutator is a function from state to state that replaces one field.

    The lemmas state the store's contract: each mutator writes its own field
    and no other, writes to different fields commute, the last write to a
    field wins, and [toggleSound] is an involution. *)

From S2P Require Import Prelude JsNumber.
From stdpp Require Import finite.

Module Store.

(** [export type Timeline = 'data' | 'comic' | 'web3' | 'singularity'] *)
Inductive Timeline : Set := data | comic | web3 | singularity.

#[global] Instance Timeline_eq_dec : EqDecision Timeline.
Proof. solve_decision. Defined.

#[global] Program Instance Timeline_finite : Finite Timeline :=
  {| enum := [data; comic; web3; singularity] |}.
Next Obligation. by apply (bool_decide_unpack _). Qed.
Next Obligation. intros []; by apply (bool_decide_unpack _). Qed.

(** The string a [Timeline] is at run time. *)
Definition Timeline_str (t : Timeline) : string :=
  match t with
  | data => "data"
  | comic => "comic"
  | web3 => "web3"
  | singularity => "singularity"
  end.

(** [{ x: number; y: number }] *)
Record Vec2 (num : Type) : Type := mkVec2 { x : num; y : num }.
Arguments mkVec2 {num}.
Arguments x {num}.
Arguments y {num}.

(** The data fields of [interface MultiverseState]. *)
Record MultiverseState (num : Type) : Type := mkState {
  currentTimeline : Timeline;
  mousePosition : Vec2 num;
  isTransitioning : bool;
  cursorInfluence : Vec2 num;
  soundEnabled : bool;
}.
Arguments mkState {num}.
Arguments currentTimeline {num}.
Arguments mousePosition {num}.
Arguments isTransitioning {num}.
Arguments cursorInfluence {num}.
Arguments soundEnabled {num}.

#[global] Instance Vec2_eq_dec `{EqDecision num} : EqDecision (Vec2 num).
Proof. solve_decision. Defined.

#[global] Instance MultiverseState_eq_dec `{EqDecision num} :
  EqDecision (MultiverseState num).
Proof. solve_decision. Defined.

Section Mutators.
Context {num : Type} `{JsNum num}.
Implicit Types (state : MultiverseState num) (timeline : Timeline).

(** The object [create] is called with: the state the page starts in. *)
Definition initial : MultiverseState num := {|
  currentTimeline := singularity;
  mousePosition := mkVec2 (js_of_Z 0) (js_of_Z 0);
  isTransitioning := false;
  cursorInfluence := mkVec2 (js_of_Z 0) (js_of_Z 0);
  soundEnabled := false;
|}.

Definition setTimeline timeline state : MultiverseState num := {|
  currentTimeline := timeline;
  mousePosition := mousePosition state;
  isTransitioning := isTransitioning state;
  cursorInfluence := cursorInfluence state;
  soundEnabled := soundEnabled state;
|}.

Definition setMousePosition (x y : num) state : MultiverseState num := {|
  currentTimeline := currentTimeline state;
  mousePosition := mkVec2 x y;
  isTransitioning := isTransitioning state;
  cursorInfluence := cursorInfluence state;
  soundEnabled := soundEnabled state;
|}.

Definition setTransitioning (transitioning : bool) state
    : MultiverseState num := {|
  currentTimeline := currentTimeline state;
  mousePosition := mousePosition state;
  isTransitioning := transitioning;
  cursorInfluence := cursorInfluence state;
  soundEnabled := soundEnabled state;
|}.

Definition setCursorInfluence (x y : num) state : MultiverseState num := {|
  currentTimeline := currentTimeline state;
  mousePosition := mousePosition state;
  isTransitioning := isTransitioning state;
  cursorInfluence := mkVec2 x y;
  soundEnabled := soundEnabled state;
|}.

Definition toggleSound state : MultiverseState num := {|
  currentTimeline := currentTimeline state;
  mousePosition := mousePosition state;
  isTransitioning := isTransitioning state;
  cursorInfluence := cursorInfluence state;
  soundEnabled := negb (soundEnabled state);
|}.

(** ** The mutators as a family

    [Mutation] names a call of a mutator with its arguments; [apply] runs
    it.  Statements about "any mutator" quantify over [Mutation]. *)

Inductive Field : Set :=
  FTimeline | FMouse | FTransitioning | FInfluence | FSound.

Inductive Mutation : Type :=
| SetTimeline (timeline : Timeline)
| SetMousePosition (x y : num)
| SetTransitioning (transitioning : bool)
| SetCursorInfluence (x y : num)
| ToggleSound.

Definition apply (m : Mutation) state : MultiverseState num :=
  match m with
  | SetTimeline t => setTimeline t state
  | SetMousePosition a b => setMousePosition a b state
  | SetTransitioning b => setTransitioning b state
  | SetCursorInfluence a b => setCursorInfluence a b state
  | ToggleSound => toggleSound state
  end.

(** The field a mutator writes. *)
Definition target (m : Mutation) : Field :=
  match m with
  | SetTimeline _ => FTimeline
  | SetMousePosition _ _ => FMouse
  | SetTransitioning _ => FTransitioning
  | SetCursorInfluence _ _ => FInfluence
  | ToggleSound => FSound
  end.

(** Two states agree on a field. *)
Definition agree (f : Field) (s s' : MultiverseState num) : Prop :=
  match f with
  | FTimeline => currentTimeline s = currentTimeline s'
  | FMouse => mousePosition s = mousePosition s'
  | FTransitioning => isTransitioning s = isTransitioning s'
  | FInfluence => cursorInfluence s = cursorInfluence s'
  | FSound => soundEnabled s = soundEnabled s'
  end.

Lemma state_ext s s' : (∀ f, agree f s s') → s = s'.
Proof.
  intros Hf. destruct s, s'.
  pose proof (Hf FTimeline). pose proof (Hf FMouse).
  pose proof (Hf FTransitioning). pose proof (Hf FInfluence).
  pose proof (Hf FSound). simpl in *. congruence.
Qed.

(** a mutator leaves every field but its own as it was (the store's
    fine-grained contract: observers of other fields see no change). *)
Theorem apply_frame (m : Mutation) (f : Field) state :
  f ≠ target m → agree f (apply m state) state.
Proof. destruct m, f; simpl; done. Qed.

(** Writes to different fields commute, so the order in which React
    batches them is immaterial. *)
Lemma apply_comm (m m' : Mutation) state :
  target m ≠ target m' →
  apply m (apply m' state) = apply m' (apply m state).
Proof. destruct m, m'; simpl; done. Qed.

(** The last write to a field wins. *)
Lemma setTimeline_twice t t' state :
  setTimeline t (setTimeline t' state) = setTimeline t state.
Proof. done. Qed.

Lemma setTransitioning_twice b b' state :
  setTransitioning b (setTransitioning b' state) = setTransitioning b state.
Proof. done. Qed.

Lemma setTimeline_id state :
  setTimeline (currentTimeline state) state = state.
Proof. by destruct state. Qed.

Lemma setTransitioning_id state :
  setTransitioning (isTransitioning state) state = state.
Proof. by destruct state. Qed.

(** [toggleSound] twice restores the state. *)
Theorem toggleSound_involutive state :
  toggleSound (toggleSound state) = state.
Proof. destruct state. unfold toggleSound. simpl. by rewrite negb_involutive. Qed.

End Mutators.

Lemma apply_frame_witness :
  agree FSound
    (apply (SetTimeline comic) (initial (num := xnum))) initial.
Proof. by apply (apply_frame (SetTimeline comic) FSound). Defined.

End Store.
