(* ===== verification/EventLoop.v ===== *)
(** * EventLoop: timers of the host's event loop

    [Module Timers] models what [setTimeout] promises the program (HTML
    timers): a callback registered at time [now] with delay [d] becomes
    runnable at [now + d]; runnable callbacks run one at a time, the
    earliest due first, and in registration order when due together.  The
    sources never cancel a timer, so there is no [clearTimeout].

    The queue is kept sorted by (due time, registration number).  [fire]
    runs the head when it is due, [wait] lets time pass up to the next due
    time but never beyond it.  [wf] is the invariant of the loop; every
    operation preserves it. *)

From Stdlib Require Import Sorted Permutation.
From S2P Require Import Prelude.

Module Timers.

Section Loop.
Context {cb : Type}.

(** A pending timer: when it is due, its registration number (the id
    [setTimeout] returns) and the callback. *)
Record Timer : Type := mkTimer { due : N; seq : nat; callback : cb }.

(** The loop: the clock in milliseconds, the next timer id, and the
    pending timers. *)
Record Loop : Type := mkLoop { now : N; nextId : nat; queue : list Timer }.

Definition empty : Loop := mkLoop 0 1 [].

(** Insert after every timer that is due no later: registration order is
    kept among timers due together. *)
Fixpoint enqueue (t : Timer) (q : list Timer) : list Timer :=
  match q with
  | [] => [t]
  | u :: q' => if (due t <? due u)%N then t :: u :: q' else u :: enqueue t q'
  end.

(** [setTimeout(callback, delay)] *)
Definition setTimeout (c : cb) (delay : N) (l : Loop) : Loop :=
  mkLoop (now l) (S (nextId l))
    (enqueue (mkTimer (now l + delay) (nextId l) c) (queue l)).

(** Run the next timer if it is due: its callback and the loop without
    it. *)
Definition fire (l : Loop) : option (cb * Loop) :=
  match queue l with
  | [] => None
  | t :: q =>
      if (due t <=? now l)%N then Some (callback t, mkLoop (now l) (nextId l) q)
      else None
  end.

(** Let [d] milliseconds pass; impossible when a timer is due sooner. *)
Definition wait (d : N) (l : Loop) : option Loop :=
  if forallb (λ t, now l + d <=? due t)%N (queue l)
  then Some (mkLoop (now l + d) (nextId l) (queue l))
  else None.

(** The time until the next timer is due. *)
Definition next_delay (l : Loop) : option N :=
  match queue l with
  | [] => None
  | t :: _ => Some (due t - now l)%N
  end.

(** ** The invariant *)

Definition before (t u : Timer) : Prop :=
  (due t < due u)%N ∨ (due t = due u ∧ seq t < seq u).

Definition wf (l : Loop) : Prop :=
  StronglySorted before (queue l) ∧
  Forall (λ t, seq t < nextId l ∧ (now l ≤ due t)%N) (queue l).

Lemma before_trans t u v : before t u → before u v → before t v.
Proof. unfold before. lia. Qed.

Lemma before_irrefl t : ¬ before t t.
Proof. unfold before. lia. Qed.

Lemma enqueue_perm t q : enqueue t q ≡ₚ t :: q.
Proof.
  induction q as [|u q IH]; simpl; [done |].
  destruct (due t <? due u)%N; [done |].
  rewrite IH. apply Permutation_swap.
Qed.

Lemma enqueue_length t q : length (enqueue t q) = S (length q).
Proof. by rewrite enqueue_perm. Qed.

Lemma enqueue_Forall (P : Timer → Prop) t q :
  Forall P (enqueue t q) ↔ P t ∧ Forall P q.
Proof. by rewrite enqueue_perm, Forall_cons. Qed.

(** A timer registered after all the pending ones goes to its place. *)
Lemma enqueue_sorted t q :
  StronglySorted before q → Forall (λ u, seq u < seq t) q →
  StronglySorted before (enqueue t q).
Proof.
  induction 1 as [|u q Hq IH Hu]; simpl; intros Hseq.
  - repeat constructor.
  - apply Forall_cons in Hseq as [Hut Hseq].
    destruct (N.ltb_spec (due t) (due u)).
    + constructor; [by constructor |].
      constructor; [left; lia |].
      eapply Forall_impl; [exact Hu |].
      intros v Hv. eapply before_trans; [| exact Hv]. left. lia.
    + constructor; [by apply IH |].
      apply enqueue_Forall. split; [| done].
      unfold before. lia.
Qed.

Lemma empty_wf : wf empty.
Proof. split; constructor. Qed.

Lemma setTimeout_wf c delay l : wf l → wf (setTimeout c delay l).
Proof.
  intros [Hs Hb]. split; simpl.
  - apply enqueue_sorted; [done |]. simpl.
    eapply Forall_impl; [exact Hb |]. naive_solver.
  - apply enqueue_Forall. simpl. split; [lia |].
    eapply Forall_impl; [exact Hb |]. naive_solver lia.
Qed.

Lemma fire_wf l c l' : wf l → fire l = Some (c, l') → wf l'.
Proof.
  intros [Hs Hb]. unfold fire.
  destruct (queue l) as [|t q] eqn:E; [done |].
  destruct (due t <=? now l)%N; [| done].
  intros [= <- <-]. split; simpl.
  - by inv Hs.
  - by inv Hb.
Qed.

Lemma wait_wf d l l' : wf l → wait d l = Some l' → wf l'.
Proof.
  intros [Hs Hb]. unfold wait.
  destruct (forallb _ _) eqn:E; [| done].
  intros [= <-]. split; simpl; [done |].
  rewrite forallb_forall in E. apply Forall_forall. intros t Ht.
  rewrite Forall_forall in Hb. destruct (Hb t Ht) as [? _].
  apply list_elem_of_In, E, N.leb_le in Ht. done.
Qed.

(** ** What the operations do *)

Lemma setTimeout_now c delay l : now (setTimeout c delay l) = now l.
Proof. done. Qed.

Lemma setTimeout_queue_perm c delay l :
  queue (setTimeout c delay l) ≡ₚ
  mkTimer (now l + delay) (nextId l) c :: queue l.
Proof. apply enqueue_perm. Qed.

(** The timer [fire] runs is due, and no pending timer comes before it. *)
Lemma fire_earliest l c l' :
  wf l → fire l = Some (c, l') →
  ∃ t, queue l = t :: queue l' ∧ callback t = c ∧ (due t = now l)%N ∧
       Forall (before t) (queue l').
Proof.
  intros [Hs Hb]. unfold fire.
  destruct (queue l) as [|t q] eqn:E; [done |].
  destruct (N.leb_spec (due t) (now l)); [| done].
  intros [= <- <-]. exists t. simpl.
  inv Hs. inv Hb. naive_solver lia.
Qed.

Lemma fire_now l c l' : fire l = Some (c, l') → now l' = now l.
Proof.
  unfold fire. destruct (queue l); [done |].
  destruct (_ <=? _)%N; [| done]. by intros [= <- <-].
Qed.

Lemma fire_length l c l' :
  fire l = Some (c, l') → length (queue l) = S (length (queue l')).
Proof.
  unfold fire. destruct (queue l); [done |].
  destruct (_ <=? _)%N; [| done]. by intros [= <- <-].
Qed.

Lemma fire_None_iff l :
  wf l → fire l = None ↔ queue l = [] ∨ ∃ d, (0 < d)%N ∧ next_delay l = Some d.
Proof.
  intros [_ Hb]. unfold fire, next_delay.
  destruct (queue l) as [|t q]; [naive_solver |].
  destruct (N.leb_spec (due t) (now l)); split; try done.
  - intros [? | (d & ? & [= ?])]; [done | lia].
  - intros _. right. exists (due t - now l)%N. split; [lia | done].
Qed.

(** Waiting exactly until the next timer is due is always possible, and
    the timer can then fire. *)
Lemma wait_next_delay l d :
  wf l → next_delay l = Some d →
  ∃ l' c l'', wait d l = Some l' ∧ fire l' = Some (c, l'').
Proof.
  intros [Hs Hb]. unfold next_delay, wait, fire.
  destruct (queue l) as [|t q] eqn:E; [done |]. intros [= <-].
  inv Hs. inv Hb.
  assert (Hall : forallb (λ u, now l + (due t - now l) <=? due u)%N (t :: q)
                 = true).
  { apply forallb_forall. intros u [<- | Hu]; apply N.leb_le; [lia |].
    apply list_elem_of_In in Hu.
    match goal with H : Forall (before t) q |- _ =>
      rewrite Forall_forall in H; specialize (H u Hu) end.
    unfold before in *. lia. }
  rewrite Hall. eexists _, (callback t), _. split; [done |]. simpl.
  rewrite (proj2 (N.leb_le _ _)) by lia. done.
Qed.

Lemma wait_now d l l' : wait d l = Some l' → now l' = (now l + d)%N.
Proof. unfold wait. destruct (forallb _ _); [| done]. by intros [= <-]. Qed.

Lemma wait_queue d l l' : wait d l = Some l' → queue l' = queue l.
Proof. unfold wait. destruct (forallb _ _); [| done]. by intros [= <-]. Qed.

Lemma wait_0 l : wf l → wait 0 l = Some l.
Proof.
  intros [_ Hb]. unfold wait.
  rewrite (proj2 (forallb_forall _ _)).
  - destruct l. simpl. by rewrite N.add_0_r.
  - intros t Ht%list_elem_of_In. rewrite Forall_forall in Hb.
    apply N.leb_le. specialize (Hb t Ht). lia.
Qed.

End Loop.

Arguments Timer : clear implicits.
Arguments Loop : clear implicits.

End Timers.
