(* ===== verification/Watch.v ===== *)
(** * Watch: the timeline switch of [MultiverseWatch.tsx]

    [Module MultiverseWatch] models the component that owns the timed
    switch.  [handleTimelineSwitch] raises the transition flag and
    registers a timer; the timer's callback commits the new timeline and
    registers a second timer, whose callback lowers the flag.  The two arrow
    functions passed to [setTimeout] are the constructors of [Callback]
    and [runCallback] is their bodies.

    [Env] is what the handlers act on: the store and the timer loop.
    [tick] runs the next due timer, [elapse] lets time pass, [drain] runs
    the loop until no timer is left.

    Theorems: a request for the active timeline changes nothing; a request
    from rest goes through the three phases at 0, 300 and 800 ms and
    nothing happens in between; every run of the loop ends with the flag
    down (the flag cannot stay up); the view shows one button per
    committed timeline, exactly one of them active. *)

From Stdlib Require Import Floats.
From S2P Require Import Prelude JsNumber MultiverseStore EventLoop.
From stdpp Require Import sets.

Module MultiverseWatch.
Import Store.

(** The closures given to [setTimeout] (lines 18-21 and 20). *)
Inductive Callback : Set :=
| CommitSwitch (newTimeline : Timeline)
| EndTransition.

#[global] Instance Callback_eq_dec : EqDecision Callback.
Proof. solve_decision. Defined.

(** The delays of the two timers, in milliseconds. *)
Definition leaveDuration : N := 300.
Definition enterDuration : N := 500.

Record Env (num : Type) : Type := mkEnv {
  store : MultiverseState num;
  loop : Timers.Loop Callback;
}.
Arguments mkEnv {num}.
Arguments store {num}.
Arguments loop {num}.

Section Handlers.
Context {num : Type} `{JsNum num}.
Implicit Types (env : Env num) (newTimeline : Timeline).

Definition initial : Env num := mkEnv Store.initial Timers.empty.

(** [const handleTimelineSwitch = (newTimeline) => ...] *)
Definition handleTimelineSwitch newTimeline env : Env num :=
  if decide (newTimeline = currentTimeline (store env)) then env
  else
    mkEnv (setTransitioning true (store env))
          (Timers.setTimeout (CommitSwitch newTimeline) leaveDuration
             (loop env)).

(** The bodies of the two timer callbacks. *)
Definition runCallback (c : Callback) env : Env num :=
  match c with
  | CommitSwitch newTimeline =>
      mkEnv (setTimeline newTimeline (store env))
            (Timers.setTimeout EndTransition enterDuration (loop env))
  | EndTransition =>
      mkEnv (setTransitioning false (store env)) (loop env)
  end.

(** Run the next timer, if one is due. *)
Definition tick env : option (Env num) :=
  match Timers.fire (loop env) with
  | Some (c, l) => Some (runCallback c (mkEnv (store env) l))
  | None => None
  end.

(** Let [d] milliseconds pass. *)
Definition elapse (d : N) env : option (Env num) :=
  match Timers.wait d (loop env) with
  | Some l => Some (mkEnv (store env) l)
  | None => None
  end.

(** Wait for the next timer and run it. *)
Definition next env : option (Env num) :=
  match Timers.next_delay (loop env) with
  | Some d => elapse d env ≫= tick
  | None => None
  end.

(** Run timers until none is left, at most [fuel] of them. *)
Fixpoint drain (fuel : nat) env : option (Env num) :=
  match Timers.queue (loop env), fuel with
  | [], _ => Some env
  | _ :: _, O => None
  | _ :: _, S fuel' => next env ≫= drain fuel'
  end.

(** The timers a pending timer still stands for: a commit registers one
    more. *)
Definition weight (t : Timers.Timer Callback) : nat :=
  match Timers.callback t with
  | CommitSwitch _ => 2
  | EndTransition => 1
  end.

Definition work env : nat := sum_list (weight <$> Timers.queue (loop env)).

(** At rest: flag down and no timer pending. *)
Definition idle env : Prop :=
  isTransitioning (store env) = false ∧ Timers.queue (loop env) = [].

Definition wf env : Prop := Timers.wf (loop env).

End Handlers.

(** ** The view (lines 8-12 and 24-84) *)

Record TimelineEntry : Set := mkEntry {
  id : Timeline;
  label : string;
  icon : string;
  color : string;
}.

Definition timelines : list TimelineEntry := [
  mkEntry data "The Architect" "⟨⟩" "data";
  mkEntry comic "The Anomaly" "✦" "comic";
  mkEntry web3 "The Mirror" "◈" "web3"
].

Record ButtonView : Set := mkButton {
  key : Timeline;
  onClick : Timeline;
  isActive : bool;
  className : string;
  title : string;
  content : string;
}.

Record WatchView : Set := mkWatch {
  buttons : list ButtonView;
  labelClass : string;
  labelText : option string;
}.

Definition colorClass (timeline : TimelineEntry) : string :=
  if decide (color timeline = "data") then "text-data-primary border-data-primary"
  else if decide (color timeline = "comic")
       then "text-comic-primary border-comic-primary"
       else "text-web3-primary border-web3-primary".

Definition button (currentTimeline : Timeline) (timeline : TimelineEntry)
    : ButtonView :=
  let isActive := bool_decide (id timeline = currentTimeline) in
  mkButton (id timeline) (id timeline) isActive
    (if isActive then colorClass timeline +:+ " shadow-lg"
     else "text-gray-500 border-gray-700 hover:border-gray-500")
    (label timeline) (icon timeline).

(** What the component returns: [None] is [null]. *)
Definition render (currentTimeline : Timeline) : option WatchView :=
  if decide (currentTimeline = singularity) then None
  else Some (mkWatch
    (button currentTimeline <$> timelines)
    (if decide (currentTimeline = data) then "timeline-data"
     else if decide (currentTimeline = comic) then "timeline-comic"
          else "timeline-web3")
    (label <$> find (λ t, bool_decide (id t = currentTimeline)) timelines)).

(** ** The handler *)

Section Lemmas.
Context {num : Type} `{JsNum num}.
Implicit Types (env : Env num) (t : Timeline).

Lemma handleTimelineSwitch_wf t env : wf env → wf (handleTimelineSwitch t env).
Proof.
  unfold wf, handleTimelineSwitch. intros.
  case_decide; simpl; [done | by apply Timers.setTimeout_wf].
Qed.

Lemma runCallback_wf c env : wf env → wf (runCallback c env).
Proof.
  unfold wf. destruct c; simpl; [apply Timers.setTimeout_wf | done].
Qed.

Lemma tick_wf env env' : wf env → tick env = Some env' → wf env'.
Proof.
  unfold tick. intros Hwf.
  destruct (Timers.fire (loop env)) as [[c l]|] eqn:E; [| done].
  intros [= <-]. apply runCallback_wf. unfold wf in *. simpl.
  eauto using Timers.fire_wf.
Qed.

Lemma elapse_wf d env env' : wf env → elapse d env = Some env' → wf env'.
Proof.
  unfold elapse. intros Hwf.
  destruct (Timers.wait d (loop env)) as [l|] eqn:E; [| done].
  intros [= <-]. unfold wf in *. simpl. eauto using Timers.wait_wf.
Qed.

Lemma next_wf env env' : wf env → next env = Some env' → wf env'.
Proof.
  unfold next. intros Hwf. destruct (Timers.next_delay _); [| done].
  destruct (elapse _ env) as [e|] eqn:E; simpl; [| done].
  eauto using elapse_wf, tick_wf.
Qed.

Lemma initial_wf : wf initial.
Proof. apply Timers.empty_wf. Qed.

Lemma elapse_store d env env' : elapse d env = Some env' → store env' = store env.
Proof.
  unfold elapse. destruct (Timers.wait _ _); [| done]. by intros [= <-].
Qed.

Lemma elapse_work d env env' : elapse d env = Some env' → work env' = work env.
Proof.
  unfold elapse, work. destruct (Timers.wait _ _) eqn:E; [| done].
  intros [= <-]. simpl. by rewrite (Timers.wait_queue _ _ _ E).
Qed.

Lemma work_enqueue (t : Timers.Timer Callback) q :
  sum_list (weight <$> Timers.enqueue t q) = weight t + sum_list (weight <$> q).
Proof. by rewrite Timers.enqueue_perm. Qed.

(** Running a timer uses up one unit of work. *)
Lemma tick_work env env' : tick env = Some env' → work env = S (work env').
Proof.
  unfold tick, Timers.fire, work.
  destruct (Timers.queue (loop env)) as [|t q] eqn:E; [done |].
  destruct (_ <=? _)%N; [| done]. intros [= <-].
  unfold weight at 1. simpl. destruct (Timers.callback t); simpl; [| done].
  by rewrite work_enqueue.
Qed.

Lemma next_work env env' : next env = Some env' → work env = S (work env').
Proof.
  unfold next. destruct (Timers.next_delay _); [| done].
  destruct (elapse _ env) as [e|] eqn:E; simpl; [| done].
  intros. rewrite <- (elapse_work _ _ _ E). by apply tick_work.
Qed.

(** With the invariant, the next timer can always be waited for and run. *)
Lemma next_is_Some env :
  wf env → Timers.queue (loop env) ≠ [] → is_Some (next env).
Proof.
  intros Hwf Hq. unfold next, Timers.next_delay.
  destruct (Timers.queue (loop env)) as [|t q] eqn:E; [done |].
  destruct (Timers.wait_next_delay (loop env) (Timers.due t - Timers.now (loop env)))
    as (l' & c & l'' & Hw & Hf); [done | by unfold Timers.next_delay; rewrite E |].
  unfold elapse. rewrite Hw. simpl. unfold tick. simpl. rewrite Hf. by eexists.
Qed.

Lemma work_0 env : work env = 0 → Timers.queue (loop env) = [].
Proof.
  unfold work. destruct (Timers.queue (loop env)) as [|t q]; [done |].
  simpl. unfold weight. destruct (Timers.callback t); lia.
Qed.

(** The callback that runs last lowers the flag: after a timer ran, either
    timers are pending or the flag is down. *)
Lemma tick_flag env env' :
  tick env = Some env' →
  Timers.queue (loop env') ≠ [] ∨ isTransitioning (store env') = false.
Proof.
  unfold tick. destruct (Timers.fire (loop env)) as [[c l]|]; [| done].
  intros [= <-]. destruct c; simpl; [left | by right].
  intros Hq. pose proof (Timers.enqueue_length
    (Timers.mkTimer (Timers.now l + enterDuration) (Timers.nextId l)
       EndTransition) (Timers.queue l)) as Hl.
  by rewrite Hq in Hl.
Qed.

Lemma next_flag env env' :
  next env = Some env' →
  Timers.queue (loop env') ≠ [] ∨ isTransitioning (store env') = false.
Proof.
  unfold next. destruct (Timers.next_delay _); [| done].
  destruct (elapse _ env) as [e|]; simpl; [apply tick_flag | done].
Qed.

(** What a timer that runs does, by its callback. *)
Lemma tick_cases env env' :
  tick env = Some env' →
  ∃ u q, Timers.queue (loop env) = u :: q ∧
    ((∃ c, Timers.callback u = CommitSwitch c ∧
           store env' = setTimeline c (store env) ∧
           Timers.queue (loop env') =
             Timers.enqueue
               (Timers.mkTimer (Timers.now (loop env) + enterDuration)
                  (Timers.nextId (loop env)) EndTransition) q) ∨
     (Timers.callback u = EndTransition ∧
      store env' = setTransitioning false (store env) ∧
      Timers.queue (loop env') = q)).
Proof.
  unfold tick, Timers.fire.
  destruct (Timers.queue (loop env)) as [|u q]; [done |].
  destruct (_ <=? _)%N; [| done]. intros [= <-]. exists u, q. split; [done |].
  destruct (Timers.callback u) as [c|]; [left; by exists c | by right].
Qed.

Lemma elapse_queue d env env' :
  elapse d env = Some env' →
  Timers.queue (loop env') = Timers.queue (loop env).
Proof.
  unfold elapse. destruct (Timers.wait _ _) eqn:E; [| done].
  intros [= <-]. by apply Timers.wait_queue in E.
Qed.

(** The buttons request the three committed timelines, and are there only
    once a timeline is committed. *)
Lemma render_onClick c v t :
  render c = Some v → t ∈ onClick <$> buttons v →
  c ≠ singularity ∧ t ≠ singularity.
Proof.
  unfold render. case_decide; [done |]. intros [= <-]. simpl.
  split; [done |]. set_solver.
Qed.

(** A timer does not run before it is due. *)
Lemma tick_early d d' env env' :
  Timers.next_delay (loop env) = Some d' → (d < d')%N →
  elapse d env = Some env' → tick env' = None.
Proof.
  unfold Timers.next_delay, elapse, tick, Timers.wait, Timers.fire.
  destruct (Timers.queue (loop env)) as [|u q] eqn:E; [done |].
  intros [= <-] Hd. destruct (forallb _ _); [| done].
  intros [= <-]. simpl.
  by rewrite (proj2 (N.leb_gt _ _)) by lia.
Qed.

(** a request for the timeline that is already active changes
    nothing: no flag, no timer. *)
Theorem handleTimelineSwitch_same env :
  handleTimelineSwitch (currentTimeline (store env)) env = env.
Proof. unfold handleTimelineSwitch. by rewrite decide_True. Qed.

(** What a request for another timeline does at once. *)
Lemma handleTimelineSwitch_other t env :
  t ≠ currentTimeline (store env) →
  handleTimelineSwitch t env =
    mkEnv (setTransitioning true (store env))
      (Timers.setTimeout (CommitSwitch t) leaveDuration (loop env)).
Proof. intros. unfold handleTimelineSwitch. by rewrite decide_False. Qed.

(** The loop of an idle environment after the request and [d] ms. *)
Lemma request_elapse t d env :
  idle env → t ≠ currentTimeline (store env) → (d ≤ leaveDuration)%N →
  elapse d (handleTimelineSwitch t env) =
    Some (mkEnv (setTransitioning true (store env))
      (Timers.mkLoop (Timers.now (loop env) + d)
         (S (Timers.nextId (loop env)))
         [Timers.mkTimer (Timers.now (loop env) + leaveDuration)
            (Timers.nextId (loop env)) (CommitSwitch t)])).
Proof.
  intros [_ Hq] Hne Hd. rewrite handleTimelineSwitch_other by done.
  unfold elapse, Timers.wait, Timers.setTimeout. simpl. rewrite Hq. simpl.
  by rewrite (proj2 (N.leb_le _ _)) by lia.
Qed.

(** The environment when the first timer has run, 300 ms after a request
    at rest. *)
Lemma request_commit t env :
  idle env → t ≠ currentTimeline (store env) →
  elapse leaveDuration (handleTimelineSwitch t env) ≫= tick =
    Some (mkEnv (setTimeline t (setTransitioning true (store env)))
      (Timers.setTimeout EndTransition enterDuration
         (Timers.mkLoop (Timers.now (loop env) + leaveDuration)
            (S (Timers.nextId (loop env))) []))).
Proof.
  intros Hidle Hne. rewrite request_elapse by done. simpl.
  unfold tick, Timers.fire. simpl. by rewrite N.leb_refl.
Qed.

(** C1: the three phases of a switch requested at rest.  The flag is up
    at once and the scene is unchanged; no timer runs before 300 ms; at
    300 ms the timeline is committed with the flag still up; no timer runs
    in the next 500 ms; at 800 ms the flag is down and the loop is at rest
    again. *)
Theorem switch_sequence t env :
  idle env → t ≠ currentTimeline (store env) →
  let e1 := handleTimelineSwitch t env in
  isTransitioning (store e1) = true ∧
  currentTimeline (store e1) = currentTimeline (store env) ∧
  (∀ d e, (d < 300)%N → elapse d e1 = Some e → tick e = None) ∧
  ∃ e2 e3,
    elapse 300 e1 ≫= tick = Some e2 ∧
    currentTimeline (store e2) = t ∧ isTransitioning (store e2) = true ∧
    (∀ d e, (d < 500)%N → elapse d e2 = Some e → tick e = None) ∧
    elapse 500 e2 ≫= tick = Some e3 ∧
    store e3 = setTimeline t (store env) ∧ idle e3 ∧
    Timers.now (loop e3) = (Timers.now (loop env) + 800)%N.
Proof.
  intros Hidle Hne e1. destruct Hidle as [Hflag Hq].
  assert (He1 : e1 = mkEnv (setTransitioning true (store env))
            (Timers.setTimeout (CommitSwitch t) leaveDuration (loop env)))
    by by apply handleTimelineSwitch_other.
  split_and!; [by rewrite He1 | by rewrite He1 | |].
  { intros d e Hd. apply (tick_early d 300); [| done].
    rewrite He1. unfold Timers.next_delay. simpl. rewrite Hq. simpl.
    f_equal. unfold leaveDuration. lia. }
  subst e1. change 300%N with leaveDuration.
  rewrite request_commit by done.
  eexists. eexists. split_and!; [done | done | done | | | | |].
  - intros d e Hd. apply (tick_early d 500); [| done].
    unfold Timers.next_delay. simpl. f_equal. unfold enterDuration. lia.
  - unfold elapse, Timers.wait. simpl. rewrite N.leb_refl. simpl.
    unfold tick, Timers.fire. simpl. rewrite N.leb_refl. simpl. done.
  - destruct env as [[] ?]. simpl in *. by subst.
  - done.
  - simpl. unfold leaveDuration, enterDuration. lia.
Qed.

(** C2: the flag cannot stay up.  From any well-formed environment the
    loop runs out of timers within [work env] callbacks, and if a timer
    was pending the flag is down at the end. *)
Theorem drain_terminates env :
  wf env →
  ∃ env', drain (work env) env = Some env' ∧
    Timers.queue (loop env') = [] ∧
    (Timers.queue (loop env) ≠ [] → isTransitioning (store env') = false).
Proof.
  remember (work env) as n eqn:Hn. revert env Hn.
  induction n as [|n IH]; intros env Hn Hwf.
  - symmetry in Hn. apply work_0 in Hn. exists env.
    destruct env as [? [? ? q]]. simpl in *. by subst q.
  - destruct (Timers.queue (loop env)) as [|t q] eqn:E;
      [by unfold work in Hn; rewrite E in Hn |].
    destruct (next_is_Some env) as [e He]; [done | by rewrite E |].
    pose proof (next_work _ _ He) as Hw.
    destruct (IH e) as (env' & Hd & Hq & Hflag);
      [lia | by eapply next_wf |].
    exists env'. simpl. rewrite E, He. simpl. split_and!; [done | done |].
    intros _. destruct (next_flag _ _ He) as [Hne | Hdown]; [by auto |].
    destruct (Timers.queue (loop e)) eqn:Eq; [| by auto].
    destruct n; simpl in Hd; rewrite Eq in Hd; by injection Hd as <-.
Qed.

End Lemmas.

Lemma switch_sequence_witness :
  idle (initial (num := float)) ∧
  isTransitioning (store (handleTimelineSwitch data (initial (num := float))))
    = true.
Proof.
  assert (Hidle : idle (initial (num := float))) by done.
  split; [done |].
  by destruct (switch_sequence data initial Hidle) as (? & _).
Defined.

Lemma drain_terminates_witness :
  wf (handleTimelineSwitch comic (initial (num := float))) ∧
  ∃ env', drain 2 (handleTimelineSwitch comic (initial (num := float)))
            = Some env' ∧
          isTransitioning (store env') = false.
Proof.
  assert (Hwf : wf (handleTimelineSwitch comic (initial (num := float))))
    by apply handleTimelineSwitch_wf, initial_wf.
  split; [done |].
  destruct (drain_terminates _ Hwf) as (env' & Hd & _ & Hflag).
  exists env'. split; [exact Hd | by apply Hflag].
Defined.

(** ** The view *)

(** the watch is hidden in the singularity; otherwise it shows the
    three buttons in order, exactly one of them active, the one of the
    active timeline, and that timeline's label. *)
Theorem watch_render_spec (currentTimeline : Timeline) :
  match render currentTimeline with
  | None => currentTimeline = singularity
  | Some v =>
      currentTimeline ≠ singularity ∧
      key <$> buttons v = [data; comic; web3] ∧
      key <$> filter (λ b, isActive b = true) (buttons v) = [currentTimeline] ∧
      ∃ e, e ∈ timelines ∧ id e = currentTimeline ∧ labelText v = Some (label e)
  end.
Proof.
  destruct currentTimeline; [| | | done];
    (split_and!; [done | reflexivity | reflexivity |]);
    apply Exists_exists; by_compute.
Qed.

Lemma render_buttons c v :
  render c = Some v → buttons v = button c <$> timelines.
Proof. unfold render. case_decide; [done |]. by intros [= <-]. Qed.

(** the active button is inert: its click is a request for the active
    timeline. *)
Theorem active_button_inert {num} `{JsNum num} (env : Env num) v b :
  render (currentTimeline (store env)) = Some v →
  b ∈ buttons v → isActive b = true →
  handleTimelineSwitch (onClick b) env = env.
Proof.
  intros ->%render_buttons (e & -> & _)%list_elem_of_fmap. simpl.
  intros ->%bool_decide_eq_true. unfold handleTimelineSwitch.
  by rewrite decide_True.
Qed.

Lemma active_button_inert_witness :
  handleTimelineSwitch web3
    (mkEnv (setTimeline web3 (Store.initial (num := float))) Timers.empty)
  = mkEnv (setTimeline web3 Store.initial) Timers.empty.
Proof.
  eapply (active_button_inert _ _
            (button web3 (mkEntry web3 "The Mirror" "◈" "web3")));
    [reflexivity | simpl; set_solver | reflexivity].
Defined.

End MultiverseWatch.
