(* ===== verification/SequencerSpec.v ===== *)
(** * SequencerSpec: the three-phase machine and its refinement

    [Module Sequencer] states what the timed switch promises as a machine
    with the phases [Idle], [Leaving] and [Entering], each timed phase
    carrying the milliseconds it has left.  Its labels are the three
    things that can happen to [MultiverseWatch]: a request, a delay, a
    timeout.  The machine accepts a request only at rest.

    [abs] reads a phase off an environment of [MultiverseWatch]: no timer
    and the flag down is [Idle], one pending commit with the flag up is
    [Leaving], one pending end with the flag up is [Entering]; every
    other environment has no phase.

    [refines] is a forward simulation and [implements] its converse: on
    environments that have a phase, the handlers of [MultiverseWatch] and
    the machine take the same steps.  [overlap_has_no_phase] shows the
    guard on requests is needed: a request during [Entering] leads to an
    environment with pending timers and the flag down, which no phase
    describes. *)

From Stdlib Require Import Floats.
From S2P Require Import Prelude JsNumber MultiverseStore EventLoop Watch.

Module Sequencer.
Import Store MultiverseWatch.

Inductive Phase : Set :=
| Idle
| Leaving (target : Timeline) (remaining : N)
| Entering (target : Timeline) (remaining : N).

#[global] Instance Phase_eq_dec : EqDecision Phase.
Proof. solve_decision. Defined.

(** The machine's state: the active timeline and the phase. *)
Record State : Set := mkState { timeline : Timeline; phase : Phase }.

#[global] Instance State_eq_dec : EqDecision State.
Proof. solve_decision. Defined.

Inductive Label : Set :=
| Request (t : Timeline)
| Delay (d : N)
| Timeout.

(** The transition flag is up in the timed phases. *)
Definition flag (s : State) : bool :=
  match phase s with
  | Idle => false
  | _ => true
  end.

Inductive step : State → Label → State → Prop :=
| step_request_same c :
    step (mkState c Idle) (Request c) (mkState c Idle)
| step_request c t :
    t ≠ c →
    step (mkState c Idle) (Request t) (mkState c (Leaving t 300))
| step_delay_idle c d :
    step (mkState c Idle) (Delay d) (mkState c Idle)
| step_delay_leaving c t r d :
    (d ≤ r)%N →
    step (mkState c (Leaving t r)) (Delay d) (mkState c (Leaving t (r - d)))
| step_delay_entering c t r d :
    (d ≤ r)%N →
    step (mkState c (Entering t r)) (Delay d) (mkState c (Entering t (r - d)))
| step_commit c t :
    step (mkState c (Leaving t 0)) Timeout
         (mkState t (Entering t 500))
| step_end c t :
    step (mkState c (Entering t 0)) Timeout (mkState c Idle).

#[global] Hint Constructors step : mv.

(** Linear arithmetic with the two durations unfolded. *)
Local Ltac dlia := unfold leaveDuration, enterDuration in *; lia.

(** ** The implementation's steps *)

Section Refinement.
Context {num : Type} `{JsNum num}.
Implicit Types (env : Env num) (a : State).

(** The handler of [MultiverseWatch] a label stands for. *)
Definition exec (l : Label) env : option (Env num) :=
  match l with
  | Request t => Some (handleTimelineSwitch t env)
  | Delay d => elapse d env
  | Timeout => tick env
  end.

(** The phase of an environment, when it has one. *)
Definition abs env : option State :=
  let c := currentTimeline (store env) in
  let now := Timers.now (loop env) in
  match Timers.queue (loop env), isTransitioning (store env) with
  | [], false => Some (mkState c Idle)
  | [t], true =>
      if decide (now ≤ Timers.due t)%N then
        match Timers.callback t with
        | CommitSwitch target =>
            Some (mkState c (Leaving target (Timers.due t - now)))
        | EndTransition =>
            Some (mkState c (Entering c (Timers.due t - now)))
        end
      else None
  | _, _ => None
  end.

Lemma abs_idle env a :
  abs env = Some a → phase a = Idle → idle env.
Proof.
  unfold abs, idle.
  destruct (Timers.queue (loop env)) as [|t [|]],
    (isTransitioning (store env)); try done.
  case_decide; [| done]. by destruct (Timers.callback t); intros [= <-].
Qed.

Lemma abs_timeline env a :
  abs env = Some a → timeline a = currentTimeline (store env).
Proof.
  unfold abs.
  destruct (Timers.queue (loop env)) as [|t [|]],
    (isTransitioning (store env)); try done; [by intros [= <-] |].
  case_decide; [| done]. by destruct (Timers.callback t); intros [= <-].
Qed.

Lemma abs_flag env a :
  abs env = Some a → flag a = isTransitioning (store env).
Proof.
  unfold abs.
  destruct (Timers.queue (loop env)) as [|t [|]],
    (isTransitioning (store env)); try done; [by intros [= <-] |].
  case_decide; [| done]. by destruct (Timers.callback t); intros [= <-].
Qed.

(** C3: forward simulation.  From an environment with a phase, every
    step of the implementation whose request (if it is one) arrives at
    rest is a step of the machine, and the result has the phase the
    machine reaches. *)
Theorem refines env a l env' :
  abs env = Some a →
  (∀ t, l = Request t → phase a = Idle) →
  exec l env = Some env' →
  ∃ a', step a l a' ∧ abs env' = Some a'.
Proof.
  intros Ha Hguard Hexec. destruct env as [st [now nid q]].
  unfold abs in Ha. simpl in Ha.
  destruct l as [t | d |]; simpl in Hexec.
  - injection Hexec as <-. specialize (Hguard t eq_refl).
    destruct q as [|u [|]], (isTransitioning st) eqn:Hf; try done;
      [| by case_decide; destruct (Timers.callback u); simplify_eq].
    injection Ha as <-. unfold handleTimelineSwitch. simpl.
    case_decide as Ht.
    + subst t. eexists. split; [constructor |].
      unfold abs. simpl. by rewrite Hf.
    + eexists. split; [by constructor |].
      unfold abs. simpl. rewrite decide_True by dlia.
      do 3 f_equal. dlia.
  - unfold elapse, Timers.wait in Hexec. simpl in Hexec.
    destruct (forallb _ q) eqn:Hall; [| done]. injection Hexec as <-.
    destruct q as [|u [|]], (isTransitioning st) eqn:Hf; try done.
    + injection Ha as <-. eexists. split; [constructor |].
      unfold abs. simpl. by rewrite Hf.
    + simpl in Hall. rewrite andb_true_r in Hall. apply N.leb_le in Hall.
      case_decide; [| done].
      destruct (Timers.callback u) eqn:Hc; injection Ha as <-;
        (eexists; split; [constructor; dlia |]);
        unfold abs; simpl; rewrite Hf, Hc, decide_True by dlia;
        do 3 f_equal; dlia.
  - unfold tick, Timers.fire in Hexec. simpl in Hexec.
    destruct q as [|u q']; [done |].
    destruct (N.leb_spec (Timers.due u) now); [| done].
    injection Hexec as <-.
    destruct q' as [|], (isTransitioning st) eqn:Hf; try done.
    case_decide; [| done].
    assert (Timers.due u - now = 0)%N as Hz by dlia.
    destruct (Timers.callback u) eqn:Hc; injection Ha as <-; rewrite Hz.
    + eexists. split; [constructor |].
      unfold abs. simpl. rewrite Hf, decide_True by dlia.
      do 3 f_equal. dlia.
    + eexists. split; [constructor |]. done.
Qed.

(** C10: the converse.  Every step of the machine is taken by the
    implementation: the handlers are enabled whenever the machine is, and
    lead to an environment with the machine's phase. *)
Theorem implements env a l a' :
  abs env = Some a → step a l a' →
  ∃ env', exec l env = Some env' ∧ abs env' = Some a'.
Proof.
  intros Ha Hstep. destruct env as [st [now nid q]].
  unfold abs in Ha. simpl in Ha.
  destruct q as [|u [|]], (isTransitioning st) eqn:Hf; try done.
  - injection Ha as <-. inv Hstep; cbn [exec].
    + eexists. split; [done |].
      unfold handleTimelineSwitch. cbn [store]. rewrite decide_True by done.
      unfold abs. simpl. by rewrite Hf.
    + eexists. split; [done |].
      unfold handleTimelineSwitch. cbn [store]. rewrite decide_False by done.
      unfold abs. simpl. rewrite decide_True by dlia. do 3 f_equal. dlia.
    + eexists. split; [done |]. unfold abs. simpl. by rewrite Hf.
  - case_decide; [| done].
    destruct (Timers.callback u) eqn:Hc; injection Ha as <-; inv Hstep; simpl.
    + unfold elapse, Timers.wait. simpl.
      rewrite (proj2 (N.leb_le _ _)) by dlia. simpl.
      eexists. split; [done |].
      unfold abs. simpl. rewrite Hf, Hc, decide_True by dlia.
      do 3 f_equal. dlia.
    + unfold tick, Timers.fire. simpl.
      rewrite (proj2 (N.leb_le _ _)) by dlia. rewrite Hc. simpl.
      eexists. split; [done |].
      unfold abs. simpl. rewrite Hf, decide_True by dlia. do 3 f_equal. dlia.
    + unfold elapse, Timers.wait. simpl.
      rewrite (proj2 (N.leb_le _ _)) by dlia. simpl.
      eexists. split; [done |].
      unfold abs. simpl. rewrite Hf, Hc, decide_True by dlia.
      do 3 f_equal. dlia.
    + unfold tick, Timers.fire. simpl.
      rewrite (proj2 (N.leb_le _ _)) by dlia. rewrite Hc. simpl.
      eexists. split; [done |]. done.
Qed.

(** C5: the guard on requests is needed.  A request for another
    timeline that arrives during [Entering], less than 300 ms before the
    flag is due to fall, is accepted by the implementation: the pending
    timer lowers the flag while the new commit is still pending, an
    environment that has no phase; the commit then swaps the scene with
    the flag down, so without the overlay. *)
Theorem overlap_has_no_phase env c r t :
  abs env = Some (mkState c (Entering c r)) →
  (r < leaveDuration)%N → t ≠ c →
  ∃ env1 env2,
    elapse r (handleTimelineSwitch t env) ≫= tick = Some env1 ∧
    isTransitioning (store env1) = false ∧
    Timers.queue (loop env1) ≠ [] ∧
    abs env1 = None ∧
    elapse (leaveDuration - r) env1 ≫= tick = Some env2 ∧
    currentTimeline (store env2) = t ∧
    isTransitioning (store env2) = false.
Proof.
  intros Ha Hr Ht. destruct env as [st [now nid q]].
  pose proof (abs_timeline _ _ Ha) as Hc. simpl in Hc. subst c.
  unfold abs in Ha. simpl in Ha.
  destruct q as [|u [|]], (isTransitioning st) eqn:Hf; try done.
  case_decide; [| done].
  destruct u as [due sq cb]. simpl in *. destruct cb; [done |].
  injection Ha as <-. unfold leaveDuration in *.
  unfold handleTimelineSwitch. cbn [store]. rewrite decide_False by done.
  unfold elapse, Timers.wait, Timers.setTimeout. simpl.
  unfold leaveDuration, enterDuration in *.
  rewrite (proj2 (N.ltb_ge _ _)) by lia. simpl.
  rewrite !(proj2 (N.leb_le _ _)) by lia. simpl.
  unfold tick, Timers.fire. simpl.
  rewrite (proj2 (N.leb_le _ _)) by lia. simpl.
  eexists _, _. split_and!; [done | done | done | done | | |].
  - unfold elapse, Timers.wait. simpl.
    rewrite !(proj2 (N.leb_le _ _)) by lia. simpl.
    unfold tick, Timers.fire. simpl.
    rewrite (proj2 (N.leb_le _ _)) by lia. done.
  - done.
  - done.
Qed.

(** The initial environment is the machine at rest in the singularity. *)
Lemma abs_initial :
  abs MultiverseWatch.initial = Some (mkState singularity Idle).
Proof. done. Qed.

End Refinement.

(** A committed environment at rest, for the witnesses. *)
Definition at_rest (c : Timeline) : Env float :=
  mkEnv (setTimeline c Store.initial) Timers.empty.

(** During [Entering] with 100 ms left. *)
Definition entering (c : Timeline) : Env float :=
  mkEnv (setTransitioning true (setTimeline c Store.initial))
    (Timers.mkLoop 700 3 [Timers.mkTimer 800 2 EndTransition]).

Lemma refines_witness :
  ∃ a', step (mkState data Idle) (Request web3) a' ∧
        abs (handleTimelineSwitch web3 (at_rest data)) = Some a'.
Proof.
  apply (refines (at_rest data) (mkState data Idle) (Request web3));
    by intros.
Defined.

Lemma implements_witness :
  ∃ env', exec (Delay 100) (entering comic) = Some env' ∧
          abs env' = Some (mkState comic (Entering comic 0)).
Proof.
  apply (implements (entering comic) (mkState comic (Entering comic 100)));
    [done | by apply (step_delay_entering _ _ 100 100)].
Defined.

Lemma overlap_has_no_phase_witness :
  ∃ env1 env2,
    elapse 100 (handleTimelineSwitch data (entering comic)) ≫= tick
      = Some env1 ∧
    abs env1 = None ∧
    elapse 200 env1 ≫= tick = Some env2 ∧
    currentTimeline (store env2) = data ∧
    isTransitioning (store env2) = false.
Proof.
  destruct (overlap_has_no_phase (entering comic) comic 100 data)
    as (env1 & env2 & ? & _ & _ & ? & ? & ? & ?); [done.. |].
  by exists env1, env2.
Defined.

End Sequencer.
