(* ===== verification/AppShell.v ===== *)
(** * AppShell: the root component [App.tsx]

    [Module App] models the pointer tracker ([handleMouseMove], installed
    on [window] by the effect of lines 17-27), the scene selector
    ([renderTimeline]) and the tree the component returns.

    Theorems: inside the viewport the normalised pointer lies in
    [[-1, 1]] on both axes, with the corners and the centre where the
    comment says and [y] pointing up; outside the viewport nothing clamps
    it; a viewport of size zero yields an infinity or [NaN]; the selector
    maps the four timelines to four different scenes. *)

From Stdlib Require Import QArith Qcanon Lqa Floats.
From S2P Require Import Prelude JsNumber MultiverseStore.
From stdpp Require Import numbers.

Module App.
Import Store.

(** The fields of [MouseEvent] and [window] the handler reads. *)
Record MouseEvent (num : Type) : Type := mkMouseEvent {
  clientX : num;
  clientY : num;
}.
Arguments mkMouseEvent {num}.
Arguments clientX {num}.
Arguments clientY {num}.

Record Window (num : Type) : Type := mkWindow {
  innerWidth : num;
  innerHeight : num;
}.
Arguments mkWindow {num}.
Arguments innerWidth {num}.
Arguments innerHeight {num}.

(** The scene mounted inside the canvas. *)
Inductive Scene : Set := Singularity | TimelineData | TimelineComic | TimelineWeb3.

#[global] Instance Scene_eq_dec : EqDecision Scene.
Proof. solve_decision. Defined.

(** The overlays mounted beside the canvas, in order. *)
Inductive Overlay : Set :=
  RealityAnchor | MultiverseWatch | PortalTransition | SoundController.

Record AppView : Set := mkAppView {
  cameraPosition : list Z;
  fov : Z;
  antialias : bool;
  alpha : bool;
  scene : Scene;
  overlays : list Overlay;
}.

Section Handlers.
Context {num : Type} `{JsNum num}.
Local Open Scope js_scope.

(** [const handleMouseMove = (e: MouseEvent) => ...] *)
Definition handleMouseMove (window : Window num) (e : MouseEvent num)
    (state : MultiverseState num) : MultiverseState num :=
  let x := (clientX e / innerWidth window) * js_of_Z 2 - js_of_Z 1 in
  let y := - (clientY e / innerHeight window) * js_of_Z 2 + js_of_Z 1 in
  setMousePosition x y state.

End Handlers.

(** [const renderTimeline = () => { switch (currentTimeline) ... }] *)
Definition renderTimeline (currentTimeline : Timeline) : Scene :=
  match currentTimeline with
  | singularity => Singularity
  | data => TimelineData
  | comic => TimelineComic
  | web3 => TimelineWeb3
  end.

(** The returned tree (lines 44-58). *)
Definition render (currentTimeline : Timeline) : AppView :=
  mkAppView [0; 0; 5]%Z 75 true false (renderTimeline currentTimeline)
    [RealityAnchor; MultiverseWatch; PortalTransition; SoundController].

(** ** The pointer tracker in exact arithmetic *)

Section Exact.
Local Open Scope Qc_scope.
Implicit Types (cx cy w h : Qc) (state : MultiverseState xnum).

(** The handler's result for finite inputs and a viewport that is not
    empty. *)
Lemma handleMouseMove_Fin cx cy w h state :
  w ≠ 0 → h ≠ 0 →
  handleMouseMove (mkWindow (Fin w) (Fin h)) (mkMouseEvent (Fin cx) (Fin cy))
    state =
  setMousePosition (Fin (cx / w * Q2Qc 2 - 1)) (Fin (- (cy / h) * Q2Qc 2 + 1))
    state.
Proof.
  intros Hw Hh. unfold handleMouseMove. cbn [clientX clientY innerWidth innerHeight].
  change (@js_div xnum _) with xdiv. by rewrite !xdiv_Fin.
Qed.

(** C6: a pointer inside a non-empty viewport is normalised to
    [[-1, 1]] on both axes. *)
Theorem handleMouseMove_bounds cx cy w h state :
  0 < w → 0 < h → 0 <= cx → cx <= w → 0 <= cy → cy <= h →
  ∃ x y,
    mousePosition
      (handleMouseMove (mkWindow (Fin w) (Fin h))
         (mkMouseEvent (Fin cx) (Fin cy)) state) = mkVec2 (Fin x) (Fin y) ∧
    - (1) <= x ∧ x <= 1 ∧ - (1) <= y ∧ y <= 1.
Proof.
  intros Hw Hh ????.
  rewrite handleMouseMove_Fin by by apply Qc_pos_neq_0.
  eexists _, _. split; [done |].
  destruct (Qc_div_bounds cx w) as [? ?]; [done.. |].
  destruct (Qc_div_bounds cy h) as [? ?]; [done.. |].
  set (a := cx / w) in *. set (b := cy / h) in *. clearbody a b.
  split_and!; qc_lra.
Qed.

(** The corners and the centre of the viewport: the origin is at the
    centre and [y] points up. *)
Lemma handleMouseMove_landmarks w h state :
  0 < w → 0 < h →
  let at_ cx cy :=
    mousePosition (handleMouseMove (mkWindow (Fin w) (Fin h))
                     (mkMouseEvent (Fin cx) (Fin cy)) state) in
  at_ 0 0 = mkVec2 (Fin (- (1))) (Fin 1) ∧
  at_ w h = mkVec2 (Fin 1) (Fin (- (1))) ∧
  at_ (w / Q2Qc 2) (h / Q2Qc 2) = mkVec2 (Fin 0) (Fin 0).
Proof.
  intros Hw Hh at_. subst at_. cbv beta.
  pose proof (Qc_pos_neq_0 _ Hw) as Hw0. pose proof (Qc_pos_neq_0 _ Hh) as Hh0.
  assert (Hw' : ¬ (w == 0)%Q) by (intros E; by apply Hw0, Qc_is_canon).
  assert (Hh' : ¬ (h == 0)%Q) by (intros E; by apply Hh0, Qc_is_canon).
  rewrite !handleMouseMove_Fin by done. cbn [mousePosition setMousePosition].
  split_and!; f_equal; f_equal; apply Qc_is_canon; qc2q; by field.
Qed.

(** C28: nothing clamps the pointer.  An event beyond the right or bottom
    edge (a drag that leaves the window) is stored with [x > 1] or
    [y < -1]. *)
Theorem handleMouseMove_outside cx cy w h state :
  0 < w → 0 < h → w < cx → h < cy →
  ∃ x y,
    mousePosition
      (handleMouseMove (mkWindow (Fin w) (Fin h))
         (mkMouseEvent (Fin cx) (Fin cy)) state) = mkVec2 (Fin x) (Fin y) ∧
    1 < x ∧ y < - (1).
Proof.
  intros Hw Hh Hx Hy.
  rewrite handleMouseMove_Fin by by apply Qc_pos_neq_0.
  eexists _, _. split; [done |].
  assert (1 < cx / w) by (qc2q; apply Qlt_shift_div_l; lra).
  assert (1 < cy / h) by (qc2q; apply Qlt_shift_div_l; lra).
  set (a := cx / w) in *. set (b := cy / h) in *. clearbody a b.
  split; qc_lra.
Qed.

(** C29: with a viewport of size zero the division is by zero: the
    stored pointer is infinite, or [NaN] when the event is at the origin. *)
Theorem handleMouseMove_zero_viewport cx cy state :
  0 <= cx → 0 <= cy →
  mousePosition
    (handleMouseMove (mkWindow (Fin 0) (Fin 0))
       (mkMouseEvent (Fin cx) (Fin cy)) state) =
  mkVec2 (if decide (cx = 0) then NaN else PInf)
         (if decide (cy = 0) then NaN else NInf).
Proof.
  intros Hx Hy. unfold handleMouseMove.
  cbn [clientX clientY innerWidth innerHeight mousePosition setMousePosition].
  change (@js_div xnum _) with xdiv. rewrite !xdiv_Fin_0. unfold xsigned.
  f_equal; repeat case_decide; try done; exfalso; eauto using Qc_nonneg_neq_pos.
Qed.

End Exact.

Lemma handleMouseMove_bounds_witness :
  mousePosition (handleMouseMove (mkWindow (xq 800 1) (xq 600 1))
                   (mkMouseEvent (xq 200 1) (xq 150 1)) Store.initial)
  = mkVec2 (xq (-1) 2) (xq 1 2).
Proof.
  destruct (handleMouseMove_bounds (Q2Qc 200) (Q2Qc 150) (Q2Qc 800) (Q2Qc 600)
              Store.initial) as (x & y & Heq & _); [done.. |].
  by_compute.
Defined.

Lemma handleMouseMove_outside_witness :
  mousePosition (handleMouseMove (mkWindow (xq 800 1) (xq 600 1))
                   (mkMouseEvent (xq 1600 1) (xq 1200 1)) Store.initial)
  = mkVec2 (xq 3 1) (xq (-3) 1).
Proof.
  destruct (handleMouseMove_outside (Q2Qc 1600) (Q2Qc 1200) (Q2Qc 800)
              (Q2Qc 600) Store.initial) as (x & y & Heq & _); [done.. |].
  by_compute.
Defined.

Lemma handleMouseMove_zero_viewport_witness :
  mousePosition (handleMouseMove (mkWindow (xq 0 1) (xq 0 1))
                   (mkMouseEvent (xq 100 1) (xq 0 1)) Store.initial)
  = mkVec2 PInf NaN.
Proof.
  by rewrite (handleMouseMove_zero_viewport (Q2Qc 100) (Q2Qc 0) Store.initial).
Defined.

(** The same run in doubles: the browser stores [Infinity] and [NaN]. *)
Example handleMouseMove_zero_viewport_float :
  mousePosition (handleMouseMove (mkWindow (js_of_Z 0) (js_of_Z 0))
                   (mkMouseEvent (js_of_Z 100) (js_of_Z 0))
                   (Store.initial (num := float)))
  = mkVec2 PrimFloat.infinity PrimFloat.nan.
Proof. vm_compute. reflexivity. Qed.

(** ** The scene selector *)

(** the selector is a bijection between timelines and scenes: one
    scene is mounted at a time, each timeline has its own, and the
    [default] branch of the [switch] is never taken. *)
Theorem renderTimeline_bijective :
  (∀ t t', renderTimeline t = renderTimeline t' → t = t') ∧
  (∀ s, ∃ t, renderTimeline t = s) ∧
  (∀ t, renderTimeline t = Singularity ↔ t = singularity).
Proof.
  split_and!.
  - by intros [] [].
  - intros []; [by exists singularity | by exists data | by exists comic
                | by exists web3].
  - by intros [].
Qed.

End App.
