(* ===== verification/SingularityScene.v ===== *)
(** * SingularityScene: the undecided scene [Singularity.tsx]

    [Module Singularity] models the classifier [dominantTimeline], the
    per-frame callback given to [useFrame], the click handler
    [handleCommit] and the props the returned tree computes from the
    pointer (light intensities, the hero object's influences, the debris
    field's timeline and the glitch intensity).

    Theorems: the classifier's four regions and the order of its tests,
    for every number instance that satisfies [JsOrder]; its regions in
    rational terms; a [NaN] pointer is classified as undecided; a commit
    writes the timeline and nothing else, so the first commit shows no
    portal; the "interpolated" cursor influence is the pointer itself in
    exact arithmetic and differs from it in doubles; the lights are in
    [[0, 1]] and the data and web3 lights are never lit together. *)

From Stdlib Require Import QArith Qcanon Lqa Floats.
From S2P Require Import Prelude JsNumber MultiverseStore.
From stdpp Require Import numbers.

Module Singularity.
Import Store.

(** The refs of the component: [timeRef.current] and the rotation of the
    group [groupRef.current] points to ([None] before the group is
    attached). *)
Record Refs (num : Type) : Type := mkRefs {
  timeRef : num;
  groupRef : option (Vec2 num);
}.
Arguments mkRefs {num}.
Arguments timeRef {num}.
Arguments groupRef {num}.

Record Light (num : Type) : Type := mkLight {
  position : list Z;
  intensity : num;
  lightColor : string;
}.
Arguments mkLight {num}.
Arguments position {num}.
Arguments intensity {num}.
Arguments lightColor {num}.

(** [timelineInfluence], the prop of [HeroObject]. *)
Record Influence (num : Type) : Type := mkInfluence {
  inf_data : num;
  inf_comic : num;
  inf_web3 : num;
}.
Arguments mkInfluence {num}.
Arguments inf_data {num}.
Arguments inf_comic {num}.
Arguments inf_web3 {num}.

Record View (num : Type) : Type := mkView {
  ambientIntensity : num;
  lights : list (Light num);
  timelineInfluence : Influence num;
  debrisDominant : Timeline;
  glitchIntensity : num;
}.
Arguments mkView {num}.
Arguments ambientIntensity {num}.
Arguments lights {num}.
Arguments timelineInfluence {num}.
Arguments debrisDominant {num}.
Arguments glitchIntensity {num}.

Section Component.
Context {num : Type} `{JsNum num}.
Local Open Scope js_scope.

(** [const threshold = 0.3] *)
Definition threshold : num := dec 3 1.

(** [const dominantTimeline = useMemo(() => ..., [mousePosition])] *)
Definition dominantTimeline (mousePosition : Vec2 num) : Timeline :=
  if x mousePosition <? - threshold then data
  else if x mousePosition >? threshold then web3
  else if y mousePosition >? threshold then comic
  else singularity.

Definition initialRefs : Refs num := mkRefs (js_of_Z 0) None.

(** The group is attached when the tree is committed; its rotation starts
    at zero. *)
Definition attach (refs : Refs num) : Refs num :=
  mkRefs (timeRef refs) (Some (mkVec2 (js_of_Z 0) (js_of_Z 0))).

(** [useFrame((_, delta) => ...)] *)
Definition useFrame (delta : num) (refs : Refs num)
    (state : MultiverseState num) : Refs num * MultiverseState num :=
  let mousePosition := mousePosition state in
  let refs' :=
    mkRefs (timeRef refs + delta)
      (match groupRef refs with
       | Some _ => Some (mkVec2 (y mousePosition * dec 2 1)
                                (x mousePosition * dec 3 1))
       | None => None
       end) in
  (refs',
   setCursorInfluence
     (lerp (x mousePosition) (x mousePosition) (dec 1 1))
     (lerp (y mousePosition) (y mousePosition) (dec 1 1)) state).

(** [const handleCommit = () => ...] *)
Definition handleCommit (state : MultiverseState num) : MultiverseState num :=
  let dominantTimeline := dominantTimeline (mousePosition state) in
  if decide (dominantTimeline ≠ singularity)
  then setTimeline dominantTimeline state
  else state.

(** The returned tree (lines 48-84): what it passes down. *)
Definition render (state : MultiverseState num) : View num :=
  let mousePosition := mousePosition state in
  let dominantTimeline := dominantTimeline mousePosition in
  mkView (dec 2 1)
    [mkLight [-5; 0; 0]%Z (Math_max (js_of_Z 0) (- x mousePosition)) "#00ff41";
     mkLight [5; 0; 0]%Z (Math_max (js_of_Z 0) (x mousePosition)) "#7B2CBF";
     mkLight [0; 5; 0]%Z (Math_max (js_of_Z 0) (y mousePosition)) "#FF6B35"]
    (mkInfluence (Math_max (js_of_Z 0) (- x mousePosition))
                 (Math_max (js_of_Z 0) (y mousePosition))
                 (Math_max (js_of_Z 0) (x mousePosition)))
    dominantTimeline
    (if decide (dominantTimeline ≠ singularity) then dec 5 1 else dec 2 1).

(** ** The classifier, for every instance *)

Section Classifier.
Context `{!JsOrder num}.
Hypothesis threshold_pos : (js_of_Z 0 <? threshold) = true.

(** Left of [-threshold] excludes right of [threshold]. *)
Lemma left_not_right (a : num) :
  (a <? - threshold) = true → (a >? threshold) = false.
Proof.
  intros Hl. apply js_lt_asym.
  eauto using js_lt_trans, js_lt_neg_pos.
Qed.

(** C7: the classifier's regions.  [data] is exactly [x < -threshold]
    and [web3] exactly [x > threshold], whatever [y] is; [comic] is
    [y > threshold] with [x] in neither; [singularity] is what remains.
    The tests on [x] come first, and they exclude each other. *)
Theorem dominantTimeline_regions (p : Vec2 num) :
  (dominantTimeline p = data ↔ (x p <? - threshold) = true) ∧
  (dominantTimeline p = web3 ↔ (x p >? threshold) = true) ∧
  (dominantTimeline p = comic ↔
     (x p <? - threshold) = false ∧ (x p >? threshold) = false ∧
     (y p >? threshold) = true) ∧
  (dominantTimeline p = singularity ↔
     (x p <? - threshold) = false ∧ (x p >? threshold) = false ∧
     (y p >? threshold) = false).
Proof.
  unfold dominantTimeline.
  destruct (x p <? - threshold) eqn:Hl.
  { rewrite (left_not_right _ Hl). naive_solver. }
  destruct (x p >? threshold) eqn:Hr; [naive_solver |].
  destruct (y p >? threshold) eqn:Hu; naive_solver.
Qed.

End Classifier.

(** ** The commit *)

Lemma handleCommit_frame (state : MultiverseState num) f :
  f ≠ FTimeline → agree f (handleCommit state) state.
Proof. intros Hf. unfold handleCommit. simpl. case_decide; by destruct f. Qed.

(** C32: a commit writes the timeline, and only when the pointer has a
    dominant timeline; the transition flag and the other fields are left
    as they were, so the first commit is not a transition. *)
Theorem handleCommit_spec (state : MultiverseState num) :
  let d := dominantTimeline (mousePosition state) in
  currentTimeline (handleCommit state) =
    (if decide (d = singularity) then currentTimeline state else d) ∧
  ∀ f, f ≠ FTimeline → agree f (handleCommit state) state.
Proof.
  split; [| apply handleCommit_frame].
  unfold handleCommit. simpl. repeat case_decide; done.
Qed.

(** A commit from the singularity leaves it exactly when the pointer has
    a dominant timeline. *)
Lemma handleCommit_leaves (state : MultiverseState num) :
  currentTimeline state = singularity →
  currentTimeline (handleCommit state) = dominantTimeline (mousePosition state).
Proof.
  intros Hs. unfold handleCommit. simpl. case_decide as Hd; [done |].
  congruence.
Qed.

Lemma useFrame_fields delta refs state f :
  f ≠ FInfluence → agree f (useFrame delta refs state).2 state.
Proof. by destruct f. Qed.

End Component.

(** ** The classifier in exact arithmetic *)

Section Exact.
Local Open Scope Qc_scope.
Implicit Types (a b : Qc).

Lemma threshold_pos_xnum : js_lt (js_of_Z 0) (threshold (num := xnum)) = true.
Proof. by_compute. Qed.

Lemma threshold_xnum : threshold (num := xnum) = Fin (Q2Qc (3 # 10)).
Proof. by_compute. Qed.

(** the regions in rational terms, for a finite pointer. *)
Theorem dominantTimeline_exact a b :
  let T := Q2Qc (3 # 10) in
  dominantTimeline (mkVec2 (Fin a) (Fin b)) =
    if decide (a < - T) then data
    else if decide (T < a) then web3
    else if decide (T < b) then comic
    else singularity.
Proof.
  unfold dominantTimeline. rewrite threshold_xnum. cbn -[Qclt].
  repeat (case_decide);
    rewrite ?bool_decide_eq_true_2, ?bool_decide_eq_false_2 by done; done.
Qed.

(** A pointer whose [x] is [NaN] can still be classified [comic]: each
    test is false on its own. *)
Lemma dominantTimeline_NaN_x (v : xnum) :
  dominantTimeline (mkVec2 NaN v) =
    if js_lt (threshold (num := xnum)) v then comic else singularity.
Proof. done. Qed.


(** for a finite pointer in [[-1, 1]] the three light intensities
    are in [[0, 1]], and the data light and the web3 light are never lit
    together. *)
Theorem render_lights_exact a b state :
  mousePosition state = mkVec2 (Fin a) (Fin b) →
  - (1) <= a → a <= 1 → - (1) <= b → b <= 1 →
  ∃ ld lw lc,
    intensity <$> lights (render state) = [Fin ld; Fin lw; Fin lc] ∧
    (0 <= ld ∧ ld <= 1) ∧ (0 <= lw ∧ lw <= 1) ∧ (0 <= lc ∧ lc <= 1) ∧
    (ld = 0 ∨ lw = 0).
Proof.
  intros Hm ????. unfold render. rewrite Hm.
  cbn [lights fmap list_fmap intensity x y].
  change (@js_neg xnum _ (Fin a)) with (Fin (- a)).
  change (@js_of_Z xnum _ 0) with (Fin 0).
  rewrite !Math_max_Fin. eexists _, _, _. split; [done |].
  repeat case_bool_decide; split_and!; try done; try qc_lra.
  all: by (left + right).
Qed.

End Exact.

(** ** The classifier in doubles *)

Lemma threshold_pos_float :
  js_lt (js_of_Z 0) (threshold (num := float)) = true.
Proof. vm_compute. reflexivity. Qed.

Lemma dominantTimeline_regions_witness :
  dominantTimeline (mkVec2 (dec (num := float) (-5) 1) (dec 9 1)) = data.
Proof.
  apply (dominantTimeline_regions threshold_pos_float).
  vm_compute. reflexivity.
Defined.

(** A [NaN] pointer, as a zero-sized viewport produces, is undecided. *)
Lemma dominantTimeline_nan (v : float) :
  dominantTimeline (mkVec2 PrimFloat.nan PrimFloat.nan) = singularity.
Proof.
  unfold dominantTimeline. cbn [x y js_lt float64].
  by rewrite float_lt_nan_l, !float_lt_nan_r.
Qed.

(** In doubles the interpolation of [0.3] with itself is not [0.3]: the
    pointer is not right of the threshold but the influence is. *)
Example useFrame_influence_float :
  let state := setMousePosition (dec 3 1) (js_of_Z 0)
                 (Store.initial (num := float)) in
  let state' := (useFrame (dec 16 3) initialRefs state).2 in
  js_lt (threshold (num := float)) (x (mousePosition state')) = false ∧
  js_lt (threshold (num := float)) (x (cursorInfluence state')) = true.
Proof. vm_compute. done. Qed.


Lemma render_lights_exact_witness :
  ∃ ld lw lc,
    intensity <$> lights
      (render (setMousePosition (xq 3 10) (xq (-1) 2) Store.initial))
    = [Fin ld; Fin lw; Fin lc] ∧ (ld = 0%Qc ∨ lw = 0%Qc).
Proof.
  destruct (render_lights_exact (Q2Qc (3 # 10)) (Q2Qc (-1 # 2))
              (setMousePosition (xq 3 10) (xq (-1) 2) Store.initial))
    as (ld & lw & lc & ? & _ & _ & _ & ?); [done.. |].
  by exists ld, lw, lc.
Defined.

End Singularity.
