(* ===== verification/Cursor.v ===== *)
(** * Cursor: the custom cursor [RealityAnchor.tsx]

    [Module RealityAnchor] models the component's state [position], its
    [mousemove] listener, the two style functions [getCursorStyle] and
    [getInnerDot], and the returned tree.

    The component repeats the classifier of [Singularity.tsx] twice.  The
    theorems show that the three copies agree: in the singularity the
    inner dot names the dominant timeline (or [none]), once committed it
    names the active one, and the ring's colour is always the dot's. *)

From S2P Require Import Prelude JsNumber MultiverseStore AppShell SingularityScene.

Module RealityAnchor.
Import Store.

Record View (num : Type) : Type := mkView {
  ringClass : string;
  left : num;
  top : num;
  innerPulse : option string;
  trailLeft : num;
  trailTop : num;
}.
Arguments mkView {num}.
Arguments ringClass {num}.
Arguments left {num}.
Arguments top {num}.
Arguments innerPulse {num}.
Arguments trailLeft {num}.
Arguments trailTop {num}.

Section Component.
Context {num : Type} `{JsNum num}.
Local Open Scope js_scope.

(** [useState({ x: 0, y: 0 })] *)
Definition initialPosition : Vec2 num := mkVec2 (js_of_Z 0) (js_of_Z 0).

(** [const handleMouseMove = (e) => setPosition(...)] *)
Definition handleMouseMove (e : App.MouseEvent num) (position : Vec2 num)
    : Vec2 num :=
  mkVec2 (App.clientX e) (App.clientY e).

(** [const getCursorStyle = () => ...] *)
Definition getCursorStyle (state : MultiverseState num) : string :=
  let threshold : num := dec 3 1 in
  if decide (currentTimeline state ≠ singularity) then
    match currentTimeline state with
    | data => "border-data-primary shadow-data-glow"
    | comic => "border-comic-primary shadow-comic-accent"
    | web3 => "border-web3-primary shadow-web3-gold"
    | singularity => "border-white"
    end
  else if x (mousePosition state) <? - threshold
       then "border-data-primary shadow-data-glow"
  else if x (mousePosition state) >? threshold
       then "border-web3-primary shadow-web3-gold"
  else if y (mousePosition state) >? threshold
       then "border-comic-primary shadow-comic-accent"
  else "border-white".

(** [const getInnerDot = () => ...] *)
Definition getInnerDot (state : MultiverseState num) : string :=
  let threshold : num := dec 3 1 in
  if decide (currentTimeline state ≠ singularity)
  then Timeline_str (currentTimeline state)
  else if x (mousePosition state) <? - threshold then "data"
  else if x (mousePosition state) >? threshold then "web3"
  else if y (mousePosition state) >? threshold then "comic"
  else "none".

(** The returned tree (lines 65-100). *)
Definition render (position : Vec2 num) (state : MultiverseState num)
    : View num :=
  let innerDot := getInnerDot state in
  mkView
    ("fixed w-8 h-8 border-2 rounded-full pointer-events-none z-50 transition-all duration-100 "
       +:+ getCursorStyle state)
    (x position) (y position)
    (if decide (innerDot ≠ "none")
     then Some ("absolute inset-0 rounded-full animate-ping " +:+
                (if decide (innerDot = "data") then "bg-data-primary"
                 else if decide (innerDot = "comic") then "bg-comic-primary"
                 else "bg-web3-primary"))
     else None)
    (x position) (y position).

(** The timeline a dot names, and the ring style of a timeline. *)
Definition dot_of (t : Timeline) : string :=
  match t with
  | singularity => "none"
  | _ => Timeline_str t
  end.

Definition style_of (t : Timeline) : string :=
  match t with
  | data => "border-data-primary shadow-data-glow"
  | comic => "border-comic-primary shadow-comic-accent"
  | web3 => "border-web3-primary shadow-web3-gold"
  | singularity => "border-white"
  end.

(** The timeline the cursor shows: the active one, or the dominant one
    while undecided. *)
Definition shown (state : MultiverseState num) : Timeline :=
  if decide (currentTimeline state ≠ singularity) then currentTimeline state
  else Singularity.dominantTimeline (mousePosition state).

Lemma getInnerDot_shown (state : MultiverseState num) :
  getInnerDot state = dot_of (shown state).
Proof.
  unfold getInnerDot, shown, Singularity.dominantTimeline, Singularity.threshold.
  case_decide; [by destruct (currentTimeline state) |].
  by repeat case_match.
Qed.

Lemma getCursorStyle_shown (state : MultiverseState num) :
  getCursorStyle state = style_of (shown state).
Proof.
  unfold getCursorStyle, shown, Singularity.dominantTimeline,
    Singularity.threshold.
  case_decide; [by destruct (currentTimeline state) |].
  by repeat case_match.
Qed.

(** C33: the cursor's two copies of the classifier agree with the
    scene's: the inner dot and the ring both show the active timeline once
    committed and the dominant timeline while undecided; the [default]
    branch of the [switch] is dead. *)
Theorem cursor_agrees (state : MultiverseState num) :
  getInnerDot state = dot_of (shown state) ∧
  getCursorStyle state = style_of (shown state).
Proof. split; [apply getInnerDot_shown | apply getCursorStyle_shown]. Qed.

(** the tree shows the pulse exactly when a timeline is shown, in
    that timeline's colour, and both cursor elements sit at the pointer. *)
Theorem anchor_render_spec (position : Vec2 num) (state : MultiverseState num) :
  let v := render position state in
  innerPulse v =
    match shown state with
    | singularity => None
    | data => Some "absolute inset-0 rounded-full animate-ping bg-data-primary"
    | comic => Some "absolute inset-0 rounded-full animate-ping bg-comic-primary"
    | web3 => Some "absolute inset-0 rounded-full animate-ping bg-web3-primary"
    end ∧
  (left v, top v) = (x position, y position) ∧
  (trailLeft v, trailTop v) = (x position, y position).
Proof.
  unfold render. cbn [innerPulse left top trailLeft trailTop].
  rewrite getInnerDot_shown.
  by destruct (shown state).
Qed.

End Component.

End RealityAnchor.
