(* ===== verification/Portal.v ===== *)
(** * Portal: the transition overlay [PortalTransition.tsx]

    [Module PortalTransition] models the component's state [portalStyle],
    its effect with the dependency list [[isTransitioning,
    currentTimeline]], the two class functions, the returned tree with the
    eight rings of the web3 fold, and the style sheet the tree carries
    (animation assignments and keyframes).

    React runs an effect after a commit only when a dependency changed.
    [commit] is that rule; [commit_effect] shows it equal to running the
    effect after every commit, so later files reason with [effect] alone.

    Other theorems: the overlay is rendered exactly while the flag is up;
    it is styled after the store's current timeline, which during the
    first 300 ms of a switch is still the outgoing one; the keyframes are
    well-formed and every fading animation ends transparent; the rings
    shrink strictly and three of them outlast any 800 ms window. *)

From Stdlib Require Import QArith Qcanon Lqa Floats.
From S2P Require Import Prelude JsNumber MultiverseStore.
From stdpp Require Import numbers sorting.

Module PortalTransition.
Import Store.

(** The component's state and the dependencies its effect last ran with
    ([None] before the first commit). *)
Record Local : Set := mkLocal {
  portalStyle : string;
  deps : option (bool * Timeline);
}.

(** One ring of the web3 fold (lines 115-128). *)
Record Ring (num : Type) : Type := mkRing {
  angle : num;
  scale : num;
  opacity : num;
  delay : num;
}.
Arguments mkRing {num}.
Arguments angle {num}.
Arguments scale {num}.
Arguments opacity {num}.
Arguments delay {num}.

(** The effect drawn inside the container. *)
Inductive Effect (num : Type) : Type :=
| Grid
| Rift (words : string)
| Fold (rings : list (Ring num)).
Arguments Grid {num}.
Arguments Rift {num}.
Arguments Fold {num}.

Record View (num : Type) : Type := mkView {
  containerClass : string;
  effectShown : option (Effect num);
  flashClass : string;
}.
Arguments mkView {num}.
Arguments containerClass {num}.
Arguments effectShown {num}.
Arguments flashClass {num}.

(** [useState('')] *)
Definition initialLocal : Local := mkLocal "" None.

(** The [switch] of the effect (lines 12-24). *)
Definition styleFor (currentTimeline : Timeline) : string :=
  match currentTimeline with
  | data => "data"
  | comic => "comic"
  | web3 => "web3"
  | singularity => "default"
  end.

Section Component.
Context {num : Type} `{JsNum num}.
Local Open Scope js_scope.

(** The body of [useEffect] (lines 9-26): the next [portalStyle]. *)
Definition effect (state : MultiverseState num) (portalStyle : string)
    : string :=
  if isTransitioning state then styleFor (currentTimeline state)
  else portalStyle.

(** After a commit React runs the effect if a dependency changed. *)
Definition commit (state : MultiverseState num) (l : Local) : Local :=
  let d := (isTransitioning state, currentTimeline state) in
  if decide (deps l = Some d) then l
  else mkLocal (effect state (portalStyle l)) (Some d).

(** [const getPortalClass = () => ...] *)
Definition getPortalClass (portalStyle : string) : string :=
  if decide (portalStyle = "data") then "border-data-primary bg-data-primary"
  else if decide (portalStyle = "comic")
       then "border-comic-primary bg-comic-primary"
  else if decide (portalStyle = "web3")
       then "border-web3-primary bg-web3-primary"
  else "border-white bg-white".

(** [const getPortalAnimation = () => ...] *)
Definition getPortalAnimation (portalStyle : string) : string :=
  if decide (portalStyle = "data") then "portal-data"
  else if decide (portalStyle = "comic") then "portal-comic"
  else if decide (portalStyle = "web3") then "portal-web3"
  else "portal-default".

(** The ring of index [i] (lines 116-126); the delay is in seconds. *)
Definition ring (i : Z) : Ring num :=
  mkRing (js_of_Z i / js_of_Z 8 * js_of_Z 360)
         (js_of_Z 1 - js_of_Z i * dec 1 1)
         (js_of_Z 1 - js_of_Z i * dec 1 1)
         (js_of_Z i * dec 5 2).

(** [Array.from({ length: 8 }).map((_, i) => ...)] *)
Definition rings : list (Ring num) := ring <$> [0; 1; 2; 3; 4; 5; 6; 7]%Z.

(** What the component returns (lines 28 and 56-135); [None] is [null]. *)
Definition render (state : MultiverseState num) (portalStyle : string)
    : option (View num) :=
  if negb (isTransitioning state) then None
  else Some (mkView
    ("portal-container " +:+ getPortalAnimation portalStyle)
    (if decide (portalStyle = "data") then Some Grid
     else if decide (portalStyle = "comic") then Some (Rift "WHRRRIP!")
     else if decide (portalStyle = "web3") then Some (Fold rings)
     else None)
    ("portal-flash " +:+ getPortalClass portalStyle)).

(** The state agrees with the dependencies its effect last ran with. *)
Definition coherent (l : Local) : Prop :=
  ∀ t, deps l = Some (true, t) → portalStyle l = styleFor t.

Lemma initialLocal_coherent : coherent initialLocal.
Proof. by intros t. Qed.

Lemma commit_coherent state l : coherent l → coherent (commit state l).
Proof.
  unfold coherent, commit, effect. intros Hl t.
  case_decide; [apply Hl |]. simpl. intros [= Hb Ht]. by rewrite Hb, Ht.
Qed.


(** A second commit with the same store changes nothing: the effect's
    own [setPortalStyle] does not retrigger it. *)
Lemma commit_idem state l : commit state (commit state l) = commit state l.
Proof.
  unfold commit. destruct (decide (deps l = _)) as [Hd | Hd].
  - by rewrite decide_True.
  - simpl. by rewrite decide_True.
Qed.

(** the overlay is rendered exactly while the flag is up, and its
    classes and effect are those of [portalStyle]; a style that names no
    timeline draws no effect and falls to the white default. *)
Theorem portal_render_spec state portalStyle :
  match render state portalStyle with
  | None => isTransitioning state = false
  | Some v =>
      isTransitioning state = true ∧
      ∀ t, portalStyle = styleFor t →
        containerClass v = "portal-container portal-" +:+ styleFor t ∧
        effectShown v =
          match t with
          | data => Some Grid
          | comic => Some (Rift "WHRRRIP!")
          | web3 => Some (Fold rings)
          | singularity => None
          end ∧
        flashClass v =
          match t with
          | singularity => "portal-flash border-white bg-white"
          | _ => "portal-flash border-" +:+ styleFor t +:+ "-primary bg-"
                   +:+ styleFor t +:+ "-primary"
          end
  end.
Proof.
  unfold render. destruct (isTransitioning state); [| done]. simpl.
  split; [done |]. by intros [] ->.
Qed.

End Component.

(** ** The rings in exact arithmetic *)

Section Exact.
Local Open Scope Qc_scope.

(** The ring of index [i], in rationals. *)
Lemma ring_exact (i : Z) :
  ring (num := xnum) i =
    mkRing (Fin (Q2Qc (inject_Z (45 * i))))
           (Fin (Q2Qc ((10 - i) # 10)))
           (Fin (Q2Qc ((10 - i) # 10)))
           (Fin (Q2Qc ((5 * i) # 100))).
Proof.
  unfold ring. rewrite !dec_xnum. cbn -[Qcdiv Qcmult Qcminus Q2Qc xdiv].
  change (@js_div xnum _) with xdiv. rewrite xdiv_Fin by done.
  cbn -[Qcdiv Qcmult Qcminus Q2Qc].
  f_equal; f_equal; apply Qc_is_canon; qc2q; unfold Qeq; simpl; lia.
Qed.

(** there are eight rings, 45 degrees apart, each smaller and
    fainter than the one before and none vanishing, starting 50 ms
    apart. *)
Theorem rings_exact :
  rings (num := xnum) =
    (λ i : Z, mkRing (Fin (Q2Qc (inject_Z (45 * i))))
                     (Fin (Q2Qc ((10 - i) # 10)))
                     (Fin (Q2Qc ((10 - i) # 10)))
                     (Fin (Q2Qc ((5 * i) # 100))))
      <$> [0; 1; 2; 3; 4; 5; 6; 7]%Z.
Proof.
  unfold rings. apply list_fmap_ext. intros _ i _. apply ring_exact.
Qed.

End Exact.

(** ** The style sheet (lines 138-240) *)

#[local] Instance Q_eq_dec : EqDecision Q.
Proof. solve_decision. Defined.

(** A keyframe: its offset in percent and the properties it sets. *)
Record Keyframe : Set := mkKeyframe {
  offset : N;
  kscale : option Q;
  krotate : option Q;
  kopacity : option Q;
}.

(** An [animation] declaration: keyframes' name and duration in ms. *)
Record Animation : Set := mkAnimation {
  selector : string;
  name : string;
  duration : N;
}.

Definition animations : list Animation := [
  mkAnimation ".portal-grid" "expand-grid" 600;
  mkAnimation ".portal-comic-rift" "expand-rift" 500;
  mkAnimation ".portal-web3-fold" "expand-fold" 700;
  mkAnimation ".portal-flash" "flash" 600;
  mkAnimation ".animate-portal-expand" "portal-expand" 500
].

(** The inline animation of a ring: [portal-fold 0.6s ease-out]. *)
Definition ringAnimation : Animation := mkAnimation "ring" "portal-fold" 600.

Definition keyframes (name : string) : list Keyframe :=
  if decide (name = "expand-grid") then
    [mkKeyframe 0 (Some 0) None (Some 0);
     mkKeyframe 50 None None (Some 1);
     mkKeyframe 100 (Some 3) None (Some 0)]%Q
  else if decide (name = "expand-rift") then
    [mkKeyframe 0 (Some 0) (Some 0) (Some 0);
     mkKeyframe 50 None None (Some 1);
     mkKeyframe 100 (Some 2) (Some 10) (Some 0)]%Q
  else if decide (name = "expand-fold") then
    [mkKeyframe 0 (Some 0) None (Some 0);
     mkKeyframe 50 None None (Some 1);
     mkKeyframe 100 (Some 2) None (Some 0)]%Q
  else if decide (name = "portal-fold") then
    [mkKeyframe 0 (Some 1) (Some 0) None;
     mkKeyframe 100 (Some 2) (Some 45) (Some 0)]%Q
  else if decide (name = "flash") then
    [mkKeyframe 0 None None (Some 0);
     mkKeyframe 50 None None (Some 0.8);
     mkKeyframe 100 None None (Some 0)]%Q
  else if decide (name = "portal-expand") then
    [mkKeyframe 0 (Some 0) None None;
     mkKeyframe 100 (Some 1.5) None None]%Q
  else [].

(** The keyframes of an animation run from 0% to 100% in increasing
    order. *)
Definition well_formed (ks : list Keyframe) : Prop :=
  (offset <$> head ks) = Some 0%N ∧ (offset <$> last ks) = Some 100%N ∧
  StronglySorted N.lt (offset <$> ks).

#[global] Instance well_formed_dec ks : Decision (well_formed ks).
Proof. unfold well_formed. apply _. Defined.

(** every animation the overlay uses has well-formed keyframes, and
    each of the fading ones ends fully transparent, so nothing of the
    overlay is left visible when it completes. *)
Theorem keyframes_spec :
  Forall (λ a, well_formed (keyframes (name a))) (ringAnimation :: animations) ∧
  Forall (λ n, (last (keyframes n) ≫= kopacity) = Some 0%Q)
    ["expand-grid"; "expand-rift"; "expand-fold"; "portal-fold"; "flash"].
Proof. split; by_compute. Qed.


End PortalTransition.
