(* ===== verification/Sound.v ===== *)
(** * Sound: the soundscapes of [SoundController.tsx]

    [Module SoundController] models the component that builds a Web Audio
    graph for the active timeline.  The component only ever writes to the
    audio graph, so the [AudioContext] is modelled by what it has been
    told: the list of API calls in order ([Call]), the number of nodes
    created, and its clock.  [started], [stopped] and [running] read the
    state of an oscillator off that list.

    The component's code runs in the monad [M]: it reads the context's
    clock, updates the two ref objects and the node counter, and emits
    calls.  [for_lt] is the loop [for (let t = 0; t < 60; t += step)];
    the source has no bound on it, the model takes [fuel] and fails when
    it runs out.  [iterates] is the sequence of values the loop variable
    takes.

    [commit] is React's rule for the effect: when a dependency changed,
    the cleanup the last run returned is run and then the effect.

    Theorems: the loops terminate, with 600, 400, 300 and 240 pulses for
    the data voices and 120 and 240 for the comic ones in exact
    arithmetic, and one pulse more for the second data voice in doubles;
    after the effect has run with sound enabled, exactly the oscillators
    of the active timeline's soundscape are tracked, each is running, and
    the ones tracked before are stopped; the vibrato oscillators of the
    web3 soundscape are never tracked, so nothing ever stops them;
    disabling sound stops every tracked oscillator and leaves [isPlaying]
    up. *)

From Stdlib Require Import QArith Qcanon Lqa Floats.
From S2P Require Import Prelude JsNumber MultiverseStore.
From stdpp Require Import numbers pretty sets.

Module SoundController.
Import Store.

(** ** The Web Audio interface the component uses *)

Inductive OscillatorType : Set := sine | square | sawtooth | triangle.

(** What a node's output is connected to. *)
Inductive Input : Set :=
| Destination
| NodeInput (node : nat)
| FrequencyParam (oscillator : nat).

Inductive Call (num : Type) : Type :=
| CreateOscillator (node : nat)
| CreateGain (node : nat)
| SetType (node : nat) (type : OscillatorType)
| SetFrequency (node : nat) (value : num)
| SetGain (node : nat) (value : num)
| SetValueAtTime (node : nat) (value startTime : num)
| LinearRampToValueAtTime (node : nat) (value endTime : num)
| Connect (source : nat) (input : Input)
| Start (node : nat)
| Stop (node : nat).
Arguments CreateOscillator {num}.
Arguments CreateGain {num}.
Arguments SetType {num}.
Arguments SetFrequency {num}.
Arguments SetGain {num}.
Arguments SetValueAtTime {num}.
Arguments LinearRampToValueAtTime {num}.
Arguments Connect {num}.
Arguments Start {num}.
Arguments Stop {num}.

(** An [AudioContext]: its clock in seconds, the nodes created so far
    (a node is its index), and the calls made on it and on its nodes. *)
Record AudioContext (num : Type) : Type := mkContext {
  currentTime : num;
  nextNode : nat;
  calls : list (Call num);
}.
Arguments mkContext {num}.
Arguments currentTime {num}.
Arguments nextNode {num}.
Arguments calls {num}.

(** A JavaScript object with string keys, in insertion order. *)
Definition Obj : Set := list (string * nat).

(** [o[key] = value] *)
Fixpoint obj_set (key : string) (value : nat) (o : Obj) : Obj :=
  match o with
  | [] => [(key, value)]
  | (k, v) :: o' =>
      if decide (k = key) then (k, value) :: o'
      else (k, v) :: obj_set key value o'
  end.

(** [Object.values(o)] *)
Definition Object_values (o : Obj) : list nat := o.*2.

(** What the effect's code can change: the node counter of the context
    and the two refs. *)
Record Refs : Set := mkRefs {
  next : nat;
  oscillators : Obj;
  gainNodes : Obj;
}.

(** The component's state between commits. *)
Record Local (num : Type) : Type := mkLocal {
  isPlaying : bool;
  audioContextRef : option (AudioContext num);
  oscillatorsRef : Obj;
  gainNodesRef : Obj;
  deps : option (Timeline * bool);
  cleanup : bool;
}.
Arguments mkLocal {num}.
Arguments isPlaying {num}.
Arguments audioContextRef {num}.
Arguments oscillatorsRef {num}.
Arguments gainNodesRef {num}.
Arguments deps {num}.
Arguments cleanup {num}.

(** The button the component returns (lines 187-212). *)
Inductive Icon : Set := SpeakerOn | SpeakerOff.

Record View : Set := mkView {
  textClass : string;
  title : string;
  icon : Icon;
}.

(** ** Reading an oscillator's state off the calls *)

Section Calls.
Context {num : Type}.

Definition starts (cs : list (Call num)) : list nat :=
  omap (λ c, match c with Start n => Some n | _ => None end) cs.

Definition stops (cs : list (Call num)) : list nat :=
  omap (λ c, match c with Stop n => Some n | _ => None end) cs.

(** The nodes created by the calls. *)
Definition creates (cs : list (Call num)) : list nat :=
  omap (λ c, match c with
             | CreateOscillator n | CreateGain n => Some n
             | _ => None
             end) cs.

(** The node a call is made on. *)
Definition node_of (c : Call num) : nat :=
  match c with
  | CreateOscillator n | CreateGain n | SetType n _ | SetFrequency n _
  | SetGain n _ | SetValueAtTime n _ _ | LinearRampToValueAtTime n _ _
  | Connect n _ | Start n | Stop n => n
  end.

(** An oscillator sounds from [start()] until [stop()]. *)
Definition running (n : nat) (cs : list (Call num)) : Prop :=
  n ∈ starts cs ∧ n ∉ stops cs.

#[global] Instance running_dec n cs : Decision (running n cs).
Proof. unfold running. apply _. Defined.

End Calls.

(** ** The monad of the effect's code *)

Section Monad.
Context {num : Type} `{JsNum num}.
Local Open Scope js_scope.

(** A computation reads the context's clock, updates the refs and emits
    calls; [None] is a loop that ran out of fuel. *)
Definition M (A : Type) : Type :=
  num → Refs → option (A * Refs * list (Call num)).

#[global] Instance M_ret : MRet M := λ A a _ s, Some (a, s, []).

#[global] Instance M_bind : MBind M := λ A B f m ct s,
  match m ct s with
  | Some (a, s1, out1) =>
      match f a ct s1 with
      | Some (b, s2, out2) => Some (b, s2, out1 ++ out2)
      | None => None
      end
  | None => None
  end.

Definition fail {A} : M A := λ _ _, None.

(** Several calls, in order. *)
Definition emit (cs : list (Call num)) : M unit := λ _ s, Some (tt, s, cs).

(** A call whose arguments read [audioContext.currentTime]. *)
Definition call (c : num → Call num) : M unit := λ ct s, Some (tt, s, [c ct]).

(** [audioContext.createOscillator()] *)
Definition createOscillator : M nat := λ _ s,
  Some (next s, mkRefs (S (next s)) (oscillators s) (gainNodes s),
        [CreateOscillator (next s)]).

(** [audioContext.createGain()] *)
Definition createGain : M nat := λ _ s,
  Some (next s, mkRefs (S (next s)) (oscillators s) (gainNodes s),
        [CreateGain (next s)]).

(** [oscillatorsRef.current[key] = oscillator] *)
Definition setOscillator (key : string) (oscillator : nat) : M unit := λ _ s,
  Some (tt, mkRefs (next s) (obj_set key oscillator (oscillators s))
              (gainNodes s), []).

(** [gainNodesRef.current[key] = gainNode] *)
Definition setGainNode (key : string) (gainNode : nat) : M unit := λ _ s,
  Some (tt, mkRefs (next s) (oscillators s)
              (obj_set key gainNode (gainNodes s)), []).

(** [oscillatorsRef.current = {}; gainNodesRef.current = {}] *)
Definition resetRefs : M unit := λ _ s, Some (tt, mkRefs (next s) [] [], []).

(** [Object.values(oscillatorsRef.current).forEach(osc => { try {
    osc.stop() } catch (e) {} })] *)
Definition stopAll : M unit := λ _ s,
  Some (tt, s, Stop <$> Object_values (oscillators s)).

(** [array.forEach((x, i) => ...)] *)
Fixpoint forEach_from {A} (f : A → nat → M unit) (i : nat) (l : list A)
    : M unit :=
  match l with
  | [] => mret tt
  | a :: l' => f a i ;; forEach_from f (S i) l'
  end.

Definition forEach {A} (f : A → nat → M unit) (l : list A) : M unit :=
  forEach_from f 0 l.

(** [for (let t = t0; t < limit; t += step) body(t)] *)
Fixpoint for_lt (fuel : nat) (t limit step : num) (body : num → M unit)
    : M unit :=
  match fuel with
  | O => fail
  | S fuel' =>
      if t <? limit
      then body t ;; for_lt fuel' (t + step) limit step body
      else mret tt
  end.

(** The values the loop variable takes. *)
Fixpoint iterates (fuel : nat) (t limit step : num) : option (list num) :=
  match fuel with
  | O => None
  | S fuel' =>
      if t <? limit then (t ::.) <$> iterates fuel' (t + step) limit step
      else Some []
  end.

End Monad.

Arguments for_lt : simpl never.
Arguments iterates : simpl never.

(** ** The component *)

Section Component.
Context {num : Type} `{JsNum num}.
Context (fuel : nat).
Local Open Scope js_scope.

(** The gain pulses of one voice: on at [t], off [width] later. *)
Definition pulse (gainNode : nat) (level width : num) (t ct : num)
    : list (Call num) :=
  [SetValueAtTime gainNode level (ct + t);
   SetValueAtTime gainNode (js_of_Z 0) (ct + t + width)].

(** [const pulseInterval = 0.1 + i * 0.05] *)
Definition pulseInterval (i : nat) : num :=
  dec 1 1 + js_of_Z (Z.of_nat i) * dec 5 2.

(** One voice of the data soundscape: the callback of [forEach]
    (lines 69-90). *)
Definition dataVoice (freq : Z) (i : nat) : M unit :=
  oscillator ← createOscillator;
  gainNode ← createGain;
  emit [SetType oscillator sine; SetFrequency oscillator (js_of_Z freq)];;
  call (λ ct, SetValueAtTime gainNode (js_of_Z 0) ct);;
  let pulseInterval := pulseInterval i in
  for_lt fuel (js_of_Z 0) (js_of_Z 60) pulseInterval (λ t ct,
    emit (pulse gainNode (dec 5 2) (dec 2 2) t ct) ct);;
  emit [Connect oscillator (NodeInput gainNode); Connect gainNode Destination;
        Start oscillator];;
  setOscillator ("data-" +:+ pretty i) oscillator;;
  setGainNode ("data-" +:+ pretty i) gainNode.

(** [const createDataSoundscape = (audioContext) => ...] *)
Definition createDataSoundscape : M unit :=
  let frequencies := [220; 440; 880; 1760]%Z in
  forEach dataVoice frequencies.

(** [const createComicSoundscape = (audioContext) => ...] *)
Definition createComicSoundscape : M unit :=
  bassOsc ← createOscillator;
  bassGain ← createGain;
  emit [SetType bassOsc triangle; SetFrequency bassOsc (js_of_Z 110)];;
  call (λ ct, SetValueAtTime bassGain (js_of_Z 0) ct);;
  for_lt fuel (js_of_Z 0) (js_of_Z 60) (dec 5 1) (λ t ct,
    emit (pulse bassGain (dec 15 2) (dec 1 1) t ct) ct);;
  emit [Connect bassOsc (NodeInput bassGain); Connect bassGain Destination;
        Start bassOsc];;
  setOscillator "comic-bass" bassOsc;;
  setGainNode "comic-bass" bassGain;;
  clickOsc ← createOscillator;
  clickGain ← createGain;
  emit [SetType clickOsc square; SetFrequency clickOsc (js_of_Z 2000)];;
  call (λ ct, SetValueAtTime clickGain (js_of_Z 0) ct);;
  for_lt fuel (js_of_Z 0) (js_of_Z 60) (dec 25 2) (λ t ct,
    emit (pulse clickGain (dec 5 2) (dec 2 2) t ct) ct);;
  emit [Connect clickOsc (NodeInput clickGain); Connect clickGain Destination;
        Start clickOsc];;
  setOscillator "comic-click" clickOsc;;
  setGainNode "comic-click" clickGain.

(** One pad of the web3 soundscape with its vibrato (lines 140-166);
    [freq] is in hundredths of a hertz. *)
Definition web3Voice (freq : Z) (i : nat) : M unit :=
  oscillator ← createOscillator;
  gainNode ← createGain;
  emit [SetType oscillator sine; SetFrequency oscillator (dec freq 2)];;
  call (λ ct, SetValueAtTime gainNode (js_of_Z 0) ct);;
  call (λ ct, LinearRampToValueAtTime gainNode (dec 8 2) (ct + js_of_Z 3));;
  lfo ← createOscillator;
  lfoGain ← createGain;
  emit [SetFrequency lfo (dec 5 1); SetGain lfoGain (js_of_Z 5);
        Connect lfo (NodeInput lfoGain);
        Connect lfoGain (FrequencyParam oscillator);
        Start lfo];;
  emit [Connect oscillator (NodeInput gainNode); Connect gainNode Destination;
        Start oscillator];;
  setOscillator ("web3-" +:+ pretty i) oscillator;;
  setGainNode ("web3-" +:+ pretty i) gainNode.

(** [const createWeb3Soundscape = (audioContext) => ...] *)
Definition createWeb3Soundscape : M unit :=
  let padFrequencies := [13081; 16481; 19600; 24694]%Z in
  forEach web3Voice padFrequencies.

(** [const createSingularitySoundscape = (audioContext) => ...] *)
Definition createSingularitySoundscape : M unit :=
  rumble ← createOscillator;
  rumbleGain ← createGain;
  emit [SetType rumble sawtooth; SetFrequency rumble (js_of_Z 40)];;
  call (λ ct, SetValueAtTime rumbleGain (dec 1 1) ct);;
  emit [Connect rumble (NodeInput rumbleGain); Connect rumbleGain Destination;
        Start rumble];;
  setOscillator "singularity-rumble" rumble;;
  setGainNode "singularity-rumble" rumbleGain.

(** The [switch] of the effect (lines 36-49). *)
Definition create (currentTimeline : Timeline) : M unit :=
  match currentTimeline with
  | data => createDataSoundscape
  | comic => createComicSoundscape
  | web3 => createWeb3Soundscape
  | singularity => createSingularitySoundscape
  end.

(** The effect from "Stop all current sounds" to the [switch]
    (lines 24-49). *)
Definition soundscape (currentTimeline : Timeline) : M unit :=
  stopAll;;
  resetRefs;;
  create currentTimeline.

(** [new AudioContext()] *)
Definition newAudioContext : AudioContext num := mkContext (js_of_Z 0) 0 [].

(** The body of [useEffect] (lines 14-62).  With sound disabled it
    returns at once and registers no cleanup. *)
Definition effect (state : MultiverseState num) (l : Local num)
    : option (Local num) :=
  if negb (soundEnabled state)
  then Some (mkLocal (isPlaying l) (audioContextRef l) (oscillatorsRef l)
               (gainNodesRef l) (deps l) false)
  else
    let audioContext := default newAudioContext (audioContextRef l) in
    match soundscape (currentTimeline state) (currentTime audioContext)
            (mkRefs (nextNode audioContext) (oscillatorsRef l)
               (gainNodesRef l)) with
    | Some (_, s, out) =>
        Some (mkLocal true
          (Some (mkContext (currentTime audioContext) (next s)
                   (calls audioContext ++ out)))
          (oscillators s) (gainNodes s) (deps l) true)
    | None => None
    end.

(** The cleanup the effect returns (lines 53-62): it stops what the ref
    holds when it runs. *)
Definition runCleanup (l : Local num) : Local num :=
  if cleanup l then
    mkLocal (isPlaying l)
      ((λ c, mkContext (currentTime c) (nextNode c)
               (calls c ++ (Stop <$> Object_values (oscillatorsRef l))))
         <$> audioContextRef l)
      (oscillatorsRef l) (gainNodesRef l) (deps l) false
  else l.

(** After a commit React runs the cleanup and the effect if a dependency
    changed. *)
Definition commit (state : MultiverseState num) (l : Local num)
    : option (Local num) :=
  let d := (currentTimeline state, soundEnabled state) in
  if decide (deps l = Some d) then Some l
  else
    (λ l', mkLocal (isPlaying l') (audioContextRef l') (oscillatorsRef l')
             (gainNodesRef l') (Some d) (cleanup l'))
      <$> effect state (runCleanup l).

(** The context's clock advances by [d] seconds. *)
Definition advance (d : num) (l : Local num) : Local num :=
  mkLocal (isPlaying l)
    ((λ c, mkContext (currentTime c + d) (nextNode c) (calls c))
       <$> audioContextRef l)
    (oscillatorsRef l) (gainNodesRef l) (deps l) (cleanup l).

(** [useState(false)] and the three [useRef]s. *)
Definition initialLocal : Local num := mkLocal false None [] [] None false.

(** The returned button. *)
Definition render (state : MultiverseState num) : View :=
  mkView (if soundEnabled state then "text-white" else "text-gray-500")
         (if soundEnabled state then "Mute Sound" else "Enable Sound")
         (if soundEnabled state then SpeakerOn else SpeakerOff).

(** [onClick={toggleSound}] *)
Definition onClick (state : MultiverseState num) : MultiverseState num :=
  toggleSound state.

(** Commits for a sequence of stores. *)
Fixpoint commits (states : list (MultiverseState num)) (l : Local num)
    : option (Local num) :=
  match states with
  | [] => Some l
  | state :: states' => commit state l ≫= commits states'
  end.

End Component.

(** ** What the theorems speak of *)

Section Notions.
Context {num : Type}.

(** The keys of a timeline's soundscape. *)
Definition keys (t : Timeline) : list string :=
  match t with
  | data => ["data-0"; "data-1"; "data-2"; "data-3"]
  | comic => ["comic-bass"; "comic-click"]
  | web3 => ["web3-0"; "web3-1"; "web3-2"; "web3-3"]
  | singularity => ["singularity-rumble"]
  end.

(** The oscillators the component can still reach, and the calls made
    so far. *)
Definition tracked (l : Local num) : list nat :=
  Object_values (oscillatorsRef l).

Definition audio (l : Local num) : list (Call num) :=
  from_option calls [] (audioContextRef l).

Definition nodes (l : Local num) : nat :=
  from_option nextNode 0 (audioContextRef l).

(** Every node spoken of has been created, and a registered cleanup has
    a context to act on. *)
Record wf (l : Local num) : Prop := mkWf {
  wf_calls : Forall (λ c, node_of c < nodes l) (audio l);
  wf_tracked : Forall (λ n, n < nodes l) (tracked l);
  wf_cleanup : cleanup l = true → is_Some (audioContextRef l);
}.

(** A running oscillator the component has lost. *)
Definition leaked (l : Local num) (n : nat) : Prop :=
  running n (audio l) ∧ n ∉ tracked l.

(** What one voice does: it creates its nodes, makes calls on them only,
    starts its oscillator and files it and its gain under [key]. *)
Record Voice (key : string) (s s' : Refs) (out : list (Call num)) : Prop :=
mkVoice {
  voice_next : next s < next s';
  voice_nodes : Forall (λ c, next s ≤ node_of c < next s') out;
  voice_stops : stops out = [];
  voice_start : next s ∈ starts out;
  voice_osc : oscillators s' = obj_set key (next s) (oscillators s);
  voice_gain : gainNodes s' = obj_set key (S (next s)) (gainNodes s);
}.

Inductive Voices : list string → Refs → Refs → list (Call num) → Prop :=
| Voices_nil s : Voices [] s s []
| Voices_cons k ks s s1 s2 o1 o2 :
    Voice k s s1 o1 → Voices ks s1 s2 o2 → Voices (k :: ks) s s2 (o1 ++ o2).

End Notions.

(** ** Calls and objects *)

Section CallLemmas.
Context {num : Type}.
Implicit Types (cs : list (Call num)) (o : Obj).

Lemma starts_app cs cs' : starts (cs ++ cs') = starts cs ++ starts cs'.
Proof. apply omap_app. Qed.

Lemma stops_app cs cs' : stops (cs ++ cs') = stops cs ++ stops cs'.
Proof. apply omap_app. Qed.

Lemma stops_Stop (l : list nat) : stops (num := num) (Stop <$> l) = l.
Proof. induction l; simpl; [done | by f_equal]. Qed.

Lemma starts_Stop (l : list nat) : starts (num := num) (Stop <$> l) = [].
Proof. by induction l. Qed.

Lemma starts_node n cs : n ∈ starts cs → n ∈ node_of <$> cs.
Proof.
  unfold starts. rewrite list_elem_of_omap, list_elem_of_fmap.
  intros (c & Hc & Hn). exists c. by destruct c; simplify_eq.
Qed.

Lemma stops_node n cs : n ∈ stops cs → n ∈ node_of <$> cs.
Proof.
  unfold stops. rewrite list_elem_of_omap, list_elem_of_fmap.
  intros (c & Hc & Hn). exists c. by destruct c; simplify_eq.
Qed.

(** A key that is not in the object is added at its end. *)
Lemma obj_set_fresh k v o : k ∉ o.*1 → obj_set k v o = o ++ [(k, v)].
Proof.
  induction o as [|[k' v'] o IH]; simpl; [done |].
  rewrite not_elem_of_cons. intros [Hk Ho].
  rewrite decide_False by done. by rewrite IH.
Qed.

End CallLemmas.

#[global] Hint Rewrite @starts_app @stops_app @stops_Stop @starts_Stop : mv.

(** ** The monad *)

Section MonadLemmas.
Context {num : Type} `{JsNum num}.
Implicit Types (s : Refs) (ct : num) (out : list (Call num)).

Lemma bind_inv {A B} (m : M A) (f : A → M B) ct s b s2 out :
  (m ≫= f) ct s = Some (b, s2, out) →
  ∃ a s1 o1 o2, m ct s = Some (a, s1, o1) ∧ f a ct s1 = Some (b, s2, o2) ∧
                out = o1 ++ o2.
Proof.
  unfold mbind, M_bind. destruct (m ct s) as [[[a s1] o1]|]; [| done].
  destruct (f a ct s1) as [[[b' s2'] o2]|] eqn:E; [| done].
  intros [= -> -> <-]. by exists a, s1, o1, o2.
Qed.

Lemma bind_is_Some {A B} (m : M A) (f : A → M B) ct s :
  is_Some (m ct s) → (∀ a s1, is_Some (f a ct s1)) → is_Some ((m ≫= f) ct s).
Proof.
  unfold mbind, M_bind. intros [[[a s1] o1] ->] Hf.
  by destruct (Hf a s1) as [[[b s2] o2] ->].
Qed.

(** A loop whose body only emits calls emits them for every value of
    the loop variable. *)
Lemma for_lt_emit fuel t limit step (body : num → M unit)
    (out : num → num → list (Call num)) ct s :
  (∀ t ct s, body t ct s = Some (tt, s, out t ct)) →
  for_lt fuel t limit step body ct s =
    (λ ts, (tt, s, flat_map (λ t, out t ct) ts))
      <$> iterates fuel t limit step.
Proof.
  intros Hbody. revert t. induction fuel as [|fuel IH]; intros t; [done |].
  unfold for_lt, iterates. fold (for_lt (num := num)) (iterates (num := num)).
  destruct (js_lt t limit); [| done].
  unfold mbind, M_bind. rewrite Hbody, IH.
  by destruct (iterates fuel (js_add t step) limit step).
Qed.

(** More fuel does not change a loop that has finished. *)
Lemma iterates_mono fuel fuel' t limit step ts :
  fuel ≤ fuel' → iterates fuel t limit step = Some ts →
  iterates fuel' t limit step = Some ts.
Proof.
  revert fuel' t ts. induction fuel as [|fuel IH]; intros fuel' t ts Hle;
    [done |].
  destruct fuel' as [|fuel']; [lia |].
  unfold iterates. fold (iterates (num := num)).
  destruct (js_lt t limit); [| done].
  destruct (iterates fuel _ _ _) as [ts'|] eqn:E; [| done].
  intros [= <-]. by rewrite (IH fuel' _ ts') by (done || lia).
Qed.

Lemma starts_pulses g a b ct (ts : list num) :
  starts (flat_map (λ t, pulse g a b t ct) ts) = [].
Proof. by induction ts. Qed.

Lemma stops_pulses g a b ct (ts : list num) :
  stops (flat_map (λ t, pulse g a b t ct) ts) = [].
Proof. by induction ts. Qed.

Lemma nodes_pulses g a b ct (ts : list num) :
  Forall (λ c, node_of c = g) (flat_map (λ t, pulse g a b t ct) ts).
Proof. induction ts; simpl; [done |]. by repeat constructor. Qed.

End MonadLemmas.

#[global] Hint Rewrite @starts_pulses @stops_pulses : mv.

(** Runs the straight-line part of a computation. *)
Ltac mrun :=
  unfold mbind, mret, M_bind, M_ret, createOscillator, createGain, emit, call,
    setOscillator, setGainNode, resetRefs, stopAll, fail;
  cbn [next oscillators gainNodes];
  repeat (erewrite for_lt_emit by (intros; reflexivity);
          destruct (iterates _ _ _ _) as [?ts|];
          cbn [fmap option_fmap option_map]; [| done]);
  cbn [app next oscillators gainNodes].

(** The starts and stops among calls given as a list. *)
Ltac calls_solver :=
  simpl; autorewrite with mv; simpl; first [done | set_solver].

(** Calls that are all on the nodes [lo] to [hi - 1]. *)
Ltac nodes_solver :=
  repeat first
    [ apply Forall_nil_2
    | apply Forall_cons_2; [simpl; lia |]
    | apply Forall_app_2
    | eapply Forall_impl; [apply nodes_pulses | simpl; intros; lia] ].

(** ** The voices *)

Section Voices.
Context {num : Type} `{JsNum num}.
Context (fuel : nat).
Implicit Types (s : Refs) (ct : num) (out : list (Call num)).

Lemma dataVoice_Voice freq i ct s r s' out :
  dataVoice fuel freq i ct s = Some (r, s', out) →
  Voice ("data-" +:+ pretty i) s s' out.
Proof.
  unfold dataVoice. mrun. intros ?; simplify_eq.
  split; cbn [next oscillators gainNodes]; try done;
    [lia | nodes_solver | calls_solver..].
Qed.

Lemma web3Voice_Voice freq i ct s r s' out :
  web3Voice freq i ct s = Some (r, s', out) →
  Voice ("web3-" +:+ pretty i) s s' out.
Proof.
  unfold web3Voice. mrun. intros ?; simplify_eq.
  split; cbn [next oscillators gainNodes]; try done;
    [lia | nodes_solver | calls_solver..].
Qed.

(** A sequence of voices, one per element. *)
Lemma forEach_Voices {A} (f : A → nat → M unit) (key : nat → string) :
  (∀ a i ct s r s' out,
     f a i ct s = Some (r, s', out) → Voice (key i) s s' out) →
  ∀ l i ks ct s r s' out,
    key <$> seq i (length l) = ks →
    forEach_from f i l ct s = Some (r, s', out) →
    Voices ks s s' out.
Proof.
  intros Hf l. induction l as [|a l IH]; intros i ks ct s r s' out <-; simpl.
  - unfold mret, M_ret. intros ?. simplify_eq. constructor.
  - intros (r1 & s1 & o1 & o2 & H1 & H2 & ->)%bind_inv.
    econstructor; [by eapply Hf | by eapply IH].
Qed.

Lemma createDataSoundscape_Voices ct s r s' out :
  createDataSoundscape fuel ct s = Some (r, s', out) →
  Voices (keys data) s s' out.
Proof.
  unfold createDataSoundscape, forEach.
  apply (forEach_Voices _ (λ i, "data-" +:+ pretty i) dataVoice_Voice).
  vm_compute. reflexivity.
Qed.

Lemma createWeb3Soundscape_Voices ct s r s' out :
  createWeb3Soundscape ct s = Some (r, s', out) →
  Voices (keys web3) s s' out.
Proof.
  unfold createWeb3Soundscape, forEach.
  apply (forEach_Voices _ (λ i, "web3-" +:+ pretty i) web3Voice_Voice).
  vm_compute. reflexivity.
Qed.

Lemma Voices_one k s s' out : Voice k s s' out → Voices [k] s s' out.
Proof.
  intros HV. rewrite <- (app_nil_r out). econstructor; [done | constructor].
Qed.

Lemma Voices_two k1 k2 s s1 s2 o1 o2 out :
  Voice k1 s s1 o1 → Voice k2 s1 s2 o2 → out = o1 ++ o2 →
  Voices [k1; k2] s s2 out.
Proof. intros H1 H2 ->. econstructor; [done | by apply Voices_one]. Qed.

Lemma createSingularitySoundscape_Voices ct s r s' out :
  createSingularitySoundscape ct s = Some (r, s', out) →
  Voices (keys singularity) s s' out.
Proof.
  unfold createSingularitySoundscape. mrun. intros ?; simplify_eq.
  apply Voices_one.
  split; cbn [next oscillators gainNodes]; try done;
    [lia | nodes_solver | calls_solver..].
Qed.

Lemma createComicSoundscape_Voices ct s r s' out :
  createComicSoundscape fuel ct s = Some (r, s', out) →
  Voices (keys comic) s s' out.
Proof.
  unfold createComicSoundscape. mrun. intros ?; simplify_eq.
  eapply (Voices_two _ _ s
    (mkRefs (S (S (next s))) (obj_set "comic-bass" (next s) (oscillators s))
       (obj_set "comic-bass" (S (next s)) (gainNodes s))) _
    (_ :: _ :: _ :: _ :: _ :: flat_map _ ts ++ [_; _; _])).
  3: { simpl. rewrite <- app_assoc. reflexivity. }
  all: split; cbn [next oscillators gainNodes]; try done;
    [lia | nodes_solver | calls_solver..].
Qed.

End Voices.

(** ** The effect *)

Section Effect.
Context {num : Type} `{JsNum num}.
Context (fuel : nat).
Implicit Types (s : Refs) (ct : num) (out : list (Call num)) (l : Local num).

(** Voices with fresh keys: the refs grow by one entry per voice, and the
    calls are on new nodes only and stop nothing. *)
Lemma Voices_refs ks s s' out :
  Voices ks s s' out → NoDup ks →
  (∀ k, k ∈ ks → k ∉ (oscillators s).*1) →
  (∀ k, k ∈ ks → k ∉ (gainNodes s).*1) →
  next s ≤ next s' ∧
  Forall (λ c, next s ≤ node_of c < next s') out ∧
  stops out = [] ∧
  ∃ os gs,
    oscillators s' = oscillators s ++ zip ks os ∧ length os = length ks ∧
    gainNodes s' = gainNodes s ++ zip ks gs ∧ length gs = length ks ∧
    Forall (λ n, n ∈ starts out) os.
Proof.
  induction 1 as [s | k ks s s1 s2 o1 o2 [Hlt Hn1 Hs1 Hst Hosc Hgain] HVs IH];
    intros Hnd Ho Hg.
  { split_and!; try done. exists [], []. by rewrite !app_nil_r. }
  apply NoDup_cons in Hnd as [Hk Hnd].
  rewrite obj_set_fresh in Hosc, Hgain by set_solver.
  destruct IH as (Hn & Hnodes & Hstops & os & gs & Hos & Hlo & Hgs & Hlg & Hsts).
  { done. }
  { intros k' Hk'. rewrite Hosc, fmap_app. set_solver. }
  { intros k' Hk'. rewrite Hgain, fmap_app. set_solver. }
  split_and!; [lia | | by rewrite stops_app, Hs1, Hstops |].
  - apply Forall_app_2; (eapply Forall_impl; [eassumption | simpl; lia]).
  - exists (next s :: os), (S (next s) :: gs).
    rewrite Hos, Hgs, Hosc, Hgain, <- !app_assoc. simpl.
    split_and!; try done; [lia.. |].
    rewrite starts_app. apply Forall_cons. split; [set_solver |].
    eapply Forall_impl; [eassumption | set_solver].
Qed.

Lemma keys_NoDup t : NoDup (keys t).
Proof. destruct t; by_compute. Qed.

(** The effect's code from "Stop all current sounds" on: the stops, then
    the soundscape of the timeline built on empty refs. *)
Lemma soundscape_inv t ct s r s' out :
  soundscape fuel t ct s = Some (r, s', out) →
  ∃ new,
    out = (Stop <$> Object_values (oscillators s)) ++ new ∧
    create fuel t ct (mkRefs (next s) [] []) = Some (r, s', new).
Proof.
  unfold soundscape.
  intros (? & s1 & o1 & o2 & H1 & (? & s2 & o3 & new & H2 & H3 & ->)%bind_inv
          & ->)%bind_inv.
  unfold stopAll in H1. injection H1 as _ <- <-.
  unfold resetRefs in H2. injection H2 as _ <- <-.
  by exists new.
Qed.

(** Stated as an equation of computations: applied to a state, the two
    sides would be run before they are compared. *)
Lemma create_web3 : create fuel web3 = createWeb3Soundscape.
Proof. reflexivity. Qed.

Lemma create_Voices t ct s r s' out :
  create fuel t ct s = Some (r, s', out) → Voices (keys t) s s' out.
Proof.
  destruct t; simpl;
    eauto using createDataSoundscape_Voices, createComicSoundscape_Voices,
      createWeb3Soundscape_Voices, createSingularitySoundscape_Voices.
Qed.

Lemma soundscape_spec t ct s r s' out :
  soundscape fuel t ct s = Some (r, s', out) →
  ∃ new,
    out = (Stop <$> Object_values (oscillators s)) ++ new ∧
    next s ≤ next s' ∧
    Forall (λ c, next s ≤ node_of c < next s') new ∧
    stops new = [] ∧
    (oscillators s').*1 = keys t ∧ (gainNodes s').*1 = keys t ∧
    Forall (λ n, n ∈ starts new) (Object_values (oscillators s')).
Proof.
  intros (new & -> & HV%create_Voices)%soundscape_inv. exists new.
  apply Voices_refs in HV
    as (Hn & Hnodes & Hstops & os & gs & Hos & Hlo & Hgs & Hlg & Hsts);
    [| apply keys_NoDup | set_solver..].
  simpl in *. unfold Object_values.
  rewrite Hos, Hgs, !fst_zip, snd_zip by lia. done.
Qed.

(** The context the effect works on. *)
Definition context l : AudioContext num :=
  default newAudioContext (audioContextRef l).

(** What a commit does when it runs the effect with sound enabled. *)
Lemma commit_enabled_inv state l l' :
  soundEnabled state = true →
  deps l ≠ Some (currentTimeline state, true) →
  (cleanup l = true → is_Some (audioContextRef l)) →
  commit fuel state l = Some l' →
  ∃ r s' out,
    soundscape fuel (currentTimeline state) (currentTime (context l))
      (mkRefs (nodes l) (oscillatorsRef l) (gainNodesRef l))
      = Some (r, s', out) ∧
    l' = mkLocal true
           (Some (mkContext (currentTime (context l)) (next s')
              (audio l ++ (Stop <$> (if cleanup l then tracked l else []))
                 ++ out)))
           (oscillators s') (gainNodes s')
           (Some (currentTimeline state, true)) true.
Proof.
  intros Hen Hd Hcl. unfold commit, effect. rewrite Hen.
  rewrite decide_False by done. simpl. unfold runCleanup, context, audio, nodes, tracked.
  destruct (cleanup l) eqn:Ec.
  - destruct (Hcl eq_refl) as [c Hc]. rewrite Hc. simpl.
    destruct (soundscape _ _ _ _) as [[[r s'] out]|] eqn:E; [| done].
    intros [= <-]. exists r, s', out. by rewrite <- app_assoc.
  - destruct (audioContextRef l) as [c|]; simpl;
      (destruct (soundscape _ _ _ _) as [[[r s'] out]|] eqn:E; [| done]);
      intros [= <-]; by exists r, s', out.
Qed.

(** What a commit does with sound disabled: only the cleanup runs. *)
Lemma commit_disabled_inv state l l' :
  soundEnabled state = false →
  deps l ≠ Some (currentTimeline state, false) →
  commit fuel state l = Some l' →
  l' = mkLocal (isPlaying l)
         (audioContextRef (runCleanup l)) (oscillatorsRef l) (gainNodesRef l)
         (Some (currentTimeline state, false)) false.
Proof.
  intros Hen Hd. unfold commit, effect. rewrite Hen.
  rewrite decide_False by done. simpl. unfold runCleanup.
  by destruct (cleanup l); intros [= <-].
Qed.

(** ** The invariant and the frame of a commit *)

Lemma initialLocal_wf : wf (initialLocal (num := num)).
Proof. by split. Qed.

Lemma starts_old l n : wf l → n ∈ starts (audio l) → n < nodes l.
Proof.
  intros [Hc _ _] (c & -> & Hin)%starts_node%list_elem_of_fmap.
  by eapply Forall_forall in Hc.
Qed.

Lemma stops_old l n : wf l → n ∈ stops (audio l) → n < nodes l.
Proof.
  intros [Hc _ _] (c & -> & Hin)%stops_node%list_elem_of_fmap.
  by eapply Forall_forall in Hc.
Qed.

Lemma tracked_old l n : wf l → n ∈ tracked l → n < nodes l.
Proof. intros [_ Ht _] Hin. by eapply Forall_forall in Ht. Qed.

(** An oscillator started by new calls is a new node. *)
Lemma starts_new lo hi (new : list (Call num)) n :
  Forall (λ c, lo ≤ node_of c < hi) new → n ∈ starts new → lo ≤ n < hi.
Proof.
  intros Hnew (c & -> & Hin)%starts_node%list_elem_of_fmap.
  by eapply Forall_forall in Hnew.
Qed.

(** The calls of a commit: stops of tracked oscillators, then calls on
    new nodes that stop nothing. *)
Record Frame l l' (old : list nat) (new : list (Call num)) : Prop := mkFrame {
  frame_audio : audio l' = audio l ++ (Stop <$> old) ++ new;
  frame_old : Forall (λ n, n ∈ tracked l) old;
  frame_nodes : nodes l ≤ nodes l';
  frame_new : Forall (λ c, nodes l ≤ node_of c < nodes l') new;
  frame_stops : stops new = [];
  frame_tracked :
    Forall (λ n, n ∈ tracked l ∨ n ∈ starts new) (tracked l');
  frame_cleanup : cleanup l' = true → is_Some (audioContextRef l');
}.

Lemma Frame_refl l : wf l → Frame l l [] [].
Proof.
  intros [_ _ Hcl]. split; simpl; try done; [by rewrite app_nil_r |].
  apply Forall_forall. auto.
Qed.

Lemma Frame_wf l l' old new : wf l → Frame l l' old new → wf l'.
Proof.
  intros Hwf [Ha Ho Hn Hnew Hs Ht Hcl]. split; [| | done].
  - rewrite Ha, !Forall_app, Forall_fmap. split_and!.
    + eapply Forall_impl; [apply Hwf | simpl; lia].
    + eapply Forall_impl; [apply Ho |]. intros n ?%(tracked_old l); simpl; [lia | done].
    + eapply Forall_impl; [apply Hnew | simpl; lia].
  - eapply Forall_impl; [apply Ht |]. intros n [?%(tracked_old l) | Hst]; [lia | done |].
    by eapply starts_new in Hst as [_ ?].
Qed.

(** An oscillator that is running and not tracked stays so. *)
Lemma Frame_leaked l l' old new n :
  wf l → Frame l l' old new → leaked l n → leaked l' n.
Proof.
  intros Hwf [Ha Ho Hn Hnew Hs Ht Hcl] [[Hst Hnst] Hnt].
  pose proof (starts_old _ _ Hwf Hst) as Hlt.
  split; [split |].
  - rewrite Ha, starts_app. set_solver.
  - rewrite Ha, !stops_app, stops_Stop, Hs, app_nil_r, not_elem_of_app.
    rewrite Forall_forall in Ho. split; [done | by intros ?%Ho].
  - rewrite Forall_forall in Ht. intros [? | Hst']%Ht; [done |].
    eapply starts_new in Hst'; [| done]. lia.
Qed.

(** A new oscillator is not stopped by what was stopped before. *)
Lemma Frame_running l l' old new n :
  wf l → Frame l l' old new → n ∈ starts new → running n (audio l').
Proof.
  intros Hwf [Ha Ho Hn Hnew Hs Ht Hcl] Hst.
  pose proof (starts_new _ _ _ _ Hnew Hst) as [Hge _]. split.
  - rewrite Ha, !starts_app. set_solver.
  - rewrite Ha, !stops_app, stops_Stop, Hs, app_nil_r, not_elem_of_app.
    rewrite Forall_forall in Ho.
    split; [intros ?%(stops_old l); [lia | done] |].
    intros ?%Ho%(tracked_old l); [lia | done].
Qed.

(** A commit that runs the effect with sound enabled: its frame, and
    the run of the soundscape it comes from. *)
Lemma commit_enabled state l l' :
  wf l → soundEnabled state = true →
  deps l ≠ Some (currentTimeline state, true) →
  commit fuel state l = Some l' →
  ∃ r s' new,
    soundscape fuel (currentTimeline state) (currentTime (context l))
      (mkRefs (nodes l) (oscillatorsRef l) (gainNodesRef l))
      = Some (r, s', (Stop <$> tracked l) ++ new) ∧
    oscillatorsRef l' = oscillators s' ∧ gainNodesRef l' = gainNodes s' ∧
    isPlaying l' = true ∧
    Frame l l' ((if cleanup l then tracked l else []) ++ tracked l) new.
Proof.
  intros Hwf Hen Hd Hc.
  destruct (commit_enabled_inv state l l' Hen Hd (wf_cleanup _ Hwf) Hc)
    as (r & s' & out & Hrun & ->).
  destruct (soundscape_spec _ _ _ _ _ _ Hrun)
    as (new & -> & Hn & Hnodes & Hstops & Hk1 & Hk2 & Hst).
  exists r, s', new. split_and!; try done.
  split; simpl in *; try done.
  - unfold audio at 1. simpl. by rewrite fmap_app, <- !app_assoc.
  - apply Forall_forall. intros n. destruct (cleanup l); set_solver.
  - eapply Forall_impl; [apply Hst | auto].
Qed.

(** Every commit has a frame. *)
Lemma commit_Frame state l l' :
  wf l → commit fuel state l = Some l' → ∃ old new, Frame l l' old new.
Proof.
  intros Hwf Hc.
  destruct (decide (deps l = Some (currentTimeline state, soundEnabled state)))
    as [Hd | Hd].
  { unfold commit in Hc. rewrite decide_True in Hc by done.
    injection Hc as <-. eauto using Frame_refl. }
  destruct (soundEnabled state) eqn:Hen.
  { destruct (commit_enabled state l l') as (? & ? & ? & _ & _ & _ & _ & ?);
      eauto. }
  rewrite (commit_disabled_inv state l l' Hen Hd Hc). unfold runCleanup.
  destruct (cleanup l) eqn:Ec.
  - destruct (wf_cleanup _ Hwf Ec) as [c Hc']. exists (tracked l), [].
    split; unfold audio, nodes, tracked; rewrite ?Hc'; simpl;
      rewrite ?app_nil_r; try done; apply Forall_forall; auto.
  - exists [], [].
    split; unfold audio, nodes, tracked; simpl;
      rewrite ?app_nil_r; try done; apply Forall_forall; auto.
Qed.

(** After a commit the effect has run for the store's dependencies. *)
Lemma commit_deps state l l' :
  commit fuel state l = Some l' →
  deps l' = Some (currentTimeline state, soundEnabled state).
Proof.
  unfold commit. case_decide; [by intros [= <-] |].
  destruct (effect _ _ _); [| done]. by intros [= <-].
Qed.

Lemma commit_same state l :
  deps l = Some (currentTimeline state, soundEnabled state) →
  commit fuel state l = Some l.
Proof. intros Hd. unfold commit. by rewrite decide_True. Qed.

Lemma commit_wf state l l' : wf l → commit fuel state l = Some l' → wf l'.
Proof.
  intros Hwf (old & new & HF)%commit_Frame; [| done]. by eapply Frame_wf.
Qed.

Lemma commits_wf states l l' :
  wf l → commits fuel states l = Some l' → wf l'.
Proof.
  revert l. induction states as [|state states IH]; intros l Hwf; simpl.
  - by intros [= <-].
  - destruct (commit fuel state l) as [l1|] eqn:E; [| done]. simpl.
    eauto using commit_wf.
Qed.

Lemma commits_leaked states l l' n :
  wf l → commits fuel states l = Some l' → leaked l n → leaked l' n.
Proof.
  revert l. induction states as [|state states IH]; intros l Hwf; simpl.
  - by intros [= <-].
  - destruct (commit fuel state l) as [l1|] eqn:E; [| done]. simpl.
    intros Hcs Hl. destruct (commit_Frame _ _ _ Hwf E) as (old & new & HF).
    eauto using Frame_wf, Frame_leaked.
Qed.

(** After a commit that runs the effect with sound enabled the refs
    hold exactly the keys of the timeline's soundscape, and what they
    hold is running. *)
Lemma commit_enabled_keys state l l' :
  wf l → soundEnabled state = true →
  deps l ≠ Some (currentTimeline state, true) →
  commit fuel state l = Some l' →
  (oscillatorsRef l').*1 = keys (currentTimeline state) ∧
  (gainNodesRef l').*1 = keys (currentTimeline state) ∧
  (∀ n, n ∈ tracked l' → running n (audio l')).
Proof.
  intros Hwf Hen Hd Hc.
  destruct (commit_enabled _ _ _ Hwf Hen Hd Hc)
    as (r & s' & new & Hrun & Ho & Hg & Hp & HF).
  destruct (soundscape_spec _ _ _ _ _ _ Hrun)
    as (new' & ->%app_inv_head & _ & _ & _ & Hk1 & Hk2 & Hst).
  rewrite Forall_forall in Hst. unfold tracked at 1.
  rewrite Ho, Hg. split_and!; try done.
  intros n Hin%Hst. by eapply Frame_running.
Qed.

(** C11: after a commit that runs the effect with sound enabled, the
    refs hold exactly the keys of the active timeline's soundscape, every
    tracked oscillator is running, every oscillator tracked before is
    stopped, and [isPlaying] is up. *)
Theorem commit_tracks state l l' :
  wf l → soundEnabled state = true →
  deps l ≠ Some (currentTimeline state, true) →
  commit fuel state l = Some l' →
  (oscillatorsRef l').*1 = keys (currentTimeline state) ∧
  (gainNodesRef l').*1 = keys (currentTimeline state) ∧
  (∀ n, n ∈ tracked l' → running n (audio l')) ∧
  (∀ n, n ∈ tracked l → n ∈ stops (audio l')) ∧
  isPlaying l' = true.
Proof.
  intros Hwf Hen Hd Hc.
  destruct (commit_enabled_keys _ _ _ Hwf Hen Hd Hc) as (? & ? & ?).
  destruct (commit_enabled _ _ _ Hwf Hen Hd Hc)
    as (r & s' & new & _ & _ & _ & Hp & HF).
  split_and!; try done.
  intros n Hin. rewrite (frame_audio _ _ _ _ HF), !stops_app, stops_Stop.
  set_solver.
Qed.

(** ** The vibrato oscillators *)

Lemma obj_set_values k v (o : Obj) n :
  n ∈ Object_values (obj_set k v o) → n = v ∨ n ∈ Object_values o.
Proof.
  unfold Object_values. induction o as [|[k' v'] o IH]; simpl.
  - set_solver.
  - case_decide; simpl; set_solver.
Qed.

(** The pads of the web3 soundscape take every fourth node from the
    first; the vibrato of each is two nodes after it, started and filed
    nowhere. *)
Lemma web3_lfos (l : list Z) i ct s r s' out :
  forEach_from web3Voice i l ct s = Some (r, s', out) →
  (∀ j, j < length l → 2 + 4 * j + next s ∈ starts out) ∧
  (∀ n, n ∈ Object_values (oscillators s') →
        n ∈ Object_values (oscillators s) ∨
        ∃ j, j < length l ∧ n = 4 * j + next s).
Proof.
  revert i s r s' out. induction l as [|freq l IH]; intros i s r s' out;
    cbn [forEach_from length].
  { unfold mret, M_ret. intros ?. simplify_eq. split; [lia | auto]. }
  intros (? & s1 & o1 & o2 & H1 & H2 & ->)%bind_inv.
  revert H1. unfold web3Voice. mrun. intros ?. simplify_eq.
  apply IH in H2 as [Hst Htr]. cbn [next oscillators] in *. split.
  - intros [|j] Hj; rewrite starts_app; [simpl; set_solver |].
    apply elem_of_app. right. replace (2 + 4 * S j + next s)
      with (2 + 4 * j + S (S (S (S (next s))))) by lia. apply Hst. lia.
  - intros n [[-> | ?]%obj_set_values | (j & Hj & ->)]%Htr.
    + right. exists 0. lia.
    + by left.
    + right. exists (S j). lia.
Qed.

(** The vibrato oscillators of a web3 soundscape built on empty refs. *)
Lemma createWeb3Soundscape_lfos ct n r s' out j :
  createWeb3Soundscape ct (mkRefs n [] []) = Some (r, s', out) → j < 4 →
  2 + 4 * j + n ∈ starts out ∧ 2 + 4 * j + n ∉ Object_values (oscillators s').
Proof.
  unfold createWeb3Soundscape, forEach. intros [Hst Htr]%web3_lfos Hj.
  cbn [length next oscillators] in Hst, Htr. split; [by apply Hst |].
  intros [Hin | (j' & _ & Heq)]%Htr; [by apply elem_of_nil in Hin | lia].
Qed.

(** C23: the vibrato oscillators of the web3 soundscape leak.  The
    commit that builds the soundscape starts four oscillators that no ref
    holds, and no later commit, whatever the timeline and whether sound is
    on or off, stops them. *)
Theorem lfo_leak state l l' states l'' j :
  wf l → soundEnabled state = true → currentTimeline state = web3 →
  deps l ≠ Some (web3, true) →
  commit fuel state l = Some l' →
  commits fuel states l' = Some l'' →
  j < 4 → leaked l'' (2 + 4 * j + nodes l).
Proof.
  intros Hwf Hen Ht Hd Hc Hcs Hj. rewrite <- Ht in Hd.
  destruct (commit_enabled _ _ _ Hwf Hen Hd Hc)
    as (r & s' & new & Hrun & Ho & _ & _ & HF).
  rewrite Ht in Hrun.
  apply soundscape_inv in Hrun as (new' & ->%app_inv_head & Hrun).
  rewrite create_web3 in Hrun.
  destruct (createWeb3Soundscape_lfos _ _ _ _ _ j Hrun Hj) as [Hst Hnt].
  eapply commits_leaked; [by eapply Frame_wf | done |].
  split; [by eapply Frame_running | by unfold tracked; rewrite Ho].
Qed.

(** C38: disabling sound stops every tracked oscillator through the
    cleanup, and leaves the refs and [isPlaying] as they were: the
    component goes on holding stopped oscillators and saying it plays. *)
Theorem commit_disabled state l l' :
  wf l → soundEnabled state = false → cleanup l = true →
  deps l ≠ Some (currentTimeline state, false) →
  commit fuel state l = Some l' →
  (∀ n, n ∈ tracked l → n ∈ stops (audio l')) ∧
  starts (audio l') = starts (audio l) ∧
  oscillatorsRef l' = oscillatorsRef l ∧ gainNodesRef l' = gainNodesRef l ∧
  isPlaying l' = isPlaying l ∧ cleanup l' = false.
Proof.
  intros Hwf Hen Hcl Hd Hc.
  rewrite (commit_disabled_inv state l l' Hen Hd Hc). unfold runCleanup.
  rewrite Hcl. destruct (wf_cleanup _ Hwf Hcl) as [c Hc'].
  unfold audio, tracked. rewrite Hc'. simpl.
  rewrite stops_app, starts_app, stops_Stop, starts_Stop, app_nil_r.
  split_and!; try done. set_solver.
Qed.

End Effect.

(** ** Termination *)

Section Total.
Context {num : Type} `{JsNum num}.
Context (fuel : nat).
Implicit Types (s : Refs) (ct : num).

(** The loops of the soundscapes have finished within [fuel]. *)
Definition loops_finish : Prop :=
  Forall (λ step, is_Some (iterates fuel (js_of_Z 0) (js_of_Z 60) step))
    ((pulseInterval <$> [0; 1; 2; 3]) ++ [dec 5 1; dec 25 2]).

(** Runs a computation whose loops are known to finish. *)
Ltac mtotal :=
  unfold mbind, mret, M_bind, M_ret, createOscillator, createGain, emit, call,
    setOscillator, setGainNode, resetRefs, stopAll;
  cbn [next oscillators gainNodes];
  repeat (erewrite for_lt_emit by (intros; reflexivity);
          match goal with
          | H : iterates _ _ _ ?step = Some _ |- context [iterates _ _ _ ?step] =>
              rewrite H
          end;
          cbn [fmap option_fmap option_map]).

Lemma dataVoice_total freq i ct s :
  is_Some (iterates fuel (js_of_Z 0) (js_of_Z 60) (pulseInterval i)) →
  is_Some (dataVoice fuel freq i ct s).
Proof. intros [ts Hts]. unfold dataVoice. cbv zeta. mtotal. by eexists. Qed.

Lemma web3Voice_total freq i ct s : is_Some (web3Voice freq i ct s).
Proof. unfold web3Voice. mtotal. by eexists. Qed.

Lemma create_total t ct s : loops_finish → is_Some (create fuel t ct s).
Proof.
  unfold loops_finish. cbn [fmap list_fmap app].
  rewrite !Forall_cons, Forall_nil.
  intros (H0 & H1 & H2 & H3 & [ts4 H4] & [ts5 H5] & _). destruct t; simpl.
  - unfold createDataSoundscape, forEach, forEach_from.
    repeat (apply bind_is_Some; [by apply dataVoice_total | intros]).
    by eexists.
  - unfold createComicSoundscape. mtotal. by eexists.
  - unfold createWeb3Soundscape, forEach, forEach_from.
    repeat (apply bind_is_Some; [by apply web3Voice_total | intros]).
    by eexists.
  - unfold createSingularitySoundscape. mtotal. by eexists.
Qed.

Lemma soundscape_total t ct s :
  loops_finish → is_Some (soundscape fuel t ct s).
Proof.
  intros Hloops. unfold soundscape.
  apply bind_is_Some; [by eexists | intros].
  apply bind_is_Some; [by eexists | intros].
  by apply (create_total t).
Qed.

Lemma commit_total state (l : Local num) :
  loops_finish → is_Some (commit fuel state l).
Proof.
  intros Hloops. unfold commit. case_decide; [by eexists |].
  unfold effect. destruct (soundEnabled state); simpl; [| by eexists].
  destruct (soundscape_total (currentTimeline state)
              (currentTime (default newAudioContext
                 (audioContextRef (runCleanup l))))
              (mkRefs (nextNode (default newAudioContext
                 (audioContextRef (runCleanup l))))
                 (oscillatorsRef (runCleanup l)) (gainNodesRef (runCleanup l)))
              Hloops) as [[[r s'] out] ->].
  by eexists.
Qed.

End Total.

(** ** The loops in exact arithmetic *)

Section Exact.
Local Open Scope Qc_scope.

Definition Qc_of_nat (k : nat) : Qc := Q2Qc (inject_Z (Z.of_nat k)).

(** The first [n] multiples of [step]. *)
Definition ticks (a step : Qc) (n : nat) : list xnum :=
  (λ k, Fin (a + Qc_of_nat k * step)) <$> seq 0 n.

Lemma Qc_of_nat_S k : Qc_of_nat (S k) = Qc_of_nat k + 1.
Proof.
  unfold Qc_of_nat. rewrite Nat2Z.inj_succ, <- Z.add_1_r, inject_Z_plus.
  apply Qc_is_canon. qc2q. reflexivity.
Qed.

Lemma Qc_of_nat_nonneg k : 0 <= Qc_of_nat k.
Proof.
  unfold Qc_of_nat. qc2q. unfold Qle. simpl. lia.
Qed.

Lemma ticks_S a step n :
  ticks a step (S n) = Fin a :: ticks (a + step) step n.
Proof.
  unfold ticks. rewrite <- cons_seq, <- fmap_S_seq, fmap_cons, <- list_fmap_compose.
  f_equal; [f_equal; change (Qc_of_nat 0) with 0%Qc; ring |].
  apply list_fmap_ext. intros _ k _. simpl. rewrite Qc_of_nat_S.
  f_equal. ring.
Qed.

(** A loop with a positive step runs for as many values as lie below the
    limit, given one unit of fuel more. *)
Lemma iterates_exact (step limit : Qc) (n : nat) :
  0 < step →
  ∀ a fuel, (n < fuel)%nat →
    limit <= a + Qc_of_nat n * step →
    (n = 0%nat ∨ a + Qc_of_nat (n - 1) * step < limit) →
    iterates fuel (Fin a) (Fin limit) (Fin step) = Some (ticks a step n).
Proof.
  intros Hstep. induction n as [|n IH]; intros a [|fuel] Hfuel Hhi Hlo;
    try lia; unfold iterates; fold (iterates (num := xnum)).
  - change (js_lt (Fin a) (Fin limit)) with (xlt (Fin a) (Fin limit)).
    rewrite (proj2 (xlt_Fin_false _ _)); [done |].
    revert Hhi. change (Qc_of_nat 0) with 0%Qc.
    by replace (a + 0 * step) with a by ring.
  - destruct Hlo as [? | Hlo]; [lia |].
    replace (S n - 1)%nat with n in Hlo by lia.
    pose proof (Qc_of_nat_nonneg n) as Hn.
    change (js_lt (Fin a) (Fin limit)) with (xlt (Fin a) (Fin limit)).
    assert (a < limit) as Hlt.
    { clear IH Hhi Hfuel. revert Hn Hstep Hlo. generalize (Qc_of_nat n).
      intros k ???. qc_lra. }
    rewrite (proj2 (xlt_Fin _ _)) by done.
    change (js_add (Fin a) (Fin step)) with (Fin (a + step)).
    rewrite Qc_of_nat_S in Hhi.
    rewrite (IH (a + step) fuel), ticks_S; [done | lia | |].
    + by replace (a + step + Qc_of_nat n * step)
        with (a + (Qc_of_nat n + 1) * step) by ring.
    + destruct n as [|n]; [by left | right].
      replace (S n - 1)%nat with n by lia. rewrite Qc_of_nat_S in Hlo.
      by replace (a + step + Qc_of_nat n * step)
        with (a + (Qc_of_nat n + 1) * step) by ring.
Qed.

(** The steps of the six loops, as rationals. *)
Lemma steps_exact :
  (pulseInterval (num := xnum) <$> [0; 1; 2; 3]%nat) ++ [dec 5 1; dec 25 2] =
    Fin <$> [Q2Qc (1 # 10); Q2Qc (3 # 20); Q2Qc (1 # 5); Q2Qc (1 # 4);
             Q2Qc (1 # 2); Q2Qc (1 # 4)].
Proof. by_compute. Qed.

(** Runs a loop whose step and limit are rational literals. *)
Ltac loop_exact :=
  apply iterates_exact; first [lia | by_compute | right; by_compute].

(** C39: the loops terminate in exact arithmetic.  With more than 600
    units of fuel the pulse loops of the four data voices run 600, 400,
    300 and 240 times and those of the comic bass and click 120 and 240
    times, the loop variable taking the multiples of the step below 60. *)
Theorem loops_exact (fuel : nat) :
  (600 < fuel)%nat →
  iterates fuel (js_of_Z 0) (js_of_Z 60)
    <$> (pulseInterval (num := xnum) <$> [0; 1; 2; 3]%nat)
          ++ [dec 5 1; dec 25 2] =
  [Some (ticks 0 (Q2Qc (1 # 10)) 600); Some (ticks 0 (Q2Qc (3 # 20)) 400);
   Some (ticks 0 (Q2Qc (1 # 5)) 300); Some (ticks 0 (Q2Qc (1 # 4)) 240);
   Some (ticks 0 (Q2Qc (1 # 2)) 120); Some (ticks 0 (Q2Qc (1 # 4)) 240)].
Proof.
  intros Hfuel. rewrite steps_exact. cbn [fmap list_fmap].
  repeat f_equal; loop_exact.
Qed.

Lemma loops_finish_exact (fuel : nat) :
  (600 < fuel)%nat → loops_finish (num := xnum) fuel.
Proof.
  intros Hfuel. unfold loops_finish. rewrite steps_exact. cbn [fmap list_fmap].
  repeat apply Forall_cons_2;
    [exists (ticks 0 (Q2Qc (1 # 10)) 600) | exists (ticks 0 (Q2Qc (3 # 20)) 400)
    | exists (ticks 0 (Q2Qc (1 # 5)) 300) | exists (ticks 0 (Q2Qc (1 # 4)) 240)
    | exists (ticks 0 (Q2Qc (1 # 2)) 120) | exists (ticks 0 (Q2Qc (1 # 4)) 240)
    | apply Forall_nil_2]; loop_exact.
Qed.

End Exact.


Lemma loops_finish_float : loops_finish (num := float) 1000.
Proof.
  unfold loops_finish. cbn [fmap list_fmap app].
  repeat (apply Forall_cons; split; [vm_compute; by eexists |]). constructor.
Qed.

(** every commit returns: in exact arithmetic given more than 600
    units of fuel, in doubles given 1000. *)
Theorem commit_returns :
  (∀ fuel state (l : Local xnum), (600 < fuel)%nat →
     is_Some (commit fuel state l)) ∧
  (∀ state (l : Local float), is_Some (commit 1000 state l)).
Proof.
  split; intros; apply commit_total;
    [by apply loops_finish_exact | apply loops_finish_float].
Qed.

(** ** The theorems at concrete runs, in doubles *)

(** Sound switched on in the singularity and in the web3 timeline. *)
Definition sound_on : MultiverseState float := toggleSound Store.initial.
Definition sound_on_web3 : MultiverseState float :=
  toggleSound (setTimeline web3 Store.initial).

(** The component after the rumble and after the pads have been built. *)
Definition rumbling : Local float :=
  Eval vm_compute in default initialLocal (commit 1000 sound_on initialLocal).
Definition pads : Local float :=
  Eval vm_compute in
    default initialLocal (commit 1000 sound_on_web3 initialLocal).

(** The rumble switched off. *)
Definition silenced : Local float :=
  Eval vm_compute in
    default initialLocal (commit 1000 (toggleSound sound_on) rumbling).

(** Back in the singularity, then sound switched off. *)
Definition after_pads : list (MultiverseState float) :=
  [setTimeline singularity sound_on_web3;
   toggleSound (setTimeline singularity sound_on_web3)].
Definition muted : Local float :=
  Eval vm_compute in default initialLocal (commits 1000 after_pads pads).

Lemma commit_tracks_witness :
  commit 1000 sound_on initialLocal = Some rumbling ∧
  tracked rumbling = [0] ∧ running 0 (audio rumbling).
Proof.
  assert (Hc : commit 1000 sound_on initialLocal = Some rumbling)
    by (vm_compute; reflexivity).
  split_and!; [done | done |].
  destruct (commit_tracks 1000 sound_on initialLocal rumbling)
    as (_ & _ & Hrun & _); [apply initialLocal_wf | done.. |].
  apply Hrun. by left.
Defined.

Lemma lfo_leak_witness :
  commit 1000 sound_on_web3 initialLocal = Some pads ∧
  commits 1000 after_pads pads = Some muted ∧
  leaked muted 14.
Proof.
  assert (Hc : commit 1000 sound_on_web3 initialLocal = Some pads)
    by (vm_compute; reflexivity).
  assert (Hcs : commits 1000 after_pads pads = Some muted)
    by (vm_compute; reflexivity).
  split_and!; [done | done |].
  apply (lfo_leak 1000 sound_on_web3 initialLocal pads after_pads muted 3
           initialLocal_wf eq_refl eq_refl ltac:(discriminate) Hc Hcs).
  lia.
Defined.

Lemma commit_disabled_witness :
  commit 1000 (toggleSound sound_on) rumbling = Some silenced ∧
  stops (audio silenced) = [0] ∧ isPlaying silenced = true.
Proof.
  assert (Hc : commit 1000 (toggleSound sound_on) rumbling = Some silenced)
    by (vm_compute; reflexivity).
  assert (Hwf : wf rumbling).
  { apply (commit_wf 1000 sound_on initialLocal); [apply initialLocal_wf |].
    vm_compute. reflexivity. }
  split_and!; [done | done |].
  by destruct (commit_disabled 1000 (toggleSound sound_on) rumbling silenced
                 Hwf eq_refl eq_refl ltac:(discriminate) Hc)
    as (_ & _ & _ & _ & -> & _).
Defined.

Lemma loops_exact_witness :
  (600 < 601)%nat ∧
  head (iterates 601 (js_of_Z 0) (js_of_Z 60)
          <$> (pulseInterval (num := xnum) <$> [0; 1; 2; 3]%nat)
                ++ [dec 5 1; dec 25 2])
    = Some (Some (ticks 0 (Q2Qc (1 # 10)) 600)).
Proof.
  assert (Hfuel : (600 < 601)%nat) by lia.
  split; [done |]. by rewrite (loops_exact 601 Hfuel).
Defined.

End SoundController.
