(* ===== verification/World.v ===== *)
(** * World: the page as one transition system

    [Module World] composes the components.  A state holds the store and
    the timer loop ([MultiverseWatch.Env]), the local state of
    [PortalTransition] and [RealityAnchor], and the refs of the
    [Singularity] scene while it is mounted.  An [Event] is what the host
    delivers: a pointer move (with the viewport read at that moment), a
    click on the hero object, on a watch button or on the sound button, an
    animation frame, a due timer, or the passing of time.

    [exec] runs the handlers the event reaches, in the order the
    components register them, and then [settle]s: React commits, effects
    with changed dependencies run, and the scene that is no longer
    selected unmounts.  [step] is the same system as a relation; an event
    is enabled only where the element it targets is rendered.

    [Inv] is the invariant of every reachable state.  From it: the
    singularity cannot be re-entered; no switch can be requested while
    undecided; the overlay is never drawn in its default style; while a
    switch is in its first 300 ms the overlay has the outgoing
    timeline's style. *)

From Stdlib Require Import Floats.
From S2P Require Import Prelude JsNumber MultiverseStore EventLoop Watch.
From S2P Require Import SequencerSpec AppShell SingularityScene Cursor Portal.
From stdpp Require Import sets.

Module World.
Import Store.

Record State (num : Type) : Type := mkWorld {
  env : MultiverseWatch.Env num;
  portal : PortalTransition.Local;
  anchor : Vec2 num;
  scene : option (Singularity.Refs num);
}.
Arguments mkWorld {num}.
Arguments env {num}.
Arguments portal {num}.
Arguments anchor {num}.
Arguments scene {num}.

Inductive Event (num : Type) : Type :=
| MouseMove (window : App.Window num) (e : App.MouseEvent num)
| ClickHero
| ClickWatch (t : Timeline)
| ClickSound
| Frame (delta : num)
| Timeout
| Wait (d : N).
Arguments MouseMove {num}.
Arguments ClickHero {num}.
Arguments ClickWatch {num}.
Arguments ClickSound {num}.
Arguments Frame {num}.
Arguments Timeout {num}.
Arguments Wait {num}.

Section System.
Context {num : Type} `{JsNum num}.
Implicit Types (w : State num) (st : MultiverseState num).

Definition store w : MultiverseState num := MultiverseWatch.store (env w).
Definition loop w := MultiverseWatch.loop (env w).

Definition with_store (f : MultiverseState num → MultiverseState num) w
    : State num :=
  mkWorld (MultiverseWatch.mkEnv (f (store w)) (loop w))
    (portal w) (anchor w) (scene w).

Definition with_env (e : MultiverseWatch.Env num) w : State num :=
  mkWorld e (portal w) (anchor w) (scene w).

(** React commits: the overlay's effect runs if its dependencies changed,
    and the singularity scene unmounts when another scene is selected. *)
Definition settle w : State num :=
  mkWorld (env w)
    (PortalTransition.commit (store w) (portal w))
    (anchor w)
    (if decide (App.renderTimeline (currentTimeline (store w)) = App.Singularity)
     then scene w else None).

(** The page after its first commit. *)
Definition initial : State num :=
  settle (mkWorld MultiverseWatch.initial PortalTransition.initialLocal
            RealityAnchor.initialPosition
            (Some (Singularity.attach Singularity.initialRefs))).

(** The hero object is part of the singularity scene. *)
Definition hero_rendered w : Prop :=
  App.renderTimeline (currentTimeline (store w)) = App.Singularity.

(** A watch button that requests [t] is rendered. *)
Definition button_rendered (t : Timeline) w : Prop :=
  ∃ v, MultiverseWatch.render (currentTimeline (store w)) = Some v ∧
       t ∈ MultiverseWatch.onClick <$> MultiverseWatch.buttons v.

#[global] Instance hero_rendered_dec w : Decision (hero_rendered w).
Proof. unfold hero_rendered. apply _. Defined.

#[global] Instance button_rendered_dec t w : Decision (button_rendered t w).
Proof.
  unfold button_rendered.
  destruct (MultiverseWatch.render (currentTimeline (store w))) as [v|].
  - destruct (decide (t ∈ MultiverseWatch.onClick <$> MultiverseWatch.buttons v)).
    + left. by exists v.
    + right. by intros (? & [= <-] & ?).
  - right. by intros (? & ? & ?).
Defined.

(** What an animation frame does to the scene and the store. *)
Definition frame (delta : num) w : State num :=
  match scene w with
  | Some refs =>
      let r := Singularity.useFrame delta refs (store w) in
      mkWorld (MultiverseWatch.mkEnv r.2 (loop w)) (portal w) (anchor w)
        (Some r.1)
  | None => w
  end.

(** The handlers an event reaches, before React commits. *)
Definition handle (e : Event num) w : option (State num) :=
  match e with
  | MouseMove window ev =>
      Some (mkWorld
        (MultiverseWatch.mkEnv (App.handleMouseMove window ev (store w)) (loop w))
        (portal w) (RealityAnchor.handleMouseMove ev (anchor w)) (scene w))
  | ClickHero =>
      if decide (hero_rendered w)
      then Some (with_store Singularity.handleCommit w) else None
  | ClickWatch t =>
      if decide (button_rendered t w)
      then Some (with_env (MultiverseWatch.handleTimelineSwitch t (env w)) w)
      else None
  | ClickSound => Some (with_store toggleSound w)
  | Frame delta => Some (frame delta w)
  | Timeout => (λ e, with_env e w) <$> MultiverseWatch.tick (env w)
  | Wait d => (λ e, with_env e w) <$> MultiverseWatch.elapse d (env w)
  end.

Definition exec (e : Event num) w : option (State num) :=
  settle <$> handle e w.

(** The same system as a relation. *)
Inductive step : State num → Event num → State num → Prop :=
| step_mouse w window ev :
    step w (MouseMove window ev)
      (settle (mkWorld
        (MultiverseWatch.mkEnv (App.handleMouseMove window ev (store w)) (loop w))
        (portal w) (RealityAnchor.handleMouseMove ev (anchor w)) (scene w)))
| step_hero w :
    hero_rendered w →
    step w ClickHero (settle (with_store Singularity.handleCommit w))
| step_watch w t :
    button_rendered t w →
    step w (ClickWatch t)
      (settle (with_env (MultiverseWatch.handleTimelineSwitch t (env w)) w))
| step_sound w :
    step w ClickSound (settle (with_store toggleSound w))
| step_frame w delta :
    step w (Frame delta) (settle (frame delta w))
| step_timeout w e :
    MultiverseWatch.tick (env w) = Some e →
    step w Timeout (settle (with_env e w))
| step_wait w d e :
    MultiverseWatch.elapse d (env w) = Some e →
    step w (Wait d) (settle (with_env e w)).

(** [exec] is the relation: it is sound, complete and deterministic. *)
Lemma exec_step e w w' : exec e w = Some w' ↔ step w e w'.
Proof.
  unfold exec. split.
  - destruct e; simpl; repeat case_decide; try done;
      try (intros [= <-]; by constructor).
    + destruct (MultiverseWatch.tick (env w)) eqn:E; [| done].
      intros [= <-]. by constructor.
    + destruct (MultiverseWatch.elapse d (env w)) eqn:E; [| done].
      intros [= <-]. by constructor.
  - intros Hs. inv Hs; simpl; rewrite ?decide_True by done; try done.
    + by rewrite H0.
    + by rewrite H0.
Qed.

Lemma exec_sound : sound step exec.
Proof. intros e w w'. apply exec_step. Qed.

(** The refs of the scene after the handlers of an event: a frame runs
    the scene's callback. *)
Definition pre (e : Event num) st (refs : option (Singularity.Refs num))
    : option (Singularity.Refs num) :=
  match e with
  | Frame delta => (λ refs, (Singularity.useFrame delta refs st).1) <$> refs
  | _ => refs
  end.

Lemma handle_scene e w w1 :
  handle e w = Some w1 → scene w1 = pre e (store w) (scene w).
Proof.
  destruct e; simpl; repeat case_decide; try done;
    try (by intros [= <-]).
  - intros [= <-]. unfold frame. destruct (scene w) eqn:E; simpl; by rewrite ?E.
  - destruct (MultiverseWatch.tick (env w)); [| done]. by intros [= <-].
  - destruct (MultiverseWatch.elapse d (env w)); [| done]. by intros [= <-].
Qed.

(** After the commit the scene is there exactly if it is selected. *)
Lemma exec_scene e w w' :
  exec e w = Some w' →
  scene w' =
    if decide (App.renderTimeline (currentTimeline (store w')) = App.Singularity)
    then pre e (store w) (scene w) else None.
Proof.
  unfold exec. destruct (handle e w) as [w1|] eqn:E; [| done].
  intros [= <-]. by rewrite <- (handle_scene e w w1 E).
Qed.

(** ** The invariant *)

Definition committed w : Prop := currentTimeline (store w) ≠ singularity.

Record Inv w : Prop := mkInv {
  inv_wf : MultiverseWatch.wf (env w);
  inv_scene : is_Some (scene w) ↔ currentTimeline (store w) = singularity;
  inv_undecided :
    currentTimeline (store w) = singularity → MultiverseWatch.idle (env w);
  inv_targets :
    Forall (λ t, Timers.callback t ≠ MultiverseWatch.CommitSwitch singularity)
      (Timers.queue (loop w));
  inv_flag :
    isTransitioning (store w) = true → Timers.queue (loop w) ≠ [];
  inv_deps :
    PortalTransition.deps (portal w) =
      Some (isTransitioning (store w), currentTimeline (store w));
  inv_coherent : PortalTransition.coherent (portal w);
}.

(** The invariant between the handlers and the commit: the overlay's
    dependencies may be stale and the scene may still be mounted. *)
Record Pre w : Prop := mkPre {
  pre_wf : MultiverseWatch.wf (env w);
  pre_scene : currentTimeline (store w) = singularity → is_Some (scene w);
  pre_undecided :
    currentTimeline (store w) = singularity → MultiverseWatch.idle (env w);
  pre_targets :
    Forall (λ t, Timers.callback t ≠ MultiverseWatch.CommitSwitch singularity)
      (Timers.queue (loop w));
  pre_flag :
    isTransitioning (store w) = true → Timers.queue (loop w) ≠ [];
  pre_coherent : PortalTransition.coherent (portal w);
}.

Lemma Inv_Pre w : Inv w → Pre w.
Proof. intros []. split; try done. by intros ?%inv_scene0. Qed.

Lemma hero_rendered_iff w :
  hero_rendered w ↔ currentTimeline (store w) = singularity.
Proof. unfold hero_rendered. by destruct (currentTimeline (store w)). Qed.

Lemma settle_Inv w : Pre w → Inv (settle w).
Proof.
  intros []. split; try done; unfold settle; simpl.
  - fold (hero_rendered w). case_decide as Hh; rewrite hero_rendered_iff in Hh.
    + split; [done | auto].
    + split; [by intros [] | done].
  - unfold PortalTransition.commit. by case_decide.
  - by apply PortalTransition.commit_coherent.
Qed.

Lemma initial_Inv : Inv initial.
Proof.
  apply settle_Inv.
  split; simpl; try done;
    first [apply MultiverseWatch.initial_wf | by eexists].
Qed.

(** A handler that writes neither the timeline nor the flag nor the loop
    keeps [Pre]. *)
Lemma Pre_frame w w' :
  Pre w → loop w' = loop w →
  currentTimeline (store w') = currentTimeline (store w) →
  isTransitioning (store w') = isTransitioning (store w) →
  portal w' = portal w → (is_Some (scene w) → is_Some (scene w')) →
  Pre w'.
Proof.
  intros [] Hl Hc Hf Hp Hs. unfold loop, store in *.
  split; unfold MultiverseWatch.wf, MultiverseWatch.idle, loop, store in *;
    rewrite ?Hl, ?Hc, ?Hf, ?Hp; auto.
Qed.

Lemma handle_hero_Pre w :
  Inv w → hero_rendered w → Pre (with_store Singularity.handleCommit w).
Proof.
  intros HI Hh%hero_rendered_iff. pose proof (Inv_Pre _ HI) as [].
  destruct (inv_undecided _ HI Hh) as [Hflag Hq].
  pose proof (Singularity.handleCommit_frame (store w) FTransitioning
                ltac:(done)) as Hf. simpl in Hf.
  unfold loop, store in *.
  split; unfold MultiverseWatch.idle, with_store, loop, store; simpl;
    rewrite ?Hf, ?Hq; try done.
  - intros _. apply pre_scene0, Hh.
  - by rewrite Hflag.
Qed.

Lemma handle_watch_Pre w t :
  Inv w → button_rendered t w →
  Pre (with_env (MultiverseWatch.handleTimelineSwitch t (env w)) w).
Proof.
  intros HI (v & Hv & Ht). pose proof (Inv_Pre _ HI) as HP.
  destruct (MultiverseWatch.render_onClick _ _ _ Hv Ht) as [Hc Hts].
  unfold MultiverseWatch.handleTimelineSwitch. fold (store w).
  case_decide; [by destruct w as [[] ? ? ?] |].
  destruct HP. unfold loop, store in *.
  split; unfold with_env, MultiverseWatch.wf, MultiverseWatch.idle, loop,
    store; simpl; try done.
  - by apply Timers.setTimeout_wf.
  - apply Timers.enqueue_Forall. split; [simpl; congruence | done].
  - intros _ Hq. apply (f_equal length) in Hq.
    by rewrite Timers.enqueue_length in Hq.
Qed.

Lemma handle_timeout_Pre w e :
  Inv w → MultiverseWatch.tick (env w) = Some e → Pre (with_env e w).
Proof.
  intros HI Ht. pose proof (Inv_Pre _ HI) as [].
  destruct (MultiverseWatch.tick_cases _ _ Ht)
    as (u & q & Hq & [(c & Hc & Hst & Hq') | (Hc & Hst & Hq')]).
  all: unfold loop, store in *; rewrite Hq in *.
  all: apply Forall_cons in pre_targets0 as [Hu Htl].
  all: assert (Hne : currentTimeline (MultiverseWatch.store (env w))
                       ≠ singularity)
         by (intros Hs; destruct (pre_undecided0 Hs) as [_ Hnil];
             unfold MultiverseWatch.idle in *; congruence).
  all: split; unfold with_env, MultiverseWatch.idle, loop, store; simpl;
         rewrite ?Hst, ?Hq'; simpl; try done;
         eauto using MultiverseWatch.tick_wf.
  - intros ->. congruence.
  - intros ->. congruence.
  - by apply Timers.enqueue_Forall.
  - intros _ Hnil. apply (f_equal length) in Hnil.
    by rewrite Timers.enqueue_length in Hnil.
Qed.

Lemma handle_wait_Pre w d e :
  Inv w → MultiverseWatch.elapse d (env w) = Some e → Pre (with_env e w).
Proof.
  intros HI He. pose proof (Inv_Pre _ HI) as [].
  pose proof (MultiverseWatch.elapse_store _ _ _ He) as Hst.
  pose proof (MultiverseWatch.elapse_queue _ _ _ He) as Hq.
  unfold loop, store in *.
  split; unfold with_env, MultiverseWatch.idle, loop, store; simpl;
    rewrite ?Hst, ?Hq; try done.
  by eapply MultiverseWatch.elapse_wf.
Qed.

Lemma handle_Pre e w w' : Inv w → handle e w = Some w' → Pre w'.
Proof.
  intros HI. destruct e; simpl.
  - intros [= <-]. by apply (Pre_frame w); [apply Inv_Pre | ..].
  - case_decide; [| done]. intros [= <-]. by apply handle_hero_Pre.
  - case_decide; [| done]. intros [= <-]. by apply handle_watch_Pre.
  - intros [= <-]. by apply (Pre_frame w); [apply Inv_Pre | ..].
  - intros [= <-]. unfold frame. destruct (scene w) eqn:E;
      [| by apply Inv_Pre].
    apply (Pre_frame w); [by apply Inv_Pre | done.. | by eexists].
  - destruct (MultiverseWatch.tick (env w)) eqn:E; [| done].
    intros [= <-]. by apply handle_timeout_Pre.
  - destruct (MultiverseWatch.elapse d (env w)) eqn:E; [| done].
    intros [= <-]. by eapply handle_wait_Pre.
Qed.

(** [Inv] is kept by every step. *)
Lemma Inv_preserved : preserved step Inv.
Proof.
  intros w e w' HI Hs%exec_step. unfold exec in Hs.
  destruct (handle e w) as [w1|] eqn:E; [| done].
  injection Hs as <-. eauto using settle_Inv, handle_Pre.
Qed.

Lemma reachable_Inv w : reachable step initial w → Inv w.
Proof. apply preserved_reachable; [apply Inv_preserved | apply initial_Inv]. Qed.

(** While the flag is up the overlay's style is that of the store's
    current timeline. *)
Lemma Inv_style w :
  Inv w → isTransitioning (store w) = true →
  PortalTransition.portalStyle (portal w)
    = PortalTransition.styleFor (currentTimeline (store w)).
Proof.
  intros HI Hf. apply (inv_coherent _ HI). by rewrite (inv_deps _ HI), Hf.
Qed.

(** C4: every state the page can reach from its first commit has a well
    formed timer queue, mounts the singularity scene exactly while
    undecided, runs no transition while undecided, has no pending commit
    that targets the singularity, has a pending timer whenever the flag is
    up, and has run the overlay's effect for the store it shows. *)
Theorem reachable_invariant w :
  reachable step initial w →
  MultiverseWatch.wf (env w) ∧
  (is_Some (scene w) ↔ currentTimeline (store w) = singularity) ∧
  (currentTimeline (store w) = singularity → MultiverseWatch.idle (env w)) ∧
  Forall (λ t, Timers.callback t ≠ MultiverseWatch.CommitSwitch singularity)
    (Timers.queue (loop w)) ∧
  (isTransitioning (store w) = true → Timers.queue (loop w) ≠ []) ∧
  PortalTransition.portalStyle (portal w)
    = PortalTransition.effect (store w) (PortalTransition.portalStyle (portal w)).
Proof.
  intros HI%reachable_Inv. pose proof (Inv_style _ HI) as Hst.
  destruct HI. split_and!; try done.
  unfold PortalTransition.effect. destruct (isTransitioning (store w)); auto.
Qed.

(** ** Consequences *)

Lemma settle_store w : store (settle w) = store w.
Proof. done. Qed.

Lemma exec_committed e w w' :
  Inv w → committed w → exec e w = Some w' → committed w'.
Proof.
  unfold exec, committed. intros HI Hc.
  destruct (handle e w) as [w1|] eqn:E; [| done]. intros [= <-].
  rewrite settle_store. destruct e; simpl in E.
  - by injection E as <-.
  - case_decide as Hh; [| done]. by apply hero_rendered_iff in Hh.
  - case_decide; [| done]. injection E as <-.
    unfold with_env, store, MultiverseWatch.handleTimelineSwitch. simpl.
    by case_decide.
  - by injection E as <-.
  - injection E as <-. unfold frame. by destruct (scene w).
  - destruct (MultiverseWatch.tick (env w)) as [e'|] eqn:Ht; [| done].
    injection E as <-. unfold with_env, store. simpl.
    destruct (MultiverseWatch.tick_cases _ _ Ht)
      as (u & q & Hq & [(c & Hcb & -> & _) | (_ & -> & _)]); [| done].
    simpl. intros ->. pose proof (inv_targets _ HI) as Ht'.
    unfold loop in Ht'. rewrite Hq in Ht'. by apply Forall_cons in Ht' as [? _].
  - destruct (MultiverseWatch.elapse d (env w)) as [e'|] eqn:He; [| done].
    injection E as <-. unfold with_env, store. simpl.
    by rewrite (MultiverseWatch.elapse_store _ _ _ He).
Qed.

(** C8: the singularity cannot be re-entered: once a timeline is
    committed, no sequence of events leads back to the undecided scene. *)
Theorem no_return w ls w' :
  reachable step initial w → committed w → steps step w ls w' → committed w'.
Proof.
  intros Hr Hc Hs.
  enough (Inv w' ∧ committed w') as [_ ?] by done.
  eapply (preserved_steps step (λ w, Inv w ∧ committed w)); [| done |].
  - intros w1 e w2 [HI Hc1] Hstep. split; [by eapply Inv_preserved |].
    apply exec_step in Hstep. by eapply exec_committed.
  - split; [by apply reachable_Inv | done].
Qed.

(** C30: while undecided the page is at rest and no switch can be
    requested: the watch shows no button, the flag is down and no timer is
    pending.  A switch never starts from the singularity. *)
Theorem undecided_at_rest w t :
  reachable step initial w → currentTimeline (store w) = singularity →
  exec (ClickWatch t) w = None ∧ exec Timeout w = None ∧
  MultiverseWatch.idle (env w).
Proof.
  intros HI%reachable_Inv Hs. pose proof (inv_undecided _ HI Hs) as Hidle.
  split_and!; [| | done].
  - unfold exec. simpl. rewrite decide_False; [done |].
    intros (v & Hv & _). rewrite Hs in Hv. done.
  - unfold exec. simpl. destruct Hidle as [_ Hq].
    unfold MultiverseWatch.tick, Timers.fire. by rewrite Hq.
Qed.


(** A state reached by executing one more event. *)
Lemma reachable_exec w e w' :
  reachable step initial w → exec e w = Some w' → reachable step initial w'.
Proof. intros Hr Hx%exec_step. by eapply reachable_step. Qed.

Lemma exec_Wait d w e :
  MultiverseWatch.elapse d (env w) = Some e →
  exec (Wait d) w = Some (settle (with_env e w)).
Proof. intros He. unfold exec. simpl. by rewrite He. Qed.

Lemma exec_Timeout w e :
  MultiverseWatch.tick (env w) = Some e →
  exec Timeout w = Some (settle (with_env e w)).
Proof. intros He. unfold exec. simpl. by rewrite He. Qed.

Lemma exec_wait_store d w w' :
  exec (Wait d) w = Some w' → store w' = store w.
Proof.
  unfold exec. simpl. destruct (MultiverseWatch.elapse d (env w)) eqn:E; [| done].
  intros [= <-]. rewrite settle_store. unfold store. simpl.
  by eapply MultiverseWatch.elapse_store.
Qed.

(** C9: the overlay is styled after the outgoing timeline while the
    switch is leaving.  After a request at rest for another timeline the
    overlay has the style of the timeline being left, and keeps it as
    time passes; only the commit at 300 ms gives it the target's style. *)
Theorem overlay_outgoing w t :
  reachable step initial w → MultiverseWatch.idle (env w) →
  button_rendered t w → t ≠ currentTimeline (store w) →
  ∃ w1 w2,
    exec (ClickWatch t) w = Some w1 ∧
    PortalTransition.portalStyle (portal w1)
      = PortalTransition.styleFor (currentTimeline (store w)) ∧
    (∀ d w', exec (Wait d) w1 = Some w' →
       PortalTransition.portalStyle (portal w')
         = PortalTransition.styleFor (currentTimeline (store w))) ∧
    run exec [Wait MultiverseWatch.leaveDuration; Timeout] w1 = Some w2 ∧
    PortalTransition.portalStyle (portal w2) = PortalTransition.styleFor t.
Proof.
  intros Hr Hidle Hb Hne.
  pose proof (MultiverseWatch.handleTimelineSwitch_other t (env w) Hne) as He1.
  pose proof (MultiverseWatch.request_commit t (env w) Hidle Hne) as He2.
  set (e1 := MultiverseWatch.handleTimelineSwitch t (env w)) in *.
  assert (Hx1 : exec (ClickWatch t) w = Some (settle (with_env e1 w)))
    by (unfold exec; simpl; by rewrite decide_True).
  pose proof (reachable_exec _ _ _ Hr Hx1) as Hr1.
  assert (Hs1 : store (settle (with_env e1 w))
                = setTransitioning true (store w)) by by rewrite He1.
  destruct (MultiverseWatch.elapse MultiverseWatch.leaveDuration e1)
    as [e1'|] eqn:Hel; [| done]. simpl in He2.
  set (w1 := settle (with_env e1 w)) in *.
  pose proof (exec_Wait _ w1 _ Hel) as Hxw.
  pose proof (exec_Timeout (settle (with_env e1' w1)) _ He2) as Hxt.
  eexists _, _. split_and!; [done | | | by cbn [run]; rewrite Hxw, Hxt |].
  - rewrite Inv_style; [| by apply reachable_Inv |]; by rewrite Hs1.
  - intros d w' Hw'. pose proof (exec_wait_store _ _ _ Hw') as Hs.
    rewrite Inv_style;
      [| by eapply reachable_Inv, reachable_exec |]; by rewrite Hs, Hs1.
  - rewrite Inv_style; [done | | done].
    by eapply reachable_Inv, reachable_exec, Hxt; eapply reachable_exec.
Qed.

End System.

End World.

(** ** The theorems at concrete runs of the page, in doubles *)

Section Runs.
Import Store World.

#[local] Abbreviation page := (initial (num := float)).
#[local] Abbreviation reached ls := (run exec ls page).

(** The pointer near the left edge of a 1000 by 800 viewport, then a
    click on the hero object: the data timeline is committed. *)
Definition choose_data : list (Event float) :=
  [MouseMove (App.mkWindow 1000%float 800%float)
     (App.mkMouseEvent 100%float 400%float);
   ClickHero].

(** The page at rest in the data timeline, just after a request for the
    comic timeline, and just after that switch has committed. *)
Definition at_data : State float :=
  Eval vm_compute in default page (reached choose_data).
Definition leaving_data : State float :=
  Eval vm_compute in default page (exec (ClickWatch comic) at_data).
Definition entering_comic : State float :=
  Eval vm_compute in
    default page (run exec [Wait 300; Timeout] leaving_data).

Lemma reached_reachable ls (w : State float) :
  reached ls = Some w → reachable step page w.
Proof. apply run_reachable, exec_sound. Qed.

Lemma at_data_reachable : reachable step page at_data.
Proof. apply (reached_reachable choose_data). by vm_compute. Qed.

Lemma leaving_data_reachable : reachable step page leaving_data.
Proof.
  apply (reached_reachable (choose_data ++ [ClickWatch comic])). by vm_compute.
Qed.

Lemma entering_comic_reachable : reachable step page entering_comic.
Proof.
  apply (reached_reachable (choose_data ++ [ClickWatch comic; Wait 300; Timeout])).
  by vm_compute.
Qed.

Lemma reachable_invariant_witness :
  isTransitioning (store entering_comic) = true ∧
  Timers.queue (loop entering_comic) ≠ [].
Proof.
  split; [reflexivity |].
  by apply (reachable_invariant _ entering_comic_reachable).
Defined.

Lemma no_return_witness :
  ∃ w', run exec [ClickWatch web3; Wait 300; Timeout; Wait 500; Timeout]
          at_data = Some w' ∧
        committed w'.
Proof.
  eexists. split; [by vm_compute |].
  eapply (no_return _
    [ClickWatch web3; Wait 300; Timeout; Wait 500; Timeout] _
    at_data_reachable); [done |].
  eapply run_steps; [apply exec_sound | by vm_compute].
Defined.

Lemma undecided_at_rest_witness :
  currentTimeline (store page) = singularity ∧
  exec (ClickWatch data) page = None.
Proof.
  split; [reflexivity |].
  by eapply (undecided_at_rest page data (reached_reachable [] _ eq_refl)).
Defined.


Lemma overlay_outgoing_witness :
  MultiverseWatch.idle (env at_data) ∧
  ∃ w1, exec (ClickWatch comic) at_data = Some w1 ∧
        PortalTransition.portalStyle (portal w1) = "data".
Proof.
  split; [done |].
  destruct (overlay_outgoing _ comic at_data_reachable)
    as (w1 & w2 & Hx & Hst & _); [done | | done |].
  - eexists. split; [reflexivity | set_solver].
  - exists w1. split; [exact Hx | exact Hst].
Defined.

End Runs.
