(* ===== verification/JsMath.v ===== *)
(** * JsMath: the [Math] object, and the real numbers as a number instance

    The scenes call [Math.sin], [Math.cos], [Math.PI] and [Math.random].
    The first three are the class [JsMath], which the components that use
    them take beside [JsNum].  Neither the primitive floats nor the exact
    rationals have a sine, so the class is instantiated at the real
    numbers [R] of the Standard Library: [real_num] is arithmetic without
    rounding and without special values, [real_math] the real sine and
    cosine.  Theorems that bound an animation are proved at this instance.
    The scenes divide by non-zero literals only; what [R] does with a zero
    divisor is never used.

    [Math.random()] reads the next value of a tape [nat → num], as a state
    monad [Rand] over the position on the tape: code that draws random
    numbers is a function of the tape, and the order of its draws is the
    order of evaluation of the source.  [unit_tape] says what the
    language promises of a draw: [0 <= Math.random() < 1]. *)

From Stdlib Require Import Reals Lra.
From S2P Require Import Prelude.
From S2P Require Import JsNumber.

(** ** The interface *)

Class JsMath (num : Type) : Type := {
  Math_sin : num → num;
  Math_cos : num → num;
  Math_PI : num;
}.

(** ** Random draws from a tape *)

Definition Rand (A : Type) : Type := nat → A * nat.

#[export] Instance Rand_ret : MRet Rand := λ A a k, (a, k).

#[export] Instance Rand_bind : MBind Rand := λ A B f m k,
  let (a, k') := m k in f a k'.

Section Random.
Context {num : Type} `{JsNum num}.
Variable tape : nat → num.

(** [Math.random()] *)
Definition Math_random : Rand num := λ k, (tape k, S k).

(** Every draw is in [[0, 1)]. *)
Definition unit_tape : Prop :=
  ∀ k, js_le (js_of_Z 0) (tape k) = true ∧ js_lt (tape k) (js_of_Z 1) = true.

End Random.

(** [l.map((a, i) => f(i, a))] where [f] draws from the tape: the
    elements are visited in order. *)
Fixpoint rand_imap {A B : Type} (f : nat → A → Rand B) (l : list A)
    : Rand (list B) :=
  match l with
  | [] => mret []
  | a :: l' => b ← f 0 a; bs ← rand_imap (λ i, f (S i)) l'; mret (b :: bs)
  end.

(** [Array.from({ length: n }).map((_, j) => body(j))] *)
Definition rand_for {B : Type} (n : nat) (body : nat → Rand B) : Rand (list B) :=
  rand_imap (λ j _, body j) (replicate n ()).

Lemma rand_imap_length {A B} (f : nat → A → Rand B) l k :
  length (rand_imap f l k).1 = length l.
Proof.
  revert f k. induction l as [|a l IH]; intros f k; [done |].
  simpl. unfold mbind, Rand_bind, mret, Rand_ret.
  destruct (f 0 a k) as [b k1]. specialize (IH (λ i, f (S i)) k1).
  destruct (rand_imap _ l k1). simpl in *. by rewrite IH.
Qed.

(** A callback that makes [d] draws and nothing else leaves the tape at
    [k + length l * d], and its [j]-th result is the callback run at
    [k + j * d]. *)
Lemma rand_imap_lookup {A B} d (f : nat → A → Rand B) l k j a :
  (∀ i a k, (f i a k).2 = k + d) → l !! j = Some a →
  (rand_imap f l k).1 !! j = Some (f j a (k + j * d)).1.
Proof.
  intros Hd. revert f Hd k j. induction l as [|a0 l IH]; intros f Hd k j Hj;
    [done |].
  simpl. unfold mbind, Rand_bind, mret, Rand_ret.
  pose proof (Hd 0 a0 k) as Hk. destruct (f 0 a0 k) as [b k1] eqn:E.
  simpl in Hk. destruct j as [|j].
  - injection Hj as ->. destruct (rand_imap _ l k1). simpl.
    replace (k + 0) with k by lia. by rewrite E.
  - specialize (IH (λ i, f (S i)) ltac:(intros; apply Hd) k1 j Hj).
    destruct (rand_imap _ l k1). simpl in *. rewrite IH. subst k1.
    do 3 f_equal; lia.
Qed.

Lemma rand_imap_tape {A B} d (f : nat → A → Rand B) l k :
  (∀ i a k, (f i a k).2 = k + d) → (rand_imap f l k).2 = k + length l * d.
Proof.
  intros Hd. revert f Hd k. induction l as [|a l IH]; intros f Hd k; simpl;
    [lia |].
  unfold mbind, Rand_bind, mret, Rand_ret.
  pose proof (Hd 0 a k) as Hk. destruct (f 0 a k) as [b k1]. simpl in Hk.
  specialize (IH (λ i, f (S i)) ltac:(intros; apply Hd) k1).
  destruct (rand_imap _ l k1). simpl in *. lia.
Qed.

(** [for (let i = 0; i < n; i++) body(i)] where the body draws from the
    tape and updates a state. *)
Definition rand_loop {St : Type} (n : nat) (body : nat → St → Rand St)
    (s : St) : Rand St :=
  λ k, for_range n 0 (λ i sk, body i sk.1 sk.2) (s, k).

(** An invariant of the state and the position on the tape that every
    iteration keeps holds when the loop ends. *)
Lemma rand_loop_invariant {St : Type} (I : nat → St → nat → Prop) n
    (body : nat → St → Rand St) s k :
  (∀ j s k, j < n → I j s k → I (S j) (body j s k).1 (body j s k).2) →
  I 0 s k → I n (rand_loop n body s k).1 (rand_loop n body s k).2.
Proof.
  intros Hbody H0. unfold rand_loop.
  apply (for_range_invariant (λ j sk, I j sk.1 sk.2) n 0); [| done].
  intros j [s' k'] ? ?. apply Hbody; [lia | done].
Qed.

(** ** The real numbers *)

#[export] Instance Rlt_decision (a b : R) : Decision (a < b)%R := Rlt_dec a b.
#[export] Instance Rle_decision (a b : R) : Decision (a <= b)%R := Rle_dec a b.
#[export] Instance R_eq_dec : EqDecision R := Req_dec_T.

#[export] Instance real_num : JsNum R := {|
  js_of_Z := IZR;
  js_add := Rplus; js_sub := Rminus; js_mul := Rmult; js_div := Rdiv;
  js_neg := Ropp;
  js_lt a b := bool_decide (a < b)%R;
  js_le a b := bool_decide (a <= b)%R;
  js_eq a b := bool_decide (a = b);
|}.

#[export] Instance real_math : JsMath R := {|
  Math_sin := sin; Math_cos := cos; Math_PI := PI;
|}.

Lemma real_lt (a b : R) : js_lt a b = true ↔ (a < b)%R.
Proof. apply bool_decide_eq_true. Qed.

Lemma real_lt_false (a b : R) : js_lt a b = false ↔ (b <= a)%R.
Proof. simpl. rewrite bool_decide_eq_false. lra. Qed.

Lemma real_le (a b : R) : js_le a b = true ↔ (a <= b)%R.
Proof. apply bool_decide_eq_true. Qed.

Lemma real_le_false (a b : R) : js_le a b = false ↔ (b < a)%R.
Proof. simpl. rewrite bool_decide_eq_false. lra. Qed.

#[export] Instance real_order : JsOrder R.
Proof.
  split; intros *; rewrite ?real_lt, ?real_lt_false; simpl; lra.
Qed.

(** No real is [NaN]. *)
Lemma real_isNaN (a : R) : isNaN a = false.
Proof. unfold isNaN. simpl. by rewrite bool_decide_eq_true_2. Qed.

Lemma Math_max_real (a b : R) : Math_max a b = Rmax a b.
Proof.
  unfold Math_max. rewrite !real_isNaN. unfold Rmax. simpl.
  destruct (Rle_dec a b), (bool_decide_reflect (a < b)%R); lra.
Qed.

(** Decimal literals and the arithmetic of the class, as real terms [lra]
    reads. *)
Ltac js_real :=
  unfold dec, lerp in *;
  rewrite ?Math_max_real in *;
  cbn [js_of_Z js_add js_sub js_mul js_div js_neg real_num
       Math_sin Math_cos Math_PI real_math] in *;
  repeat match goal with
  | |- context [Z.pow ?a (Z.of_nat ?d)] =>
      let v := eval vm_compute in (Z.pow a (Z.of_nat d)) in
      change (Z.pow a (Z.of_nat d)) with v
  | H : context [Z.pow ?a (Z.of_nat ?d)] |- _ =>
      let v := eval vm_compute in (Z.pow a (Z.of_nat d)) in
      change (Z.pow a (Z.of_nat d)) with v in H
  end.

(** The range of the sine and the cosine, in the form [lra] uses. *)
Lemma sin_range (a : R) : (-1 <= sin a <= 1)%R.
Proof. apply SIN_bound. Qed.

Lemma cos_range (a : R) : (-1 <= cos a <= 1)%R.
Proof. apply COS_bound. Qed.

(** Put the range of every sine and cosine of the goal among the
    hypotheses. *)
Ltac trig_bounds :=
  repeat match goal with
  | |- context [sin ?a] =>
      lazymatch goal with
      | _ : (-1 <= sin a <= 1)%R |- _ => fail
      | _ => pose proof (sin_range a)
      end
  | |- context [cos ?a] =>
      lazymatch goal with
      | _ : (-1 <= cos a <= 1)%R |- _ => fail
      | _ => pose proof (cos_range a)
      end
  end.

(** A product with a sine or a cosine is within the other factor. *)
Lemma sin_scaled (a c : R) : (0 <= c → - c <= sin a * c <= c)%R.
Proof. pose proof (sin_range a). nra. Qed.

Lemma cos_scaled (a c : R) : (0 <= c → - c <= cos a * c <= c)%R.
Proof. pose proof (cos_range a). nra. Qed.

(** The constant tape of zeros, the simplest source of draws. *)
Lemma unit_tape_zero : unit_tape (λ _, 0%R).
Proof. intros k. rewrite real_le, real_lt. simpl. lra. Qed.
