(* ===== verification/Three.v ===== *)
(** * Three: objects of three.js and element trees of react-three-fiber

    The scenes are written against two libraries that are not part of the
    repository.  [Module Three] holds what the components use of them:

    - [Vector3], [Euler] and [Object3D]: an object of the scene graph, with
      the two fields the per-frame callbacks read and write;
    - [Element]: the tree a component returns, tags with attributes and
      children as the JSX spells them.  [Vec], [Ref] and [Sym] are the
      attribute values [[x, y, z]], [ref={r}] and an identifier;
    - mounting: react-three-fiber creates one object per element, sets
      [position] and [rotation] from the attributes of these names and
      stores the object in the ref the element names.  [mount r e] is the
      object behind ref [r], [mount_children r e] the objects of its
      children, in the order [children.forEach] visits them, and
      [mount_all r e] the array a callback ref fills;
    - [renderable], the shape three.js needs of a tree: an object that is
      drawn has one geometry and one material (a child or an attribute),
      a light or a material has no children, a position or a rotation
      has three components. *)

From S2P Require Import Prelude.
From S2P Require Import JsNumber.

Module Three.

Record Vector3 (num : Type) : Type := mkVector3 { vx : num; vy : num; vz : num }.
Arguments mkVector3 {num}.
Arguments vx {num}.
Arguments vy {num}.
Arguments vz {num}.

Record Euler (num : Type) : Type := mkEuler { ex : num; ey : num; ez : num }.
Arguments mkEuler {num}.
Arguments ex {num}.
Arguments ey {num}.
Arguments ez {num}.

Record Object3D (num : Type) : Type := mkObject3D {
  position : Vector3 num;
  rotation : Euler num;
}.
Arguments mkObject3D {num}.
Arguments position {num}.
Arguments rotation {num}.

(** Both types nest themselves in a list, for which the generated
    induction principles say nothing of the elements: none is generated,
    and the lemmas below go through [elements]. *)
#[local] Unset Elimination Schemes.

Inductive Attr (num : Type) : Type :=
| Num (n : num)
| Str (s : string)
| Flag (b : bool)
| Arr (l : list (Attr num))
| Ref (r : string)
| Sym (s : string)
| Undefined.
Arguments Num {num}.
Arguments Str {num}.
Arguments Flag {num}.
Arguments Arr {num}.
Arguments Ref {num}.
Arguments Sym {num}.
Arguments Undefined {num}.

Inductive Element (num : Type) : Type :=
| El (tag : string) (attrs : list (string * Attr num))
     (children : list (Element num))
| Chars (s : string).
Arguments El {num}.
Arguments Chars {num}.

#[local] Set Elimination Schemes.

Section Trees.
Context {num : Type} `{JsNum num}.

(** [[a, b, ...]], an array of numbers. *)
Definition Vec (l : list num) : Attr num := Arr (Num <$> l).

(** The index a [map] or [forEach] callback receives, as a number. *)
Definition idx (i : nat) : num := js_of_Z (Z.of_nat i).

(** [<>...</>] *)
Definition Fragment (children : list (Element num)) : Element num :=
  El "" [] children.

Definition tag_of (e : Element num) : string :=
  match e with El tag _ _ => tag | Chars _ => "" end.

Definition attrs_of (e : Element num) : list (string * Attr num) :=
  match e with El _ attrs _ => attrs | Chars _ => [] end.

Definition children_of (e : Element num) : list (Element num) :=
  match e with El _ _ children => children | Chars _ => [] end.

Fixpoint assoc {A : Type} (name : string) (l : list (string * A)) : option A :=
  match l with
  | [] => None
  | (n, a) :: l' => if decide (n = name) then Some a else assoc name l'
  end.

Definition attr (name : string) (e : Element num) : option (Attr num) :=
  assoc name (attrs_of e).

Definition vector_of (a : option (Attr num)) : option (list num) :=
  match a with
  | Some (Arr [Num a; Num b; Num c]) => Some [a; b; c]
  | _ => None
  end.

Definition zero3 : list num := [js_of_Z 0; js_of_Z 0; js_of_Z 0].

(** The object created for an element: the attributes it does not give
    are zero. *)
Definition object_of (e : Element num) : Object3D num :=
  let p := default zero3 (vector_of (attr "position" e)) in
  let r := default zero3 (vector_of (attr "rotation" e)) in
  let at_ (l : list num) (i : nat) := default (js_of_Z 0) (l !! i) in
  mkObject3D (mkVector3 (at_ p 0) (at_ p 1) (at_ p 2))
             (mkEuler (at_ r 0) (at_ r 1) (at_ r 2)).

(** The element and its descendants, parents first, in document order. *)
Fixpoint elements (e : Element num) : list (Element num) :=
  e :: match e with
       | El _ _ children => concat (map elements children)
       | Chars _ => []
       end.

Definition has_ref (r : string) (e : Element num) : bool :=
  match attr "ref" e with
  | Some (Ref r') => bool_decide (r' = r)
  | _ => false
  end.

(** The elements that carry [ref={r}]. *)
Definition refs_to (r : string) (e : Element num) : list (Element num) :=
  filter (λ e', has_ref r e' = true) (elements e).

(** [r.current] once the tree is committed: the object of the element
    that names the ref, [None] ([null]) when no element names it. *)
Definition mount (r : string) (e : Element num) : option (Object3D num) :=
  object_of <$> head (refs_to r e).

(** [r.current.children] *)
Definition mount_children (r : string) (e : Element num)
    : option (list (Object3D num)) :=
  (λ e', object_of <$> children_of e') <$> head (refs_to r e).

(** The array a callback ref [ref={(el) => { r.current[i] = el }}] fills
    in a [map]: entry [i] is the object of the [i]-th element that names
    the ref. *)
Definition mount_all (r : string) (e : Element num)
    : list (option (Object3D num)) :=
  (λ e', Some (object_of e')) <$> refs_to r e.

(** ** The shape of a tree three.js can draw *)

Fixpoint ends_with (suffix s : string) : bool :=
  bool_decide (s = suffix) ||
  match s with
  | EmptyString => false
  | String _ s' => ends_with suffix s'
  end.

Definition is_geometry (e : Element num) : bool :=
  ends_with "Geometry" (tag_of e).

Definition is_material (e : Element num) : bool :=
  ends_with "Material" (tag_of e).

Definition is_light (e : Element num) : bool :=
  ends_with "Light" (tag_of e).

(** The tags of objects that are drawn. *)
Definition is_drawn (e : Element num) : bool :=
  bool_decide (tag_of e ∈ ["mesh"; "points"; "instancedMesh"]).

Definition count (p : Element num → bool) (l : list (Element num)) : nat :=
  length (filter (λ e, p e = true) l).

Definition is_vector (a : option (Attr num)) : bool :=
  match a with
  | None => true
  | Some _ => bool_decide (is_Some (vector_of a))
  end.

Definition is_number (a : option (Attr num)) : bool :=
  match a with Some (Num _) => true | _ => false end.

(** [1] when the element has the attribute, as [<mesh geometry={g}>]. *)
Definition given (name : string) (e : Element num) : nat :=
  if attr name e is Some _ then 1 else 0.

(** What one element needs, given its children. *)
Definition element_ok (e : Element num) : bool :=
  is_vector (attr "position" e) && is_vector (attr "rotation" e) &&
  (if is_drawn e
   then bool_decide (given "geometry" e + count is_geometry (children_of e) = 1) &&
        bool_decide (given "material" e + count is_material (children_of e) = 1)
   else true) &&
  (if is_light e
   then is_number (attr "intensity" e) && bool_decide (children_of e = [])
   else true) &&
  (if is_material e then bool_decide (children_of e = []) else true).

Definition renderable (e : Element num) : bool :=
  forallb element_ok (elements e).

End Trees.

(** ** Lemmas *)

Section Lemmas.
Context {num : Type} `{JsNum num}.

Lemma elements_self (e : Element num) : e ∈ elements e.
Proof. destruct e; simpl; left. Qed.

Lemma elements_child tag attrs children (c e : Element num) :
  c ∈ children → e ∈ elements c → e ∈ elements (El tag attrs children).
Proof.
  intros Hc He. simpl. right.
  apply list_elem_of_In, in_concat. exists (elements c).
  split; [apply in_map | ]; by apply list_elem_of_In.
Qed.

Lemma renderable_elements (e e' : Element num) :
  renderable e = true → e' ∈ elements e → element_ok e' = true.
Proof.
  unfold renderable. rewrite forallb_forall.
  intros Hall ?%list_elem_of_In. by apply Hall.
Qed.

(** A renderable tree is renderable below every child. *)
Lemma renderable_child tag attrs children (c : Element num) :
  renderable (El tag attrs children) = true → c ∈ children →
  renderable c = true.
Proof.
  intros Hr Hc. unfold renderable. apply forallb_forall.
  intros e' ?%list_elem_of_In.
  eapply renderable_elements; [done | by eapply elements_child].
Qed.

(** Mounting yields the object of an element of the tree that names the
    ref. *)
Lemma mount_Some r (e : Element num) o :
  mount r e = Some o →
  ∃ e', e' ∈ elements e ∧ has_ref r e' = true ∧ o = object_of e'.
Proof.
  unfold mount, refs_to. intros Hm.
  destruct (filter _ _) as [|e' l] eqn:E; [done |].
  injection Hm as <-. exists e'.
  assert (e' ∈ filter (λ e', has_ref r e' = true) (elements e)) as Hin
    by (rewrite E; left).
  apply list_elem_of_filter in Hin as [? ?]. done.
Qed.

Lemma mount_children_length r (e : Element num) os :
  mount_children r e = Some os →
  ∃ e', e' ∈ elements e ∧ has_ref r e' = true ∧
        length os = length (children_of e').
Proof.
  unfold mount_children, refs_to. intros Hm.
  destruct (filter _ _) as [|e' l] eqn:E; [done |].
  injection Hm as <-. exists e'.
  assert (e' ∈ filter (λ e', has_ref r e' = true) (elements e)) as Hin
    by (rewrite E; left).
  apply list_elem_of_filter in Hin as [? ?].
  by rewrite length_fmap.
Qed.

End Lemmas.

End Three.
