(* ===== verification/Hero.v ===== *)
(** * Hero: the hero object and its post-processing

    [Module HeroObject] models [HeroObject.tsx]: the loop that reshapes
    the vertices of the icosahedron ([geometry]), the initial uniforms of
    the shader material, the per-frame callback [useFrame] that eases the
    three influences towards the props and sets the glitch intensity, the
    pointer handlers and the returned tree.  The vertices of
    [THREE.IcosahedronGeometry] are an argument: the loop is modelled for
    every list of positions.

    [Module GlitchEffect] models [GlitchEffect.tsx]: the tree of effect
    passes computed from the [intensity] prop.

    Theorems: the loop is a map of [reshape] over the vertices and keeps
    their number; a vertex inside the ball of the icosahedron ends inside
    a box; after [n] frames with a constant prop the influence is
    [target + (9/10)^n * (start - target)], it stays between its start and
    the target, and it comes within any distance of the target; the
    easing counts frames and not time; with the props the singularity
    scene passes for a pointer inside the window the glitch intensity is
    in [[0.1, 0.5]]; in doubles the influence stalls one step below 1. *)

From Stdlib Require Import Reals Lra Floats.
From S2P Require Import Prelude.
From S2P Require Import JsNumber.
From S2P Require Import JsMath.
From S2P Require Import MultiverseStore.
From S2P Require Import SingularityScene.
From S2P Require Import Three.
From stdpp Require Import numbers.

Module HeroObject.
Import Three.

#[local] Abbreviation Influence := Singularity.Influence.
#[local] Abbreviation inf_data := Singularity.inf_data.
#[local] Abbreviation inf_comic := Singularity.inf_comic.
#[local] Abbreviation inf_web3 := Singularity.inf_web3.

(** [materialRef.current.uniforms], the values only. *)
Record Uniforms (num : Type) : Type := mkUniforms {
  uTime : num;
  uDataInfluence : num;
  uComicInfluence : num;
  uWeb3Influence : num;
  uDataColor : string;
  uComicColor : string;
  uWeb3Color : string;
  uGlitchIntensity : num;
}.
Arguments mkUniforms {num}.
Arguments uTime {num}.
Arguments uDataInfluence {num}.
Arguments uComicInfluence {num}.
Arguments uWeb3Influence {num}.
Arguments uDataColor {num}.
Arguments uComicColor {num}.
Arguments uWeb3Color {num}.
Arguments uGlitchIntensity {num}.

(** The refs of the component; [meshRef] and [materialRef] are [None]
    until the tree is committed. *)
Record Refs (num : Type) : Type := mkRefs {
  meshRef : option (Object3D num);
  materialRef : option (Uniforms num);
  timeRef : num;
}.
Arguments mkRefs {num}.
Arguments meshRef {num}.
Arguments materialRef {num}.
Arguments timeRef {num}.

Section Component.
Context {num : Type} `{JsNum num}.
Local Open Scope js_scope.

(** The body of the loop for one vertex: [y], [x] and [z] are read
    before anything is written. *)
Definition reshape (v : Vector3 num) : Vector3 num :=
  let y := vy v in
  let x := vx v in
  let z := vz v in
  let v := if y >? js_of_Z 0 then mkVector3 (vx v) (y * dec 12 1) (vz v) else v in
  if y <? - dec 5 1 then
    let scale := dec 6 1 in
    mkVector3 (x * scale) (vy v) (z * scale)
  else v.

(** [const geometry = useMemo(() => ..., [])], given the positions of the
    icosahedron: [for (let i = 0; i < positions.count; i++)]. *)
Definition geometry (positions : list (Vector3 num)) : list (Vector3 num) :=
  for_range (length positions) 0 (λ i, alter reshape i) positions.

(** [const uniforms = useMemo(() => ..., [])] *)
Definition uniforms : Uniforms num :=
  mkUniforms (js_of_Z 0) (js_of_Z 0) (js_of_Z 0) (js_of_Z 0)
    "#00ff41" "#FF6B35" "#C77DFF" (dec 1 1).

Definition initialRefs : Refs num := mkRefs None None (js_of_Z 0).

(** [Math.max(a, b, c)] *)
Definition Math_max3 (a b c : num) : num := Math_max (Math_max a b) c.

(** The writes to [materialRef.current.uniforms] of one frame. *)
Definition updateUniforms (timelineInfluence : Influence num) (time : num)
    (u : Uniforms num) : Uniforms num :=
  let maxInfluence :=
    Math_max3 (inf_data timelineInfluence) (inf_comic timelineInfluence)
      (inf_web3 timelineInfluence) in
  mkUniforms time
    (lerp (uDataInfluence u) (inf_data timelineInfluence) (dec 1 1))
    (lerp (uComicInfluence u) (inf_comic timelineInfluence) (dec 1 1))
    (lerp (uWeb3Influence u) (inf_web3 timelineInfluence) (dec 1 1))
    (uDataColor u) (uComicColor u) (uWeb3Color u)
    (dec 1 1 + maxInfluence * dec 4 1).

(** [meshRef.current.rotation.y += delta * 0.1] *)
Definition rotate (delta : num) (mesh : Object3D num) : Object3D num :=
  let r := rotation mesh in
  mkObject3D (position mesh) (mkEuler (ex r) (ey r + delta * dec 1 1) (ez r)).

(** [useFrame((state, delta) => ...)] *)
Definition useFrame (timelineInfluence : Influence num) (delta : num)
    (refs : Refs num) : Refs num :=
  let time := timeRef refs + delta in
  mkRefs (rotate delta <$> meshRef refs)
         (updateUniforms timelineInfluence time <$> materialRef refs)
         time.

(** [onPointerOver] and [onPointerOut] write [document.body.style.cursor]. *)
Definition onPointerOver (cursor : string) : string := "pointer".
Definition onPointerOut (cursor : string) : string := "none".

(** The returned tree. *)
Definition render : Element num :=
  El "mesh"
    [("ref", Ref "meshRef"); ("geometry", Sym "geometry");
     ("onClick", Sym "onClick"); ("onPointerOver", Sym "onPointerOver");
     ("onPointerOut", Sym "onPointerOut")]
    [El "shaderMaterial"
       [("ref", Ref "materialRef"); ("vertexShader", Sym "vertexShader");
        ("fragmentShader", Sym "fragmentShader"); ("uniforms", Sym "uniforms");
        ("wireframe", Flag false)] []].

(** The refs once the tree is committed: the mesh of the tree and the
    uniforms object given to the material. *)
Definition attach (refs : Refs num) : Refs num :=
  mkRefs (mount "meshRef" render)
         (if mount "materialRef" render is Some _ then Some uniforms else None)
         (timeRef refs).

(** [n] frames of the same length with the same props. *)
Definition frames (timelineInfluence : Influence num) (delta : num) (n : nat)
    (refs : Refs num) : Refs num :=
  Nat.iter n (useFrame timelineInfluence delta) refs.

(** The three eased uniforms, by the timeline they belong to. *)
Inductive Channel : Set := Data | Comic | Web3.

Definition uniform (c : Channel) (u : Uniforms num) : num :=
  match c with
  | Data => uDataInfluence u
  | Comic => uComicInfluence u
  | Web3 => uWeb3Influence u
  end.

Definition target (c : Channel) (timelineInfluence : Influence num) : num :=
  match c with
  | Data => inf_data timelineInfluence
  | Comic => inf_comic timelineInfluence
  | Web3 => inf_web3 timelineInfluence
  end.

(** One step of the easing towards [t]. *)
Definition ease (t u : num) : num := lerp u t (dec 1 1).

(** ** For every number instance *)

(** The loop over the vertex buffer is a map of [reshape]: vertex [i]
    of the result is [reshape] of vertex [i] of the icosahedron. *)
Theorem geometry_pointwise (positions : list (Vector3 num)) :
  geometry positions = reshape <$> positions.
Proof.
  unfold geometry. rewrite (for_range_alter (λ _, reshape)).
  induction positions as [|v l IH] using rev_ind; [done |].
  by rewrite imap_app, fmap_app, IH.
Qed.

Lemma geometry_length (positions : list (Vector3 num)) :
  length (geometry positions) = length positions.
Proof. by rewrite geometry_pointwise, length_fmap. Qed.

Lemma updateUniforms_uniform c timelineInfluence time u :
  uniform c (updateUniforms timelineInfluence time u)
  = ease (target c timelineInfluence) (uniform c u).
Proof. by destruct c. Qed.

Lemma hero_render_mounts :
  mount "meshRef" render = Some (object_of render) ∧
  is_Some (mount (num := num) "materialRef" render).
Proof. split; [reflexivity | by eexists]. Qed.

(** Once attached the refs stay attached. *)
Lemma hero_attach_attached refs :
  is_Some (meshRef (attach refs)) ∧ materialRef (attach refs) = Some uniforms.
Proof. split; [by eexists | reflexivity]. Qed.

Lemma frames_S timelineInfluence delta n refs :
  frames timelineInfluence delta (S n) refs
  = useFrame timelineInfluence delta (frames timelineInfluence delta n refs).
Proof. reflexivity. Qed.

(** After [n] frames each eased uniform is the [n]-fold easing of its
    start, and the time is [n] additions of [delta]. *)
Lemma frames_uniforms timelineInfluence delta n refs u :
  materialRef refs = Some u →
  ∃ u', materialRef (frames timelineInfluence delta n refs) = Some u' ∧
    ∀ c, uniform c u'
         = Nat.iter n (ease (target c timelineInfluence)) (uniform c u).
Proof.
  intros Hu. induction n as [|n (u' & Hu' & IH)]; [by exists u |].
  rewrite frames_S. unfold useFrame at 1. rewrite Hu'. simpl.
  eexists. split; [done |]. intros c.
  by rewrite updateUniforms_uniform, IH.
Qed.

Lemma frames_timeRef timelineInfluence delta n refs :
  timeRef (frames timelineInfluence delta n refs)
  = Nat.iter n (λ t, t + delta) (timeRef refs).
Proof. induction n as [|n IH]; [done |]. rewrite frames_S. simpl. by rewrite IH. Qed.

Lemma frames_meshRef timelineInfluence delta n refs mesh :
  meshRef refs = Some mesh →
  meshRef (frames timelineInfluence delta n refs)
  = Some (Nat.iter n (rotate delta) mesh).
Proof.
  intros Hm. induction n as [|n IH]; [done |].
  rewrite frames_S. simpl. by rewrite IH.
Qed.

End Component.

(** ** In exact arithmetic *)

Section Exact.
Local Open Scope R_scope.
Implicit Types (a t : R) (n : nat).

Lemma ease_real t a : ease t a = 9 / 10 * a + 1 / 10 * t.
Proof. unfold ease. js_real. lra. Qed.

Lemma ease_iter t a n : Nat.iter n (ease t) a = t + (9 / 10) ^ n * (a - t).
Proof.
  induction n as [|n IH]; [simpl; lra |].
  rewrite Nat.iter_succ, IH, ease_real. simpl pow. lra.
Qed.

Lemma pow_9_10 n : 0 < (9 / 10) ^ n <= 1.
Proof. induction n as [|n IH]; simpl; lra. Qed.

Lemma pow_9_10_S n : (9 / 10) ^ S n < 1.
Proof. pose proof (pow_9_10 n). simpl. lra. Qed.

(** The easing never leaves the interval between its start and its
    target. *)
Lemma ease_iter_between t a n :
  Rmin a t <= Nat.iter n (ease t) a <= Rmax a t.
Proof.
  rewrite ease_iter. pose proof (pow_9_10 n).
  unfold Rmin, Rmax. destruct (Rle_dec a t); nra.
Qed.

(** After [n] frames with the same props every eased uniform is
    [target + (9/10)^n * (start - target)]. *)
Lemma frames_eased timelineInfluence delta n refs u :
  materialRef refs = Some u →
  ∃ u', materialRef (frames timelineInfluence delta n refs) = Some u' ∧
    ∀ c, uniform c u' = target c timelineInfluence
           + (9 / 10) ^ n * (uniform c u - target c timelineInfluence).
Proof.
  intros Hu.
  destruct (frames_uniforms timelineInfluence delta n refs u Hu)
    as (u' & Hu' & Hc).
  exists u'. split; [done |]. intros c. by rewrite Hc, ease_iter.
Qed.

(** The eased uniforms stay in [[0, 1]] when they start there and
    the props are there: the shader mixes colours with weights in
    [[0, 1]]. *)
Theorem frames_range timelineInfluence delta n refs u :
  materialRef refs = Some u →
  (∀ c, 0 <= uniform c u <= 1) →
  (∀ c, 0 <= target c timelineInfluence <= 1) →
  ∃ u', materialRef (frames timelineInfluence delta n refs) = Some u' ∧
    ∀ c, 0 <= uniform c u' <= 1.
Proof.
  intros Hu H0 Ht.
  destruct (frames_uniforms timelineInfluence delta n refs u Hu)
    as (u' & Hu' & Hc).
  exists u'. split; [done |]. intros c. rewrite Hc.
  pose proof (ease_iter_between (target c timelineInfluence) (uniform c u) n).
  specialize (H0 c). specialize (Ht c).
  unfold Rmin, Rmax in *. destruct (Rle_dec _ _); lra.
Qed.

(** The uniforms come within any distance of the props: for every
    [eps > 0] there is a number of frames from which on each eased
    uniform is closer than [eps] to its target. *)
Theorem frames_converge timelineInfluence delta refs u eps :
  materialRef refs = Some u → 0 < eps →
  ∃ N, ∀ n, (N ≤ n)%nat →
    ∃ u', materialRef (frames timelineInfluence delta n refs) = Some u' ∧
      ∀ c, Rabs (uniform c u' - target c timelineInfluence) < eps.
Proof.
  intros Hu Heps.
  set (d c := Rabs (uniform c u - target c timelineInfluence)).
  set (D := 1 + d Data + d Comic + d Web3).
  assert (∀ c, 0 <= d c) as Hd by (intros; apply Rabs_pos).
  assert (∀ c, d c < D) as HD.
  { intros c. pose proof (Hd Data). pose proof (Hd Comic).
    pose proof (Hd Web3). unfold D. destruct c; lra. }
  assert (0 < D) as HD0 by (specialize (HD Data); specialize (Hd Data); lra).
  destruct (pow_lt_1_zero (9 / 10) ltac:(rewrite Rabs_pos_eq; lra)
              (eps / D) ltac:(by apply Rdiv_lt_0_compat)) as [N HN].
  exists N. intros n Hn.
  destruct (frames_eased timelineInfluence delta n refs u Hu)
    as (u' & Hu' & Hc).
  exists u'. split; [done |]. intros c. rewrite Hc.
  replace (_ + _ - _)
    with ((9 / 10) ^ n * (uniform c u - target c timelineInfluence)) by lra.
  rewrite Rabs_mult. fold (d c).
  specialize (HN n ltac:(lia)). specialize (HD c). specialize (Hd c).
  pose proof (Rabs_pos ((9 / 10) ^ n)).
  apply Rle_lt_trans with (Rabs ((9 / 10) ^ n) * D); [nra |].
  apply Rlt_le_trans with (eps / D * D); [nra |].
  unfold Rdiv. rewrite Rmult_assoc, Rinv_l; lra.
Qed.

Lemma time_iter delta n t : Nat.iter n (λ t, js_add t delta) t = t + INR n * delta.
Proof.
  induction n as [|n IH]; [simpl; lra |].
  rewrite S_INR, Nat.iter_succ, IH. simpl. lra.
Qed.

Lemma rotate_iter delta n (mesh : Object3D R) :
  Nat.iter n (rotate delta) mesh
  = mkObject3D (position mesh)
      (mkEuler (ex (rotation mesh))
               (ey (rotation mesh) + INR n * (delta * (1 / 10)))
               (ez (rotation mesh))).
Proof.
  induction n as [|n IH].
  - destruct mesh as [p [? ? ?]]. simpl. do 2 f_equal. lra.
  - rewrite S_INR, Nat.iter_succ, IH. unfold rotate. simpl. js_real.
    do 2 f_equal. lra.
Qed.

(** C16: [n] frames of length [delta] with the same props, in closed
    form: the clock has advanced by [n * delta], the mesh has turned by
    [0.1 * n * delta] about [y], and every eased uniform is
    [target + (9/10)^n * (start - target)]: the clock and the turn follow
    the time, the uniforms follow the number of frames. *)
Theorem frames_closed_form timelineInfluence delta n refs u mesh :
  materialRef refs = Some u → meshRef refs = Some mesh →
  let refs' := frames timelineInfluence delta n refs in
  timeRef refs' = timeRef refs + INR n * delta ∧
  meshRef refs'
  = Some (mkObject3D (position mesh)
            (mkEuler (ex (rotation mesh))
                     (ey (rotation mesh) + INR n * (delta * (1 / 10)))
                     (ez (rotation mesh)))) ∧
  ∃ u', materialRef refs' = Some u' ∧
    ∀ c, uniform c u' = target c timelineInfluence
           + (9 / 10) ^ n * (uniform c u - target c timelineInfluence).
Proof.
  intros Hu Hm. simpl.
  rewrite frames_timeRef, time_iter, (frames_meshRef _ _ _ _ mesh Hm),
    rotate_iter.
  split; [done |]. split; [done |]. by apply frames_eased.
Qed.

(** C25: The easing counts frames, not time.  Twice as many frames of
    half the length leave the clock and the rotation of the mesh where
    they are, and shrink the distance of every eased uniform to its
    target by [(9/10)^n] more: on a display that refreshes twice as fast
    the hero changes its look twice as fast. *)
Theorem easing_counts_frames timelineInfluence delta n refs u mesh :
  materialRef refs = Some u → meshRef refs = Some mesh →
  let slow := frames timelineInfluence delta n refs in
  let fast := frames timelineInfluence (delta / 2) (2 * n) refs in
  timeRef fast = timeRef slow ∧ meshRef fast = meshRef slow ∧
  ∃ us uf, materialRef slow = Some us ∧ materialRef fast = Some uf ∧
    ∀ c, uniform c uf - target c timelineInfluence
         = (9 / 10) ^ n * (uniform c us - target c timelineInfluence).
Proof.
  intros Hu Hm slow fast. subst slow fast.
  destruct (frames_eased timelineInfluence delta n refs u Hu)
    as (us & Hus & Hs).
  destruct (frames_eased timelineInfluence (delta / 2) (2 * n) refs u Hu)
    as (uf & Huf & Hf).
  rewrite !frames_timeRef, !time_iter, !(frames_meshRef _ _ _ _ mesh Hm),
    !rotate_iter, mult_INR. simpl INR.
  split; [lra |]. split; [do 3 f_equal; lra |].
  exists us, uf. split; [done |]. split; [done |]. intros c.
  rewrite Hf, Hs. replace (2 * n)%nat with (n + n)%nat by lia.
  rewrite pow_add. lra.
Qed.

(** The props the singularity scene passes are in [[0, 1]] for a pointer
    in [[-1, 1]] x [[-1, 1]]. *)
Lemma render_influence_range (state : Store.MultiverseState R) c :
  -1 <= Store.x (Store.mousePosition state) <= 1 →
  -1 <= Store.y (Store.mousePosition state) <= 1 →
  0 <= target c (Singularity.timelineInfluence (Singularity.render state)) <= 1.
Proof.
  intros Hx Hy. destruct c; simpl; js_real;
    unfold Rmax; destruct (Rle_dec _ _); lra.
Qed.

Lemma Math_max3_real a b c : Math_max3 a b c = Rmax (Rmax a b) c.
Proof. unfold Math_max3. by rewrite !Math_max_real. Qed.

(** With the props the singularity scene passes for a pointer in
    [[-1, 1]] x [[-1, 1]], the glitch intensity the frame writes is in
    [[0.1, 0.5]]; it is [0.1] exactly when the pointer is in the lower
    half of the vertical axis. *)
Theorem glitch_range (state : Store.MultiverseState R) time u :
  -1 <= Store.x (Store.mousePosition state) <= 1 →
  -1 <= Store.y (Store.mousePosition state) <= 1 →
  let u' := updateUniforms
              (Singularity.timelineInfluence (Singularity.render state)) time u in
  1 / 10 <= uGlitchIntensity u' <= 1 / 2 ∧
  (uGlitchIntensity u' = 1 / 10 ↔
   Store.x (Store.mousePosition state) = 0 ∧
   Store.y (Store.mousePosition state) <= 0).
Proof.
  intros Hx Hy. simpl. rewrite Math_max3_real. js_real.
  unfold Rmax. repeat destruct (Rle_dec _ _); split; try split; try lra;
    intros; lra.
Qed.

Lemma reshape_real (v : Vector3 R) :
  reshape v =
    mkVector3 (if Rlt_dec (vy v) (-1 / 2) then vx v * (6 / 10) else vx v)
              (if Rlt_dec 0 (vy v) then vy v * (12 / 10) else vy v)
              (if Rlt_dec (vy v) (-1 / 2) then vz v * (6 / 10) else vz v).
Proof.
  destruct v as [x y z]. unfold reshape. simpl. js_real.
  unfold bool_decide, Rlt_decision.
  repeat destruct (Rlt_dec _ _); simpl; try lra; f_equal; lra.
Qed.

(** A vertex in the ball of radius [r]. *)
Definition in_ball (r : R) (v : Vector3 R) : Prop :=
  vx v * vx v + vy v * vy v + vz v * vz v <= r * r.

(** The reshaped icosahedron of radius 1.5 has as many vertices as
    the icosahedron; each is within 1.5 of the vertical axis in [x] and
    [z], between -1.5 and 1.8 in height, and below -0.5 within
    [0.6 * 1.5] of the axis. *)
Theorem geometry_box (positions : list (Vector3 R)) :
  Forall (in_ball (3 / 2)) positions →
  length (geometry positions) = length positions ∧
  Forall (λ v, -3 / 2 <= vx v <= 3 / 2 ∧ -3 / 2 <= vy v <= 9 / 5 ∧
               -3 / 2 <= vz v <= 3 / 2 ∧
               (vy v < -1 / 2 → in_ball (9 / 10) (mkVector3 (vx v) 0 (vz v))))
    (geometry positions).
Proof.
  intros Hball. split; [apply geometry_length |].
  rewrite geometry_pointwise. apply Forall_fmap.
  revert Hball. apply List.Forall_impl.
  intros [x y z]. unfold in_ball, compose. rewrite reshape_real. simpl.
  intros Hv. repeat destruct (Rlt_dec _ _); repeat split; try nra.
Qed.

End Exact.

(** ** In doubles *)

(** Easing from 0 towards 1 stalls after 333 frames, six units in the
    last place below 1, and easing from 1 towards 0 ends on a denormal:
    the uniforms never hold their target. *)
Lemma ease_stalls :
  let stall := Nat.iter 333 (ease 1%float) 0%float in
  stall = 0x1.ffffffffffffbp-1%float ∧ ease 1%float stall = stall ∧
  PrimFloat.ltb stall 1 = true.
Proof. vm_compute. done. Qed.

End HeroObject.

Module GlitchEffect.
Import Three.

Section Component.
Context {num : Type} `{JsNum num}.
Local Open Scope js_scope.

(** [new Vector2(x, y)] as an attribute. *)
Definition Vector2 (x y : num) : Attr num := Vec [x; y].

(** [export const GlitchEffect = ({ intensity }) => ...] *)
Definition render (intensity : num) : Element num :=
  El "EffectComposer" []
    [El "Glitch"
       [("delay", Vector2 (dec 15 1) (dec 35 1));
        ("duration", Vector2 (dec 1 1) (dec 3 1));
        ("strength", Vector2 (intensity * dec 3 1) (intensity * dec 5 1));
        ("mode", Sym "GlitchMode.SPORADIC")] [];
     El "ChromaticAberration"
       [("offset", Vector2 (intensity * dec 2 3) (intensity * dec 2 3));
        ("radialModulation", Flag false);
        ("modulationOffset", Num (js_of_Z 0))] [];
     El "Bloom"
       [("intensity", Num (intensity * dec 5 1));
        ("luminanceThreshold", Num (dec 9 1));
        ("luminanceSmoothing", Num (dec 9 1))] []].

(** The pair an attribute of the glitch pass holds. *)
Definition range (name : string) (e : Element num) : option (num * num) :=
  match children_of e with
  | glitch :: _ =>
      match attr name glitch with
      | Some (Arr [Num a; Num b]) => Some (a, b)
      | _ => None
      end
  | [] => None
  end.

End Component.

Section Exact.
Local Open Scope R_scope.

Lemma render_strength (intensity : R) :
  range "strength" (render intensity)
  = Some (intensity * (3 / 10), intensity * (1 / 2)).
Proof. unfold range. simpl. js_real. do 2 f_equal; lra. Qed.

(** The glitch pass picks its strength between the two components
    of [strength]: for the intensity the singularity scene passes they
    are [0.06 <= 0.1] while the pointer is undecided and [0.15 <= 0.25]
    once it leans to a timeline, so the range is never empty or
    reversed. *)
Theorem strength_ordered (state : Store.MultiverseState R) :
  let intensity := Singularity.glitchIntensity (Singularity.render state) in
  ∃ lo hi, range "strength" (render intensity) = Some (lo, hi) ∧ lo < hi ∧
    (lo, hi) = (if decide (Singularity.dominantTimeline
                             (Store.mousePosition state) = Store.singularity)
                then (3 / 50, 1 / 10) else (3 / 20, 1 / 4)).
Proof.
  intros intensity. rewrite render_strength. eexists _, _. split; [done |].
  subst intensity. simpl.
  destruct (decide (_ ≠ _)), (decide (_ = _)); try done; js_real;
    (split; [lra | f_equal; lra]).
Qed.

End Exact.
End GlitchEffect.

(** ** Instances of the theorems *)

Section Runs.
Import Three HeroObject.
Local Open Scope R_scope.

(** The pointer at the left edge: the data influence is 1. *)
Definition leaning : Singularity.Influence R :=
  Singularity.mkInfluence 1 0 0.

Lemma frames_closed_form_witness :
  let refs' := frames leaning (1 / 60) 2 (attach initialRefs) in
  timeRef refs' = timeRef (attach (num := R) initialRefs) + INR 2 * (1 / 60) ∧
  meshRef refs'
  = Some (mkObject3D (position (object_of (num := R) render))
            (mkEuler (ex (rotation (object_of (num := R) render)))
                     (ey (rotation (object_of (num := R) render))
                      + INR 2 * (1 / 60 * (1 / 10)))
                     (ez (rotation (object_of (num := R) render))))) ∧
  ∃ u', materialRef refs' = Some u' ∧
    ∀ c, uniform c u' = target c leaning
           + (9 / 10) ^ 2 * (uniform c uniforms - target c leaning).
Proof.
  apply (frames_closed_form leaning (1 / 60) 2 (attach initialRefs) uniforms
           (object_of render)); reflexivity.
Defined.

Lemma frames_range_witness :
  ∃ u', materialRef (frames leaning (1 / 60) 2 (attach initialRefs)) = Some u' ∧
    ∀ c, 0 <= uniform c u' <= 1.
Proof.
  apply (frames_range leaning (1 / 60) 2 _ uniforms); [reflexivity | |];
    intros []; simpl; lra.
Defined.

Lemma frames_converge_witness :
  ∃ N, ∀ n, (N ≤ n)%nat →
    ∃ u', materialRef (frames leaning (1 / 60) n (attach initialRefs)) = Some u' ∧
      ∀ c, Rabs (uniform c u' - target c leaning) < 1 / 100.
Proof.
  apply (frames_converge leaning (1 / 60) _ uniforms); [reflexivity | lra].
Defined.

Lemma easing_counts_frames_witness :
  let slow := frames leaning (1 / 60) 6 (attach initialRefs) in
  let fast := frames leaning (1 / 60 / 2) (2 * 6) (attach initialRefs) in
  timeRef fast = timeRef slow ∧ meshRef fast = meshRef slow ∧
  ∃ us uf, materialRef slow = Some us ∧ materialRef fast = Some uf ∧
    ∀ c, uniform c uf - target c leaning
         = (9 / 10) ^ 6 * (uniform c us - target c leaning).
Proof.
  apply (easing_counts_frames leaning (1 / 60) 6 _ uniforms
           (object_of render)); reflexivity.
Defined.

Lemma glitch_range_witness :
  let u' := updateUniforms
              (Singularity.timelineInfluence
                 (Singularity.render (Store.initial (num := R)))) 0 uniforms in
  1 / 10 <= uGlitchIntensity u' <= 1 / 2 ∧
  (uGlitchIntensity u' = 1 / 10 ↔
   Store.x (Store.mousePosition (Store.initial (num := R))) = 0 ∧
   Store.y (Store.mousePosition (Store.initial (num := R))) <= 0).
Proof. apply (glitch_range Store.initial 0 uniforms); simpl; lra. Defined.

Lemma geometry_box_witness :
  let positions := [mkVector3 0 (3 / 2) 0; mkVector3 1 (-1) 0] in
  length (geometry positions) = length positions ∧
  Forall (λ v, -3 / 2 <= vx v <= 3 / 2 ∧ -3 / 2 <= vy v <= 9 / 5 ∧
               -3 / 2 <= vz v <= 3 / 2 ∧
               (vy v < -1 / 2 → in_ball (9 / 10) (mkVector3 (vx v) 0 (vz v))))
    (geometry positions).
Proof.
  apply geometry_box. repeat constructor; unfold in_ball; simpl; lra.
Defined.

End Runs.
