(* ===== verification/Debris.v ===== *)
(** * Debris: the field of floating debris [DebrisField.tsx]

    [Module DebrisField] models the random placement of the debris
    ([debrisData], a function of the tape of random draws), the per-frame
    callback that writes one matrix per instance into each of the three
    instanced meshes ([animateDebris], [useFrame]), [getOpacity] and the
    returned tree.

    A matrix is kept as the position, the rotation and the scale it is
    composed from.  Reading [positions[i]] or [rotations[i]] beyond the
    arrays makes [copy] throw, which is [None] here; [scales[i]] beyond
    the array is [undefined], which [setScalar] turns into [NaN].

    Theorems: [debrisData] in closed form over the tape, with the ranges
    of its values for draws in [[0, 1)]; the frame callback never throws
    and writes all 150 matrices; every instance stays within 0.02 of its
    base position; a frame's matrices depend on the frame's time and
    length only, so the rotation of an instance does not accumulate;
    the opacities of the three groups. *)

From Stdlib Require Import Reals Lra.
From S2P Require Import Prelude.
From S2P Require Import JsNumber.
From S2P Require Import JsMath.
From S2P Require Import MultiverseStore.
From S2P Require Import Three.
From stdpp Require Import sets.

Module DebrisField.
Import Three Store.

(** [{ positions, rotations, scales }] *)
Record DebrisData (num : Type) : Type := mkDebrisData {
  positions : list (Vector3 num);
  rotations : list (Euler num);
  scales : list num;
}.
Arguments mkDebrisData {num}.
Arguments positions {num}.
Arguments rotations {num}.
Arguments scales {num}.

(** [matrix.compose(position, quaternion, scale)], as its arguments; the
    quaternion is [setFromEuler(rotation)] and the scale vector has three
    equal components. *)
Record Matrix4 (num : Type) : Type := mkMatrix4 {
  m_position : Vector3 num;
  m_rotation : Euler num;
  m_scale : num;
}.
Arguments mkMatrix4 {num}.
Arguments m_position {num}.
Arguments m_rotation {num}.
Arguments m_scale {num}.

Record InstancedMesh (num : Type) : Type := mkInstancedMesh {
  instanceMatrix : list (Matrix4 num);
  needsUpdate : bool;
}.
Arguments mkInstancedMesh {num}.
Arguments instanceMatrix {num}.
Arguments needsUpdate {num}.

Record Refs (num : Type) : Type := mkRefs {
  dataDebrisRef : option (InstancedMesh num);
  comicDebrisRef : option (InstancedMesh num);
  web3DebrisRef : option (InstancedMesh num);
}.
Arguments mkRefs {num}.
Arguments dataDebrisRef {num}.
Arguments comicDebrisRef {num}.
Arguments web3DebrisRef {num}.

Section Component.
Context {num : Type} `{JsNum num} `{JsMath num}.
Local Open Scope js_scope.

(** [const debrisCount = 50] *)
Definition debrisCount : nat := 50.

Section Data.
Variable tape : nat → num.

(** The body of the loop that fills the arrays: seven draws, in the
    order the arguments are evaluated. *)
Definition push (i : nat) (d : DebrisData num) : Rand (DebrisData num) :=
  x ← Math_random tape; y ← Math_random tape; z ← Math_random tape;
  a ← Math_random tape; b ← Math_random tape; c ← Math_random tape;
  s ← Math_random tape;
  mret (mkDebrisData
    (positions d ++
       [mkVector3 ((x - dec 5 1) * js_of_Z 20)
                  ((y - dec 5 1) * js_of_Z 20)
                  ((z - dec 5 1) * js_of_Z 10 - js_of_Z 5)])
    (rotations d ++
       [mkEuler (a * Math_PI * js_of_Z 2) (b * Math_PI * js_of_Z 2)
                (c * Math_PI * js_of_Z 2)])
    (scales d ++ [s * dec 3 1 + dec 1 1])).

(** [const debrisData = useMemo(() => ..., [])] *)
Definition debrisData : DebrisData num :=
  (rand_loop debrisCount push (mkDebrisData [] [] []) 0).1.

(** What the loop stores for instance [i], read off the tape. *)
Definition position_at (i : nat) : Vector3 num :=
  mkVector3 ((tape (7 * i) - dec 5 1) * js_of_Z 20)
            ((tape (7 * i + 1) - dec 5 1) * js_of_Z 20)
            ((tape (7 * i + 2) - dec 5 1) * js_of_Z 10 - js_of_Z 5).

Definition rotation_at (i : nat) : Euler num :=
  mkEuler (tape (7 * i + 3) * Math_PI * js_of_Z 2)
          (tape (7 * i + 4) * Math_PI * js_of_Z 2)
          (tape (7 * i + 5) * Math_PI * js_of_Z 2).

Definition scale_at (i : nat) : num := tape (7 * i + 6) * dec 3 1 + dec 1 1.

End Data.

(** [undefined] where a number is expected. *)
Definition js_nan : num := js_of_Z 0 / js_of_Z 0.

(** The body of the loop of [animateDebris] for instance [i]; [None] is
    the [TypeError] of [copy(undefined)]. *)
Definition animate (debrisData : DebrisData num) (time delta : num)
    (speedMultiplier : num) (i : nat) (mesh : option (InstancedMesh num))
    : option (InstancedMesh num) :=
  mesh ← mesh;
  position ← positions debrisData !! i;
  let fi := idx i in
  let position :=
    mkVector3 (vx position) (vy position + Math_sin (time * speedMultiplier + fi) * dec 2 2)
              (vz position) in
  let position :=
    mkVector3 (vx position + Math_cos (time * speedMultiplier * dec 5 1 + fi) * dec 1 2)
              (vy position) (vz position) in
  rotation ← rotations debrisData !! i;
  let rotation :=
    mkEuler (ex rotation + delta * speedMultiplier * dec 5 1)
            (ey rotation + delta * speedMultiplier * dec 3 1)
            (ez rotation) in
  let scale := default js_nan (scales debrisData !! i) in
  Some (mkInstancedMesh
          (<[i := mkMatrix4 position rotation scale]> (instanceMatrix mesh))
          (needsUpdate mesh)).

(** [const animateDebris = (mesh, speedMultiplier) => ...]: the outer
    [None] is an exception, the inner one the [null] ref. *)
Definition animateDebris (debrisData : DebrisData num) (time delta : num)
    (mesh : option (InstancedMesh num)) (speedMultiplier : num)
    : option (option (InstancedMesh num)) :=
  match mesh with
  | None => Some None
  | Some mesh =>
      mesh ← for_range debrisCount 0
                (animate debrisData time delta speedMultiplier) (Some mesh);
      Some (Some (mkInstancedMesh (instanceMatrix mesh) true))
  end.

(** [useFrame((state, delta) => ...)], with [state.clock.elapsedTime]. *)
Definition useFrame (debrisData : DebrisData num) (time delta : num)
    (refs : Refs num) : option (Refs num) :=
  d ← animateDebris debrisData time delta (dataDebrisRef refs) (js_of_Z 1);
  c ← animateDebris debrisData time delta (comicDebrisRef refs) (dec 15 1);
  w ← animateDebris debrisData time delta (web3DebrisRef refs) (dec 8 1);
  Some (mkRefs d c w).

(** [const getOpacity = (timeline) => ...] *)
Definition getOpacity (dominantTimeline timeline : Timeline) : num :=
  if decide (dominantTimeline = singularity) then dec 3 1
  else if decide (dominantTimeline = timeline) then dec 8 1 else dec 1 1.

(** [args={[undefined, undefined, debrisCount]}] *)
Definition instances : Attr num :=
  Arr [Undefined; Undefined; Num (js_of_Z (Z.of_nat debrisCount))].

(** The returned tree. *)
Definition render (dominantTimeline : Timeline) : Element num :=
  Fragment
    [El "instancedMesh" [("ref", Ref "dataDebrisRef"); ("args", instances)]
       [El "boxGeometry" [("args", Vec [dec 3 1; dec 6 1; dec 3 1])] [];
        El "meshStandardMaterial"
          [("color", Str "#00ff41"); ("emissive", Str "#008F11");
           ("emissiveIntensity", Num (dec 5 1)); ("transparent", Flag true);
           ("opacity", Num (getOpacity dominantTimeline data));
           ("wireframe", Flag true)] []];
     El "instancedMesh" [("ref", Ref "comicDebrisRef"); ("args", instances)]
       [El "sphereGeometry" [("args", Vec [dec 3 1; js_of_Z 8; js_of_Z 8])] [];
        El "meshToonMaterial"
          [("color", Str "#FF6B35"); ("transparent", Flag true);
           ("opacity", Num (getOpacity dominantTimeline comic))] []];
     El "instancedMesh" [("ref", Ref "web3DebrisRef"); ("args", instances)]
       [El "octahedronGeometry" [("args", Vec [dec 25 2; js_of_Z 0])] [];
        El "meshPhysicalMaterial"
          [("color", Str "#7B2CBF"); ("emissive", Str "#C77DFF");
           ("emissiveIntensity", Num (dec 3 1)); ("transparent", Flag true);
           ("opacity", Num (getOpacity dominantTimeline web3));
           ("metalness", Num (dec 9 1)); ("roughness", Num (dec 1 1))] []]].

(** The instances of a new mesh have the identity matrix. *)
Definition identity : Matrix4 num :=
  mkMatrix4 (mkVector3 (js_of_Z 0) (js_of_Z 0) (js_of_Z 0))
            (mkEuler (js_of_Z 0) (js_of_Z 0) (js_of_Z 0)) (js_of_Z 1).

(** The mesh created for an [instancedMesh] element that names ref [r]. *)
Definition instanced (r : string) (e : Element num)
    : option (InstancedMesh num) :=
  if mount r e is Some _
  then Some (mkInstancedMesh (replicate debrisCount identity) false)
  else None.

(** The refs once the tree is committed. *)
Definition attach (e : Element num) : Refs num :=
  mkRefs (instanced "dataDebrisRef" e) (instanced "comicDebrisRef" e)
         (instanced "web3DebrisRef" e).

(** A run of frames, each with the clock and the length it is called
    with. *)
Fixpoint frames (debrisData : DebrisData num) (fs : list (num * num))
    (refs : Refs num) : option (Refs num) :=
  match fs with
  | [] => Some refs
  | (time, delta) :: fs' =>
      refs' ← useFrame debrisData time delta refs;
      frames debrisData fs' refs'
  end.

(** The opacity the tree gives the material of group [i]. *)
Definition opacity (i : nat) (e : Element num) : option (Attr num) :=
  group ← children_of e !! i;
  material ← children_of group !! 1;
  attr "opacity" material.

(** ** The data, in closed form *)

Section Frame.
Variable tape : nat → num.

Lemma push_spec j d k :
  push tape j d k =
    (mkDebrisData
       (positions d ++
          [mkVector3 ((tape k - dec 5 1) * js_of_Z 20)
                     ((tape (k + 1) - dec 5 1) * js_of_Z 20)
                     ((tape (k + 2) - dec 5 1) * js_of_Z 10 - js_of_Z 5)])
       (rotations d ++
          [mkEuler (tape (k + 3) * Math_PI * js_of_Z 2)
                   (tape (k + 4) * Math_PI * js_of_Z 2)
                   (tape (k + 5) * Math_PI * js_of_Z 2)])
       (scales d ++ [tape (k + 6) * dec 3 1 + dec 1 1]),
     (k + 7)%nat).
Proof.
  unfold push, mbind, Rand_bind, mret, Rand_ret, Math_random.
  replace (k + 1)%nat with (S k) by lia.
  replace (k + 2)%nat with (S (S k)) by lia.
  replace (k + 3)%nat with (S (S (S k))) by lia.
  replace (k + 4)%nat with (S (S (S (S k)))) by lia.
  replace (k + 5)%nat with (S (S (S (S (S k))))) by lia.
  replace (k + 6)%nat with (S (S (S (S (S (S k)))))) by lia.
  replace (k + 7)%nat with (S (S (S (S (S (S (S k))))))) by lia.
  reflexivity.
Qed.

(** The first [n] entries of the arrays. *)
Definition filled (n : nat) : DebrisData num :=
  mkDebrisData (position_at tape <$> seq 0 n) (rotation_at tape <$> seq 0 n)
               (scale_at tape <$> seq 0 n).

Lemma filled_S n :
  (push tape n (filled n) (7 * n)%nat).1 = filled (S n).
Proof.
  rewrite push_spec. unfold filled. simpl fst.
  by rewrite !seq_S, !fmap_app.
Qed.

(** [debrisData] holds [debrisCount] positions, rotations and
    scales; entry [i] is computed from the draws [7 * i] to [7 * i + 6],
    in the order position, rotation, scale. *)
Theorem debrisData_closed_form :
  debrisData tape = filled debrisCount.
Proof.
  unfold debrisData.
  pose proof (rand_loop_invariant
    (λ j d k, k = (7 * j)%nat ∧ d = filled j) debrisCount (push tape)
    (mkDebrisData [] [] []) 0) as Hinv.
  apply Hinv; [| done]. clear Hinv.
  intros j d k _ [-> ->]. split; [rewrite push_spec; simpl; lia |].
  apply filled_S.
Qed.

Lemma filled_lookup n i :
  i < n →
  positions (filled n) !! i = Some (position_at tape i) ∧
  rotations (filled n) !! i = Some (rotation_at tape i) ∧
  scales (filled n) !! i = Some (scale_at tape i).
Proof.
  intros Hi. simpl. rewrite !list_lookup_fmap, !lookup_seq_lt by done. done.
Qed.

(** ** The frame, in closed form *)

(** The matrix a frame writes for instance [i]. *)
Definition matrix_at (time delta speedMultiplier : num) (i : nat)
    : Matrix4 num :=
  let fi := idx i in
  let p := position_at tape i in
  let r := rotation_at tape i in
  mkMatrix4
    (mkVector3
       (vx p + Math_cos (time * speedMultiplier * dec 5 1 + fi) * dec 1 2)
       (vy p + Math_sin (time * speedMultiplier + fi) * dec 2 2)
       (vz p))
    (mkEuler (ex r + delta * speedMultiplier * dec 5 1)
             (ey r + delta * speedMultiplier * dec 3 1) (ez r))
    (scale_at tape i).

Lemma animate_filled time delta speedMultiplier i mesh :
  i < debrisCount →
  animate (filled debrisCount) time delta speedMultiplier i (Some mesh)
  = Some (mkInstancedMesh
            (<[i := matrix_at time delta speedMultiplier i]>
               (instanceMatrix mesh))
            (needsUpdate mesh)).
Proof.
  intros Hi. unfold animate.
  destruct (filled_lookup debrisCount i Hi) as (Hp & Hr & Hs).
  simpl in Hp, Hr, Hs |- *. by rewrite Hp, Hr, Hs.
Qed.

(** The loop fills the matrices from the first on. *)
Lemma animate_loop time delta speedMultiplier mesh :
  length (instanceMatrix mesh) = debrisCount →
  for_range debrisCount 0
    (animate (filled debrisCount) time delta speedMultiplier) (Some mesh)
  = Some (mkInstancedMesh
            (matrix_at time delta speedMultiplier <$> seq 0 debrisCount)
            (needsUpdate mesh)).
Proof.
  intros Hlen.
  pose proof (for_range_invariant
    (λ j om, j ≤ debrisCount →
       om = Some (mkInstancedMesh
                    ((matrix_at time delta speedMultiplier <$> seq 0 j)
                       ++ drop j (instanceMatrix mesh))
                    (needsUpdate mesh)))
    debrisCount 0
    (animate (filled debrisCount) time delta speedMultiplier)
    (Some mesh)) as Hinv.
  simpl "+" in Hinv. rewrite Hinv; [| | by destruct mesh | done].
  { by rewrite drop_ge, app_nil_r by lia. }
  clear Hinv. intros j om [_ Hj] Hom _. rewrite Hom by lia.
  rewrite animate_filled by done. cbn [instanceMatrix needsUpdate].
  do 2 f_equal.
  rewrite insert_app_r_alt by (rewrite length_fmap, length_seq; lia).
  rewrite length_fmap, length_seq, Nat.sub_diag, seq_S, fmap_app, <- app_assoc.
  f_equal. destruct (drop j _) as [|m l] eqn:E.
  - apply (f_equal length) in E. rewrite length_drop in E. simpl in E. lia.
  - assert (instanceMatrix mesh !! j = Some m) as Hm
      by (by rewrite <- (Nat.add_0_r j), <- lookup_drop, E).
    rewrite (drop_S _ _ _ Hm) in E. by injection E as <-.
Qed.

(** The mesh a frame leaves behind a ref that is attached. *)
Definition frame_mesh (time delta speedMultiplier : num)
    : InstancedMesh num :=
  mkInstancedMesh
    (matrix_at time delta speedMultiplier <$> seq 0 debrisCount) true.

Lemma animateDebris_attached time delta speedMultiplier mesh :
  length (instanceMatrix mesh) = debrisCount →
  animateDebris (debrisData tape) time delta (Some mesh) speedMultiplier
  = Some (Some (frame_mesh time delta speedMultiplier)).
Proof.
  intros Hlen. unfold animateDebris.
  by rewrite debrisData_closed_form, animate_loop.
Qed.

(** Every ref holds a mesh of [debrisCount] instances. *)
Definition attached (refs : Refs num) : Prop :=
  ∀ r, r ∈ [dataDebrisRef refs; comicDebrisRef refs; web3DebrisRef refs] →
       ∃ mesh, r = Some mesh ∧ length (instanceMatrix mesh) = debrisCount.

Lemma debris_attach_attached dominantTimeline : attached (attach (render dominantTimeline)).
Proof.
  intros r Hr. exists (mkInstancedMesh (replicate debrisCount identity) false).
  split; [| apply length_replicate].
  set_unfold in Hr. destruct Hr as [-> | [-> | [-> | []]]]; reflexivity.
Qed.

(** With the refs attached a frame does not throw and rewrites all 150
    matrices. *)
Lemma useFrame_attached time delta refs :
  attached refs →
  useFrame (debrisData tape) time delta refs
  = Some (mkRefs (Some (frame_mesh time delta (js_of_Z 1)))
                 (Some (frame_mesh time delta (dec 15 1)))
                 (Some (frame_mesh time delta (dec 8 1)))).
Proof.
  intros Hrefs. unfold useFrame.
  destruct (Hrefs (dataDebrisRef refs)) as (d & -> & ?); [set_solver |].
  destruct (Hrefs (comicDebrisRef refs)) as (c & -> & ?); [set_solver |].
  destruct (Hrefs (web3DebrisRef refs)) as (w & -> & ?); [set_solver |].
  by rewrite !animateDebris_attached.
Qed.

Lemma frame_attached time delta refs refs' :
  attached refs → useFrame (debrisData tape) time delta refs = Some refs' →
  attached refs'.
Proof.
  intros Hrefs. rewrite useFrame_attached by done. intros [= <-] r Hr.
  set_unfold in Hr.
  destruct Hr as [-> | [-> | [-> | []]]]; (eexists; split; [done |]);
    unfold frame_mesh; cbn [instanceMatrix];
    by rewrite length_fmap, length_seq.
Qed.

(** However many frames ran before, the last one decides. *)
Lemma frames_last fs time delta refs :
  attached refs →
  frames (debrisData tape) (fs ++ [(time, delta)]) refs
  = useFrame (debrisData tape) time delta refs.
Proof.
  revert refs. induction fs as [|[t d] fs IH]; intros refs Hrefs; simpl.
  - by destruct (useFrame _ _ _ _).
  - destruct (useFrame _ t d refs) as [refs1|] eqn:E;
      [| by rewrite useFrame_attached in E].
    pose proof (frame_attached t d refs refs1 Hrefs E). simpl.
    rewrite IH by done. by rewrite !useFrame_attached.
Qed.

(** C17: With the refs attached no run of frames throws, and what a run
    leaves is what its last frame writes: all 150 matrices, a function of
    the tape, the clock and the length of that frame, and nothing of what
    the meshes held or of the frames before. *)
Theorem frames_exact fs time delta refs :
  attached refs →
  frames (debrisData tape) (fs ++ [(time, delta)]) refs
  = Some (mkRefs (Some (frame_mesh time delta (js_of_Z 1)))
                 (Some (frame_mesh time delta (dec 15 1)))
                 (Some (frame_mesh time delta (dec 8 1)))).
Proof.
  intros Hrefs. rewrite frames_last by done. by apply useFrame_attached.
Qed.

End Frame.

(** Of the three groups the one of the dominant timeline is drawn
    at 0.8 and the others at 0.1; while the pointer is undecided all
    three are drawn at 0.3. *)
Theorem render_opacity dominantTimeline i timeline :
  [data; comic; web3] !! i = Some timeline →
  opacity i (render dominantTimeline)
  = Some (Num (if decide (dominantTimeline = singularity) then dec 3 1
               else if decide (dominantTimeline = timeline) then dec 8 1
               else dec 1 1)).
Proof.
  intros Hi. destruct i as [|[|[|i]]]; simplify_eq/=; reflexivity.
Qed.

End Component.

(** ** In exact arithmetic *)

Section Exact.
Local Open Scope R_scope.
Variable tape : nat → R.
Hypothesis tape_unit : unit_tape tape.

Lemma draw_range k : 0 <= tape k < 1.
Proof. destruct (tape_unit k) as [?%real_le ?%real_lt]. done. Qed.

Lemma position_at_range i :
  let p := position_at tape i in
  -10 <= vx p < 10 ∧ -10 <= vy p < 10 ∧ -10 <= vz p < 0.
Proof.
  unfold position_at. cbn [vx vy vz]. js_real.
  pose proof (draw_range (7 * i)). pose proof (draw_range (7 * i + 1)).
  pose proof (draw_range (7 * i + 2)). lra.
Qed.

Lemma scale_at_range i : 1 / 10 <= scale_at tape i < 4 / 10.
Proof. unfold scale_at. js_real. pose proof (draw_range (7 * i + 6)). lra. Qed.

Lemma rotation_at_range i :
  let r := rotation_at tape i in
  0 <= ex r < 2 * PI ∧ 0 <= ey r < 2 * PI ∧ 0 <= ez r < 2 * PI.
Proof.
  unfold rotation_at. cbn [ex ey ez]. js_real. pose proof PI_RGT_0.
  pose proof (draw_range (7 * i + 3)). pose proof (draw_range (7 * i + 4)).
  pose proof (draw_range (7 * i + 5)). nra.
Qed.

(** A matrix in the slab the debris floats in: 0.01 and 0.02 around the
    box of the base positions, behind the origin, with a scale between
    0.1 and 0.4. *)
Definition in_slab (m : Matrix4 R) : Prop :=
  -10 - 1 / 100 <= vx (m_position m) < 10 + 1 / 100 ∧
  -10 - 2 / 100 <= vy (m_position m) < 10 + 2 / 100 ∧
  -10 <= vz (m_position m) < 0 ∧
  1 / 10 <= m_scale m < 4 / 10.

Lemma matrix_at_slab time delta speedMultiplier i :
  in_slab (matrix_at tape time delta speedMultiplier i).
Proof.
  pose proof (position_at_range i) as (Hx & Hy & Hz).
  pose proof (scale_at_range i) as Hs.
  unfold in_slab, matrix_at. cbn [m_position m_scale vx vy vz].
  set (p := position_at tape i) in *. unfold idx. js_real.
  pose proof (sin_scaled (time * speedMultiplier + IZR (Z.of_nat i)) (2 / 100)).
  pose proof (cos_scaled (time * speedMultiplier * (5 / 10) + IZR (Z.of_nat i))
                (1 / 100)).
  lra.
Qed.

(** The meshes behind the refs. *)
Definition meshes (refs : Refs R) : list (InstancedMesh R) :=
  omap (λ r, r) [dataDebrisRef refs; comicDebrisRef refs; web3DebrisRef refs].

(** For draws in [[0, 1)], every matrix a frame writes places its
    instance within 0.01 in [x] and 0.02 in [y] of the box
    [[-10, 10) x [-10, 10) x [-10, 0)] and scales it by a factor in
    [[0.1, 0.4)], at every time and for every frame length. *)
Theorem useFrame_slab time delta refs :
  attached refs →
  ∃ refs', useFrame (debrisData tape) time delta refs = Some refs' ∧
    ∀ mesh m, mesh ∈ meshes refs' → m ∈ instanceMatrix mesh →
      length (instanceMatrix mesh) = debrisCount ∧ in_slab m.
Proof.
  intros Hrefs. eexists. split; [by apply useFrame_attached |].
  intros mesh m Hmesh Hm. unfold meshes in Hmesh. simpl in Hmesh.
  set_unfold in Hmesh.
  destruct Hmesh as [-> | [-> | [-> | []]]]; unfold frame_mesh in *;
    cbn [instanceMatrix] in *;
    (split; [by rewrite length_fmap, length_seq |]);
    apply list_elem_of_fmap in Hm as (i & -> & _); apply matrix_at_slab.
Qed.

(** C26: The rotation of an instance does not accumulate.  After any run
    of frames the rotation written for instance [i] of the data debris
    is its base rotation turned by [0.5 * delta] and [0.3 * delta], with
    [delta] the length of the last frame alone: at a steady frame rate
    the debris keeps one orientation. *)
Theorem rotation_does_not_accumulate fs time delta refs i :
  attached refs → (i < debrisCount)%nat →
  ∃ refs' mesh m,
    frames (debrisData tape) (fs ++ [(time, delta)]) refs = Some refs' ∧
    dataDebrisRef refs' = Some mesh ∧ instanceMatrix mesh !! i = Some m ∧
    m_rotation m =
      mkEuler (ex (rotation_at tape i) + delta / 2)
              (ey (rotation_at tape i) + 3 * delta / 10)
              (ez (rotation_at tape i)).
Proof.
  intros Hrefs Hi. rewrite frames_last, useFrame_attached by done.
  eexists _, _, _. split; [done |]. split; [done |].
  unfold frame_mesh. cbn [instanceMatrix].
  rewrite list_lookup_fmap, lookup_seq_lt by done.
  split; [done |]. simpl. js_real. f_equal; lra.
Qed.

End Exact.

(** ** Instances of the theorems *)

Section Runs.
Local Open Scope R_scope.

(** The tape of zeros and the refs of a freshly committed tree. *)
#[local] Abbreviation zeros := (λ _ : nat, 0).
#[local] Abbreviation fresh := (attach (num := R) (render singularity)).

Lemma frames_exact_witness :
  frames (debrisData zeros) ([(0, 1 / 60)] ++ [(1 / 60, 1 / 60)]) fresh
  = Some (mkRefs (Some (frame_mesh zeros (1 / 60) (1 / 60) (js_of_Z 1)))
                 (Some (frame_mesh zeros (1 / 60) (1 / 60) (dec 15 1)))
                 (Some (frame_mesh zeros (1 / 60) (1 / 60) (dec 8 1)))).
Proof. apply (frames_exact zeros), debris_attach_attached. Defined.

Lemma useFrame_slab_witness :
  ∃ refs', useFrame (debrisData zeros) 0 (1 / 60) fresh = Some refs' ∧
    ∀ mesh m, mesh ∈ meshes refs' → m ∈ instanceMatrix mesh →
      length (instanceMatrix mesh) = debrisCount ∧ in_slab m.
Proof.
  apply (useFrame_slab zeros unit_tape_zero), debris_attach_attached.
Defined.

Lemma rotation_does_not_accumulate_witness :
  ∃ refs' mesh m,
    frames (debrisData zeros) ([(0, 1 / 60)] ++ [(1 / 60, 1 / 60)]) fresh
      = Some refs' ∧
    dataDebrisRef refs' = Some mesh ∧ instanceMatrix mesh !! 7%nat = Some m ∧
    m_rotation m =
      mkEuler (ex (rotation_at zeros 7) + 1 / 60 / 2)
              (ey (rotation_at zeros 7) + 3 * (1 / 60) / 10)
              (ez (rotation_at zeros 7)).
Proof.
  apply (rotation_does_not_accumulate zeros);
    [apply debris_attach_attached | unfold debrisCount; lia].
Defined.

Lemma render_opacity_witness :
  opacity 1 (render (num := R) comic)
  = Some (Num (if decide (comic = singularity) then dec 3 1
               else if decide (comic = comic) then dec 8 1 else dec 1 1)).
Proof. by apply (render_opacity comic 1 comic). Defined.

End Runs.

End DebrisField.
