(* ===== verification/ComicScene.v ===== *)
(** * ComicScene: the comic scene [TimelineComic.tsx]

    [Module TimelineComic] models the frame limiter of the scene (the
    callback given to [useFrame] accumulates the frame lengths in
    [frameCount] and moves the scene only when a twelfth of a second has
    been collected), the panels, and the returned tree.  The tree draws
    its Ben-Day dots at random, so [render] is a function of the tape.

    Theorems: the tree is one three.js can draw and its refs are found;
    at a steady frame length the scene moves on every [k]-th frame, [k]
    the least number of frames that make up a twelfth of a second, so the
    group has turned by [0.02 * (n / k)] after [n] frames; a move puts
    every panel at a height in [[-0.5, 0.5]] and keeps the panel's
    declared [x] and [z]. *)

From Stdlib Require Import Reals Lra Floats.
From S2P Require Import Prelude.
From S2P Require Import JsNumber.
From S2P Require Import JsMath.
From S2P Require Import Three.

Module TimelineComic.
Import Three.

(** An entry of [panels]. *)
Record Panel (num : Type) : Type := mkPanel {
  title : string;
  subtitle : string;
  panel_position : list num;
}.
Arguments mkPanel {num}.
Arguments title {num}.
Arguments subtitle {num}.
Arguments panel_position {num}.

(** An entry of the array of speech bubbles. *)
Record Bubble (num : Type) : Type := mkBubble {
  text : string;
  pos : list num;
}.
Arguments mkBubble {num}.
Arguments text {num}.
Arguments pos {num}.

(** The refs of the component: the group, the children of the group of
    panels, and the time collected since the last move. *)
Record Refs (num : Type) : Type := mkRefs {
  groupRef : option (Object3D num);
  comicPanelsRef : option (list (Object3D num));
  frameCount : num;
}.
Arguments mkRefs {num}.
Arguments groupRef {num}.
Arguments comicPanelsRef {num}.
Arguments frameCount {num}.

Section Component.
Context {num : Type} `{JsNum num} `{JsMath num}.
Local Open Scope js_scope.

(** [const targetFPS = 12] and [const frameInterval = 1 / targetFPS] *)
Definition targetFPS : num := js_of_Z 12.
Definition frameInterval : num := js_of_Z 1 / targetFPS.

(** The limiter alone: whether the scene moves in a frame of length
    [delta], and the time collected after it. *)
Definition tick (frameCount delta : num) : bool * num :=
  let frameCount := frameCount + delta in
  if frameCount >=? frameInterval then (true, js_of_Z 0)
  else (false, frameCount).

(** [groupRef.current.rotation.y += 0.02] *)
Definition turn (group : Object3D num) : Object3D num :=
  let r := rotation group in
  mkObject3D (position group) (mkEuler (ex r) (ey r + dec 2 2) (ez r)).

(** The callback of [children.forEach((child, i) => ...)]. *)
Definition sway (elapsedTime : num) (i : nat) (child : Object3D num)
    : Object3D num :=
  let p := position child in
  let r := rotation child in
  mkObject3D
    (mkVector3 (vx p) (Math_sin (elapsedTime * dec 5 1 + idx i) * dec 5 1) (vz p))
    (mkEuler (ex r) (ey r) (Math_sin (elapsedTime + idx i) * dec 1 1)).

(** [useFrame((state, delta) => ...)], with [state.clock.elapsedTime]. *)
Definition useFrame (elapsedTime delta : num) (refs : Refs num) : Refs num :=
  let frameCount := frameCount refs + delta in
  if frameCount >=? frameInterval then
    mkRefs (turn <$> groupRef refs)
           (imap (sway elapsedTime) <$> comicPanelsRef refs)
           (js_of_Z 0)
  else mkRefs (groupRef refs) (comicPanelsRef refs) frameCount.

(** [const panels = [...]] *)
Definition panels : list (Panel num) := [
  mkPanel "POW!" "Frontend Mastery" [- js_of_Z 3; js_of_Z 1; js_of_Z 0];
  mkPanel "WHAM!" "Creative Dev" [js_of_Z 0; dec 5 1; - js_of_Z 1];
  mkPanel "ZAP!" "UI/UX Design" [js_of_Z 3; js_of_Z 1; js_of_Z 0]
].

Definition bubbles : list (Bubble num) := [
  mkBubble "React.js" [- js_of_Z 4; - js_of_Z 1; js_of_Z 1];
  mkBubble "Three.js" [js_of_Z 4; - dec 15 1; dec 5 1];
  mkBubble "WebGL" [- js_of_Z 3; - js_of_Z 2; - js_of_Z 1]
].

Section Render.
Variable tape : nat → num.

(** One Ben-Day dot: two draws. *)
Definition dot (j : nat) : Rand (Element num) :=
  x ← Math_random tape; y ← Math_random tape;
  mret (El "mesh"
    [("key", Num (idx j));
     ("position", Vec [(x - dec 5 1) * dec 18 1; (y - dec 5 1) * dec 13 1;
                       dec 2 2])]
    [El "circleGeometry" [("args", Vec [dec 5 2; js_of_Z 16])] [];
     El "meshBasicMaterial"
       [("color", Str "#F7931E"); ("transparent", Flag true);
        ("opacity", Num (dec 3 1))] []]).

(** The callback of [panels.map((panel, i) => ...)]. *)
Definition panel (i : nat) (panel : Panel num) : Rand (Element num) :=
  dots ← rand_for 20 dot;
  mret (El "group"
    [("key", Num (idx i)); ("position", Vec (panel_position panel))]
    ([El "mesh" [("position", Vec [js_of_Z 0; js_of_Z 0; - dec 1 2])]
        [El "planeGeometry" [("args", Vec [dec 22 1; dec 17 1])] [];
         El "meshBasicMaterial" [("color", Str "#000000")] []];
      El "mesh" []
        [El "planeGeometry" [("args", Vec [js_of_Z 2; dec 15 1])] [];
         El "meshBasicMaterial" [("color", Str "#FFFFFF")] []];
      El "Text"
        [("position", Vec [js_of_Z 0; dec 3 1; dec 1 2]);
         ("fontSize", Num (dec 4 1)); ("color", Str "#FF6B35");
         ("anchorX", Str "center"); ("anchorY", Str "middle");
         ("outlineWidth", Num (dec 3 2)); ("outlineColor", Str "#000000");
         ("font", Str "/fonts/Bangers-Regular.ttf")]
        [Chars (title panel)];
      El "Text"
        [("position", Vec [js_of_Z 0; - dec 2 1; dec 1 2]);
         ("fontSize", Num (dec 15 2)); ("color", Str "#000000");
         ("anchorX", Str "center"); ("anchorY", Str "middle");
         ("font", Str "/fonts/ComicNeue-Bold.ttf")]
        [Chars (subtitle panel)]]
     ++ dots)).

(** The callback of [[-1, 1].map((dir, i) => ...)]. *)
Definition swoosh (i : nat) (dir : num) : Element num :=
  El "mesh"
    [("key", Num (idx i));
     ("position", Vec [dir * js_of_Z 2; js_of_Z 0; - dec 1 1]);
     ("rotation", Vec [js_of_Z 0; js_of_Z 0; dir * dec 3 1])]
    [El "planeGeometry" [("args", Vec [dec 15 1; dec 1 1])] [];
     El "meshBasicMaterial" [("color", Str "#000000")] []].

(** The callback of the map over the speech bubbles. *)
Definition bubble (i : nat) (bubble : Bubble num) : Element num :=
  El "group" [("key", Num (idx i)); ("position", Vec (pos bubble))]
    [El "mesh" []
       [El "sphereGeometry" [("args", Vec [dec 6 1; js_of_Z 32; js_of_Z 32])] [];
        El "meshToonMaterial" [("color", Str "#FFFFFF")] []];
     El "mesh"
       [("position", Vec [- dec 4 1; - dec 4 1; js_of_Z 0]);
        ("scale", Vec [dec 3 1; dec 3 1; dec 3 1])]
       [El "sphereGeometry" [("args", Vec [dec 5 1; js_of_Z 32; js_of_Z 32])] [];
        El "meshToonMaterial" [("color", Str "#FFFFFF")] []];
     El "Text"
       [("position", Vec [js_of_Z 0; js_of_Z 0; dec 61 2]);
        ("fontSize", Num (dec 2 1)); ("color", Str "#000000");
        ("anchorX", Str "center"); ("anchorY", Str "middle");
        ("font", Str "/fonts/ComicNeue-Bold.ttf")]
       [Chars (text bubble)]].

(** The returned tree. *)
Definition render : Rand (Element num) :=
  drawn ← rand_imap panel panels;
  mret (Fragment
    [El "ambientLight" [("intensity", Num (dec 5 1))] [];
     El "directionalLight"
       [("position", Vec [js_of_Z 5; js_of_Z 5; js_of_Z 5]);
        ("intensity", Num (dec 15 1)); ("color", Str "#FF6B35")] [];
     El "directionalLight"
       [("position", Vec [- js_of_Z 5; js_of_Z 3; js_of_Z 2]);
        ("intensity", Num (dec 8 1)); ("color", Str "#F7931E")] [];
     El "mesh"
       [("position", Vec [js_of_Z 0; js_of_Z 0; - js_of_Z 8]);
        ("scale", Vec [js_of_Z 20; js_of_Z 20; js_of_Z 1])]
       [El "planeGeometry"
          [("args", Vec [js_of_Z 1; js_of_Z 1; js_of_Z 32; js_of_Z 32])] [];
        El "meshBasicMaterial" [("color", Str "#FBD1A2")] []];
     El "group" [("ref", Ref "groupRef")]
       ([El "group" [("position", Vec [js_of_Z 0; js_of_Z 2; js_of_Z 0])]
           (El "Text"
              [("position", Vec [js_of_Z 0; js_of_Z 0; js_of_Z 0]);
               ("fontSize", Num (dec 8 1)); ("color", Str "#FF6B35");
               ("anchorX", Str "center"); ("anchorY", Str "middle");
               ("outlineWidth", Num (dec 5 2)); ("outlineColor", Str "#000000");
               ("font", Str "/fonts/Bangers-Regular.ttf")]
              [Chars "THE ANOMALY"]
            :: imap swoosh [- js_of_Z 1; js_of_Z 1]);
         El "group" [("ref", Ref "comicPanelsRef")] drawn]
        ++ imap bubble bubbles);
     El "mesh"
       [("position", Vec [js_of_Z 0; js_of_Z 0; - dec 79 1]);
        ("scale", Vec [js_of_Z 20; js_of_Z 20; js_of_Z 1])]
       [El "planeGeometry" [("args", Vec [js_of_Z 1; js_of_Z 1])] [];
        El "meshBasicMaterial"
          [("color", Str "#FF0000"); ("transparent", Flag true);
           ("opacity", Num (dec 3 2))] []];
     El "mesh"
       [("position", Vec [dec 5 2; js_of_Z 0; - dec 795 2]);
        ("scale", Vec [js_of_Z 20; js_of_Z 20; js_of_Z 1])]
       [El "planeGeometry" [("args", Vec [js_of_Z 1; js_of_Z 1])] [];
        El "meshBasicMaterial"
          [("color", Str "#00FF00"); ("transparent", Flag true);
           ("opacity", Num (dec 3 2))] []]]).

(** The tree of the first render. *)
Definition tree : Element num := (render 0).1.

(** The refs once the tree is committed. *)
Definition attach : Refs num :=
  mkRefs (mount "groupRef" tree) (mount_children "comicPanelsRef" tree)
         (js_of_Z 0).

End Render.

(** [n] frames of the same length; [clock j] is the elapsed time the
    [j]-th of them is called with. *)
Definition frames (clock : nat → num) (delta : num) (n : nat)
    (refs : Refs num) : Refs num :=
  for_range n 0 (λ j, useFrame (clock j) delta) refs.

(** ** For every number instance *)

Lemma useFrame_tick elapsedTime delta refs :
  frameCount (useFrame elapsedTime delta refs)
  = (tick (frameCount refs) delta).2.
Proof. unfold useFrame, tick. by destruct (_ >=? _). Qed.

Lemma comic_tree_renderable tape : renderable (tree tape) = true.
Proof. vm_compute. reflexivity. Qed.

Lemma attach_groupRef tape :
  groupRef (attach tape)
  = Some (mkObject3D (mkVector3 (js_of_Z 0) (js_of_Z 0) (js_of_Z 0))
                     (mkEuler (js_of_Z 0) (js_of_Z 0) (js_of_Z 0))).
Proof. vm_compute. reflexivity. Qed.

(** The object of a panel before the first move. *)
Definition declared (p : Panel num) : Object3D num :=
  object_of (El "group" [("position", Vec (panel_position p))] []).

Lemma attach_comicPanelsRef tape :
  comicPanelsRef (attach tape) = Some (declared <$> panels).
Proof. vm_compute. reflexivity. Qed.

End Component.

(** ** In exact arithmetic *)

Section Exact.
Local Open Scope R_scope.

Lemma frameInterval_real : frameInterval = 1 / 12.
Proof. reflexivity. Qed.

Lemma tick_real frameCount delta :
  tick frameCount delta =
    if Rle_dec (1 / 12) (frameCount + delta) then (true, 0)
    else (false, frameCount + delta).
Proof.
  unfold tick. rewrite frameInterval_real. simpl.
  unfold bool_decide, Rle_decision. by destruct (Rle_dec _ _).
Qed.

Lemma useFrame_wait elapsedTime delta refs :
  frameCount refs + delta < 1 / 12 →
  useFrame elapsedTime delta refs
  = mkRefs (groupRef refs) (comicPanelsRef refs) (frameCount refs + delta).
Proof.
  intros Hlt. unfold useFrame. rewrite frameInterval_real.
  by rewrite (proj2 (real_le_false _ _)).
Qed.

Lemma useFrame_move elapsedTime delta refs :
  1 / 12 <= frameCount refs + delta →
  useFrame elapsedTime delta refs
  = mkRefs (turn <$> groupRef refs)
           (imap (sway elapsedTime) <$> comicPanelsRef refs) 0.
Proof.
  intros Hle. unfold useFrame. rewrite frameInterval_real.
  by rewrite (proj2 (real_le _ _)).
Qed.

Section Period.
Variables (clock : nat → R) (delta : R) (k : nat).
Hypothesis k_least : INR (k - 1) * delta < 1 / 12 <= INR k * delta.

Lemma delta_pos : 0 < delta ∧ (0 < k)%nat.
Proof.
  destruct k as [|k']; [simpl in k_least; lra |].
  split; [| lia]. replace (S k' - 1)%nat with k' in k_least by lia.
  rewrite S_INR in k_least. lra.
Qed.

(** The group after [q] moves. *)
Definition turned (q : nat) (g : Object3D R) : Object3D R :=
  mkObject3D (position g)
    (mkEuler (ex (rotation g)) (ey (rotation g) + INR q * (2 / 100))
             (ez (rotation g))).

Lemma turn_turned q g : turn (turned q g) = turned (S q) g.
Proof.
  unfold turn, turned. rewrite S_INR. simpl. js_real. do 2 f_equal. lra.
Qed.

(** After [q * k + r] frames the scene has moved [q] times and has
    collected [r] frames since. *)
Lemma frames_split n refs g :
  frameCount refs = 0 → groupRef refs = Some g →
  ∃ q r, n = (q * k + r)%nat ∧ (r < k)%nat ∧
    frameCount (frames clock delta n refs) = INR r * delta ∧
    groupRef (frames clock delta n refs) = Some (turned q g).
Proof.
  intros H0 Hg. destruct delta_pos as [Hd Hk].
  induction n as [|n (q & r & -> & Hr & Hc & Hgr)].
  - exists 0%nat, 0%nat. unfold frames. simpl. rewrite H0, Hg.
    repeat split; [lia | lra |].
    unfold turned. destruct g as [? [? ? ?]]. simpl. do 3 f_equal. lra.
  - unfold frames in *. rewrite for_range_snoc.
    set (refs' := for_range _ 0 _ refs) in *.
    destruct (decide (S r = k)) as [Heq | Hne].
    + exists (S q), 0%nat. rewrite useFrame_move.
      * simpl. rewrite Hgr. simpl. rewrite turn_turned.
        repeat split; [lia | lia | simpl; lra].
      * rewrite Hc. assert (INR k = INR r + 1) by (by rewrite <- Heq, S_INR).
        nra.
    + exists q, (S r). rewrite useFrame_wait.
      * cbn [frameCount groupRef]. rewrite Hc, S_INR.
        repeat split; [lia | lia | lra | done].
      * rewrite Hc. assert (INR (S r) <= INR (k - 1)) by (apply le_INR; lia).
        rewrite S_INR in *. nra.
Qed.

(** C18: At a steady frame length the scene moves on every [k]-th frame,
    where [k] is the least number of frames that add up to a twelfth of
    a second: after [n] frames the group has turned by
    [0.02 * (n / k)] and [n mod k] frames are collected.  The scene moves
    [fps / k] times a second, which is 12 only when the frame rate is a
    multiple of 12, and the group turns with the moves, not with the
    time. *)
Theorem moves_every_kth_frame n refs g :
  frameCount refs = 0 → groupRef refs = Some g →
  let refs' := frames clock delta n refs in
  frameCount refs' = INR (n mod k) * delta ∧
  groupRef refs' = Some (turned (n / k) g).
Proof.
  intros H0 Hg.
  destruct (frames_split n refs g H0 Hg) as (q & r & Hn & Hr & Hc & Hgr).
  simpl. rewrite Hc, Hgr.
  rewrite (Nat.mod_unique n k q r), (Nat.div_unique n k q r); try done; lia.
Qed.

End Period.

(** A move sets the height of every panel anew: whatever the tree
    declares, panel [i] is then at a height in [[-0.5, 0.5]] and tilted by
    at most 0.1, with [x] and [z] as before. *)
Theorem move_levels_panels elapsedTime delta refs cs :
  1 / 12 <= frameCount refs + delta → comicPanelsRef refs = Some cs →
  ∃ cs', comicPanelsRef (useFrame elapsedTime delta refs) = Some cs' ∧
    Forall2 (λ c c',
      vx (position c') = vx (position c) ∧ vz (position c') = vz (position c) ∧
      -1 / 2 <= vy (position c') <= 1 / 2 ∧
      -1 / 10 <= ez (rotation c') <= 1 / 10) cs cs'.
Proof.
  intros Hmove Hcs. rewrite useFrame_move, Hcs by done. simpl.
  eexists. split; [done |].
  apply Forall2_same_length_lookup_2; [by rewrite length_imap |].
  intros i c c' Hc Hc'. rewrite list_lookup_imap, Hc in Hc'.
  injection Hc' as <-. unfold sway. simpl. js_real. trig_bounds.
  repeat split; lra.
Qed.

(** The panels "POW!" and "ZAP!" are declared at height 1: the first
    move takes them from it, and no later move brings them back. *)
Lemma declared_heights :
  (λ c, vy (position c)) <$> (declared (num := R) <$> panels) = [1; 5 / 10; 1].
Proof. reflexivity. Qed.

End Exact.

(** ** In doubles *)

(** The frames of a second at 60 Hz on which the scene moves. *)
Fixpoint moves (n : nat) (frameCount delta : float) : nat :=
  match n with
  | 0 => 0
  | S n' =>
      let (due, frameCount') := tick frameCount delta in
      (if due then 1 else 0) + moves n' frameCount' delta
  end.

(** Five sixtieths add up to a twelfth in doubles too: the scene moves
    12 times in the 60 frames of a second, 10 times in the 50 frames of a
    second at 50 Hz and 11 times at 90 Hz. *)
Lemma moves_per_second :
  moves 60 0 (1 / 60) = 12 ∧ moves 50 0 (1 / 50) = 10 ∧
  moves 90 0 (1 / 90) = 11.
Proof. vm_compute. done. Qed.

(** ** Instances of the theorems *)

Section Runs.
Local Open Scope R_scope.

#[local] Abbreviation zeros := (λ _ : nat, 0).

(** A second at 50 Hz: ten moves. *)
Lemma moves_every_kth_frame_witness :
  let refs' := frames zeros (1 / 50) 50 (attach zeros) in
  frameCount refs' = INR (50 mod 5) * (1 / 50) ∧
  groupRef refs' = Some (turned (50 / 5) (object_of (Fragment []))).
Proof.
  apply (moves_every_kth_frame zeros (1 / 50) 5); [simpl; lra | done |].
  apply attach_groupRef.
Defined.

Lemma move_levels_panels_witness :
  ∃ cs', comicPanelsRef (useFrame 0 (1 / 10) (attach zeros)) = Some cs' ∧
    Forall2 (λ c c',
      vx (position c') = vx (position c) ∧ vz (position c') = vz (position c) ∧
      -1 / 2 <= vy (position c') <= 1 / 2 ∧
      -1 / 10 <= ez (rotation c') <= 1 / 10) (declared <$> panels) cs'.
Proof.
  apply (move_levels_panels 0 (1 / 10) (attach zeros)); [simpl; lra |].
  apply attach_comicPanelsRef.
Defined.

End Runs.

End TimelineComic.
