(* ===== verification/DataScene.v ===== *)
(** * DataScene: the data scene [TimelineData.tsx]

    [Module TimelineData] models the particle system of the scene (the
    buffer of 5000 random positions and the per-frame loop that lets
    every particle drift along [y]), the two rotations of the frame
    callback and the returned tree.

    The buffer is a [Float32Array] in the source; here it holds numbers
    of the instance, so the rounding to single precision of every store
    is not modelled.  The loops step their index by 3: iteration [j] of
    the model is the iteration with [i = 3 * j].

    Theorems: the buffer in closed form over the tape; the tree is one
    three.js can draw and its refs are found; a frame keeps the length of
    the buffer and the [x] and [z] of every particle and moves its [y] by
    [sin(time + x) * 0.01], at most 0.01; after [n] frames a particle is
    within [n / 100] of where it started. *)

From Stdlib Require Import Reals Lra.
From S2P Require Import Prelude.
From S2P Require Import JsNumber.
From S2P Require Import JsMath.
From S2P Require Import Three.

Module TimelineData.
Import Three.

(** [particlesRef.current]: the rotation of the points, the array of the
    position attribute and its [needsUpdate] flag. *)
Record Points (num : Type) : Type := mkPoints {
  points_rotation : Euler num;
  array : list num;
  needsUpdate : bool;
}.
Arguments mkPoints {num}.
Arguments points_rotation {num}.
Arguments array {num}.
Arguments needsUpdate {num}.

Record Refs (num : Type) : Type := mkRefs {
  groupRef : option (Object3D num);
  particlesRef : option (Points num);
  gridRef : option (Object3D num);
}.
Arguments mkRefs {num}.
Arguments groupRef {num}.
Arguments particlesRef {num}.
Arguments gridRef {num}.

Section Component.
Context {num : Type} `{JsNum num} `{JsMath num}.
Local Open Scope js_scope.

(** [const particleCount = 5000] *)
Definition particleCount : nat := 5000.

Section Render.
Variable tape : nat → num.

(** The body of the loop that fills the buffer, for [i = 3 * j]. *)
Definition scatter (j : nat) (positions : list num) : Rand (list num) :=
  let i := (3 * j)%nat in
  x ← Math_random tape;
  let positions := <[i := (x - dec 5 1) * js_of_Z 20]> positions in
  y ← Math_random tape;
  let positions := <[(i + 1)%nat := (y - dec 5 1) * js_of_Z 20]> positions in
  z ← Math_random tape;
  let positions := <[(i + 2)%nat := (z - dec 5 1) * js_of_Z 20]> positions in
  mret positions.

(** [const positions = new Float32Array(particleCount * 3)] and the loop
    [for (let i = 0; i < particleCount * 3; i += 3)]. *)
Definition positions : list num :=
  (rand_loop particleCount scatter
     (replicate (particleCount * 3)%nat (js_of_Z 0)) 0%nat).1.

(** The callback of [[-4, -2, 2, 4].map((x, i) => ...)]. *)
Definition block (i : nat) (x : num) : Element num :=
  El "mesh"
    [("key", Num (idx i));
     ("position", Vec [x; Math_sin (idx i) * js_of_Z 2; - js_of_Z 3])]
    [El "boxGeometry" [("args", Vec [dec 8 1; dec 12 1; dec 1 1])] [];
     El "meshStandardMaterial"
       [("color", Str "#001100"); ("emissive", Str "#00ff41");
        ("emissiveIntensity", Num (dec 3 1)); ("wireframe", Flag true)] []].

(** The callback of [Array.from({ length: 10 }).map((_, i) => ...)]. *)
Definition ring (i : nat) (_ : ()) : Element num :=
  El "mesh"
    [("key", Num (idx i));
     ("position", Vec [js_of_Z 0; js_of_Z 0; idx i * js_of_Z 2 - js_of_Z 10]);
     ("rotation", Vec [Math_PI / js_of_Z 2; js_of_Z 0; js_of_Z 0])]
    [El "ringGeometry"
       [("args", Vec [js_of_Z 3 + idx i * dec 5 1;
                      dec 31 1 + idx i * dec 5 1; js_of_Z 64])] [];
     El "meshBasicMaterial"
       [("color", Str "#00ff41"); ("transparent", Flag true);
        ("opacity", Num (dec 2 1))] []].

(** A line of the console. *)
Definition line (y fontSize : num) (color : string)
    (more : list (string * Attr num)) (s : string) : Element num :=
  El "Text"
    ([("position", Vec [js_of_Z 0; y; dec 1 1]); ("fontSize", Num fontSize);
      ("color", Str color); ("anchorX", Str "center");
      ("anchorY", Str "middle")]
     ++ more ++ [("font", Str "/fonts/CourierPrime-Regular.ttf")])
    [Chars s].

(** The returned tree. *)
Definition render : Element num :=
  Fragment
    [El "ambientLight" [("intensity", Num (dec 1 1))] [];
     El "directionalLight"
       [("position", Vec [js_of_Z 0; js_of_Z 10; js_of_Z 5]);
        ("intensity", Num (js_of_Z 1)); ("color", Str "#00ff41")] [];
     El "Grid"
       [("position", Vec [js_of_Z 0; - js_of_Z 3; js_of_Z 0]);
        ("args", Vec [js_of_Z 50; js_of_Z 50]);
        ("cellSize", Num (dec 5 1)); ("cellThickness", Num (dec 5 1));
        ("cellColor", Str "#008F11"); ("sectionSize", Num (js_of_Z 5));
        ("sectionThickness", Num (js_of_Z 1)); ("sectionColor", Str "#00ff41");
        ("fadeDistance", Num (js_of_Z 30)); ("fadeStrength", Num (js_of_Z 1));
        ("infiniteGrid", Flag true)] [];
     El "points" [("ref", Ref "particlesRef")]
       [El "bufferGeometry" []
          [El "bufferAttribute"
             [("attach", Str "attributes-position");
              ("count", Num (js_of_Z (Z.of_nat particleCount)));
              ("array", Sym "positions"); ("itemSize", Num (js_of_Z 3))] []];
        El "pointsMaterial"
          [("size", Num (dec 3 2)); ("color", Str "#00ff41");
           ("transparent", Flag true); ("opacity", Num (dec 6 1));
           ("sizeAttenuation", Flag true);
           ("blending", Sym "THREE.AdditiveBlending")] []];
     El "group" [("ref", Ref "groupRef")]
       (El "group" [("position", Vec [js_of_Z 0; js_of_Z 0; js_of_Z 0])]
          [El "mesh" [("position", Vec [js_of_Z 0; js_of_Z 0; js_of_Z 0])]
             [El "boxGeometry" [("args", Vec [js_of_Z 3; js_of_Z 2; dec 1 1])] [];
              El "meshStandardMaterial"
                [("color", Str "#000000"); ("emissive", Str "#00ff41");
                 ("emissiveIntensity", Num (dec 2 1))] []];
           line (dec 5 1) (dec 2 1) "#00ff41" [] "> THE ARCHITECT_";
           line (js_of_Z 0) (dec 1 1) "#00ff41" [] "SYSTEM.BOOT [OK]";
           line (- dec 3 1) (dec 8 2) "#008F11"
             [("maxWidth", Num (dec 25 1)); ("textAlign", Str "center")]
             ("Machine Learning • Data Science" +:+ String (Ascii.ascii_of_nat 10)
              "Cloud Architecture • Systems Engineering")]
        :: imap block [- js_of_Z 4; - js_of_Z 2; js_of_Z 2; js_of_Z 4]);
     El "group"
       [("ref", Ref "gridRef");
        ("position", Vec [js_of_Z 0; js_of_Z 0; - js_of_Z 5])]
       (imap ring (replicate 10 ()))].

(** The refs once the tree is committed: the points hold the buffer. *)
Definition attach : Refs num :=
  mkRefs (mount "groupRef" render)
         ((λ o, mkPoints (rotation o) positions false)
            <$> mount "particlesRef" render)
         (mount "gridRef" render).

End Render.

(** The body of the loop over the buffer, for [i = 3 * j]:
    [positions[i + 1] += Math.sin(time + positions[i]) * 0.01]. *)
Definition drift (time : num) (j : nat) (positions : list num) : list num :=
  let i := (3 * j)%nat in
  match positions !! i with
  | Some x => alter (λ y, y + Math_sin (time + x) * dec 1 2) (i + 1)%nat positions
  | None => positions
  end.

(** The iterations of [for (let i = 0; i < length; i += 3)]. *)
Definition strides (length : nat) : nat := ((length + 2) / 3)%nat.

(** [rotation.y += delta * speed] *)
Definition spin (amount : num) (r : Euler num) : Euler num :=
  mkEuler (ex r) (ey r + amount) (ez r).

(** [useFrame((state, delta) => ...)], with [state.clock.elapsedTime]. *)
Definition useFrame (elapsedTime delta : num) (refs : Refs num) : Refs num :=
  mkRefs (groupRef refs)
    ((λ p, mkPoints (spin (delta * dec 5 2) (points_rotation p))
             (for_range (strides (length (array p))) 0 (drift elapsedTime)
                (array p))
             true) <$> particlesRef refs)
    ((λ g, mkObject3D (position g) (spin (delta * dec 1 1) (rotation g)))
       <$> gridRef refs).

(** A run of frames, each with the clock and the length it is called
    with. *)
Definition frames (fs : list (num * num)) (refs : Refs num) : Refs num :=
  foldl (λ refs f, useFrame f.1 f.2 refs) refs fs.

(** Particle [j] of a buffer. *)
Definition particle (positions : list num) (j : nat) : option (Vector3 num) :=
  x ← positions !! (3 * j)%nat;
  y ← positions !! (3 * j + 1)%nat;
  z ← positions !! (3 * j + 2)%nat;
  Some (mkVector3 x y z).

(** ** For every number instance *)

Section Buffer.
Variable tape : nat → num.

(** What the loop stores at index [k], read off the tape. *)
Definition sample (k : nat) : num := (tape k - dec 5 1) * js_of_Z 20.

Lemma scatter_spec j pre n :
  length pre = (3 * j)%nat →
  scatter tape j (pre ++ replicate (3 * S n) (js_of_Z 0)) (3 * j)%nat
  = (pre ++ [sample (3 * j); sample (3 * j + 1); sample (3 * j + 2)]
       ++ replicate (3 * n) (js_of_Z 0), (3 * S j)%nat).
Proof.
  intros Hpre. unfold scatter, mbind, Rand_bind, mret, Rand_ret, Math_random.
  replace (3 * S n)%nat with (S (S (S (3 * n)))) by lia.
  replace (3 * S j)%nat with (S (S (S (3 * j)))) by lia.
  replace (3 * j + 1)%nat with (S (3 * j)) by lia.
  replace (3 * j + 2)%nat with (S (S (3 * j))) by lia.
  rewrite !insert_app_r_alt by (rewrite ?length_insert, ?length_app; simpl; lia).
  rewrite Hpre, Nat.sub_diag.
  replace (S (3 * j) - 3 * j)%nat with 1%nat by lia.
  replace (S (S (3 * j)) - 3 * j)%nat with 2%nat by lia.
  reflexivity.
Qed.

Lemma seq_3 j :
  seq 0 (3 * S j) = seq 0 (3 * j) ++ [3 * j; 3 * j + 1; 3 * j + 2]%nat.
Proof.
  replace (3 * S j)%nat with (3 * j + 3)%nat by lia.
  rewrite seq_app. cbn [seq]. repeat (f_equal; try lia).
Qed.

Lemma scatter_fill n :
  (rand_loop n (scatter tape) (replicate (3 * n) (js_of_Z 0)) 0%nat).1
  = sample <$> seq 0 (3 * n).
Proof.
  set (I := λ (j : nat) (l : list num) (k : nat), j ≤ n →
       k = (3 * j)%nat ∧
       l = (sample <$> seq 0 (3 * j)) ++ replicate (3 * (n - j)) (js_of_Z 0)).
  assert (I n (rand_loop n (scatter tape) (replicate (3 * n) (js_of_Z 0)) 0%nat).1
              (rand_loop n (scatter tape) (replicate (3 * n) (js_of_Z 0)) 0%nat).2)
    as HI.
  { apply rand_loop_invariant.
    - intros j l k Hj Hl _. destruct (Hl ltac:(lia)) as [-> ->]. clear Hl.
      replace (n - j)%nat with (S (n - S j)) by lia.
      rewrite scatter_spec by (by rewrite length_fmap, length_seq).
      split; [done |]. cbn [fst].
      by rewrite seq_3, fmap_app, <- app_assoc.
    - intros _. by rewrite Nat.sub_0_r. }
  destruct (HI ltac:(lia)) as [_ ->].
  by rewrite Nat.sub_diag, Nat.mul_0_r, app_nil_r.
Qed.

(** The buffer holds [3 * particleCount] numbers; entry [k] is
    [(draw k - 0.5) * 20], so particle [j] is placed by the draws
    [3 * j], [3 * j + 1] and [3 * j + 2]. *)
Theorem positions_closed_form :
  positions tape = sample <$> seq 0 (3 * particleCount).
Proof.
  unfold positions. rewrite (Nat.mul_comm particleCount 3).
  apply scatter_fill.
Qed.

Lemma positions_length : length (positions tape) = (3 * particleCount)%nat.
Proof. by rewrite positions_closed_form, length_fmap, length_seq. Qed.

Lemma positions_particle j :
  j < particleCount →
  particle (positions tape) j
  = Some (mkVector3 (sample (3 * j)) (sample (3 * j + 1)) (sample (3 * j + 2))).
Proof.
  intros Hj. unfold particle.
  rewrite positions_closed_form, !list_lookup_fmap, !lookup_seq_lt by lia.
  reflexivity.
Qed.

End Buffer.

Lemma data_render_renderable : renderable render = true.
Proof. vm_compute. reflexivity. Qed.

Lemma data_render_mounts :
  mount "groupRef" render = Some (object_of (Fragment [])) ∧
  mount "particlesRef" render = Some (object_of (Fragment [])) ∧
  mount "gridRef" render
  = Some (mkObject3D (mkVector3 (js_of_Z 0) (js_of_Z 0) (- js_of_Z 5))
                     (rotation (object_of (Fragment [])))).
Proof. repeat split; vm_compute; reflexivity. Qed.

Lemma attach_particlesRef tape :
  particlesRef (attach tape)
  = Some (mkPoints (rotation (object_of (Fragment []))) (positions tape) false).
Proof.
  unfold attach. destruct data_render_mounts as (_ & -> & _). reflexivity.
Qed.

Lemma attach_particle tape j :
  j < particleCount →
  ∃ p, particlesRef (attach tape) = Some p ∧
    length (array p) = (3 * particleCount)%nat ∧
    particle (array p) j
    = Some (mkVector3 (sample tape (3 * j)) (sample tape (3 * j + 1))
                      (sample tape (3 * j + 2))).
Proof.
  intros Hj. eexists. split; [apply attach_particlesRef |]. cbn [array].
  split; [apply positions_length | by apply positions_particle].
Qed.

(** ** The drift of one frame *)

(** What a frame makes of particle [j] of the buffer [l]. *)
Definition drifted (time : num) (l : list num) (j : nat) : option num :=
  y ← l !! (3 * j + 1)%nat; x ← l !! (3 * j)%nat;
  Some (y + Math_sin (time + x) * dec 1 2).

(** The loop rewrites the heights of the first [n] particles and nothing
    else. *)
Lemma drift_loop time l n :
  let l' := for_range n 0 (drift time) l in
  length l' = length l ∧
  (∀ j, j < n → l' !! (3 * j + 1)%nat = drifted time l j) ∧
  (∀ k, (∀ j, j < n → k ≠ (3 * j + 1)%nat) → l' !! k = l !! k).
Proof.
  set (I := λ (n : nat) (l' : list num),
    length l' = length l ∧
    (∀ j, j < n → l' !! (3 * j + 1)%nat = drifted time l j) ∧
    (∀ k, (∀ j, j < n → k ≠ (3 * j + 1)%nat) → l' !! k = l !! k)).
  enough (I (0 + n)%nat (for_range n 0 (drift time) l)) as HI by exact HI.
  apply for_range_invariant; unfold I; clear I.
  - intros m l' _ (Hlen & Hy & Hk). unfold drift.
    rewrite (Hk (3 * m)%nat) by (intros; lia).
    destruct (l !! (3 * m)%nat) as [x|] eqn:Ex.
    + split; [by rewrite length_alter |]. split.
      * intros j Hj. destruct (decide (j = m)) as [-> | Hne].
        -- rewrite list_lookup_alter_eq, (Hk (3 * m + 1)%nat) by (intros; lia).
           unfold drifted. rewrite Ex. by destruct (l !! (3 * m + 1)%nat).
        -- rewrite list_lookup_alter_ne by lia. apply Hy. lia.
      * intros k Hne.
        rewrite list_lookup_alter_ne by (apply not_eq_sym, Hne; lia).
        apply Hk. intros. apply Hne. lia.
    + split; [done |]. split.
      * intros j Hj. destruct (decide (j = m)) as [-> | Hne].
        -- rewrite (Hk (3 * m + 1)%nat) by (intros; lia).
           unfold drifted. rewrite Ex.
           destruct (l !! (3 * m + 1)%nat) eqn:Ey; [| done].
           apply lookup_lt_Some in Ey. apply lookup_ge_None in Ex. lia.
        -- apply Hy. lia.
      * intros k Hne. apply Hk. intros. apply Hne. lia.
  - split; [done |]. split; [intros; lia | done].
Qed.

Lemma strides_3 m : strides (3 * m) = m.
Proof.
  unfold strides. symmetry. apply (Nat.div_unique _ 3 m 2); lia.
Qed.

(** A frame keeps [x] and [z] of every particle and moves its [y]. *)
Lemma drift_particle time l m j v :
  length l = (3 * m)%nat → particle l j = Some v →
  let l' := for_range (strides (length l)) 0 (drift time) l in
  length l' = length l ∧
  particle l' j
  = Some (mkVector3 (vx v) (vy v + Math_sin (time + vx v) * dec 1 2) (vz v)).
Proof.
  intros Hlen Hv. rewrite Hlen, strides_3.
  destruct (drift_loop time l m) as (Hl' & Hy & Hk). split; [by rewrite Hl' |].
  unfold particle in *.
  rewrite (Hk (3 * j)%nat), (Hk (3 * j + 2)%nat) by (intros; lia).
  destruct (l !! (3 * j)%nat) as [x|] eqn:Ex; [| done].
  destruct (l !! (3 * j + 1)%nat) as [y|] eqn:Ey; [| done].
  destruct (l !! (3 * j + 2)%nat) as [z|] eqn:Ez; [| done].
  injection Hv as <-. apply lookup_lt_Some in Ey as Hj.
  rewrite Hy by lia. unfold drifted. by rewrite Ex, Ey.
Qed.

Lemma useFrame_particle time delta refs p m j v :
  particlesRef refs = Some p → length (array p) = (3 * m)%nat →
  particle (array p) j = Some v →
  ∃ p', particlesRef (useFrame time delta refs) = Some p' ∧
    length (array p') = (3 * m)%nat ∧ needsUpdate p' = true ∧
    particle (array p') j
    = Some (mkVector3 (vx v) (vy v + Math_sin (time + vx v) * dec 1 2) (vz v)).
Proof.
  intros Hp Hlen Hv. unfold useFrame. rewrite Hp.
  destruct (drift_particle time (array p) m j v Hlen Hv) as [Hl' Hj].
  eexists. split; [done |]. cbn [array needsUpdate].
  split; [by rewrite Hl' |]. split; [done | exact Hj].
Qed.

End Component.

(** ** In exact arithmetic *)

Section Exact.
Local Open Scope R_scope.

(** A frame keeps the length of the buffer, sets [needsUpdate], and
    moves particle [j] along [y] only, by [sin(time + x) * 0.01]: at most
    0.01 up or down. *)
Theorem frame_moves_height time delta refs p m j v :
  particlesRef refs = Some p → length (array p) = (3 * m)%nat →
  particle (array p) j = Some v →
  ∃ p' v', particlesRef (useFrame time delta refs) = Some p' ∧
    length (array p') = (3 * m)%nat ∧ needsUpdate p' = true ∧
    particle (array p') j = Some v' ∧
    vx v' = vx v ∧ vz v' = vz v ∧
    vy v' = vy v + sin (time + vx v) / 100 ∧ Rabs (vy v' - vy v) <= 1 / 100.
Proof.
  intros Hp Hlen Hv.
  destruct (useFrame_particle time delta refs p m j v Hp Hlen Hv)
    as (p' & Hp' & Hlen' & Hn & Hv').
  eexists p', _. repeat (split; [done |]). simpl. js_real. trig_bounds.
  split; [lra |]. apply Rabs_le. lra.
Qed.

(** After [n] frames, of whatever lengths and at whatever times, a
    particle has its [x] and [z] and is within [n / 100] of the height it
    started at. *)
Theorem frames_drift_bound fs refs p m j v :
  particlesRef refs = Some p → length (array p) = (3 * m)%nat →
  particle (array p) j = Some v →
  ∃ p' v', particlesRef (frames fs refs) = Some p' ∧
    length (array p') = (3 * m)%nat ∧ particle (array p') j = Some v' ∧
    vx v' = vx v ∧ vz v' = vz v ∧
    Rabs (vy v' - vy v) <= INR (length fs) / 100.
Proof.
  revert refs p v. induction fs as [|[time delta] fs IH]; intros refs p v Hp Hlen Hv.
  - exists p, v. repeat (split; [done |]). simpl.
    rewrite Rminus_diag, Rabs_R0. lra.
  - destruct (frame_moves_height time delta refs p m j v Hp Hlen Hv)
      as (p1 & v1 & Hp1 & Hlen1 & _ & Hv1 & Hx1 & Hz1 & _ & Hy1).
    destruct (IH _ p1 v1 Hp1 Hlen1 Hv1)
      as (p' & v' & Hp' & Hlen' & Hv' & Hx & Hz & Hy).
    exists p', v'. unfold frames in *. cbn [foldl fst snd].
    repeat (split; [done || congruence |]).
    change (length (_ :: fs)) with (S (length fs)). rewrite S_INR.
    replace (vy v' - vy v) with ((vy v' - vy v1) + (vy v1 - vy v)) by lra.
    pose proof (Rabs_triang (vy v' - vy v1) (vy v1 - vy v)). lra.
Qed.

(** For draws in [[0, 1)] the particles start in the cube of side 20
    around the origin. *)
Lemma sample_range tape k : unit_tape tape → -10 <= sample tape k < 10.
Proof.
  intros Htape. destruct (Htape k) as [?%real_le ?%real_lt].
  unfold sample. js_real. lra.
Qed.

(** C19: The particles of the scene stay in their columns.  For draws
    in [[0, 1)], particle [j] keeps the [x] and [z] the draws [3 * j] and
    [3 * j + 2] gave it, both in [[-10, 10)], through every run of frames,
    and after [n] frames its height is within [n / 100] of the height the
    draw [3 * j + 1] gave it. *)
Theorem particles_stay_in_column tape j fs :
  unit_tape tape → (j < particleCount)%nat →
  ∃ p' v', particlesRef (frames fs (attach tape)) = Some p' ∧
    length (array p') = (3 * particleCount)%nat ∧
    particle (array p') j = Some v' ∧
    vx v' = sample tape (3 * j) ∧ vz v' = sample tape (3 * j + 2) ∧
    -10 <= vx v' < 10 ∧ -10 <= vz v' < 10 ∧
    Rabs (vy v' - sample tape (3 * j + 1)) <= INR (length fs) / 100.
Proof.
  intros Htape Hj. destruct (attach_particle tape j Hj) as (p & Hp & Hlen & Hv).
  destruct (frames_drift_bound fs _ p _ j _ Hp Hlen Hv)
    as (p' & v' & Hp' & Hlen' & Hv' & Hx & Hz & Hy).
  exists p', v'. simpl in Hx, Hz, Hy. rewrite Hx, Hz.
  pose proof (sample_range tape (3 * j) Htape).
  pose proof (sample_range tape (3 * j + 2) Htape). done.
Qed.

End Exact.

(** ** Instances of the theorems *)

Section Runs.
Local Open Scope R_scope.

#[local] Abbreviation zeros := (λ _ : nat, 0).

Lemma particle_7 : (7 < particleCount)%nat.
Proof. unfold particleCount. lia. Qed.

Lemma frame_moves_height_witness :
  ∃ p' v', particlesRef (useFrame 0 (1 / 60) (attach zeros)) = Some p' ∧
    length (array p') = (3 * particleCount)%nat ∧ needsUpdate p' = true ∧
    particle (array p') 7 = Some v' ∧
    vx v' = sample zeros (3 * 7) ∧ vz v' = sample zeros (3 * 7 + 2) ∧
    vy v' = sample zeros (3 * 7 + 1) + sin (0 + sample zeros (3 * 7)) / 100 ∧
    Rabs (vy v' - sample zeros (3 * 7 + 1)) <= 1 / 100.
Proof.
  destruct (attach_particle zeros 7 particle_7) as (p & Hp & Hlen & Hv).
  exact (frame_moves_height 0 (1 / 60) (attach zeros) p particleCount 7 _
           Hp Hlen Hv).
Defined.

Lemma frames_drift_bound_witness :
  ∃ p' v', particlesRef (frames [(0, 1 / 60); (1 / 60, 1 / 60)] (attach zeros))
             = Some p' ∧
    length (array p') = (3 * particleCount)%nat ∧
    particle (array p') 7 = Some v' ∧
    vx v' = sample zeros (3 * 7) ∧ vz v' = sample zeros (3 * 7 + 2) ∧
    Rabs (vy v' - sample zeros (3 * 7 + 1)) <= INR 2 / 100.
Proof.
  destruct (attach_particle zeros 7 particle_7) as (p & Hp & Hlen & Hv).
  exact (frames_drift_bound [(0, 1 / 60); (1 / 60, 1 / 60)] (attach zeros) p
           particleCount 7 _ Hp Hlen Hv).
Defined.

Lemma particles_stay_in_column_witness :
  ∃ p' v', particlesRef (frames [(0, 1 / 60); (1 / 60, 1 / 60)] (attach zeros))
             = Some p' ∧
    length (array p') = (3 * particleCount)%nat ∧
    particle (array p') 7 = Some v' ∧
    vx v' = sample zeros (3 * 7) ∧ vz v' = sample zeros (3 * 7 + 2) ∧
    -10 <= vx v' < 10 ∧ -10 <= vz v' < 10 ∧
    Rabs (vy v' - sample zeros (3 * 7 + 1))
      <= INR (length [(0, 1 / 60); (1 / 60, 1 / 60)]) / 100.
Proof.
  exact (particles_stay_in_column zeros 7 [(0, 1 / 60); (1 / 60, 1 / 60)]
           unit_tape_zero particle_7).
Defined.

End Runs.

End TimelineData.

