(* ===== verification/Web3Scene.v ===== *)
(** * Web3Scene: the web3 scene [TimelineWeb3.tsx]

    [Module TimelineWeb3] models the per-frame callback of the scene (the
    crystals turn and bob, the fractal group sways and turns, the mirror
    panels fold) and the returned tree.

    Theorems: the tree is one three.js can draw and its refs are found;
    after a run of frames the crystals and the fractal have turned in
    proportion to the time the frames add up to, whatever the frame rate,
    and neighbouring crystals have turned against each other; a frame
    puts every crystal at a height in [[-0.2, 0.2]] and every mirror panel
    at an angle in [[-0.5, 0.5]], whatever the tree declares. *)

From Stdlib Require Import Reals Lra.
From S2P Require Import Prelude.
From S2P Require Import JsNumber.
From S2P Require Import JsMath.
From S2P Require Import Three.

Module TimelineWeb3.
Import Three.

(** An entry of the array of crystals. *)
Record Crystal (num : Type) : Type := mkCrystal {
  pos : list num;
  color : string;
}.
Arguments mkCrystal {num}.
Arguments pos {num}.
Arguments color {num}.

(** The refs of the component: the array of crystals, the children of
    the group of mirror panels, and the fractal group. *)
Record Refs (num : Type) : Type := mkRefs {
  crystalRefs : list (option (Object3D num));
  mirrorPanelsRef : option (list (Object3D num));
  fractalRef : option (Object3D num);
}.
Arguments mkRefs {num}.
Arguments crystalRefs {num}.
Arguments mirrorPanelsRef {num}.
Arguments fractalRef {num}.

Section Component.
Context {num : Type} `{JsNum num} `{JsMath num}.
Local Open Scope js_scope.

(** The callback of [crystalRefs.current.forEach((crystal, i) => ...)],
    for a crystal that is there. *)
Definition orbit (time delta : num) (i : nat) (crystal : Object3D num)
    : Object3D num :=
  let p := position crystal in
  let r := rotation crystal in
  mkObject3D
    (mkVector3 (vx p) (Math_sin (time + idx i) * dec 2 1) (vz p))
    (mkEuler
       (ex r + delta * dec 3 1 * (if Nat.even i then js_of_Z 1 else - js_of_Z 1))
       (ey r + delta * dec 5 1) (ez r)).

(** The writes to [fractalRef.current.rotation]. *)
Definition sway (time delta : num) (fractal : Object3D num) : Object3D num :=
  let r := rotation fractal in
  mkObject3D (position fractal)
    (mkEuler (Math_sin (time * dec 3 1) * dec 2 1)
             (ey r + delta * dec 2 1)
             (Math_cos (time * dec 4 1) * dec 1 1)).

(** The callback of [mirrorPanelsRef.current.children.forEach]. *)
Definition fold (time : num) (i : nat) (child : Object3D num) : Object3D num :=
  let offset := idx i * Math_PI * dec 4 1 in
  let r := rotation child in
  mkObject3D (position child)
    (mkEuler (ex r) (Math_sin (time * dec 5 1 + offset) * dec 5 1) (ez r)).

(** [useFrame((state, delta) => ...)], with [state.clock.elapsedTime]. *)
Definition useFrame (time delta : num) (refs : Refs num) : Refs num :=
  mkRefs (imap (λ i, fmap (orbit time delta i)) (crystalRefs refs))
         (imap (fold time) <$> mirrorPanelsRef refs)
         (sway time delta <$> fractalRef refs).

(** The array of crystals. *)
Definition crystals : list (Crystal num) := [
  mkCrystal [- js_of_Z 4; js_of_Z 0; - js_of_Z 2] "#7B2CBF";
  mkCrystal [js_of_Z 4; dec 5 1; - js_of_Z 2] "#C77DFF";
  mkCrystal [- js_of_Z 3; - js_of_Z 1; js_of_Z 2] "#FFD60A";
  mkCrystal [js_of_Z 3; - dec 5 1; js_of_Z 2] "#9D4EDD"
].

(** The callback of [[0, 1, 2, 3, 4].map((i) => ...)]: [i] is the element. *)
Definition shard (i : num) : Element num :=
  let angle := (i / js_of_Z 5) * Math_PI * js_of_Z 2 in
  let radius := js_of_Z 3 in
  El "mesh"
    [("key", Num i);
     ("position", Vec [Math_cos angle * radius; Math_sin i * dec 5 1;
                       Math_sin angle * radius]);
     ("rotation", Vec [js_of_Z 0; - angle; js_of_Z 0])]
    [El "planeGeometry" [("args", Vec [dec 15 1; dec 25 1])] [];
     El "meshPhysicalMaterial"
       [("color", Str "#1a1a2e"); ("metalness", Num (js_of_Z 1));
        ("roughness", Num (dec 1 1)); ("transmission", Num (dec 9 1));
        ("thickness", Num (dec 5 1)); ("envMapIntensity", Num (js_of_Z 1));
        ("clearcoat", Num (js_of_Z 1));
        ("clearcoatRoughness", Num (dec 1 1))] []].

(** The callback of the map over the crystals. *)
Definition crystal (i : nat) (crystal : Crystal num) : Element num :=
  El "mesh"
    [("key", Num (idx i)); ("ref", Ref "crystalRefs");
     ("position", Vec (pos crystal)); ("castShadow", Flag true)]
    [El "octahedronGeometry" [("args", Vec [dec 8 1; js_of_Z 0])] [];
     El "meshPhysicalMaterial"
       [("color", Str (color crystal)); ("metalness", Num (dec 9 1));
        ("roughness", Num (dec 5 2)); ("clearcoat", Num (js_of_Z 1));
        ("clearcoatRoughness", Num (js_of_Z 0));
        ("reflectivity", Num (js_of_Z 1));
        ("envMapIntensity", Num (js_of_Z 2))] []].

(** The callback of the inner map of the fractal, at depth [depth]. *)
Definition cube (depth : nat) (i : nat) (_ : ()) : Element num :=
  let angle := (idx i / js_of_Z 8) * Math_PI * js_of_Z 2 in
  let radius := js_of_Z 2 in
  El "mesh"
    [("key", Num (idx i));
     ("position", Vec [Math_cos angle * radius; Math_sin angle * radius;
                       - idx depth])]
    [El "boxGeometry" [("args", Vec [dec 2 1; dec 2 1; dec 2 1])] [];
     El "meshStandardMaterial"
       [("color", Str "#7B2CBF"); ("emissive", Str "#C77DFF");
        ("emissiveIntensity", Num (dec 5 1)); ("wireframe", Flag true)] []].

(** The callback of the outer map of the fractal. *)
Definition layer (depth : nat) (_ : ()) : Element num :=
  El "group"
    [("key", Num (idx depth));
     ("scale", Num (js_of_Z 1 / (idx depth + js_of_Z 1)))]
    (imap (cube depth) (replicate 8 ())).

(** The callback of [[1, 1.5, 2].map((radius, i) => ...)]. *)
Definition halo (i : nat) (radius : num) : Element num :=
  El "mesh"
    [("key", Num (idx i));
     ("rotation", Vec [Math_PI / js_of_Z 2 + idx i * dec 2 1; js_of_Z 0;
                       js_of_Z 0])]
    [El "torusGeometry"
       [("args", Vec [radius; dec 2 2; js_of_Z 16; js_of_Z 100])] [];
     El "meshStandardMaterial"
       [("color", Str "#FFD60A"); ("emissive", Str "#FFD60A");
        ("emissiveIntensity", Num (js_of_Z 1)); ("metalness", Num (js_of_Z 1));
        ("roughness", Num (js_of_Z 0))] []].

(** The returned tree. *)
Definition render : Element num :=
  Fragment
    ([El "ambientLight" [("intensity", Num (dec 1 1))] [];
      El "spotLight"
        [("position", Vec [js_of_Z 0; js_of_Z 10; js_of_Z 0]);
         ("angle", Num (dec 3 1)); ("penumbra", Num (js_of_Z 1));
         ("intensity", Num (js_of_Z 2)); ("color", Str "#C77DFF");
         ("castShadow", Flag true)] [];
      El "pointLight"
        [("position", Vec [- js_of_Z 5; js_of_Z 5; js_of_Z 5]);
         ("intensity", Num (js_of_Z 1)); ("color", Str "#FFD60A")] [];
      El "pointLight"
        [("position", Vec [js_of_Z 5; js_of_Z 5; - js_of_Z 5]);
         ("intensity", Num (js_of_Z 1)); ("color", Str "#7B2CBF")] [];
      El "mesh"
        [("rotation", Vec [- Math_PI / js_of_Z 2; js_of_Z 0; js_of_Z 0]);
         ("position", Vec [js_of_Z 0; - js_of_Z 3; js_of_Z 0]);
         ("receiveShadow", Flag true)]
        [El "planeGeometry" [("args", Vec [js_of_Z 50; js_of_Z 50])] [];
         El "MeshReflectorMaterial"
           [("blur", Vec [js_of_Z 300; js_of_Z 100]);
            ("resolution", Num (js_of_Z 2048)); ("mixBlur", Num (js_of_Z 1));
            ("mixStrength", Num (js_of_Z 40)); ("roughness", Num (js_of_Z 1));
            ("depthScale", Num (dec 12 1));
            ("minDepthThreshold", Num (dec 4 1));
            ("maxDepthThreshold", Num (dec 14 1)); ("color", Str "#0a0a0a");
            ("metalness", Num (dec 8 1))] []];
      El "group" [("position", Vec [js_of_Z 0; js_of_Z 2; js_of_Z 0])]
        [El "Text"
           [("position", Vec [js_of_Z 0; js_of_Z 0; js_of_Z 0]);
            ("fontSize", Num (dec 6 1)); ("color", Str "#C77DFF");
            ("anchorX", Str "center"); ("anchorY", Str "middle");
            ("font", Str "/fonts/OrbitronBlack.ttf")]
           [Chars "THE MIRROR DIMENSION"];
         El "mesh" [("position", Vec [js_of_Z 0; - dec 5 1; js_of_Z 0])]
           [El "boxGeometry" [("args", Vec [js_of_Z 4; dec 5 2; dec 5 2])] [];
            El "meshStandardMaterial"
              [("color", Str "#FFD60A"); ("emissive", Str "#FFD60A");
               ("emissiveIntensity", Num (js_of_Z 2));
               ("metalness", Num (js_of_Z 1));
               ("roughness", Num (js_of_Z 0))] []]];
      El "group" [("ref", Ref "mirrorPanelsRef")]
        (shard <$> [js_of_Z 0; js_of_Z 1; js_of_Z 2; js_of_Z 3; js_of_Z 4])]
     ++ imap crystal crystals
     ++ [El "group"
           [("ref", Ref "fractalRef");
            ("position", Vec [js_of_Z 0; js_of_Z 0; - js_of_Z 8])]
           (imap layer (replicate 5 ()));
         El "group" [("position", Vec [js_of_Z 0; js_of_Z 0; js_of_Z 0])]
           (imap halo [js_of_Z 1; dec 15 1; js_of_Z 2]);
         El "mesh"
           [("position", Vec [js_of_Z 0; js_of_Z 5; - js_of_Z 10]);
            ("scale", Vec [js_of_Z 20; js_of_Z 20; js_of_Z 1])]
           [El "planeGeometry" [("args", Vec [js_of_Z 1; js_of_Z 1])] [];
            El "meshBasicMaterial"
              [("color", Str "#7B2CBF"); ("transparent", Flag true);
               ("opacity", Num (dec 5 2));
               ("blending", Sym "THREE.AdditiveBlending")] []]]).

(** The refs once the tree is committed. *)
Definition attach : Refs num :=
  mkRefs (mount_all "crystalRefs" render)
         (mount_children "mirrorPanelsRef" render)
         (mount "fractalRef" render).

(** A run of frames, each with the clock and the length it is called
    with. *)
Definition frames (fs : list (num * num)) (refs : Refs num) : Refs num :=
  foldl (λ refs f, useFrame f.1 f.2 refs) refs fs.

(** The object of a crystal and of a mirror panel before the first
    frame. *)
Definition declared (c : Crystal num) : Object3D num :=
  object_of (El "mesh" [("position", Vec (pos c))] []).

(** ** For every number instance *)

Lemma web3_render_renderable : renderable render = true.
Proof. vm_compute. reflexivity. Qed.

Lemma attach_crystalRefs : crystalRefs attach = Some <$> (declared <$> crystals).
Proof. vm_compute. reflexivity. Qed.

Lemma attach_mirrorPanelsRef :
  mirrorPanelsRef attach
  = Some (object_of <$> (shard <$> [js_of_Z 0; js_of_Z 1; js_of_Z 2;
                                    js_of_Z 3; js_of_Z 4])).
Proof. vm_compute. reflexivity. Qed.

Lemma attach_fractalRef :
  fractalRef attach
  = Some (mkObject3D (mkVector3 (js_of_Z 0) (js_of_Z 0) (- js_of_Z 8))
                     (mkEuler (js_of_Z 0) (js_of_Z 0) (js_of_Z 0))).
Proof. vm_compute. reflexivity. Qed.

Lemma useFrame_lengths time delta refs :
  length (crystalRefs (useFrame time delta refs)) = length (crystalRefs refs).
Proof. simpl. by rewrite length_imap. Qed.

Lemma useFrame_crystal time delta refs i c :
  crystalRefs refs !! i = Some (Some c) →
  crystalRefs (useFrame time delta refs) !! i
  = Some (Some (orbit time delta i c)).
Proof. intros Hc. simpl. by rewrite list_lookup_imap, Hc. Qed.

End Component.

(** ** In exact arithmetic *)

Section Exact.
Local Open Scope R_scope.

(** The time a run of frames adds up to. *)
Definition elapsed (fs : list (R * R)) : R := foldr (λ f s, f.2 + s) 0 fs.

(** The direction crystal [i] turns in. *)
Definition sense (i : nat) : R := if Nat.even i then 1 else -1.

Lemma frames_crystal fs refs i c :
  crystalRefs refs !! i = Some (Some c) →
  ∃ c', crystalRefs (frames fs refs) !! i = Some (Some c') ∧
    ex (rotation c') = ex (rotation c) + sense i * (3 / 10) * elapsed fs ∧
    ey (rotation c') = ey (rotation c) + elapsed fs / 2.
Proof.
  revert refs c. induction fs as [|[time delta] fs IH]; intros refs c Hc.
  - exists c. simpl. repeat split; try done; lra.
  - destruct (IH (useFrame time delta refs) (orbit time delta i c))
      as (c' & Hc' & Hx & Hy); [by apply useFrame_crystal |].
    exists c'. unfold frames in *. cbn [foldl foldr fst snd elapsed].
    fold (elapsed fs). split; [done |].
    rewrite Hx, Hy. unfold orbit, sense. simpl. js_real.
    destruct (Nat.even i); split; lra.
Qed.

Lemma frames_fractal fs refs f :
  fractalRef refs = Some f →
  ∃ f', fractalRef (frames fs refs) = Some f' ∧
    ey (rotation f') = ey (rotation f) + elapsed fs / 5.
Proof.
  revert refs f. induction fs as [|[time delta] fs IH]; intros refs f Hf.
  - exists f. simpl. split; [done | lra].
  - destruct (IH (useFrame time delta refs) (sway time delta f))
      as (f' & Hf' & Hy); [simpl; by rewrite Hf |].
    exists f'. unfold frames in *. cbn [foldl foldr fst snd elapsed].
    fold (elapsed fs). split; [done |].
    rewrite Hy. unfold sway. simpl. js_real. lra.
Qed.

(** C20: The crystals and the fractal turn with the time.  After a run
    of frames crystal [i] has turned by [0.3] times the elapsed time about
    [x], forwards when [i] is even and backwards when it is odd, and by
    [0.5] times the elapsed time about [y]; the fractal has turned by
    [0.2] times the elapsed time.  Only the sum of the frame lengths
    enters: the turns do not depend on the frame rate. *)
Theorem turns_with_time fs refs i c f :
  crystalRefs refs !! i = Some (Some c) → fractalRef refs = Some f →
  ∃ c' f', crystalRefs (frames fs refs) !! i = Some (Some c') ∧
    fractalRef (frames fs refs) = Some f' ∧
    ex (rotation c') = ex (rotation c) + sense i * (3 / 10) * elapsed fs ∧
    ey (rotation c') = ey (rotation c) + elapsed fs / 2 ∧
    ey (rotation f') = ey (rotation f) + elapsed fs / 5.
Proof.
  intros Hc Hf.
  destruct (frames_crystal fs refs i c Hc) as (c' & Hc' & Hx & Hy).
  destruct (frames_fractal fs refs f Hf) as (f' & Hf' & Hz).
  by exists c', f'.
Qed.

(** Neighbouring crystals turn against each other: from the same angle
    their turns about [x] cancel. *)
Corollary neighbours_counter_rotate fs refs i c d :
  crystalRefs refs !! i = Some (Some c) →
  crystalRefs refs !! S i = Some (Some d) →
  ex (rotation c) = 0 → ex (rotation d) = 0 →
  ∃ c' d', crystalRefs (frames fs refs) !! i = Some (Some c') ∧
    crystalRefs (frames fs refs) !! S i = Some (Some d') ∧
    ex (rotation c') + ex (rotation d') = 0.
Proof.
  intros Hc Hd Hc0 Hd0.
  destruct (frames_crystal fs refs i c Hc) as (c' & Hc' & Hx & _).
  destruct (frames_crystal fs refs (S i) d Hd) as (d' & Hd' & Hx' & _).
  exists c', d'. split; [done |]. split; [done |].
  rewrite Hx, Hx', Hc0, Hd0. unfold sense. rewrite Nat.even_succ.
  rewrite <- Nat.negb_even. destruct (Nat.even i); simpl; ring.
Qed.

(** The crystals, the mirror panels and the fractal a frame leaves. *)
Definition settled (o : Object3D R) : Prop :=
  -1 / 5 <= vy (position o) <= 1 / 5.

Definition folded (o : Object3D R) : Prop :=
  -1 / 2 <= ey (rotation o) <= 1 / 2.

(** C27: A frame sets the height of every crystal and the angle of every
    mirror panel anew.  Whatever the tree declares, after a frame crystal
    [i] is at a height in [[-0.2, 0.2]] with its [x] and [z] as before,
    and panel [i] is at an angle in [[-0.5, 0.5]] where it was placed. *)
Theorem frame_overrides_declared time delta refs cs ms :
  crystalRefs refs = Some <$> cs → mirrorPanelsRef refs = Some ms →
  ∃ cs' ms', crystalRefs (useFrame time delta refs) = Some <$> cs' ∧
    mirrorPanelsRef (useFrame time delta refs) = Some ms' ∧
    Forall2 (λ c c', settled c' ∧ vx (position c') = vx (position c) ∧
                     vz (position c') = vz (position c)) cs cs' ∧
    Forall2 (λ m m', folded m' ∧ position m' = position m) ms ms'.
Proof.
  intros Hcs Hms. exists (imap (orbit time delta) cs), (imap (fold time) ms).
  simpl. rewrite Hcs, Hms. split.
  { apply list_eq. intros i.
    rewrite list_lookup_imap, !list_lookup_fmap, list_lookup_imap.
    by destruct (cs !! i). }
  split; [done |]. split.
  - apply Forall2_same_length_lookup_2; [by rewrite length_imap |].
    intros i c c' Hc Hc'. rewrite list_lookup_imap, Hc in Hc'.
    injection Hc' as <-. unfold settled, orbit. simpl. js_real. trig_bounds.
    repeat split; lra.
  - apply Forall2_same_length_lookup_2; [by rewrite length_imap |].
    intros i m m' Hm Hm'. rewrite list_lookup_imap, Hm in Hm'.
    injection Hm' as <-. unfold folded, fold. simpl. js_real. trig_bounds.
    repeat split; lra.
Qed.

(** The tree declares the second crystal at height 0.5 and the second
    mirror panel turned by [-2 * PI / 5], further than 0.5: the first
    frame takes both from where they are declared. *)
Lemma declared_elsewhere :
  (λ c, vy (position (declared (num := R) c))) <$> crystals
    = [0; 5 / 10; -1; - (5 / 10)] ∧
  ey (rotation (object_of (shard (num := R) 1))) < -1 / 2.
Proof.
  split; [reflexivity |]. simpl. js_real. pose proof PI2_1. lra.
Qed.

End Exact.

(** ** Instances of the theorems *)

Section Runs.
Local Open Scope R_scope.

#[local] Abbreviation second := [(0, 1 / 60); (1 / 60, 1 / 60)].

#[local] Abbreviation violet :=
  (declared (num := R)
     (mkCrystal [js_of_Z 4; dec 5 1; js_neg (js_of_Z 2)] "#C77DFF")).
#[local] Abbreviation fractal :=
  (mkObject3D (num := R)
     (mkVector3 (js_of_Z 0) (js_of_Z 0) (js_neg (js_of_Z 8)))
     (mkEuler (js_of_Z 0) (js_of_Z 0) (js_of_Z 0))).
#[local] Abbreviation shards :=
  (object_of (num := R)
     <$> (shard <$> [js_of_Z 0; js_of_Z 1; js_of_Z 2; js_of_Z 3; js_of_Z 4])).

Lemma turns_with_time_witness :
  ∃ c' f', crystalRefs (frames second attach) !! 1%nat = Some (Some c') ∧
    fractalRef (frames second attach) = Some f' ∧
    ex (rotation c')
      = ex (rotation violet) + sense 1 * (3 / 10) * elapsed second ∧
    ey (rotation c') = ey (rotation violet) + elapsed second / 2 ∧
    ey (rotation f') = ey (rotation fractal) + elapsed second / 5.
Proof.
  apply (turns_with_time second attach 1 violet fractal);
    [by rewrite attach_crystalRefs | apply attach_fractalRef].
Defined.

Lemma frame_overrides_declared_witness :
  ∃ cs' ms', crystalRefs (useFrame 0 (1 / 60) attach) = Some <$> cs' ∧
    mirrorPanelsRef (useFrame 0 (1 / 60) attach) = Some ms' ∧
    Forall2 (λ c c', settled c' ∧ vx (position c') = vx (position c) ∧
                     vz (position c') = vz (position c))
      (declared <$> crystals) cs' ∧
    Forall2 (λ m m', folded m' ∧ position m' = position m) shards ms'.
Proof.
  apply (frame_overrides_declared 0 (1 / 60) attach);
    [apply attach_crystalRefs | apply attach_mirrorPanelsRef].
Defined.

End Runs.

End TimelineWeb3.
