(* ===== verification/ProjectData.v ===== *)
(** * ProjectData: the example data [PROJECT_DATA_EXAMPLE.ts]

    [Module Projects] holds the interface [Project], the three lists of
    projects, the skills by timeline, the social links and the personal
    information, as the file exports them, and the use the file documents
    at its end: the featured projects of a list, turned into cards keyed
    by their [id].

    [skills] is a JavaScript object read by key: an association list.

    Theorems: the catalogue is well formed (every project has an id, a
    title and a technology, the ids are distinct across the three lists,
    and a featured project has somewhere to point to); the cards of any
    list of projects with distinct ids have distinct keys and are the
    featured projects in their order; the skills are keyed [data], [web]
    and [web3], so the comic timeline finds none. *)

From S2P Require Import Prelude.
From S2P Require Import JsNumber.
From S2P Require Import MultiverseStore.
From stdpp Require Import sets.

Module Projects.
Import Store.

(** [export interface Project] *)
Record Project : Type := mkProject {
  id : string;
  title : string;
  description : string;
  technologies : list string;
  link : option string;
  github : option string;
  image : option string;
  featured : bool;
}.

(** [export const dataProjects] *)
Definition dataProjects : list Project := [
  mkProject "ml-pipeline"
    "Real-Time ML Pipeline"
    "Built a scalable machine learning pipeline processing 1M+ events per day with automated retraining"
    ["Python"; "TensorFlow"; "Apache Kafka"; "Kubernetes"; "FastAPI"]
    (Some "https://example.com/project1")
    (Some "https://github.com/yourusername/ml-pipeline")
    None true;
  mkProject "data-viz"
    "Interactive Data Visualization Dashboard"
    "Created an interactive dashboard for business analytics with real-time data streaming"
    ["Python"; "D3.js"; "PostgreSQL"; "Docker"]
    (Some "https://example.com/project2")
    None
    None false;
  mkProject "nlp-model"
    "NLP Sentiment Analysis"
    "Developed a custom sentiment analysis model achieving 94% accuracy on product reviews"
    ["PyTorch"; "BERT"; "HuggingFace"; "AWS SageMaker"]
    None
    (Some "https://github.com/yourusername/nlp-sentiment")
    None true
].

(** [export const webProjects] *)
Definition webProjects : list Project := [
  mkProject "ecommerce"
    "Modern E-Commerce Platform"
    "Full-stack e-commerce with payment integration, inventory management, and admin dashboard"
    ["React"; "Next.js"; "Node.js"; "Stripe"; "MongoDB"]
    (Some "https://example.com/shop")
    (Some "https://github.com/yourusername/ecommerce")
    None true;
  mkProject "3d-portfolio"
    "3D Interactive Portfolio"
    "This very portfolio! A cinematic multiverse experience built with Three.js"
    ["React"; "Three.js"; "TypeScript"; "WebGL"; "GSAP"]
    (Some "https://yourportfolio.com")
    (Some "https://github.com/yourusername/portfolio")
    None true;
  mkProject "social-app"
    "Real-Time Social Platform"
    "Built a social media app with live messaging, notifications, and content feeds"
    ["React"; "Socket.io"; "Express"; "Redis"; "PostgreSQL"]
    None
    None
    None false
].

(** [export const web3Projects] *)
Definition web3Projects : list Project := [
  mkProject "nft-marketplace"
    "NFT Marketplace"
    "Decentralized marketplace for creating, buying, and selling NFTs with low gas fees"
    ["Solidity"; "Ethers.js"; "React"; "IPFS"; "Hardhat"]
    (Some "https://example.com/nft-market")
    (Some "https://github.com/yourusername/nft-marketplace")
    None true;
  mkProject "defi-protocol"
    "DeFi Yield Aggregator"
    "Smart contract protocol that automatically finds the best yield farming opportunities"
    ["Solidity"; "Web3.js"; "Next.js"; "The Graph"; "Chainlink"]
    None
    (Some "https://github.com/yourusername/defi-yield")
    None true;
  mkProject "dao-platform"
    "DAO Governance Platform"
    "Voting and proposal system for decentralized autonomous organizations"
    ["Solidity"; "React"; "Snapshot"; "IPFS"; "Gnosis Safe"]
    (Some "https://example.com/dao")
    None
    None false
].

(** [export const skills = { data: [...], web: [...], web3: [...] }] *)
Definition skills : list (string * list string) := [
  ("data",
   ["Machine Learning"; "Deep Learning"; "NLP & Computer Vision";
    "Data Science"; "Python"; "TensorFlow"; "PyTorch"; "Apache Spark";
    "SQL & NoSQL"; "Cloud (AWS, GCP, Azure)"; "Docker & Kubernetes";
    "FastAPI"; "Data Visualization"]);
  ("web",
   ["React"; "Next.js"; "TypeScript"; "Node.js"; "Express"; "GraphQL";
    "Three.js"; "WebGL"; "GSAP"; "Tailwind CSS"; "PostgreSQL"; "MongoDB";
    "Redis"; "REST APIs"]);
  ("web3",
   ["Solidity"; "Smart Contracts"; "Ethers.js"; "Web3.js"; "Hardhat";
    "Truffle"; "IPFS"; "The Graph"; "DeFi Protocols"; "NFT Standards";
    "DAO Development"; "Zero-Knowledge Proofs"; "Layer 2 Solutions"])
].

(** [export const socialLinks] *)
Record SocialLinks : Type := mkSocialLinks {
  social_github : string;
  linkedin : string;
  twitter : string;
  email : string;
  website : string;
}.

Definition socialLinks : SocialLinks :=
  mkSocialLinks "https://github.com/yourusername"
    "https://linkedin.com/in/yourusername"
    "https://twitter.com/yourusername"
    "your.email@example.com"
    "https://yourwebsite.com".

(** [export const personalInfo] *)
Record PersonalInfo : Type := mkPersonalInfo {
  name : string;
  info_title : string;
  bio : string;
  location : string;
  available : bool;
  resumeUrl : string;
}.

Definition personalInfo : PersonalInfo :=
  mkPersonalInfo "Your Name"
    "Full Stack Developer | Data Scientist | Web3 Builder"
    "I build at the intersection of data, design, and decentralization. From machine learning pipelines to immersive 3D experiences to blockchain protocols."
    "Your City, Country"
    true
    "https://example.com/resume.pdf".

(** The props of a [ProjectCard]. *)
Record ProjectCard : Type := mkProjectCard {
  key : string;
  card_title : string;
  card_description : string;
  card_technologies : list string;
}.

(** [const featuredProjects = dataProjects.filter(p => p.featured)], for
    any list of projects. *)
Definition featuredProjects (projects : list Project) : list Project :=
  filter (λ p, featured p = true) projects.

(** [featuredProjects.map(project => <ProjectCard ... />)] *)
Definition cards (projects : list Project) : list ProjectCard :=
  (λ project, mkProjectCard (id project) (title project)
                (description project) (technologies project))
    <$> featuredProjects projects.

(** [skills[timeline]], with the timeline's name as the key. *)
Definition skillsOf (timeline : Timeline) : option (list string) :=
  snd <$> find (λ entry, bool_decide (entry.1 = Timeline_str timeline)) skills.

(** The three lists together. *)
Definition catalogue : list Project :=
  dataProjects ++ webProjects ++ web3Projects.

(** What the interface cannot say of a project: the strings that name it
    are not empty, it lists a technology, and when it is featured it has a
    page or a repository to point to. *)
Definition well_formed (p : Project) : bool :=
  negb (bool_decide (id p = "")) && negb (bool_decide (title p = "")) &&
  negb (bool_decide (technologies p = [])) &&
  (negb (featured p) || bool_decide (is_Some (link p) ∨ is_Some (github p))).

(** ** Theorems *)


Lemma featuredProjects_spec projects p :
  p ∈ featuredProjects projects ↔ p ∈ projects ∧ featured p = true.
Proof. unfold featuredProjects. rewrite list_elem_of_filter. tauto. Qed.

(** For every list of projects with distinct ids, the cards have
    distinct keys, each card is a featured project of the list, and every
    featured project has its card: a list keyed by [id] gives React the
    distinct keys it needs. *)
Theorem cards_keys projects :
  NoDup (id <$> projects) →
  NoDup (key <$> cards projects) ∧
  ∀ k, k ∈ key <$> cards projects ↔
       ∃ p, p ∈ projects ∧ featured p = true ∧ id p = k.
Proof.
  intros Hids. unfold cards. rewrite <- list_fmap_compose. split.
  - change (key ∘ _) with id. unfold featuredProjects.
    induction projects as [|p l IH]; [constructor |].
    apply NoDup_cons in Hids as [Hp Hl]. rewrite filter_cons.
    case_decide; [| by apply IH].
    rewrite fmap_cons. apply NoDup_cons. split; [| by apply IH].
    intros (q & Hq & [_ Hin]%list_elem_of_filter)%list_elem_of_fmap.
    apply Hp. apply list_elem_of_fmap. by exists q.
  - intros k. rewrite list_elem_of_fmap. split.
    + intros (p & -> & [? ?]%featuredProjects_spec). by exists p.
    + intros (p & ? & ? & <-). exists p. by rewrite featuredProjects_spec.
Qed.

(** The skills are not grouped by timeline.  The object has the
    keys [data], [web] and [web3]; the timelines are [data], [comic] and
    [web3], so reading the skills of the comic timeline finds nothing,
    and the key [web] belongs to no timeline. *)
Theorem skills_by_timeline :
  is_Some (skillsOf data) ∧ is_Some (skillsOf web3) ∧
  skillsOf comic = None ∧ skillsOf singularity = None ∧
  ∀ t, Timeline_str t ≠ "web".
Proof.
  repeat split; try by eexists. by intros [].
Qed.

Lemma cards_keys_witness :
  NoDup (key <$> cards dataProjects) ∧
  ∀ k, k ∈ key <$> cards dataProjects ↔
       ∃ p, p ∈ dataProjects ∧ featured p = true ∧ id p = k.
Proof. apply (cards_keys dataProjects). by_compute. Defined.

End Projects.
