(* ===== verification/Scenes.v ===== *)
(** * Scenes: what App puts on the canvas

    [Module Canvas] composes the scene components.  [renderTimeline] is
    the tree [App.renderTimeline] hands to the canvas, with the child
    components of [Singularity.tsx] ([HeroObject], [DebrisField],
    [GlitchEffect]) expanded in place.  [Mounted] holds the refs of the
    components of the scene that is mounted, [mount] their values after
    the commit, and [useFrame] one animation frame: react-three-fiber
    calls the frame callbacks of the mounted components in the order
    they subscribed, children before parents, and an exception in one of
    them ends the frame.

    Theorems: whatever the store holds and whatever the draws were, the
    tree on the canvas is one three.js can draw; the refs of the child
    components are found in the composed tree where they are found in
    the components' own trees; no frame throws, the mounted scene stays
    the selected one, and a frame writes nothing to the store but
    [cursorInfluence], which only the singularity scene writes; with the
    pointer at rest the uniforms of the hero object approach the
    pointer's influences frame by frame. *)

From Stdlib Require Import Reals Lra.
From S2P Require Import Prelude.
From S2P Require Import JsNumber.
From S2P Require Import JsMath.
From S2P Require Import MultiverseStore.
From S2P Require Import AppShell.
From S2P Require Import SingularityScene.
From S2P Require Import Three.
From S2P Require Import Hero.
From S2P Require Import Debris.
From S2P Require Import ComicScene.
From S2P Require Import DataScene.
From S2P Require Import Web3Scene.

Module Canvas.
Import Store Three.

(** The refs of the components of the mounted scene.  The debris data are
    memoised by [DebrisField] and live as long as it is mounted. *)
Inductive Mounted (num : Type) : Type :=
| InSingularity (scene : Singularity.Refs num) (hero : HeroObject.Refs num)
    (debrisData : DebrisField.DebrisData num) (debris : DebrisField.Refs num)
| InData (refs : TimelineData.Refs num)
| InComic (refs : TimelineComic.Refs num)
| InWeb3 (refs : TimelineWeb3.Refs num).
Arguments InSingularity {num}.
Arguments InData {num}.
Arguments InComic {num}.
Arguments InWeb3 {num}.

Section Component.
Context {num : Type} `{JsNum num} `{JsMath num}.
Local Open Scope js_scope.

(** [<directionalLight position={...} intensity={...} color={...} />] *)
Definition light (l : Singularity.Light num) : Element num :=
  El "directionalLight"
    [("position", Vec (js_of_Z <$> Singularity.position l));
     ("intensity", Num (Singularity.intensity l));
     ("color", Str (Singularity.lightColor l))] [].

(** The tree [Singularity] returns, its three child components
    expanded. *)
Definition singularityScene (state : MultiverseState num) : Element num :=
  let view := Singularity.render state in
  Fragment
    (El "ambientLight"
       [("intensity", Num (Singularity.ambientIntensity view))] []
     :: (light <$> Singularity.lights view)
     ++ [El "group" [("ref", Ref "groupRef")] [HeroObject.render];
         DebrisField.render (Singularity.debrisDominant view);
         GlitchEffect.render (Singularity.glitchIntensity view)]).

(** [{renderTimeline()}]: the tree of the selected scene. *)
Definition renderTimeline (tape : nat → num) (state : MultiverseState num)
    : Element num :=
  match App.renderTimeline (currentTimeline state) with
  | App.Singularity => singularityScene state
  | App.TimelineData => TimelineData.render
  | App.TimelineComic => TimelineComic.tree tape
  | App.TimelineWeb3 => TimelineWeb3.render
  end.

(** The refs once the selected scene is committed. *)
Definition mount (tape : nat → num) (state : MultiverseState num)
    : Mounted num :=
  match App.renderTimeline (currentTimeline state) with
  | App.Singularity =>
      InSingularity (Singularity.attach Singularity.initialRefs)
        (HeroObject.attach HeroObject.initialRefs)
        (DebrisField.debrisData tape)
        (DebrisField.attach (singularityScene state))
  | App.TimelineData => InData (TimelineData.attach tape)
  | App.TimelineComic => InComic (TimelineComic.attach tape)
  | App.TimelineWeb3 => InWeb3 TimelineWeb3.attach
  end.

(** The scene whose refs these are. *)
Definition scene_of (m : Mounted num) : App.Scene :=
  match m with
  | InSingularity _ _ _ _ => App.Singularity
  | InData _ => App.TimelineData
  | InComic _ => App.TimelineComic
  | InWeb3 _ => App.TimelineWeb3
  end.

(** One animation frame: the callbacks of the mounted components, the
    children's first; [None] is an exception. *)
Definition useFrame (time delta : num) (state : MultiverseState num)
    (m : Mounted num) : option (Mounted num * MultiverseState num) :=
  match m with
  | InSingularity scene hero debrisData debris =>
      let timelineInfluence :=
        Singularity.timelineInfluence (Singularity.render state) in
      let hero := HeroObject.useFrame timelineInfluence delta hero in
      debris ← DebrisField.useFrame debrisData time delta debris;
      let (scene, state) := Singularity.useFrame delta scene state in
      Some (InSingularity scene hero debrisData debris, state)
  | InData refs => Some (InData (TimelineData.useFrame time delta refs), state)
  | InComic refs => Some (InComic (TimelineComic.useFrame time delta refs), state)
  | InWeb3 refs => Some (InWeb3 (TimelineWeb3.useFrame time delta refs), state)
  end.

(** A run of frames, each with the clock and the length it is called
    with. *)
Fixpoint frames (fs : list (num * num)) (state : MultiverseState num)
    (m : Mounted num) : option (Mounted num * MultiverseState num) :=
  match fs with
  | [] => Some (m, state)
  | (time, delta) :: fs' =>
      '(m', state') ← useFrame time delta state m;
      frames fs' state' m'
  end.

(** [n] frames of the same length; [clock j] is the elapsed time the
    [j]-th of them is called with. *)
Definition steady (clock : nat → num) (delta : num) (n : nat)
    : list (num * num) :=
  (λ j, (clock j, delta)) <$> seq 0 n.

(** The mounted refs are those of a committed scene: the debris data are
    the memoised ones and every debris mesh is there. *)
Definition mounted_ok (tape : nat → num) (m : Mounted num) : Prop :=
  match m with
  | InSingularity _ _ debrisData debris =>
      debrisData = DebrisField.debrisData tape ∧ DebrisField.attached debris
  | _ => True
  end.

(** What a frame may change of the store: [cursorInfluence]. *)
Definition same_but_influence (state state' : MultiverseState num) : Prop :=
  currentTimeline state' = currentTimeline state ∧
  mousePosition state' = mousePosition state ∧
  isTransitioning state' = isTransitioning state ∧
  soundEnabled state' = soundEnabled state.

(** ** The tree *)

Lemma singularityScene_renderable state :
  renderable (singularityScene state) = true.
Proof. vm_compute. reflexivity. Qed.


(** The refs of the child components are found in the composed tree
    where they are found in the components' own trees, and the group of
    the scene is found. *)
Lemma singularityScene_mounts state :
  Three.mount "meshRef" (singularityScene state)
  = Three.mount "meshRef" HeroObject.render ∧
  Three.mount "materialRef" (singularityScene state)
  = Three.mount "materialRef" HeroObject.render ∧
  DebrisField.attach (singularityScene state)
  = DebrisField.attach
      (DebrisField.render (Singularity.dominantTimeline (mousePosition state))) ∧
  is_Some (Three.mount "groupRef" (singularityScene state)).
Proof. repeat split; by eexists. Qed.

(** ** Frames *)

Lemma mount_ok tape state : mounted_ok tape (mount tape state).
Proof.
  unfold mount. destruct (App.renderTimeline _); simpl; [| done..].
  split; [done |]. destruct (singularityScene_mounts state) as (_ & _ & -> & _).
  apply DebrisField.debris_attach_attached.
Qed.

Lemma mount_scene tape state :
  scene_of (mount tape state) = App.renderTimeline (currentTimeline state).
Proof. unfold mount. by destruct (App.renderTimeline _). Qed.

#[local] Instance same_but_influence_refl : Reflexive same_but_influence.
Proof. by intros state. Qed.

#[local] Instance same_but_influence_trans : Transitive same_but_influence.
Proof.
  intros s1 s2 s3 (? & ? & ? & ?) (? & ? & ? & ?).
  repeat split; congruence.
Qed.

(** The props of the hero object are a function of the pointer. *)
Lemma influence_pointer state state' :
  same_but_influence state state' →
  Singularity.timelineInfluence (Singularity.render state')
  = Singularity.timelineInfluence (Singularity.render state).
Proof. intros (_ & Hm & _). unfold Singularity.render. simpl. by rewrite Hm. Qed.

(** What a frame does to the scene that is mounted. *)
Lemma useFrame_singularity tape time delta state scene hero debris :
  DebrisField.attached debris →
  ∃ scene' debris' state',
    useFrame time delta state
      (InSingularity scene hero (DebrisField.debrisData tape) debris)
    = Some (InSingularity scene'
              (HeroObject.useFrame
                 (Singularity.timelineInfluence (Singularity.render state))
                 delta hero)
              (DebrisField.debrisData tape) debris', state') ∧
    DebrisField.attached debris' ∧ same_but_influence state state'.
Proof.
  intros Hd. unfold useFrame.
  destruct (DebrisField.useFrame _ time delta debris) as [debris'|] eqn:E;
    [| by rewrite (DebrisField.useFrame_attached tape) in E].
  eexists _, debris', _. split; [reflexivity |].
  split; [by eapply DebrisField.frame_attached | done].
Qed.

Lemma useFrame_ok tape time delta state m :
  mounted_ok tape m →
  ∃ m' state', useFrame time delta state m = Some (m', state') ∧
    mounted_ok tape m' ∧ scene_of m' = scene_of m ∧
    same_but_influence state state' ∧
    (scene_of m ≠ App.Singularity → state' = state).
Proof.
  destruct m as [scene hero data debris | refs | refs | refs];
    [| intros _; by eexists _, state..].
  intros [-> Hd].
  destruct (useFrame_singularity tape time delta state scene hero debris Hd)
    as (scene' & debris' & state' & -> & ? & ?).
  by eexists _, state'.
Qed.

Lemma frames_app fs gs state m :
  frames (fs ++ gs) state m
  = '(m', state') ← frames fs state m; frames gs state' m'.
Proof.
  revert state m. induction fs as [|[time delta] fs IH]; intros state m;
    [done |].
  simpl. destruct (useFrame time delta state m) as [[m1 s1]|]; [| done].
  apply IH.
Qed.

Lemma steady_S clock delta n :
  steady clock delta (S n) = steady clock delta n ++ [(clock n, delta)].
Proof. unfold steady. by rewrite seq_S, fmap_app. Qed.

Lemma frames_ok tape fs state m :
  mounted_ok tape m →
  ∃ m' state', frames fs state m = Some (m', state') ∧
    mounted_ok tape m' ∧ scene_of m' = scene_of m ∧
    same_but_influence state state' ∧
    (scene_of m ≠ App.Singularity → state' = state).
Proof.
  revert state m. induction fs as [|[time delta] fs IH]; intros state m Hm.
  { by exists m, state. }
  destruct (useFrame_ok tape time delta state m Hm)
    as (m1 & s1 & E & Hm1 & Hs1 & Hi1 & Hn1).
  destruct (IH s1 m1 Hm1) as (m2 & s2 & E2 & Hm2 & Hs2 & Hi2 & Hn2).
  exists m2, s2. simpl. rewrite E. simpl.
  split; [done |]. split; [done |]. split; [congruence |].
  split; [by etrans |].
  intros Hn. rewrite Hn2, Hn1; congruence.
Qed.

(** C15: No frame throws, and the frames leave the store alone.  From
    the refs of the selected scene every run of frames returns; the refs
    it leaves are those of the same scene; the timeline, the pointer, the
    transition flag and the sound flag are as before; and in a timeline
    scene the whole store is as before: only the singularity scene
    writes, and only [cursorInfluence]. *)
Theorem frames_never_throw tape fs state :
  ∃ m' state', frames fs state (mount tape state) = Some (m', state') ∧
    scene_of m' = App.renderTimeline (currentTimeline state) ∧
    same_but_influence state state' ∧
    (currentTimeline state ≠ singularity → state' = state).
Proof.
  destruct (frames_ok tape fs state _ (mount_ok tape state))
    as (m' & state' & E & _ & Hs & Hi & Hn).
  exists m', state'. rewrite mount_scene in Hs, Hn.
  split; [done |]. split; [done |]. split; [done |].
  intros Ht. apply Hn. by destruct (currentTimeline state).
Qed.

(** The hero object of the singularity scene sees the frames of the
    scene with the props of the pointer, as long as the pointer rests. *)
Lemma frames_hero tape clock delta n state scene hero debris :
  DebrisField.attached debris →
  ∃ scene' debris' state',
    frames (steady clock delta n) state
      (InSingularity scene hero (DebrisField.debrisData tape) debris)
    = Some (InSingularity scene'
              (HeroObject.frames
                 (Singularity.timelineInfluence (Singularity.render state))
                 delta n hero)
              (DebrisField.debrisData tape) debris', state') ∧
    DebrisField.attached debris' ∧ same_but_influence state state'.
Proof.
  intros Hd. induction n as [|n (scene1 & debris1 & s1 & E1 & Hd1 & Hi1)].
  { by exists scene, debris, state. }
  rewrite steady_S, frames_app, E1. cbn [mbind option_bind frames].
  destruct (useFrame_singularity tape (clock n) delta s1 scene1
              (HeroObject.frames
                 (Singularity.timelineInfluence (Singularity.render state))
                 delta n hero) debris1 Hd1)
    as (scene2 & debris2 & s2 & -> & Hd2 & Hi2).
  exists scene2, debris2, s2. rewrite (influence_pointer state s1 Hi1).
  split; [done |]. split; [done | by etrans].
Qed.

End Component.

(** ** In exact arithmetic *)

Section Exact.
Local Open Scope R_scope.

(** In the singularity scene with the pointer at rest, every eased
    uniform is after [n] frames [1 - (9/10)^n] times the prop the pointer
    gives it. *)
Lemma hero_uniforms tape clock delta n (state : MultiverseState R) :
  currentTimeline state = singularity →
  ∃ scene hero data debris state' u,
    frames (steady clock delta n) state (mount tape state)
    = Some (InSingularity scene hero data debris, state') ∧
    HeroObject.materialRef hero = Some u ∧
    ∀ c, HeroObject.uniform c u
         = (1 - (9 / 10) ^ n)
           * HeroObject.target c
               (Singularity.timelineInfluence (Singularity.render state)).
Proof.
  intros Ht. unfold mount. rewrite Ht. cbn [App.renderTimeline].
  destruct (singularityScene_mounts state) as (_ & _ & -> & _).
  edestruct (frames_hero tape clock delta n state)
    as (scene & debris & state' & -> & _ & _);
    [apply DebrisField.debris_attach_attached |].
  edestruct (HeroObject.frames_eased
               (Singularity.timelineInfluence (Singularity.render state))
               delta n (HeroObject.attach HeroObject.initialRefs))
    as (u & Hu & Hc); [reflexivity |].
  eexists _, _, _, _, _, u. split; [reflexivity |]. split; [exact Hu |].
  intros c. rewrite Hc.
  assert (HeroObject.uniform c HeroObject.uniforms = 0) as -> by (by destruct c).
  ring.
Qed.

(** C21: With the pointer at rest in the window the hero object follows
    it.  After [n] frames of the singularity scene, whatever their
    length, the three influences the shader reads are [1 - (9/10)^n]
    times the influences of the pointer, [max(0, -x)], [max(0, y)] and
    [max(0, x)]: they start at 0, grow with every frame and stay below
    1. *)
Theorem hero_follows_pointer tape clock delta n (state : MultiverseState R) :
  currentTimeline state = singularity →
  -1 <= x (mousePosition state) <= 1 → -1 <= y (mousePosition state) <= 1 →
  ∃ scene hero data debris state' u,
    frames (steady clock delta n) state (mount tape state)
    = Some (InSingularity scene hero data debris, state') ∧
    HeroObject.materialRef hero = Some u ∧
    HeroObject.uDataInfluence u
    = (1 - (9 / 10) ^ n) * Rmax 0 (- x (mousePosition state)) ∧
    HeroObject.uComicInfluence u
    = (1 - (9 / 10) ^ n) * Rmax 0 (y (mousePosition state)) ∧
    HeroObject.uWeb3Influence u
    = (1 - (9 / 10) ^ n) * Rmax 0 (x (mousePosition state)) ∧
    ∀ c, 0 <= HeroObject.uniform c u < 1.
Proof.
  intros Ht Hx Hy.
  destruct (hero_uniforms tape clock delta n state Ht)
    as (scene & hero & data & debris & state' & u & E & Hu & Hc).
  exists scene, hero, data, debris, state', u.
  split; [done |]. split; [done |].
  pose proof (Hc HeroObject.Data) as Hd. pose proof (Hc HeroObject.Comic) as Hm.
  pose proof (Hc HeroObject.Web3) as Hw. pose proof (HeroObject.pow_9_10 n).
  cbn in Hd, Hm, Hw. rewrite !Math_max_real in Hd, Hm, Hw.
  split; [done |]. split; [done |]. split; [done |].
  intros c. rewrite Hc.
  pose proof (HeroObject.render_influence_range state c Hx Hy). nra.
Qed.

End Exact.

(** ** Instances of the theorems *)

Section Runs.
Local Open Scope R_scope.

(** The pointer at the middle of the left edge. *)
Definition edge : MultiverseState R := setMousePosition (-1) 0 initial.

Definition sixtieths (j : nat) : R := INR j / 60.

Lemma hero_follows_pointer_witness :
  ∃ scene hero data debris state' u,
    frames (steady sixtieths (1 / 60) 4) edge (mount (λ _, 0) edge)
    = Some (InSingularity scene hero data debris, state') ∧
    HeroObject.materialRef hero = Some u ∧
    HeroObject.uDataInfluence u
    = (1 - (9 / 10) ^ 4) * Rmax 0 (- x (mousePosition edge)) ∧
    HeroObject.uComicInfluence u
    = (1 - (9 / 10) ^ 4) * Rmax 0 (y (mousePosition edge)) ∧
    HeroObject.uWeb3Influence u
    = (1 - (9 / 10) ^ 4) * Rmax 0 (x (mousePosition edge)) ∧
    ∀ c, 0 <= HeroObject.uniform c u < 1.
Proof.
  apply (hero_follows_pointer (λ _, 0) sixtieths (1 / 60) 4 edge);
    [reflexivity | simpl; lra..].
Defined.

End Runs.

End Canvas.
