(* ===== verification/Shader.v ===== *)
(** * Shader: the two programs of the hero material [heroShader.ts]

    [Module HeroShader] models the vertex and the fragment program the
    hero object's material runs on the GPU.  A program is a function of
    its uniforms, its attributes or varyings, and what three.js provides
    ([normalMatrix], [cameraPosition]); each block of [main] that is
    guarded by one influence is a definition of its own, and [vertex] and
    [fragment] compose them in the order of the source.

    The built-in functions of GLSL the programs call are defined from
    [floor] and [sqrt], which the class [Glsl] adds to the numbers;
    [pow] is modelled for the two whole exponents the source uses.  The
    arithmetic is that of the number instance: the single precision of
    the GPU is not modelled, and the theorems are proved over the real
    numbers.  [gl_Position] is the camera's projection of the displaced
    position [vertex] returns; the projection is three.js's.

    Theorems: the pseudo-random function has its values in [[0, 1)]; the
    vertex program moves a vertex by at most 0.32, 0.17 and 0.27 along
    the axes, and not at all while no influence exceeds 0.3 and the
    glitch window is closed; the base colour is a convex combination of
    grey and the three timeline colours in which the later mixes weigh
    more; the RGB split mixes blue with the red it has just written; in
    the singularity scene a style of the shader is switched on only
    where the classifier names that timeline. *)

From Stdlib Require Import Reals Lra.
From S2P Require Import Prelude.
From S2P Require Import JsNumber.
From S2P Require Import JsMath.
From S2P Require Import MultiverseStore.
From S2P Require Import SingularityScene.
From S2P Require Import Hero.
From S2P Require Import Scenes.

Module HeroShader.

(** What GLSL has beyond the arithmetic of [JsNum] and [JsMath]. *)
Class Glsl (num : Type) : Type := {
  floor : num → num;
  sqrt : num → num;
}.

Record vec2 (num : Type) : Type := Vec2 { s : num; t : num }.
Arguments Vec2 {num}.
Arguments s {num}.
Arguments t {num}.

Record vec3 (num : Type) : Type := Vec3 { x : num; y : num; z : num }.
Arguments Vec3 {num}.
Arguments x {num}.
Arguments y {num}.
Arguments z {num}.

Record vec4 (num : Type) : Type := Vec4 { rgb : vec3 num; a : num }.
Arguments Vec4 {num}.
Arguments rgb {num}.
Arguments a {num}.

(** The [uniform] declarations of the two programs. *)
Record Uniforms (num : Type) : Type := mkUniforms {
  uTime : num;
  uGlitchIntensity : num;
  uDataInfluence : num;
  uComicInfluence : num;
  uWeb3Influence : num;
  uDataColor : vec3 num;
  uComicColor : vec3 num;
  uWeb3Color : vec3 num;
}.
Arguments mkUniforms {num}.
Arguments uTime {num}.
Arguments uGlitchIntensity {num}.
Arguments uDataInfluence {num}.
Arguments uComicInfluence {num}.
Arguments uWeb3Influence {num}.
Arguments uDataColor {num}.
Arguments uComicColor {num}.
Arguments uWeb3Color {num}.

(** The [varying] declarations. *)
Record Varyings (num : Type) : Type := mkVaryings {
  vNormal : vec3 num;
  vPosition : vec3 num;
  vUv : vec2 num;
}.
Arguments mkVaryings {num}.
Arguments vNormal {num}.
Arguments vPosition {num}.
Arguments vUv {num}.

Section Programs.
Context {num : Type} `{JsNum num} `{JsMath num} `{Glsl num}.
Local Open Scope js_scope.

(** ** Built-in functions *)

Definition fract (v : num) : num := v - floor v.

(** [mod(v, w)] *)
Definition modulo (v w : num) : num := v - w * floor (v / w).

Definition step (edge v : num) : num :=
  if v <? edge then js_of_Z 0 else js_of_Z 1.

Definition mix (v w k : num) : num := v * (js_of_Z 1 - k) + w * k.

Definition abs (v : num) : num := if v <? js_of_Z 0 then - v else v.

Definition max (v w : num) : num := if v <? w then w else v.

(** [pow(v, 3.0)] and [pow(v, 5.0)]: a whole exponent. *)
Definition pow (v : num) (n : nat) : num :=
  Nat.iter n (λ p, p * v) (js_of_Z 1).

Definition dot2 (v w : vec2 num) : num := s v * s w + t v * t w.

Definition dot (v w : vec3 num) : num := x v * x w + y v * y w + z v * z w.

(** A vector and a scalar, component by component. *)
Definition scale (v : vec3 num) (k : num) : vec3 num :=
  Vec3 (x v * k) (y v * k) (z v * k).

Definition add (v w : vec3 num) : vec3 num :=
  Vec3 (x v + x w) (y v + y w) (z v + z w).

Definition sub (v w : vec3 num) : vec3 num :=
  Vec3 (x v - x w) (y v - y w) (z v - z w).

Definition neg (v : vec3 num) : vec3 num := Vec3 (- x v) (- y v) (- z v).

Definition mix3 (v w : vec3 num) (k : num) : vec3 num :=
  Vec3 (mix (x v) (x w) k) (mix (y v) (y w) k) (mix (z v) (z w) k).

Definition normalize (v : vec3 num) : vec3 num :=
  scale v (js_of_Z 1 / sqrt (dot v v)).

Definition reflect (i n : vec3 num) : vec3 num :=
  sub i (scale n (js_of_Z 2 * dot n i)).

(** [float random(vec2 st)], the same in both programs. *)
Definition random (st : vec2 num) : num :=
  fract (Math_sin (dot2 st (Vec2 (dec 129898 4) (dec 78233 3)))
         * dec 437585453123 7).

(** [mod(uTime * 10.0, 1.0) > edge]: the glitch window is open. *)
Definition window (edge : num) (u : Uniforms num) : bool :=
  modulo (uTime u * js_of_Z 10) (js_of_Z 1) >? edge.

(** The guards of the three styles. *)
Definition dataOn (u : Uniforms num) : bool := uDataInfluence u >? dec 3 1.
Definition comicOn (u : Uniforms num) : bool := uComicInfluence u >? dec 3 1.
Definition web3On (u : Uniforms num) : bool := uWeb3Influence u >? dec 3 1.

(** ** The vertex program *)

Section Vertex.
Variables (u : Uniforms num) (position normal : vec3 num).

(** Glitch effect: random displacement. *)
Definition glitchShift (pos : vec3 num) : vec3 num :=
  let glitch :=
    random (Vec2 (uTime u * js_of_Z 10) (y position)) * uGlitchIntensity u in
  if window (dec 9 1) u then
    Vec3 (x pos + glitch * dec 3 1) (y pos) (z pos + glitch * dec 2 1)
  else pos.

(** Data influence. *)
Definition dataShift (pos : vec3 num) : vec3 num :=
  if dataOn u then
    add pos
      (scale
         (scale
            (scale normal
               (Math_sin (y position * js_of_Z 10 + uTime u * js_of_Z 2)))
            (dec 2 2))
         (uDataInfluence u))
  else pos.

(** Comic influence. *)
Definition comicShift (pos : vec3 num) : vec3 num :=
  if comicOn u then
    add pos
      (scale
         (scale
            (scale normal
               (step (dec 5 1) (fract (uTime u + y position * js_of_Z 5))))
            (dec 5 2))
         (uComicInfluence u))
  else pos.

(** Web3 influence. *)
Definition web3Shift (pos : vec3 num) : vec3 num :=
  if web3On u then
    let wave :=
      Math_sin (y position * js_of_Z 3 + uTime u * js_of_Z 2)
      * Math_cos (x position * js_of_Z 3 + uTime u * dec 15 1) in
    add pos (scale (scale (scale normal wave) (dec 1 1)) (uWeb3Influence u))
  else pos.

(** [vec3 pos = position] and the four blocks that move it. *)
Definition displace : vec3 num :=
  let pos := position in
  let pos := glitchShift pos in
  let pos := dataShift pos in
  let pos := comicShift pos in
  web3Shift pos.

(** [void main()] of the vertex program: the varyings and [gl_Position].
    [normalMatrix] and [camera], the product of [projectionMatrix] and
    [modelViewMatrix], are three.js's. *)
Definition vertex (normalMatrix : vec3 num → vec3 num)
    (camera : vec4 num → vec4 num) (uv : vec2 num)
    : Varyings num * vec4 num :=
  let vNormal := normalize (normalMatrix normal) in
  let vPosition := position in
  let vUv := uv in
  let pos := displace in
  (mkVaryings vNormal vPosition vUv, camera (Vec4 pos (js_of_Z 1))).

End Vertex.

(** ** The fragment program *)

Section Fragment.
Variables (u : Uniforms num) (v : Varyings num).

(** Base color mixing. *)
Definition baseColor : vec3 num :=
  let baseColor := Vec3 (dec 5 1) (dec 5 1) (dec 5 1) in
  let baseColor := mix3 baseColor (uDataColor u) (uDataInfluence u) in
  let baseColor := mix3 baseColor (uComicColor u) (uComicInfluence u) in
  mix3 baseColor (uWeb3Color u) (uWeb3Influence u).

(** Data style: wireframe edges. *)
Definition dataStyle (fresnel : num) (color : vec3 num) : vec3 num :=
  if dataOn u then
    let edge :=
      abs (Math_sin (x (vPosition v) * js_of_Z 20))
      * abs (Math_sin (y (vPosition v) * js_of_Z 20))
      * abs (Math_sin (z (vPosition v) * js_of_Z 20)) in
    let color := if edge <? dec 1 1 then uDataColor u else color in
    add color (scale (scale (uDataColor u) fresnel) (dec 5 1))
  else color.

(** Comic style: cel-shading, halftone dots, outline. *)
Definition comicStyle (fresnel diffuse : num) (color : vec3 num) : vec3 num :=
  if comicOn u then
    let quantize := floor (diffuse * js_of_Z 4) / js_of_Z 4 in
    let color := scale color (quantize + dec 3 1) in
    let dots :=
      step (dec 5 1)
        (random (Vec2 (floor (s (vUv v) * js_of_Z 40))
                      (floor (t (vUv v) * js_of_Z 40)))) in
    let color := scale color (dec 8 1 + dots * dec 2 1 * uComicInfluence u) in
    if fresnel >? dec 7 1 then Vec3 (js_of_Z 0) (js_of_Z 0) (js_of_Z 0)
    else color
  else color.

(** Web3 style: metallic chrome.  [reflected] is computed and not used. *)
Definition web3Style (fresnel : num) (viewDirection normal color : vec3 num)
    : vec3 num :=
  if web3On u then
    let reflected := reflect (neg viewDirection) normal in
    let metallic := fresnel in
    let color :=
      mix3 color (scale (uWeb3Color u) (js_of_Z 2))
        (metallic * uWeb3Influence u) in
    add color
      (scale (scale (Vec3 (js_of_Z 1) (dec 84 2) (js_of_Z 0)) (pow fresnel 5))
         (uWeb3Influence u))
  else color.

(** RGB split glitch: the two assignments, in order. *)
Definition rgbSplit (color : vec3 num) : vec3 num :=
  let glitchAmount :=
    max (max (uDataInfluence u) (uComicInfluence u)) (uWeb3Influence u) in
  if window (dec 95 2) u && (glitchAmount >? dec 5 1) then
    let color := Vec3 (mix (x color) (y color) (dec 5 1)) (y color) (z color) in
    Vec3 (x color) (y color) (mix (z color) (x color) (dec 5 1))
  else color.

(** The colour before the split. *)
Definition shade (cameraPosition : vec3 num) : vec3 num :=
  let normal := normalize (vNormal v) in
  let viewDirection := normalize (sub cameraPosition (vPosition v)) in
  let fresnel := pow (js_of_Z 1 - dot viewDirection normal) 3 in
  let diffuse :=
    max (dot normal (Vec3 (js_of_Z 0) (js_of_Z 1) (js_of_Z 0))) (js_of_Z 0) in
  let color := baseColor in
  let color := dataStyle fresnel color in
  let color := comicStyle fresnel diffuse color in
  web3Style fresnel viewDirection normal color.

(** [void main()] of the fragment program: [gl_FragColor]. *)
Definition fragment (cameraPosition : vec3 num) : vec4 num :=
  Vec4 (rgbSplit (shade cameraPosition)) (js_of_Z 1).

End Fragment.

(** The uniforms the material holds, with its colours as vectors. *)
Definition bind (m : HeroObject.Uniforms num) (data comic web3 : vec3 num)
    : Uniforms num :=
  mkUniforms (HeroObject.uTime m) (HeroObject.uGlitchIntensity m)
    (HeroObject.uDataInfluence m) (HeroObject.uComicInfluence m)
    (HeroObject.uWeb3Influence m) data comic web3.

End Programs.

(** ** In exact arithmetic *)

#[global] Instance real_glsl : Glsl R := {|
  floor v := IZR (Int_part v);
  sqrt := R_sqrt.sqrt;
|}.

(** Comparisons of reals as propositions, by cases. *)
Ltac real_cases :=
  cbn [js_lt js_le real_num] in *; repeat case_bool_decide.

Section Exact.
Local Open Scope R_scope.
Implicit Types (u : Uniforms R) (p q r : vec3 R).

Lemma fract_range (v : R) : 0 <= fract v < 1.
Proof.
  unfold fract. simpl. destruct (base_fp v) as [? ?].
  unfold frac_part in *. lra.
Qed.

Lemma modulo_1 (v : R) : modulo v 1 = fract v.
Proof. unfold modulo, fract. simpl. rewrite Rdiv_1_r. lra. Qed.

Lemma random_range (st : vec2 R) : 0 <= random st < 1.
Proof. apply fract_range. Qed.

Lemma step_range (edge v : R) : 0 <= step edge v <= 1.
Proof. unfold step. real_cases; simpl; lra. Qed.

Lemma mix_between (v w k : R) :
  0 <= k <= 1 → Rmin v w <= mix v w k <= Rmax v w.
Proof.
  intros Hk. unfold mix, Rmin, Rmax. simpl.
  destruct (Rle_dec v w); nra.
Qed.

(** The glitch window is open for the last tenth (or twentieth) of every
    tenth of a second. *)
Lemma window_fract edge u :
  window edge u = true ↔ edge < fract (uTime u * 10).
Proof.
  unfold window. change (js_of_Z 1) with 1. rewrite modulo_1.
  apply real_lt.
Qed.

(** [q] is within [dx], [dy] and [dz] of [p] along the axes. *)
Definition within (dx dy dz : R) p q : Prop :=
  Rabs (x q - x p) <= dx ∧ Rabs (y q - y p) <= dy ∧ Rabs (z q - z p) <= dz.

Lemma within_trans dx dy dz dx' dy' dz' p q r :
  within dx dy dz p q → within dx' dy' dz' q r →
  within (dx + dx') (dy + dy') (dz + dz') p r.
Proof.
  unfold within. intros (? & ? & ?) (? & ? & ?).
  replace (x r - x p) with ((x r - x q) + (x q - x p)) by lra.
  replace (y r - y p) with ((y r - y q) + (y q - y p)) by lra.
  replace (z r - z p) with ((z r - z q) + (z q - z p)) by lra.
  repeat split; (eapply Rle_trans; [apply Rabs_triang | lra]).
Qed.

Lemma same_within dx dy dz p :
  0 <= dx → 0 <= dy → 0 <= dz → within dx dy dz p p.
Proof. unfold within. rewrite !Rminus_diag, Rabs_R0. lra. Qed.

Lemma add_within dx dy dz p q :
  Rabs (x q) <= dx → Rabs (y q) <= dy → Rabs (z q) <= dz →
  within dx dy dz p (add p q).
Proof.
  unfold within, add. cbn [x y z js_add real_num]. intros.
  replace (x p + x q - x p) with (x q) by lra.
  replace (y p + y q - y p) with (y q) by lra.
  replace (z p + z q - z p) with (z q) by lra. done.
Qed.

(** A component of a normal, a factor in [[-1, 1]], an amplitude and an
    influence in [[0, 1]]: the product is within the amplitude. *)
Lemma scaled_bound (n f k w : R) :
  -1 <= n <= 1 → -1 <= f <= 1 → 0 <= k → 0 <= w <= 1 →
  Rabs (n * f * k * w) <= k.
Proof.
  intros Hn Hf Hk Hw.
  assert (-1 <= n * f <= 1) by nra.
  assert (- k <= n * f * k <= k) by nra.
  apply Rabs_le. nra.
Qed.

(** The uniforms the frame callback writes are in range. *)
Definition in_range u : Prop :=
  0 <= uGlitchIntensity u <= 1 / 2 ∧ 0 <= uDataInfluence u <= 1 ∧
  0 <= uComicInfluence u <= 1 ∧ 0 <= uWeb3Influence u <= 1.

(** A normal has its components in [[-1, 1]]. *)
Definition unit_box p : Prop :=
  -1 <= x p <= 1 ∧ -1 <= y p <= 1 ∧ -1 <= z p <= 1.

Section Shifts.
Variables (u : Uniforms R) (position normal : vec3 R).
Hypothesis u_range : in_range u.
Hypothesis normal_box : unit_box normal.

Lemma glitchShift_within p :
  within (3 / 20) 0 (1 / 10) p (glitchShift u position p).
Proof.
  destruct u_range as ((? & ?) & _).
  pose proof (random_range (Vec2 (uTime u * js_of_Z 10) (y position))).
  unfold glitchShift. destruct (window _ u); [| apply same_within; lra].
  set (glitch := random _) in *.
  unfold within. cbn [x y z]. js_real.
  repeat split; apply Rabs_le; nra.
Qed.

Lemma dataShift_within p :
  within (1 / 50) (1 / 50) (1 / 50) p (dataShift u position normal p).
Proof.
  destruct u_range as (_ & ? & _), normal_box as (? & ? & ?).
  unfold dataShift. destruct (dataOn u); [| apply same_within; lra].
  apply add_within; cbn [x y z scale]; js_real; trig_bounds;
    (eapply Rle_trans; [apply scaled_bound | lra]); lra.
Qed.

Lemma comicShift_within p :
  within (1 / 20) (1 / 20) (1 / 20) p (comicShift u position normal p).
Proof.
  destruct u_range as (_ & _ & ? & _), normal_box as (? & ? & ?).
  unfold comicShift. destruct (comicOn u); [| apply same_within; lra].
  pose proof (step_range (dec 5 1) (fract (uTime u + y position * js_of_Z 5))).
  set (k := step _ _) in *.
  apply add_within; cbn [x y z scale]; js_real;
    (eapply Rle_trans; [apply scaled_bound | lra]); lra.
Qed.

Lemma web3Shift_within p :
  within (1 / 10) (1 / 10) (1 / 10) p (web3Shift u position normal p).
Proof.
  destruct u_range as (_ & _ & _ & ?), normal_box as (? & ? & ?).
  unfold web3Shift. destruct (web3On u); [| apply same_within; lra].
  apply add_within; cbn [x y z scale]; js_real; trig_bounds;
    (eapply Rle_trans; [apply scaled_bound | lra]); nra.
Qed.

(** C35: The vertex program moves a vertex by at most 0.32 along [x], 0.17
    along [y] and 0.27 along [z], for uniforms in the range the frame
    callback keeps them in and a normal with components in [[-1, 1]]:
    the glitch adds at most 0.15 and 0.1, the three styles at most 0.02,
    0.05 and 0.1 each. *)
Theorem vertex_displacement :
  within (8 / 25) (17 / 100) (27 / 100) position (displace u position normal).
Proof.
  unfold displace.
  pose proof (within_trans _ _ _ _ _ _ _ _ _
    (within_trans _ _ _ _ _ _ _ _ _
       (within_trans _ _ _ _ _ _ _ _ _
          (glitchShift_within position) (dataShift_within _))
       (comicShift_within _)) (web3Shift_within _)) as (? & ? & ?).
  unfold within. lra.
Qed.

End Shifts.

(** The guards, as inequalities. *)
Lemma dataOn_real u : dataOn u = true ↔ 3 / 10 < uDataInfluence u.
Proof. unfold dataOn. rewrite real_lt. js_real. lra. Qed.

Lemma comicOn_real u : comicOn u = true ↔ 3 / 10 < uComicInfluence u.
Proof. unfold comicOn. rewrite real_lt. js_real. lra. Qed.

Lemma web3On_real u : web3On u = true ↔ 3 / 10 < uWeb3Influence u.
Proof. unfold web3On. rewrite real_lt. js_real. lra. Qed.

Lemma max_real (v w : R) : max v w = Rmax v w.
Proof.
  unfold max, Rmax. real_cases; destruct (Rle_dec v w); lra.
Qed.

(** While the glitch window is closed and no style is on, the vertex
    program leaves the vertex where it is: [gl_Position] is the camera's
    image of the position. *)
Theorem vertex_at_rest u position normal normalMatrix camera uv :
  fract (uTime u * 10) <= 9 / 10 → uDataInfluence u <= 3 / 10 →
  uComicInfluence u <= 3 / 10 → uWeb3Influence u <= 3 / 10 →
  (vertex u position normal normalMatrix camera uv).2
  = camera (Vec4 position 1).
Proof.
  intros Hw Hd Hc H3. unfold vertex, displace, glitchShift, dataShift,
    comicShift, web3Shift. cbn [snd].
  destruct (window _ u) eqn:E; [apply window_fract in E; js_real; lra |].
  destruct (dataOn u) eqn:Ed; [apply dataOn_real in Ed; lra |].
  destruct (comicOn u) eqn:Ec; [apply comicOn_real in Ec; lra |].
  destruct (web3On u) eqn:E3; [apply web3On_real in E3; lra | done].
Qed.

(** ** The colours *)

(** A colour with its channels in [[0, 1]]. *)
Definition unit_colour p : Prop :=
  0 <= x p <= 1 ∧ 0 <= y p <= 1 ∧ 0 <= z p <= 1.

Lemma mix3_unit p q (k : R) :
  unit_colour p → unit_colour q → 0 <= k <= 1 → unit_colour (mix3 p q k).
Proof.
  unfold unit_colour, mix3, mix. cbn [x y z]. js_real.
  intros (? & ? & ?) (? & ? & ?) ?. repeat split; nra.
Qed.

(** The base colour is a colour: for influences in [[0, 1]] and timeline
    colours with channels in [[0, 1]] its channels are in [[0, 1]]. *)
Theorem baseColor_range u :
  in_range u → unit_colour (uDataColor u) → unit_colour (uComicColor u) →
  unit_colour (uWeb3Color u) → unit_colour (baseColor u).
Proof.
  intros (_ & ? & ? & ?) ? ? ?. unfold baseColor.
  repeat apply mix3_unit; try done.
  unfold unit_colour. cbn [x y z]. js_real. lra.
Qed.

(** The base colour weighs the timelines in the order of the mixes:
    grey by [(1-d)(1-c)(1-w)], the data colour by [d(1-c)(1-w)], the
    comic colour by [c(1-w)] and the web3 colour by [w], for the
    influences [d], [c] and [w].  A full web3 influence leaves nothing of
    the others, whatever they are. *)
Theorem baseColor_weights u :
  let d := uDataInfluence u in
  let c := uComicInfluence u in
  let w := uWeb3Influence u in
  let channel (f : vec3 R → R) :=
    1 / 2 * ((1 - d) * (1 - c) * (1 - w))
    + f (uDataColor u) * (d * (1 - c) * (1 - w))
    + f (uComicColor u) * (c * (1 - w)) + f (uWeb3Color u) * w in
  baseColor u = Vec3 (channel x) (channel y) (channel z) ∧
  (w = 1 → baseColor u = uWeb3Color u).
Proof.
  unfold baseColor, mix3, mix. cbn [x y z]. js_real. split.
  - f_equal; lra.
  - intros ->. destruct (uWeb3Color u). cbn [x y z]. f_equal; lra.
Qed.

(** C37: The RGB split, when it happens, writes red first and mixes blue
    with the red it has written: red becomes [(r + g) / 2] and blue
    [b / 2 + (r + g) / 4].  It happens in the last twentieth of every
    tenth of a second while an influence exceeds 0.5, and not otherwise. *)
Theorem rgbSplit_spec u color :
  let open :=
    19 / 20 < fract (uTime u * 10) ∧
    (1 / 2 < uDataInfluence u ∨ 1 / 2 < uComicInfluence u ∨
     1 / 2 < uWeb3Influence u) in
  (open →
   rgbSplit u color
   = Vec3 ((x color + y color) / 2) (y color)
          (z color / 2 + (x color + y color) / 4)) ∧
  (¬ open → rgbSplit u color = color).
Proof.
  unfold rgbSplit. rewrite !max_real.
  destruct (window _ u) eqn:Ew; [apply window_fract in Ew |
    apply not_true_iff_false in Ew; rewrite window_fract in Ew];
    revert Ew; js_real; unfold mix, Rmax; cbn [x y z andb];
    real_cases; js_real; repeat destruct (Rle_dec _ _); intros Ew;
    (split; [intros [? ?] | intros Hn]);
    first [f_equal; lra | done | lra | exfalso; apply Hn; lra | idtac].
Qed.

(** ** The shader in the singularity scene *)

(** C22: A style of the shader is on only where the classifier names its
    timeline.  After any number of frames of the singularity scene with
    the pointer at rest, the data style is on only if the dominant
    timeline is [data], the web3 style only if it is [web3], and the
    comic style only if the pointer is above the threshold; where the
    classifier says [singularity] no style is on. *)
Theorem style_follows_classifier tape clock delta n
    (state : Store.MultiverseState R) data comic web3 :
  Store.currentTimeline state = Store.singularity →
  ∃ scene hero debrisData debris state' m,
    Canvas.frames (Canvas.steady clock delta n) state (Canvas.mount tape state)
    = Some (Canvas.InSingularity scene hero debrisData debris, state') ∧
    HeroObject.materialRef hero = Some m ∧
    let u := bind m data comic web3 in
    let dominant := Singularity.dominantTimeline (Store.mousePosition state) in
    (dataOn u = true → dominant = Store.data) ∧
    (web3On u = true → dominant = Store.web3) ∧
    (comicOn u = true → 3 / 10 < Store.y (Store.mousePosition state)) ∧
    (dominant = Store.singularity →
     dataOn u = false ∧ comicOn u = false ∧ web3On u = false).
Proof.
  intros Ht.
  destruct (Canvas.hero_uniforms tape clock delta n state Ht)
    as (scene & hero & dd & debris & state' & m & E & Hm & Hc).
  exists scene, hero, dd, debris, state', m.
  split; [done |]. split; [done |]. cbn zeta.
  pose proof (Hc HeroObject.Data) as Hd. pose proof (Hc HeroObject.Comic) as Hk.
  pose proof (Hc HeroObject.Web3) as Hw. pose proof (HeroObject.pow_9_10 n).
  cbn in Hd, Hk, Hw. rewrite !Math_max_real in Hd, Hk, Hw.
  rewrite <- !not_true_iff_false, dataOn_real, comicOn_real, web3On_real.
  cbn [bind uDataInfluence uComicInfluence uWeb3Influence].
  rewrite Hd, Hk, Hw. unfold Singularity.dominantTimeline, Singularity.threshold.
  revert Hd Hk Hw. unfold Rmax. js_real. real_cases; js_real;
    repeat destruct (Rle_dec _ _); intros; repeat split; intros;
    try done; try nra.
Qed.

End Exact.

(** ** Instances of the theorems *)

Section Runs.
Local Open Scope R_scope.

Definition green : vec3 R := Vec3 0 1 (13 / 51).
Definition orange : vec3 R := Vec3 1 (107 / 255) (53 / 255).
Definition violet : vec3 R := Vec3 (199 / 255) (125 / 255) 1.

(** Half under the data influence, a quarter of a second in. *)
Definition leaning : Uniforms R :=
  mkUniforms (1 / 4) (3 / 10) (1 / 2) 0 0 green orange violet.

Definition up : vec3 R := Vec3 0 1 0.

Lemma leaning_in_range : in_range leaning.
Proof. unfold in_range. simpl. lra. Qed.

Lemma vertex_displacement_witness :
  within (8 / 25) (17 / 100) (27 / 100) up (displace leaning up up).
Proof.
  apply (vertex_displacement leaning up up leaning_in_range).
  unfold unit_box. simpl. lra.
Defined.

Lemma baseColor_range_witness : unit_colour (baseColor leaning).
Proof.
  apply (baseColor_range leaning leaning_in_range);
    unfold unit_colour; simpl; lra.
Defined.

Lemma style_follows_classifier_witness :
  ∃ scene hero debrisData debris state' m,
    Canvas.frames (Canvas.steady Canvas.sixtieths (1 / 60) 4) Canvas.edge
      (Canvas.mount (λ _, 0) Canvas.edge)
    = Some (Canvas.InSingularity scene hero debrisData debris, state') ∧
    HeroObject.materialRef hero = Some m ∧
    let u := bind m green orange violet in
    let dominant :=
      Singularity.dominantTimeline (Store.mousePosition Canvas.edge) in
    (dataOn u = true → dominant = Store.data) ∧
    (web3On u = true → dominant = Store.web3) ∧
    (comicOn u = true → 3 / 10 < Store.y (Store.mousePosition Canvas.edge)) ∧
    (dominant = Store.singularity →
     dataOn u = false ∧ comicOn u = false ∧ web3On u = false).
Proof.
  apply (style_follows_classifier (λ _, 0) Canvas.sixtieths (1 / 60) 4
           Canvas.edge green orange violet).
  reflexivity.
Defined.

End Runs.

End HeroShader.
