(* ===== verification/Page.v ===== *)
(** * Page: the page with its canvas and its sound

    [Module Page] puts the canvas and the sound beside the system of
    [World].  A state holds the state of [World], the refs of the scene
    that is mounted on the canvas ([Canvas.Mounted]), the local state of
    [SoundController], the clock of the render loop and the number of
    values [Math.random] has returned.

    [exec] delivers an event: the handlers of [World] run; a frame also
    reaches the frame callbacks of the mounted scene, with the clock
    advanced by its length; the passing of time advances the audio
    clock; then React commits: the effect of the sound component runs if
    its dependencies changed, and the scene that is selected is mounted
    in place of another, drawing its random numbers from where the tape
    stands.

    Theorems: the states of the page project to states of [World]; in
    every state the page reaches the mounted scene is the selected one,
    the refs [World] keeps of the singularity scene are those on the
    canvas, the effect of the sound has run for the store the page
    shows, and while sound is enabled the refs of the sound component
    hold exactly the oscillators of the active timeline's soundscape,
    all running; neither the canvas nor the sound makes an event fail:
    the page takes every step [World] takes. *)

From Stdlib Require Import Reals Lra.
From S2P Require Import Prelude.
From S2P Require Import JsNumber.
From S2P Require Import JsMath.
From S2P Require Import MultiverseStore.
From S2P Require Import Watch.
From S2P Require Import AppShell.
From S2P Require Import SingularityScene.
From S2P Require Import Sound.
From S2P Require Import World.
From S2P Require Import Hero.
From S2P Require Import Debris.
From S2P Require Import ComicScene.
From S2P Require Import DataScene.
From S2P Require Import Scenes.

Module Page.
Import Store.

Record State (num : Type) : Type := mkPage {
  world : World.State num;
  canvas : Canvas.Mounted num;
  sound : SoundController.Local num;
  elapsedTime : num;
  draws : nat;
}.
Arguments mkPage {num}.
Arguments world {num}.
Arguments canvas {num}.
Arguments sound {num}.
Arguments elapsedTime {num}.
Arguments draws {num}.

Section System.
Context {num : Type} `{JsNum num} `{JsMath num}.
Context (fuel : nat) (tape : nat → num).
Implicit Types (p : State num) (e : World.Event num) (c : Canvas.Mounted num).
Local Open Scope js_scope.

Definition store p : MultiverseState num := World.store (world p).

(** The values a scene draws from [Math.random] when it mounts. *)
Definition drawn (scene : App.Scene) : nat :=
  match scene with
  | App.Singularity => 7 * DebrisField.debrisCount
  | App.TimelineData => 3 * TimelineData.particleCount
  | App.TimelineComic => 2 * 20 * length (TimelineComic.panels (num := num))
  | App.TimelineWeb3 => 0
  end.

(** The tape from its [k]-th value on. *)
Definition rest (k : nat) : nat → num := λ j, tape (k + j)%nat.

(** React commits the canvas: a scene other than the selected one is
    unmounted and the selected one mounted. *)
Definition settle (state : MultiverseState num) c (k : nat)
    : Canvas.Mounted num * nat :=
  let selected := App.renderTimeline (currentTimeline state) in
  if decide (Canvas.scene_of c = selected) then (c, k)
  else (Canvas.mount (rest k) state, (k + drawn selected)%nat).

(** An animation frame on the canvas: the clock advances by the length
    of the frame, and the callbacks see the clock. *)
Definition frame (delta : num) p : option (Canvas.Mounted num * num) :=
  let time := elapsedTime p + delta in
  (λ r, (r.1, time)) <$> Canvas.useFrame time delta (store p) (canvas p).

(** What an event does to the canvas and its clock. *)
Definition paint e p : option (Canvas.Mounted num * num) :=
  match e with
  | World.Frame delta => frame delta p
  | _ => Some (canvas p, elapsedTime p)
  end.

(** What an event does to the audio clock, in seconds. *)
Definition tune e (l : SoundController.Local num)
    : SoundController.Local num :=
  match e with
  | World.Wait d =>
      SoundController.advance (js_of_Z (Z.of_N d) / js_of_Z 1000) l
  | _ => l
  end.

(** An event, then the commit. *)
Definition exec e p : option (State num) :=
  w ← World.exec e (world p);
  '(c, time) ← paint e p;
  l ← SoundController.commit fuel (World.store w) (tune e (sound p));
  let (c, k) := settle (World.store w) c (draws p) in
  Some (mkPage w c l time k).

(** The page after its first commit: sound is disabled, so the effect
    of the sound component has returned at once. *)
Definition initial : State num :=
  mkPage World.initial (Canvas.mount tape Store.initial)
    (SoundController.mkLocal false None [] [] (Some (singularity, false)) false)
    (js_of_Z 0) (drawn App.Singularity).

Definition step p e p' : Prop := exec e p = Some p'.

(** The refs of the singularity scene on the canvas, if it is mounted. *)
Definition refs_of c : option (Singularity.Refs num) :=
  match c with
  | Canvas.InSingularity scene _ _ _ => Some scene
  | _ => None
  end.

(** The refs of the sound component hold the soundscape of [t]: its
    keys, each oscillator running. *)
Definition plays (t : Timeline) (l : SoundController.Local num) : Prop :=
  (SoundController.oscillatorsRef l).*1 = SoundController.keys t ∧
  (SoundController.gainNodesRef l).*1 = SoundController.keys t ∧
  ∀ n, n ∈ SoundController.tracked l →
       SoundController.running n (SoundController.audio l).

(** The invariant of the page. *)
Record Inv p : Prop := mkInv {
  inv_world : World.Inv (world p);
  inv_selected :
    Canvas.scene_of (canvas p) = App.renderTimeline (currentTimeline (store p));
  inv_refs : World.scene (world p) = refs_of (canvas p);
  inv_mounted : ∃ k, Canvas.mounted_ok (rest k) (canvas p);
  inv_sound : SoundController.wf (sound p);
  inv_deps :
    SoundController.deps (sound p)
    = Some (currentTimeline (store p), soundEnabled (store p));
  inv_plays :
    ∀ t, SoundController.deps (sound p) = Some (t, true) → plays t (sound p);
}.

(** ** The canvas *)

Lemma settle_selected state c k :
  Canvas.scene_of (settle state c k).1
  = App.renderTimeline (currentTimeline state).
Proof. unfold settle. case_decide; [done | apply Canvas.mount_scene]. Qed.

Lemma settle_kept state c k :
  Canvas.scene_of c = App.renderTimeline (currentTimeline state) →
  settle state c k = (c, k).
Proof. intros Hc. unfold settle. by rewrite decide_True. Qed.

Lemma settle_mounted state c k :
  (∃ k', Canvas.mounted_ok (rest k') c) →
  ∃ k', Canvas.mounted_ok (rest k') (settle state c k).1.
Proof.
  intros Hc. unfold settle. case_decide; [done |].
  exists k. apply Canvas.mount_ok.
Qed.

Lemma refs_of_other c : Canvas.scene_of c ≠ App.Singularity → refs_of c = None.
Proof. by destruct c. Qed.

(** A frame keeps the scene, and does to the refs of the singularity
    scene what its callback does. *)
Lemma useFrame_refs time delta state c c' state' :
  Canvas.useFrame time delta state c = Some (c', state') →
  Canvas.scene_of c' = Canvas.scene_of c ∧
  refs_of c'
  = (λ refs, (Singularity.useFrame delta refs state).1) <$> refs_of c.
Proof.
  destruct c as [scene hero data debris | | |]; simpl;
    [| by intros [= <- _]..].
  destruct (DebrisField.useFrame _ _ _ _); [| done]. simpl.
  by intros [= <- _].
Qed.

(** What an event leaves of the canvas before the commit. *)
Lemma paint_spec e p c time :
  (∃ k, Canvas.mounted_ok (rest k) (canvas p)) →
  paint e p = Some (c, time) →
  Canvas.scene_of c = Canvas.scene_of (canvas p) ∧
  refs_of c = World.pre e (store p) (refs_of (canvas p)) ∧
  ∃ k, Canvas.mounted_ok (rest k) c.
Proof.
  intros [k Hk]. destruct e; simpl; try (intros [= <- _]; by eauto).
  unfold frame.
  destruct (Canvas.useFrame_ok (rest k) (elapsedTime p + delta) delta
              (store p) (canvas p) Hk) as (c' & s' & E & Hc' & _).
  rewrite E. simpl. intros [= <- _].
  destruct (useFrame_refs _ _ _ _ _ _ E). eauto.
Qed.

Lemma paint_total e p :
  (∃ k, Canvas.mounted_ok (rest k) (canvas p)) → is_Some (paint e p).
Proof.
  intros [k Hk]. destruct e; simpl; try by eexists.
  unfold frame.
  destruct (Canvas.useFrame_ok (rest k) (elapsedTime p + delta) delta
              (store p) (canvas p) Hk) as (c' & s' & -> & _).
  by eexists.
Qed.

(** ** The sound *)

Lemma tune_wf e l : SoundController.wf l → SoundController.wf (tune e l).
Proof.
  destruct e; try done. intros [? ? ?].
  by destruct l as [? [ctx|] ? ? ? ?]; split.
Qed.

Lemma tune_deps e l :
  SoundController.deps (tune e l) = SoundController.deps l.
Proof. by destruct e. Qed.

Lemma tune_plays e l t : plays t (tune e l) ↔ plays t l.
Proof. destruct e; try done. by destruct l as [? [ctx|] ? ? ? ?]. Qed.

(** A commit keeps the refs on the soundscape the effect last ran for
    with sound enabled. *)
Lemma commit_plays state l l' :
  SoundController.wf l →
  (∀ t, SoundController.deps l = Some (t, true) → plays t l) →
  SoundController.commit fuel state l = Some l' →
  ∀ t, SoundController.deps l' = Some (t, true) → plays t l'.
Proof.
  intros Hwf Hp Hc t Ht.
  rewrite (SoundController.commit_deps _ _ _ _ Hc) in Ht.
  injection Ht as <- Hen.
  destruct (decide (SoundController.deps l
                    = Some (currentTimeline state, soundEnabled state)))
    as [Hd | Hd].
  - rewrite SoundController.commit_same in Hc by done. injection Hc as <-.
    apply Hp. by rewrite Hd, Hen.
  - rewrite Hen in Hd.
    by apply (SoundController.commit_enabled_keys fuel state l l').
Qed.

(** ** The invariant *)

Lemma page_initial_Inv : Inv initial.
Proof.
  split; simpl; try done.
  - apply World.initial_Inv.
  - exists 0. exact (Canvas.mount_ok tape Store.initial).
Qed.

(** The refs of the singularity scene after a step, on both sides. *)
Lemma exec_refs e p w c c' time k k' :
  Inv p → World.exec e (world p) = Some w → paint e p = Some (c, time) →
  settle (World.store w) c k = (c', k') →
  World.scene w = refs_of c'.
Proof.
  intros HI Hw Hc Hs.
  destruct (paint_spec e p c time (inv_mounted _ HI) Hc) as (Hsc & Hr & _).
  rewrite (World.exec_scene _ _ _ Hw). fold (store p).
  rewrite (inv_refs _ HI), <- Hr.
  pose proof (settle_selected (World.store w) c k) as Hsel.
  rewrite Hs in Hsel. simpl in Hsel.
  case_decide as Hw'; [| by rewrite refs_of_other by congruence].
  assert (currentTimeline (store p) = singularity) as Hp.
  { destruct (decide (currentTimeline (store p) = singularity)); [done |].
    exfalso. eapply (World.exec_committed e (world p) w); try done;
      [apply HI |]. by destruct (currentTimeline (World.store w)). }
  rewrite settle_kept in Hs; [by injection Hs as <- _ |].
  rewrite Hsc, (inv_selected _ HI), Hp. by rewrite Hw'.
Qed.

Lemma page_Inv_preserved : preserved step Inv.
Proof.
  intros p e p' HI Hstep. unfold step, exec in Hstep.
  destruct (World.exec e (world p)) as [w|] eqn:Hw; [| done].
  destruct (paint e p) as [[c time]|] eqn:Hc; [| done]. simpl in Hstep.
  destruct (SoundController.commit _ _ _) as [l|] eqn:Hl; [| done].
  simpl in Hstep. destruct (settle _ c _) as [c' k'] eqn:Hs.
  injection Hstep as <-.
  destruct (paint_spec e p c time (inv_mounted _ HI) Hc) as (_ & _ & Hm).
  pose proof (tune_wf e _ (inv_sound _ HI)) as Hwf.
  split; unfold store; simpl.
  - eapply World.Inv_preserved; [apply HI | by apply World.exec_step].
  - by rewrite <- (settle_selected (World.store w) c (draws p)), Hs.
  - by eapply exec_refs.
  - pose proof (settle_mounted (World.store w) c (draws p) Hm) as Hm'.
    by rewrite Hs in Hm'.
  - by eapply SoundController.commit_wf.
  - by eapply SoundController.commit_deps.
  - eapply commit_plays; [done | | done].
    intros t Ht. apply tune_plays, (inv_plays _ HI). by rewrite <- (tune_deps e).
Qed.

Lemma page_reachable_Inv p : reachable step initial p → Inv p.
Proof.
  apply preserved_reachable; [apply page_Inv_preserved | apply page_initial_Inv].
Qed.

(** ** The page and [World] *)

Lemma exec_world e p p' :
  exec e p = Some p' → World.exec e (world p) = Some (world p').
Proof.
  unfold exec. destruct (World.exec e (world p)) as [w|]; [| done].
  destruct (paint e p) as [[c time]|]; [| done]. simpl.
  destruct (SoundController.commit _ _ _); [| done]. simpl.
  destruct (settle _ c _). by intros [= <-].
Qed.

(** The states the page reaches project to states [World] reaches. *)
Theorem reachable_world p :
  reachable step initial p →
  reachable World.step World.initial (world p).
Proof.
  intros [es Hs]. exists es. remember initial as p0 eqn:E.
  assert (world p0 = World.initial) as <- by by subst.
  clear E. induction Hs as [|p1 e p2 es p3 Hstep _ IH]; [constructor |].
  eapply steps_cons; [| exact IH]. by apply World.exec_step, exec_world.
Qed.

(** C12: The invariant of the page.  In every state the page reaches,
    the scene mounted on the canvas is the one the store selects; the
    refs [World] keeps of the singularity scene are those on the canvas;
    the debris data of a mounted singularity scene are the memoised
    draws and its meshes are attached; the effect of the sound component
    has run for the timeline and the sound flag the store shows; and
    while sound is enabled the refs of the sound component hold exactly
    the keys of the active timeline's soundscape, each oscillator
    running. *)
Theorem page_invariant p :
  reachable step initial p →
  Canvas.scene_of (canvas p) = App.renderTimeline (currentTimeline (store p)) ∧
  World.scene (world p) = refs_of (canvas p) ∧
  (∃ k, Canvas.mounted_ok (rest k) (canvas p)) ∧
  SoundController.deps (sound p)
  = Some (currentTimeline (store p), soundEnabled (store p)) ∧
  (soundEnabled (store p) = true →
   plays (currentTimeline (store p)) (sound p)).
Proof.
  intros [? ? ? ? ? Hd Hp]%page_reachable_Inv. split_and!; try done.
  intros Hen. apply Hp. by rewrite Hd, Hen.
Qed.

(** C13: Neither the canvas nor the sound makes an event fail.  Given
    fuel for the pulse loops, the page takes every step [World] takes
    from a state it has reached: no frame callback throws and every
    effect returns. *)
Theorem page_follows_world e p w :
  SoundController.loops_finish fuel → reachable step initial p →
  World.exec e (world p) = Some w →
  ∃ p', exec e p = Some p' ∧ world p' = w.
Proof.
  intros Hfuel HI%page_reachable_Inv Hw. unfold exec. rewrite Hw. simpl.
  destruct (paint_total e p (inv_mounted _ HI)) as [[c time] ->]. simpl.
  destruct (SoundController.commit_total fuel (World.store w)
              (tune e (sound p)) Hfuel) as [l ->]. simpl.
  destruct (settle _ c _). by eexists.
Qed.

End System.

(** ** In exact arithmetic *)

Section Exact.
Local Open Scope R_scope.

Lemma iterates_unfold fuel (t limit step : R) :
  SoundController.iterates (S fuel) t limit step
  = if js_lt t limit
    then (t ::.) <$> SoundController.iterates fuel (t + step) limit step
    else Some [].
Proof. reflexivity. Qed.

(** A pulse loop over the reals ends within [(limit - t) / step]
    iterations. *)
Lemma iterates_real fuel (t limit step : R) :
  0 < step → limit - t <= INR fuel * step →
  is_Some (SoundController.iterates (S fuel) t limit step).
Proof.
  intros Hs. revert t. induction fuel as [|fuel IH]; intros t Ht;
    rewrite iterates_unfold; destruct (js_lt t limit) eqn:E;
    try by eexists.
  - apply real_lt in E. simpl in Ht. lra.
  - destruct (IH (t + step)) as [ts ->]; [| by eexists].
    rewrite S_INR in Ht. lra.
Qed.

(** 601 iterations are enough for every pulse loop of the soundscapes. *)
Lemma loops_finish_real : SoundController.loops_finish (num := R) 601.
Proof.
  unfold SoundController.loops_finish. cbn [fmap list_fmap app].
  repeat (apply Forall_cons; split;
    [apply iterates_real; rewrite ?INR_IZR_INZ;
     unfold SoundController.pulseInterval; js_real;
     repeat match goal with
     | |- context [Z.of_nat ?n] =>
         let v := eval vm_compute in (Z.of_nat n) in
         change (Z.of_nat n) with v
     end; lra |]).
  constructor.
Qed.

End Exact.

(** ** Instances of the theorems *)

Section Runs.
Local Open Scope R_scope.

Definition zeros : nat → R := λ _, 0.

(** The first page, and the world after a click on the sound button. *)
Definition first : State R := initial zeros.

Definition unmuted : World.State R :=
  World.settle (World.with_store toggleSound World.initial).

Lemma page_invariant_witness :
  Canvas.scene_of (canvas first)
  = App.renderTimeline (currentTimeline (store first)) ∧
  World.scene (world first) = refs_of (canvas first) ∧
  (∃ k, Canvas.mounted_ok (rest zeros k) (canvas first)) ∧
  SoundController.deps (sound first)
  = Some (currentTimeline (store first), soundEnabled (store first)) ∧
  (soundEnabled (store first) = true →
   plays (currentTimeline (store first)) (sound first)).
Proof. apply (page_invariant 601 zeros first), reachable_refl. Defined.

Lemma page_follows_world_witness :
  ∃ p', exec 601 zeros World.ClickSound first = Some p' ∧ world p' = unmuted.
Proof.
  apply (page_follows_world 601 zeros World.ClickSound first unmuted);
    [apply loops_finish_real | apply reachable_refl | reflexivity].
Defined.

End Runs.

End Page.
